(** * REFI-QDA import/export library: a shallow embedding and its properties

    The development follows the TypeScript sources of the library:

    - [refi-qda-interfaces.ts]   the canonical object model,
    - [export/validators.ts]     GUID, source and reference validation,
    - [export/source-processor.ts], [export/index.ts]  source packaging and
      [exportQDPX],
    - [export/xml-builder.ts], [import/xml-parser.ts]  the document converter,
    - [import/source-resolver.ts] address classification.

    JavaScript values are modelled as follows.  A field that may be
    [undefined] at run time is an [option]; strings are [string]; numbers are
    [number] (finite decimals, the infinities and NaN); an array is a [list];
    [Map<string, _>] and [Set<string>] are [gmap] and [gset].  A thrown
    exception is the [Throw] outcome of a [Result]. *)

From Stdlib Require Import ZArith Ascii String List Lia Bool.
From stdpp Require Import base strings list gmap pretty.

Set Warnings "-register-all".

Open Scope string_scope.
Open Scope Z_scope.
Open Scope list_scope.

(** ** JavaScript strings *)

Module JS.

(** [s.startsWith(p)] *)
Definition startsWith (s p : string) : bool := String.prefix p s.

(** [s.substring(n)]: the string without its first [n] characters.  A
    character of the embedding is a byte of the UTF-8 text and a character
    of the language is a UTF-16 unit: the two count alike on ASCII text, and
    whenever the characters removed are ASCII. *)
Fixpoint substring (s : string) (n : nat) : string :=
  match n, s with
  | O, _ => s
  | S _, EmptyString => EmptyString
  | S n', String _ s' => substring s' n'
  end.

(** Truthiness of a possibly undefined string: [undefined] and [""] are
    falsy. *)
Definition truthy (s : option string) : bool :=
  match s with
  | Some (String _ _) => true
  | _ => false
  end.

(** [a || b] on possibly undefined strings. *)
Definition or_else (a : option string) (b : string) : string :=
  match a with
  | Some (String c r) => String c r
  | _ => b
  end.

(** [s.replace(/c/g, r)] for a one-character pattern. *)
Fixpoint replaceAll (c : ascii) (r : string) (s : string) : string :=
  match s with
  | EmptyString => EmptyString
  | String a s' =>
      if Ascii.eqb a c then r +:+ replaceAll c r s'
      else String a (replaceAll c r s')
  end.

End JS.

(** ** JavaScript numbers

    [Finite m e] is the number [m * 10^e]; rounding to binary64 is not
    modelled, so the embedding is exact on the integers and decimals the
    document format carries. *)

Inductive number : Type :=
  | NaN
  | Infinity (negative : bool)
  | Finite (m : Z) (e : Z).

Definition Int (z : Z) : number := Finite z 0.

Module Number.

(** Truthiness: [NaN] and [0] are falsy. *)
Definition truthy (n : number) : bool :=
  match n with
  | NaN => false
  | Infinity _ => true
  | Finite m _ => negb (m =? 0)
  end.

(** [size <= n] for an integer [size]. *)
Definition int_le (size : Z) (n : number) : bool :=
  match n with
  | NaN => false
  | Infinity negative => negb negative
  | Finite m e =>
      if 0 <=? e then size <=? m * 10 ^ e
      else size * 10 ^ (- e) <=? m
  end.

End Number.

(** ** Source addressing ([import/source-resolver.ts]) *)

Inductive SourceKind : Type := internal | relative | absolute.

Definition SourceKind_label (k : SourceKind) : string :=
  match k with
  | internal => "internal"
  | relative => "relative"
  | absolute => "absolute"
  end.

(** [getSourceType]: determines the source type from a path string. *)
Definition getSourceType (pathString : string) : SourceKind :=
  if JS.startsWith pathString "internal://" then internal
  else if JS.startsWith pathString "relative://" then relative
  else if JS.startsWith pathString "absolute://" then absolute
  else relative.

(** ** The canonical object model ([refi-qda-interfaces.ts])

    Every interface becomes a record in a module of its own, with the
    field names of the source.  The one-field wrapper objects [UsersType],
    [CodeBookType]/[CodesType], [VariablesType], [CasesType], [NotesType],
    [LinksType], [SetsType] and [GraphsType] are flattened: [Users p] stands
    for [p.Users.User], [CodeBook p] for [p.CodeBook.Codes.Code], and so on.
    String-valued attributes are [option string] since the parser stores
    [undefined] for an attribute the document lacks. *)

Definition GUIDType := string.

(** [NoteRefType], [CodeRefType], [SourceRefType], [SelectionRefType] and
    [VariableRefType] are structurally the same interface. *)
Module Ref.
Record t : Type := mk { targetGUID : option GUIDType }.
End Ref.
Abbreviation NoteRefType := Ref.t.
Abbreviation CodeRefType := Ref.t.
Abbreviation SourceRefType := Ref.t.
Abbreviation SelectionRefType := Ref.t.
Abbreviation VariableRefType := Ref.t.

Module User.
Record t : Type := mk {
  guid : option GUIDType;
  name : option string;
  id : option string }.
End User.
Abbreviation UserType := User.t.

Module Code.
Inductive t : Type := mk {
  Description : option string;
  NoteRef : option (list NoteRefType);
  Code : option (list t);
  guid : option GUIDType;
  name : option string;
  isCodable : bool;
  color : option string }.
End Code.
Abbreviation CodeType := Code.t.

Module VariableValue.
Record t : Type := mk {
  VariableRef : VariableRefType;
  TextValue : option string;
  BooleanValue : option bool;
  IntegerValue : option number;
  FloatValue : option number;
  DateValue : option string;
  DateTimeValue : option string }.
End VariableValue.
Abbreviation VariableValueType := VariableValue.t.

Module Case.
Record t : Type := mk {
  Description : option string;
  CodeRef : option (list CodeRefType);
  VariableValue : option (list VariableValueType);
  SourceRef : option (list SourceRefType);
  SelectionRef : option (list SelectionRefType);
  guid : option GUIDType;
  name : option string }.
End Case.
Abbreviation CaseType := Case.t.

Module QVariable.
Record t : Type := mk {
  Description : option string;
  guid : option GUIDType;
  name : option string;
  typeOfVariable : option string }.
End QVariable.
Abbreviation VariableType := QVariable.t.

Module QSet.
Record t : Type := mk {
  Description : option string;
  MemberCode : option (list CodeRefType);
  MemberSource : option (list SourceRefType);
  MemberNote : option (list NoteRefType);
  guid : option GUIDType;
  name : option string }.
End QSet.
Abbreviation SetType := QSet.t.

Module Coding.
Record t : Type := mk {
  CodeRef : CodeRefType;
  NoteRef : option (list NoteRefType);
  guid : option GUIDType;
  creatingUser : option GUIDType;
  creationDateTime : option string }.
End Coding.
Abbreviation CodingType := Coding.t.

Module PlainTextSelection.
Record t : Type := mk {
  Description : option string;
  Coding : option (list CodingType);
  NoteRef : option (list NoteRefType);
  guid : option GUIDType;
  name : option string;
  startPosition : number;
  endPosition : number;
  creatingUser : option GUIDType;
  creationDateTime : option string;
  modifyingUser : option GUIDType;
  modifiedDateTime : option string }.
End PlainTextSelection.
Abbreviation PlainTextSelectionType := PlainTextSelection.t.

(** [path] and [currentPath] are not declared by [TextSourceType], but the
    export pipeline reads and writes them on text sources as on every other
    source kind; the document converter ignores them. *)
Module TextSource.
Record t : Type := mk {
  Description : option string;
  PlainTextContent : option string;
  PlainTextSelection : option (list PlainTextSelectionType);
  Coding : option (list CodingType);
  NoteRef : option (list NoteRefType);
  VariableValue : option (list VariableValueType);
  guid : option GUIDType;
  name : option string;
  richTextPath : option string;
  plainTextPath : option string;
  creatingUser : option GUIDType;
  creationDateTime : option string;
  modifyingUser : option GUIDType;
  modifiedDateTime : option string;
  path : option string;
  currentPath : option string }.
End TextSource.
Abbreviation TextSourceType := TextSource.t.

Module PictureSelection.
Record t : Type := mk {
  Description : option string;
  Coding : option (list CodingType);
  NoteRef : option (list NoteRefType);
  guid : option GUIDType;
  name : option string;
  firstX : number;
  firstY : number;
  secondX : number;
  secondY : number;
  creatingUser : option GUIDType;
  creationDateTime : option string;
  modifyingUser : option GUIDType;
  modifiedDateTime : option string }.
End PictureSelection.
Abbreviation PictureSelectionType := PictureSelection.t.

Module PictureSource.
Record t : Type := mk {
  Description : option string;
  TextDescription : option TextSourceType;
  PictureSelection : option (list PictureSelectionType);
  Coding : option (list CodingType);
  NoteRef : option (list NoteRefType);
  VariableValue : option (list VariableValueType);
  guid : option GUIDType;
  name : option string;
  path : option string;
  currentPath : option string;
  creatingUser : option GUIDType;
  creationDateTime : option string;
  modifyingUser : option GUIDType;
  modifiedDateTime : option string }.
End PictureSource.
Abbreviation PictureSourceType := PictureSource.t.

Module PDFSelection.
Record t : Type := mk {
  Description : option string;
  Representation : option TextSourceType;
  Coding : option (list CodingType);
  NoteRef : option (list NoteRefType);
  guid : option GUIDType;
  name : option string;
  page : number;
  firstX : number;
  firstY : number;
  secondX : number;
  secondY : number;
  creatingUser : option GUIDType;
  creationDateTime : option string;
  modifyingUser : option GUIDType;
  modifiedDateTime : option string }.
End PDFSelection.
Abbreviation PDFSelectionType := PDFSelection.t.

Module PDFSource.
Record t : Type := mk {
  Description : option string;
  PDFSelection : option (list PDFSelectionType);
  Representation : option TextSourceType;
  Coding : option (list CodingType);
  NoteRef : option (list NoteRefType);
  VariableValue : option (list VariableValueType);
  guid : option GUIDType;
  name : option string;
  path : option string;
  currentPath : option string;
  creatingUser : option GUIDType;
  creationDateTime : option string;
  modifyingUser : option GUIDType;
  modifiedDateTime : option string }.
End PDFSource.
Abbreviation PDFSourceType := PDFSource.t.

Module SyncPoint.
Record t : Type := mk {
  guid : option GUIDType;
  timeStamp : option number;
  position : option number }.
End SyncPoint.
Abbreviation SyncPointType := SyncPoint.t.

Module TranscriptSelection.
Record t : Type := mk {
  Description : option string;
  Coding : option (list CodingType);
  NoteRef : option (list NoteRefType);
  guid : option GUIDType;
  name : option string;
  fromSyncPoint : option GUIDType;
  toSyncPoint : option GUIDType;
  creatingUser : option GUIDType;
  creationDateTime : option string;
  modifyingUser : option GUIDType;
  modifiedDateTime : option string }.
End TranscriptSelection.
Abbreviation TranscriptSelectionType := TranscriptSelection.t.

Module Transcript.
Record t : Type := mk {
  Description : option string;
  PlainTextContent : option string;
  SyncPoint : option (list SyncPointType);
  TranscriptSelection : option (list TranscriptSelectionType);
  NoteRef : option (list NoteRefType);
  guid : option GUIDType;
  name : option string;
  richTextPath : option string;
  plainTextPath : option string;
  creatingUser : option GUIDType;
  creationDateTime : option string;
  modifyingUser : option GUIDType;
  modifiedDateTime : option string }.
End Transcript.
Abbreviation TranscriptType := Transcript.t.

(** [AudioSelectionType] and [VideoSelectionType] declare the same fields;
    [end_] is the source's [end]. *)
Module AVSelection.
Record t : Type := mk {
  Description : option string;
  Coding : option (list CodingType);
  NoteRef : option (list NoteRefType);
  guid : option GUIDType;
  name : option string;
  begin : number;
  end_ : number;
  creatingUser : option GUIDType;
  creationDateTime : option string;
  modifyingUser : option GUIDType;
  modifiedDateTime : option string }.
End AVSelection.
Abbreviation AudioSelectionType := AVSelection.t.
Abbreviation VideoSelectionType := AVSelection.t.

Module AudioSource.
Record t : Type := mk {
  Description : option string;
  Transcript : option (list TranscriptType);
  AudioSelection : option (list AudioSelectionType);
  Coding : option (list CodingType);
  NoteRef : option (list NoteRefType);
  VariableValue : option (list VariableValueType);
  guid : option GUIDType;
  name : option string;
  path : option string;
  currentPath : option string;
  creatingUser : option GUIDType;
  creationDateTime : option string;
  modifyingUser : option GUIDType;
  modifiedDateTime : option string }.
End AudioSource.
Abbreviation AudioSourceType := AudioSource.t.

Module VideoSource.
Record t : Type := mk {
  Description : option string;
  Transcript : option (list TranscriptType);
  VideoSelection : option (list VideoSelectionType);
  Coding : option (list CodingType);
  NoteRef : option (list NoteRefType);
  VariableValue : option (list VariableValueType);
  guid : option GUIDType;
  name : option string;
  path : option string;
  currentPath : option string;
  creatingUser : option GUIDType;
  creationDateTime : option string;
  modifyingUser : option GUIDType;
  modifiedDateTime : option string }.
End VideoSource.
Abbreviation VideoSourceType := VideoSource.t.

Module Vertex.
Record t : Type := mk {
  guid : option GUIDType;
  representedGUID : option GUIDType;
  name : option string;
  firstX : number;
  firstY : number;
  secondX : option number;
  secondY : option number;
  shape : option string;
  color : option string }.
End Vertex.
Abbreviation VertexType := Vertex.t.

Module Edge.
Record t : Type := mk {
  guid : option GUIDType;
  representedGUID : option GUIDType;
  name : option string;
  sourceVertex : option GUIDType;
  targetVertex : option GUIDType;
  color : option string;
  direction : option string;
  lineStyle : option string }.
End Edge.
Abbreviation EdgeType := Edge.t.

Module Graph.
Record t : Type := mk {
  Vertex : option (list VertexType);
  Edge : option (list EdgeType);
  guid : option GUIDType;
  name : option string }.
End Graph.
Abbreviation GraphType := Graph.t.

Module Link.
Record t : Type := mk {
  NoteRef : option (list NoteRefType);
  guid : option GUIDType;
  name : option string;
  direction : option string;
  color : option string;
  originGUID : option GUIDType;
  targetGUID : option GUIDType }.
End Link.
Abbreviation LinkType := Link.t.

(** [SourcesType], parametric in what a source list holds: the source
    records themselves in a project value, references to objects in the
    object store. *)
Module Sources.
Record t (T P D A V : Type) : Type := mk {
  TextSource : option (list T);
  PictureSource : option (list P);
  PDFSource : option (list D);
  AudioSource : option (list A);
  VideoSource : option (list V) }.
Arguments mk {T P D A V}.
Arguments TextSource {T P D A V}.
Arguments PictureSource {T P D A V}.
Arguments PDFSource {T P D A V}.
Arguments AudioSource {T P D A V}.
Arguments VideoSource {T P D A V}.
End Sources.
Abbreviation SourcesType :=
  (Sources.t TextSourceType PictureSourceType PDFSourceType AudioSourceType
     VideoSourceType).

Module Proj.
Record t (S : Type) : Type := mk {
  Users : option (list UserType);
  CodeBook : option (list CodeType);
  Variables : option (list VariableType);
  Cases : option (list CaseType);
  Sources : option S;
  Notes : option (list TextSourceType);
  Links : option (list LinkType);
  Sets : option (list SetType);
  Graphs : option (list GraphType);
  Description : option string;
  NoteRef : option (list NoteRefType);
  name : option string;
  origin : option string;
  creatingUserGUID : option GUIDType;
  creationDateTime : option string;
  modifyingUserGUID : option GUIDType;
  modifiedDateTime : option string;
  basePath : option string }.
Arguments mk {S}.
Arguments Users {S}.
Arguments CodeBook {S}.
Arguments Variables {S}.
Arguments Cases {S}.
Arguments Sources {S}.
Arguments Notes {S}.
Arguments Links {S}.
Arguments Sets {S}.
Arguments Graphs {S}.
Arguments Description {S}.
Arguments NoteRef {S}.
Arguments name {S}.
Arguments origin {S}.
Arguments creatingUserGUID {S}.
Arguments creationDateTime {S}.
Arguments modifyingUserGUID {S}.
Arguments modifiedDateTime {S}.
Arguments basePath {S}.
End Proj.
Abbreviation Project := (Proj.t SourcesType).

(** ** Control-flow helpers

    [forEach f l] is [l.forEach((x, index) => f(x, index))] for a callback
    that updates a state; [whenSome o f] is [if (o) { f(o) }] for an object or
    array [o], which is truthy whenever it is defined. *)

Fixpoint forEach_from {A St : Type} (f : A -> nat -> St -> St) (l : list A)
    (index : nat) (s : St) : St :=
  match l with
  | [] => s
  | x :: l' => forEach_from f l' (S index) (f x index s)
  end.

Definition forEach {A St : Type} (f : A -> nat -> St -> St) (l : list A) : St -> St :=
  forEach_from f l 0%nat.

Definition whenSome {A St : Type} (o : option A) (f : A -> St -> St) (s : St) : St :=
  match o with
  | Some x => f x s
  | None => s
  end.

(** [`${path}[${index}]`] *)
Definition at_index (path : string) (index : nat) : string :=
  path +:+ "[" +:+ pretty index +:+ "]".

(** ** GUID validation ([export/validators.ts], [validateProjectGUIDs]) *)

Definition isHexDigit (a : ascii) : bool :=
  let n := nat_of_ascii a in
  (Nat.leb 48 n && Nat.leb n 57) || (Nat.leb 65 n && Nat.leb n 70)
  || (Nat.leb 97 n && Nat.leb n 102).

(** [[0-9a-fA-F]{n}] at the head of [s]; the rest of the string. *)
Fixpoint hexRun (n : nat) (s : string) : option string :=
  match n, s with
  | O, _ => Some s
  | S n', String a s' => if isHexDigit a then hexRun n' s' else None
  | S _, EmptyString => None
  end.

Definition dash (s : string) : option string :=
  match s with
  | String "-"%char s' => Some s'
  | _ => None
  end.

(** Groups of hexadecimal digits of the given lengths, separated by
    dashes, at the head of [s]. *)
Fixpoint hexGroups (groups : list nat) (s : string) : option string :=
  match groups with
  | [] => Some s
  | [n] => hexRun n s
  | n :: rest =>
      match hexRun n s with
      | Some r =>
          match dash r with
          | Some r' => hexGroups rest r'
          | None => None
          end
      | None => None
      end
  end.

(** [guidPattern.test(guid)] for
    [/^[0-9a-fA-F]{8}-[0-9a-fA-F]{4}-[0-9a-fA-F]{4}-[0-9a-fA-F]{4}-[0-9a-fA-F]{12}$/]. *)
Definition guidPattern_test (guid : string) : bool :=
  match hexGroups [8; 4; 4; 4; 12]%nat guid with
  | Some EmptyString => true
  | _ => false
  end.

(** The two locals of [validateProjectGUIDs] that [checkGuid] closes over. *)
Record GuidState : Type := mkGuidState {
  errors : list string;
  guidMap : gmap string string }.

Definition checkGuid (guid : option GUIDType) (context : string)
    (st : GuidState) : GuidState :=
  match guid with
  | Some (String _ _ as guid) =>
      if negb (guidPattern_test guid) then
        mkGuidState
          (errors st ++ ["Invalid GUID format in " +:+ context +:+ ": " +:+ guid])
          (guidMap st)
      else
        match guidMap st !! guid with
        | Some first =>
            mkGuidState
              (errors st ++
                 ["Duplicate GUID " +:+ guid +:+ " in " +:+ context +:+ " and "
                  +:+ first])
              (guidMap st)
        | None => mkGuidState (errors st) (<[guid := context]> (guidMap st))
        end
  | _ => mkGuidState (errors st ++ ["Missing GUID in " +:+ context]) (guidMap st)
  end.

(** [checkCodes(codes, path)]; [checkCode] is the body of its [forEach]. *)
Fixpoint checkCode (code : CodeType) (path : string) (index : nat)
    (st : GuidState) {struct code} : GuidState :=
  let st := checkGuid (Code.guid code) (at_index path index) st in
  match Code.Code code with
  | Some codes =>
      forEach_from (fun c i => checkCode c (at_index path index +:+ ".Code") i)
        codes 0%nat st
  | None => st
  end.

Definition checkCodes (codes : list CodeType) (path : string) : GuidState -> GuidState :=
  forEach (fun code index => checkCode code path index) codes.

(** [checkSourceSelections(source, type, index, selectionType)]: the
    selections of a source, their codings, then the codings of the source.
    [source[selectionType]] is passed as [selections], with the accessors of
    its element type. *)
Definition checkSourceSelections {Sel : Type}
    (sel_guid : Sel -> option GUIDType)
    (sel_Coding : Sel -> option (list CodingType))
    (selections : option (list Sel)) (source_Coding : option (list CodingType))
    (type : string) (index : nat) (selectionType : string)
    (st : GuidState) : GuidState :=
  let here := "Sources." +:+ type +:+ "[" +:+ pretty index +:+ "]" in
  let st :=
    whenSome selections (forEach (fun selection selIndex st =>
      let selPath := here +:+ "." +:+ selectionType +:+ "[" +:+ pretty selIndex +:+ "]" in
      let st := checkGuid (sel_guid selection) selPath st in
      whenSome (sel_Coding selection) (forEach (fun coding codingIndex =>
        checkGuid (Coding.guid coding)
          (selPath +:+ ".Coding[" +:+ pretty codingIndex +:+ "]"))) st)) st in
  whenSome source_Coding (forEach (fun coding codingIndex =>
    checkGuid (Coding.guid coding)
      (here +:+ ".Coding[" +:+ pretty codingIndex +:+ "]"))) st.

(** [checkTranscripts(source, type, index)] *)
Definition checkTranscripts (transcripts : option (list TranscriptType))
    (type : string) (index : nat) : GuidState -> GuidState :=
  let here := "Sources." +:+ type +:+ "[" +:+ pretty index +:+ "]" in
  whenSome transcripts (forEach (fun transcript transIndex st =>
    let tPath := here +:+ ".Transcript[" +:+ pretty transIndex +:+ "]" in
    let st := checkGuid (Transcript.guid transcript) tPath st in
    let st :=
      whenSome (Transcript.SyncPoint transcript) (forEach (fun syncPoint syncIndex =>
        checkGuid (SyncPoint.guid syncPoint)
          (tPath +:+ ".SyncPoint[" +:+ pretty syncIndex +:+ "]"))) st in
    whenSome (Transcript.TranscriptSelection transcript)
      (forEach (fun selection selIndex =>
        checkGuid (TranscriptSelection.guid selection)
          (tPath +:+ ".TranscriptSelection[" +:+ pretty selIndex +:+ "]"))) st)).

Definition checkSourcesGUIDs (sources : SourcesType) (st : GuidState) : GuidState :=
  let st :=
    whenSome (Sources.TextSource sources) (forEach (fun source index st =>
      let st := checkGuid (TextSource.guid source)
                  ("Sources.TextSource[" +:+ pretty index +:+ "]") st in
      checkSourceSelections PlainTextSelection.guid PlainTextSelection.Coding
        (TextSource.PlainTextSelection source) (TextSource.Coding source)
        "TextSource" index "PlainTextSelection" st)) st in
  let st :=
    whenSome (Sources.PictureSource sources) (forEach (fun source index st =>
      let st := checkGuid (PictureSource.guid source)
                  ("Sources.PictureSource[" +:+ pretty index +:+ "]") st in
      checkSourceSelections PictureSelection.guid PictureSelection.Coding
        (PictureSource.PictureSelection source) (PictureSource.Coding source)
        "PictureSource" index "PictureSelection" st)) st in
  let st :=
    whenSome (Sources.PDFSource sources) (forEach (fun source index st =>
      let st := checkGuid (PDFSource.guid source)
                  ("Sources.PDFSource[" +:+ pretty index +:+ "]") st in
      checkSourceSelections PDFSelection.guid PDFSelection.Coding
        (PDFSource.PDFSelection source) (PDFSource.Coding source)
        "PDFSource" index "PDFSelection" st)) st in
  let st :=
    whenSome (Sources.AudioSource sources) (forEach (fun source index st =>
      let st := checkGuid (AudioSource.guid source)
                  ("Sources.AudioSource[" +:+ pretty index +:+ "]") st in
      let st := checkSourceSelections AVSelection.guid AVSelection.Coding
                  (AudioSource.AudioSelection source) (AudioSource.Coding source)
                  "AudioSource" index "AudioSelection" st in
      checkTranscripts (AudioSource.Transcript source) "AudioSource" index st)) st in
  whenSome (Sources.VideoSource sources) (forEach (fun source index st =>
    let st := checkGuid (VideoSource.guid source)
                ("Sources.VideoSource[" +:+ pretty index +:+ "]") st in
    let st := checkSourceSelections AVSelection.guid AVSelection.Coding
                (VideoSource.VideoSelection source) (VideoSource.Coding source)
                "VideoSource" index "VideoSelection" st in
    checkTranscripts (VideoSource.Transcript source) "VideoSource" index st)) st.

(** The traversal of [validateProjectGUIDs]: Users, CodeBook, Variables,
    Cases, Sources, Sets, Graphs, Links. *)
Definition checkProjectGUIDs (project : Project) (st : GuidState) : GuidState :=
  let st :=
    whenSome (Proj.Users project) (forEach (fun user index =>
      checkGuid (User.guid user) ("Users.User[" +:+ pretty index +:+ "]"))) st in
  let st :=
    whenSome (Proj.CodeBook project) (fun codes =>
      checkCodes codes "CodeBook.Codes.Code") st in
  let st :=
    whenSome (Proj.Variables project) (forEach (fun variable index =>
      checkGuid (QVariable.guid variable)
        ("Variables.Variable[" +:+ pretty index +:+ "]"))) st in
  let st :=
    whenSome (Proj.Cases project) (forEach (fun caseItem index =>
      checkGuid (Case.guid caseItem) ("Cases.Case[" +:+ pretty index +:+ "]"))) st in
  let st := whenSome (Proj.Sources project) checkSourcesGUIDs st in
  let st :=
    whenSome (Proj.Sets project) (forEach (fun set index =>
      checkGuid (QSet.guid set) ("Sets.Set[" +:+ pretty index +:+ "]"))) st in
  let st :=
    whenSome (Proj.Graphs project) (forEach (fun graph index st =>
      let gPath := "Graphs.Graph[" +:+ pretty index +:+ "]" in
      let st := checkGuid (Graph.guid graph) gPath st in
      let st :=
        whenSome (Graph.Vertex graph) (forEach (fun vertex vertexIndex =>
          checkGuid (Vertex.guid vertex)
            (gPath +:+ ".Vertex[" +:+ pretty vertexIndex +:+ "]"))) st in
      whenSome (Graph.Edge graph) (forEach (fun edge edgeIndex =>
        checkGuid (Edge.guid edge)
          (gPath +:+ ".Edge[" +:+ pretty edgeIndex +:+ "]"))) st)) st in
  whenSome (Proj.Links project) (forEach (fun link index =>
    checkGuid (Link.guid link) ("Links.Link[" +:+ pretty index +:+ "]"))) st.

Definition validateProjectGUIDs (project : Project) : list string :=
  errors (checkProjectGUIDs project (mkGuidState [] ∅)).

(** ** Source validation ([validateProjectSources])

    Errors are pushed to a list; a validation step is a function from the
    list before to the list after.  [key in object] is modelled as the field
    being defined, which is what it means on the JSON copy that [exportQDPX]
    validates.  On an object that holds the key with the value [undefined]
    the code has one error more ([must have either ...]); the errors of the
    embedding are always among those of the code. *)

Definition push (msg : string) (errs : list string) : list string := errs ++ [msg].

Definition pushIf (b : bool) (msg : string) (errs : list string) : list string :=
  if b then push msg errs else errs.

(** A field holds a value ([undefined] is [None]). *)
Definition defined {A : Type} (o : option A) : bool :=
  match o with
  | Some _ => true
  | None => false
  end.

(** The two checks under [hasTextSourceProperties] / [hasTranscriptProperties]. *)
Definition checkTextPayload (PlainTextContent plainTextPath : option string)
    (what : string) (errs : list string) : list string :=
  if defined PlainTextContent || defined plainTextPath then
    let errs :=
      pushIf (JS.truthy PlainTextContent && JS.truthy plainTextPath)
        (what +:+ " has both PlainTextContent and plainTextPath") errs in
    pushIf (negb (JS.truthy PlainTextContent) && negb (JS.truthy plainTextPath))
      (what +:+ " must have either PlainTextContent or plainTextPath") errs
  else errs.

Definition validateTextSource (source : TextSourceType) (index : nat)
    (errs : list string) : list string :=
  let errs :=
    pushIf (negb (JS.truthy (TextSource.path source)))
      ("Missing path in Sources.TextSource[" +:+ pretty index +:+ "]") errs in
  checkTextPayload (TextSource.PlainTextContent source)
    (TextSource.plainTextPath source)
    ("Sources.TextSource[" +:+ pretty index +:+ "]") errs.

Definition validateNonTextSource (path : option string) (type : string)
    (index : nat) : list string -> list string :=
  pushIf (negb (JS.truthy path))
    ("Missing path in Sources." +:+ type +:+ "[" +:+ pretty index +:+ "]").

Definition validateTranscript (transcripts : option (list TranscriptType))
    (type : string) (index : nat) : list string -> list string :=
  whenSome transcripts (forEach (fun transcript transIndex =>
    checkTextPayload (Transcript.PlainTextContent transcript)
      (Transcript.plainTextPath transcript)
      ("Sources." +:+ type +:+ "[" +:+ pretty index +:+ "].Transcript["
       +:+ pretty transIndex +:+ "]"))).

Definition validateProjectSources (project : Project) : list string :=
  match Proj.Sources project with
  | None => []
  | Some sources =>
      let errs := [] in
      let errs :=
        whenSome (Sources.TextSource sources) (forEach validateTextSource) errs in
      let errs :=
        whenSome (Sources.PictureSource sources) (forEach (fun source index =>
          validateNonTextSource (PictureSource.path source) "PictureSource" index))
          errs in
      let errs :=
        whenSome (Sources.PDFSource sources) (forEach (fun source index =>
          validateNonTextSource (PDFSource.path source) "PDFSource" index)) errs in
      let errs :=
        whenSome (Sources.AudioSource sources) (forEach (fun source index errs =>
          let errs :=
            validateNonTextSource (AudioSource.path source) "AudioSource" index errs in
          validateTranscript (AudioSource.Transcript source) "AudioSource" index errs))
          errs in
      whenSome (Sources.VideoSource sources) (forEach (fun source index errs =>
        let errs :=
          validateNonTextSource (VideoSource.path source) "VideoSource" index errs in
        validateTranscript (VideoSource.Transcript source) "VideoSource" index errs))
        errs
  end.

(** ** Reference validation ([validateProjectReferences])

    [addGuids] walks every property of every object of the project and
    collects each truthy [guid].  On the typed model this is the list of the
    [guid] fields of all the records that have one; [guidsOf_*] gathers them
    per interface. *)

Definition concatMap {A B : Type} (f : A -> list B) (o : option (list A)) : list B :=
  match o with
  | Some l => flat_map f l
  | None => []
  end.

Fixpoint guidsOf_Code (code : CodeType) : list (option GUIDType) :=
  Code.guid code ::
    match Code.Code code with
    | Some codes => flat_map guidsOf_Code codes
    | None => []
    end.

Definition guidsOf_Coding (coding : CodingType) : list (option GUIDType) :=
  [Coding.guid coding].

Definition guidsOf_PlainTextSelection (s : PlainTextSelectionType) :=
  PlainTextSelection.guid s :: concatMap guidsOf_Coding (PlainTextSelection.Coding s).

Definition guidsOf_TextSource (s : TextSourceType) : list (option GUIDType) :=
  TextSource.guid s ::
    concatMap guidsOf_PlainTextSelection (TextSource.PlainTextSelection s)
    ++ concatMap guidsOf_Coding (TextSource.Coding s).

Definition guidsOf_PictureSelection (s : PictureSelectionType) :=
  PictureSelection.guid s :: concatMap guidsOf_Coding (PictureSelection.Coding s).

Definition guidsOf_PictureSource (s : PictureSourceType) : list (option GUIDType) :=
  PictureSource.guid s ::
    match PictureSource.TextDescription s with
    | Some t => guidsOf_TextSource t
    | None => []
    end
    ++ concatMap guidsOf_PictureSelection (PictureSource.PictureSelection s)
    ++ concatMap guidsOf_Coding (PictureSource.Coding s).

Definition guidsOf_PDFSelection (s : PDFSelectionType) : list (option GUIDType) :=
  PDFSelection.guid s ::
    match PDFSelection.Representation s with
    | Some t => guidsOf_TextSource t
    | None => []
    end
    ++ concatMap guidsOf_Coding (PDFSelection.Coding s).

Definition guidsOf_PDFSource (s : PDFSourceType) : list (option GUIDType) :=
  PDFSource.guid s ::
    concatMap guidsOf_PDFSelection (PDFSource.PDFSelection s)
    ++ match PDFSource.Representation s with
       | Some t => guidsOf_TextSource t
       | None => []
       end
    ++ concatMap guidsOf_Coding (PDFSource.Coding s).

Definition guidsOf_TranscriptSelection (s : TranscriptSelectionType) :=
  TranscriptSelection.guid s :: concatMap guidsOf_Coding (TranscriptSelection.Coding s).

Definition guidsOf_Transcript (t : TranscriptType) : list (option GUIDType) :=
  Transcript.guid t ::
    concatMap (fun p => [SyncPoint.guid p]) (Transcript.SyncPoint t)
    ++ concatMap guidsOf_TranscriptSelection (Transcript.TranscriptSelection t).

Definition guidsOf_AVSelection (s : AVSelection.t) : list (option GUIDType) :=
  AVSelection.guid s :: concatMap guidsOf_Coding (AVSelection.Coding s).

Definition guidsOf_AudioSource (s : AudioSourceType) : list (option GUIDType) :=
  AudioSource.guid s ::
    concatMap guidsOf_Transcript (AudioSource.Transcript s)
    ++ concatMap guidsOf_AVSelection (AudioSource.AudioSelection s)
    ++ concatMap guidsOf_Coding (AudioSource.Coding s).

Definition guidsOf_VideoSource (s : VideoSourceType) : list (option GUIDType) :=
  VideoSource.guid s ::
    concatMap guidsOf_Transcript (VideoSource.Transcript s)
    ++ concatMap guidsOf_AVSelection (VideoSource.VideoSelection s)
    ++ concatMap guidsOf_Coding (VideoSource.Coding s).

Definition guidsOf_Sources (sources : SourcesType) : list (option GUIDType) :=
  concatMap guidsOf_TextSource (Sources.TextSource sources)
  ++ concatMap guidsOf_PictureSource (Sources.PictureSource sources)
  ++ concatMap guidsOf_PDFSource (Sources.PDFSource sources)
  ++ concatMap guidsOf_AudioSource (Sources.AudioSource sources)
  ++ concatMap guidsOf_VideoSource (Sources.VideoSource sources).

Definition guidsOf_Graph (g : GraphType) : list (option GUIDType) :=
  Graph.guid g ::
    concatMap (fun v => [Vertex.guid v]) (Graph.Vertex g)
    ++ concatMap (fun e => [Edge.guid e]) (Graph.Edge g).

(** The [guid] of every object of the project, Notes included. *)
Definition guidsOf_Project (project : Project) : list (option GUIDType) :=
  concatMap (fun u => [User.guid u]) (Proj.Users project)
  ++ concatMap guidsOf_Code (Proj.CodeBook project)
  ++ concatMap (fun v => [QVariable.guid v]) (Proj.Variables project)
  ++ concatMap (fun c => [Case.guid c]) (Proj.Cases project)
  ++ match Proj.Sources project with
     | Some sources => guidsOf_Sources sources
     | None => []
     end
  ++ concatMap guidsOf_TextSource (Proj.Notes project)
  ++ concatMap (fun l => [Link.guid l]) (Proj.Links project)
  ++ concatMap (fun s => [QSet.guid s]) (Proj.Sets project)
  ++ concatMap guidsOf_Graph (Proj.Graphs project).

(** [if (obj.guid) guids.add(obj.guid)] over a list of [guid] fields. *)
Fixpoint addAll (gs : list (option GUIDType)) (guids : gset string) : gset string :=
  match gs with
  | [] => guids
  | Some (String a r) :: gs' => addAll gs' ({[ String a r ]} ∪ guids)
  | _ :: gs' => addAll gs' guids
  end.

Definition addGuids (project : Project) : gset string :=
  addAll (guidsOf_Project project) ∅.

Section References.

(** The set built by [addGuids(project, "project")]. *)
Variable guids : gset string.

Definition checkReference (guid : option GUIDType) (context : string)
    (errs : list string) : list string :=
  match guid with
  | Some (String _ _ as guid) =>
      if bool_decide (guid ∈ guids) then errs
      else push ("Invalid reference in " +:+ context +:+ ": GUID " +:+ guid
                 +:+ " not found in project") errs
  | _ => push ("Missing reference GUID in " +:+ context) errs
  end.

Definition checkNoteRefs (noteRefs : option (list NoteRefType)) (context : string)
    : list string -> list string :=
  whenSome noteRefs (forEach (fun noteRef index =>
    checkReference (Ref.targetGUID noteRef)
      (context +:+ "[" +:+ pretty index +:+ "].targetGUID"))).

Definition checkCodeRefs (codeRefs : option (list CodeRefType)) (context : string)
    : list string -> list string :=
  whenSome codeRefs (forEach (fun codeRef index =>
    checkReference (Ref.targetGUID codeRef)
      (context +:+ "[" +:+ pretty index +:+ "].targetGUID"))).

Definition checkSourceRefs (sourceRefs : option (list SourceRefType))
    (context : string) : list string -> list string :=
  whenSome sourceRefs (forEach (fun sourceRef index =>
    checkReference (Ref.targetGUID sourceRef)
      (context +:+ "[" +:+ pretty index +:+ "].targetGUID"))).

Definition checkSelectionRefs (selectionRefs : option (list SelectionRefType))
    (context : string) : list string -> list string :=
  whenSome selectionRefs (forEach (fun selectionRef index =>
    checkReference (Ref.targetGUID selectionRef)
      (context +:+ "[" +:+ pretty index +:+ "].targetGUID"))).

Definition checkVariableRefs (variableRef : option VariableRefType)
    (context : string) : list string -> list string :=
  whenSome variableRef (fun variableRef =>
    checkReference (Ref.targetGUID variableRef) (context +:+ ".targetGUID")).

(** [if (x) checkReference(x, context)] for the identifier-valued fields. *)
Definition checkIfPresent (guid : option GUIDType) (context : string)
    (errs : list string) : list string :=
  if JS.truthy guid then checkReference guid context errs else errs.

(** [checkCodeNoteRefs(codes, path)]; [checkCodeNoteRef] is the body of its
    [forEach]. *)
Fixpoint checkCodeNoteRef (code : CodeType) (path : string) (index : nat)
    (errs : list string) {struct code} : list string :=
  let errs := checkNoteRefs (Code.NoteRef code) (at_index path index +:+ ".NoteRef") errs in
  match Code.Code code with
  | Some codes =>
      forEach_from (fun c i => checkCodeNoteRef c (at_index path index +:+ ".Code") i)
        codes 0%nat errs
  | None => errs
  end.

Definition checkCodeNoteRefs (codes : option (list CodeType)) (path : string)
    : list string -> list string :=
  whenSome codes (forEach (fun code index => checkCodeNoteRef code path index)).

(** The loop over [x.Coding] that [checkSourceReferences],
    [checkSelectionReferences] and [checkTranscriptReferences] each spell out. *)
Definition checkCodings (codings : option (list CodingType)) (ownerPath : string)
    : list string -> list string :=
  whenSome codings (forEach (fun coding codingIndex errs =>
    let codingPath := ownerPath +:+ ".Coding[" +:+ pretty codingIndex +:+ "]" in
    let errs := checkCodeRefs (Some [Coding.CodeRef coding]) (codingPath +:+ ".CodeRef") errs in
    checkNoteRefs (Coding.NoteRef coding) (codingPath +:+ ".NoteRef") errs)).

Definition checkVariableValues (values : option (list VariableValueType))
    (ownerPath : string) : list string -> list string :=
  whenSome values (forEach (fun value valueIndex =>
    checkVariableRefs (Some (VariableValue.VariableRef value))
      (ownerPath +:+ ".VariableValue[" +:+ pretty valueIndex +:+ "].VariableRef"))).

(** [checkSourceReferences(source, sourcePath)] *)
Definition checkSourceReferences (NoteRef : option (list NoteRefType))
    (Coding : option (list CodingType))
    (VariableValue : option (list VariableValueType)) (sourcePath : string)
    (errs : list string) : list string :=
  let errs := checkNoteRefs NoteRef (sourcePath +:+ ".NoteRef") errs in
  let errs := checkCodings Coding sourcePath errs in
  checkVariableValues VariableValue sourcePath errs.

(** [checkSelectionReferences(source, sourcePath, selectionType)] *)
Definition checkSelectionReferences {Sel : Type}
    (sel_NoteRef : Sel -> option (list NoteRefType))
    (sel_Coding : Sel -> option (list CodingType))
    (selections : option (list Sel)) (sourcePath selectionType : string)
    : list string -> list string :=
  whenSome selections (forEach (fun selection selIndex errs =>
    let selectionPath :=
      sourcePath +:+ "." +:+ selectionType +:+ "[" +:+ pretty selIndex +:+ "]" in
    let errs := checkNoteRefs (sel_NoteRef selection) (selectionPath +:+ ".NoteRef") errs in
    checkCodings (sel_Coding selection) selectionPath errs)).

(** [checkTranscriptReferences(source, sourcePath)] *)
Definition checkTranscriptReferences (transcripts : option (list TranscriptType))
    (sourcePath : string) : list string -> list string :=
  whenSome transcripts (forEach (fun transcript transIndex errs =>
    let transcriptPath :=
      sourcePath +:+ ".Transcript[" +:+ pretty transIndex +:+ "]" in
    let errs :=
      checkNoteRefs (Transcript.NoteRef transcript) (transcriptPath +:+ ".NoteRef") errs in
    whenSome (Transcript.TranscriptSelection transcript)
      (forEach (fun selection selIndex errs =>
        let selectionPath :=
          transcriptPath +:+ ".TranscriptSelection[" +:+ pretty selIndex +:+ "]" in
        let errs :=
          checkIfPresent (TranscriptSelection.fromSyncPoint selection)
            (selectionPath +:+ ".fromSyncPoint") errs in
        let errs :=
          checkIfPresent (TranscriptSelection.toSyncPoint selection)
            (selectionPath +:+ ".toSyncPoint") errs in
        let errs :=
          checkNoteRefs (TranscriptSelection.NoteRef selection)
            (selectionPath +:+ ".NoteRef") errs in
        checkCodings (TranscriptSelection.Coding selection) selectionPath errs))
      errs)).

Definition checkSourcesReferences (sources : SourcesType) (errs : list string)
    : list string :=
  let errs :=
    whenSome (Sources.TextSource sources) (forEach (fun source index errs =>
      let sourcePath := "project.Sources.TextSource[" +:+ pretty index +:+ "]" in
      let errs :=
        checkSourceReferences (TextSource.NoteRef source) (TextSource.Coding source)
          (TextSource.VariableValue source) sourcePath errs in
      checkSelectionReferences PlainTextSelection.NoteRef PlainTextSelection.Coding
        (TextSource.PlainTextSelection source) sourcePath "PlainTextSelection" errs))
      errs in
  let errs :=
    whenSome (Sources.PictureSource sources) (forEach (fun source index errs =>
      let sourcePath := "project.Sources.PictureSource[" +:+ pretty index +:+ "]" in
      let errs :=
        checkSourceReferences (PictureSource.NoteRef source)
          (PictureSource.Coding source) (PictureSource.VariableValue source)
          sourcePath errs in
      checkSelectionReferences PictureSelection.NoteRef PictureSelection.Coding
        (PictureSource.PictureSelection source) sourcePath "PictureSelection" errs))
      errs in
  let errs :=
    whenSome (Sources.PDFSource sources) (forEach (fun source index errs =>
      let sourcePath := "project.Sources.PDFSource[" +:+ pretty index +:+ "]" in
      let errs :=
        checkSourceReferences (PDFSource.NoteRef source) (PDFSource.Coding source)
          (PDFSource.VariableValue source) sourcePath errs in
      checkSelectionReferences PDFSelection.NoteRef PDFSelection.Coding
        (PDFSource.PDFSelection source) sourcePath "PDFSelection" errs)) errs in
  let errs :=
    whenSome (Sources.AudioSource sources) (forEach (fun source index errs =>
      let sourcePath := "project.Sources.AudioSource[" +:+ pretty index +:+ "]" in
      let errs :=
        checkSourceReferences (AudioSource.NoteRef source) (AudioSource.Coding source)
          (AudioSource.VariableValue source) sourcePath errs in
      let errs :=
        checkSelectionReferences AVSelection.NoteRef AVSelection.Coding
          (AudioSource.AudioSelection source) sourcePath "AudioSelection" errs in
      checkTranscriptReferences (AudioSource.Transcript source) sourcePath errs))
      errs in
  whenSome (Sources.VideoSource sources) (forEach (fun source index errs =>
    let sourcePath := "project.Sources.VideoSource[" +:+ pretty index +:+ "]" in
    let errs :=
      checkSourceReferences (VideoSource.NoteRef source) (VideoSource.Coding source)
        (VideoSource.VariableValue source) sourcePath errs in
    let errs :=
      checkSelectionReferences AVSelection.NoteRef AVSelection.Coding
        (VideoSource.VideoSelection source) sourcePath "VideoSelection" errs in
    checkTranscriptReferences (VideoSource.Transcript source) sourcePath errs)) errs.

(** The checks of [validateProjectReferences], in its order: project
    NoteRefs, CodeBook, Cases, Sources, Sets, Links, Graphs. *)
Definition checkProjectReferences (project : Project) (errs : list string)
    : list string :=
  let errs := checkNoteRefs (Proj.NoteRef project) "project.NoteRef" errs in
  let errs := checkCodeNoteRefs (Proj.CodeBook project) "project.CodeBook.Codes.Code" errs in
  let errs :=
    whenSome (Proj.Cases project) (forEach (fun caseItem index errs =>
      let casePath := "project.Cases.Case[" +:+ pretty index +:+ "]" in
      let errs := checkCodeRefs (Case.CodeRef caseItem) (casePath +:+ ".CodeRef") errs in
      let errs := checkVariableValues (Case.VariableValue caseItem) casePath errs in
      let errs := checkSourceRefs (Case.SourceRef caseItem) (casePath +:+ ".SourceRef") errs in
      checkSelectionRefs (Case.SelectionRef caseItem) (casePath +:+ ".SelectionRef") errs))
      errs in
  let errs := whenSome (Proj.Sources project) checkSourcesReferences errs in
  let errs :=
    whenSome (Proj.Sets project) (forEach (fun set index errs =>
      let setPath := "project.Sets.Set[" +:+ pretty index +:+ "]" in
      let errs := checkCodeRefs (QSet.MemberCode set) (setPath +:+ ".MemberCode") errs in
      let errs := checkSourceRefs (QSet.MemberSource set) (setPath +:+ ".MemberSource") errs in
      checkNoteRefs (QSet.MemberNote set) (setPath +:+ ".MemberNote") errs)) errs in
  let errs :=
    whenSome (Proj.Links project) (forEach (fun link index errs =>
      let linkPath := "project.Links.Link[" +:+ pretty index +:+ "]" in
      let errs := checkIfPresent (Link.originGUID link) (linkPath +:+ ".originGUID") errs in
      let errs := checkIfPresent (Link.targetGUID link) (linkPath +:+ ".targetGUID") errs in
      checkNoteRefs (Link.NoteRef link) (linkPath +:+ ".NoteRef") errs)) errs in
  whenSome (Proj.Graphs project) (forEach (fun graph index errs =>
    let graphPath := "project.Graphs.Graph[" +:+ pretty index +:+ "]" in
    let errs :=
      whenSome (Graph.Vertex graph) (forEach (fun vertex vertexIndex =>
        checkIfPresent (Vertex.representedGUID vertex)
          (graphPath +:+ ".Vertex[" +:+ pretty vertexIndex +:+ "].representedGUID")))
        errs in
    whenSome (Graph.Edge graph) (forEach (fun edge edgeIndex errs =>
      let edgePath := graphPath +:+ ".Edge[" +:+ pretty edgeIndex +:+ "]" in
      let errs := checkIfPresent (Edge.representedGUID edge) (edgePath +:+ ".representedGUID") errs in
      let errs := checkIfPresent (Edge.sourceVertex edge) (edgePath +:+ ".sourceVertex") errs in
      checkIfPresent (Edge.targetVertex edge) (edgePath +:+ ".targetVertex") errs)) errs))
    errs.

End References.

Definition validateProjectReferences (project : Project) : list string :=
  checkProjectReferences (addGuids project) project [].

(** ** Numeric coercions

    [parseInt(s, 10)], [parseFloat(s)] and [String(n)] on the ASCII part of
    the language: white space is the ASCII white space, and a number prints
    positionally (the exponent notation of very large or very small
    magnitudes is not modelled).  Numbers are exact here and binary64 in the
    language; the two agree on the whole numbers of magnitude up to 2^53. *)

Definition isWhiteSpace (a : ascii) : bool :=
  let n := nat_of_ascii a in
  (Nat.leb 9 n && Nat.leb n 13) || Nat.eqb n 32.

Fixpoint skipWhiteSpace (s : string) : string :=
  match s with
  | String a s' => if isWhiteSpace a then skipWhiteSpace s' else s
  | EmptyString => s
  end.

Definition digitValue (a : ascii) : option Z :=
  let n := nat_of_ascii a in
  if Nat.leb 48 n && Nat.leb n 57 then Some (Z.of_nat n - 48) else None.

(** The longest prefix of decimal digits of [s], read after the digits
    already accumulated in [acc]: its value, how many digits were read, and
    the rest of the string. *)
Fixpoint readDigits (s : string) (acc : Z) (count : nat) : Z * nat * string :=
  match s with
  | String a s' =>
      match digitValue a with
      | Some d => readDigits s' (10 * acc + d) (S count)
      | None => (acc, count, s)
      end
  | EmptyString => (acc, count, s)
  end.

(** An optional sign: [-1] or [1], and the rest. *)
Definition readSign (s : string) : Z * string :=
  match s with
  | String "-"%char s' => (-1, s')
  | String "+"%char s' => (1, s')
  | _ => (1, s)
  end.

Definition parseInt (s : string) : number :=
  let '(sign, s) := readSign (skipWhiteSpace s) in
  match readDigits s 0 0 with
  | (_, O, _) => NaN
  | (value, S _, _) => Int (sign * value)
  end.

(** The exponent part [e[+-]digits] of a decimal literal, if there is one. *)
Definition readExponent (s : string) : Z :=
  match s with
  | String c s' =>
      if Ascii.eqb c "e" || Ascii.eqb c "E" then
        let '(sign, s'') := readSign s' in
        match readDigits s'' 0 0 with
        | (_, O, _) => 0
        | (value, S _, _) => sign * value
        end
      else 0
  | EmptyString => 0
  end.

Definition parseFloat (s : string) : number :=
  let '(sign, s) := readSign (skipWhiteSpace s) in
  if JS.startsWith s "Infinity" then Infinity (sign =? -1)
  else
    let '(intPart, intCount, rest) := readDigits s 0 0 in
    match rest with
    | String "."%char rest' =>
        let '(mantissa, count, rest'') := readDigits rest' intPart intCount in
        match count with
        | O => NaN
        | S _ =>
            Finite (sign * mantissa)
              (readExponent rest'' - Z.of_nat (count - intCount))
        end
    | _ =>
        match intCount with
        | O => NaN
        | S _ => Finite (sign * intPart) (readExponent rest)
        end
    end.

(** [n] digits of [r], zero-padded on the left, most significant first. *)
Fixpoint fractionDigits (n : nat) (r : Z) : string :=
  match n with
  | O => EmptyString
  | S n' => fractionDigits n' (r / 10) +:+ pretty (r mod 10)
  end.

Fixpoint dropTrailingZeros_rev (s : string) : string :=
  match s with
  | String "0"%char s' => dropTrailingZeros_rev s'
  | _ => s
  end.

Definition dropTrailingZeros (s : string) : string :=
  String.rev (dropTrailingZeros_rev (String.rev s)).

(** [String(n)] *)
Definition number_toString (n : number) : string :=
  match n with
  | NaN => "NaN"
  | Infinity negative => if negative then "-Infinity" else "Infinity"
  | Finite m e =>
      if 0 <=? e then pretty (m * 10 ^ e)
      else
        let scale := 10 ^ (- e) in
        let a := Z.abs m in
        let frac := dropTrailingZeros (fractionDigits (Z.to_nat (- e)) (a mod scale)) in
        (if m <? 0 then "-" else "") +:+ pretty (a / scale)
        +:+ (match frac with EmptyString => "" | _ => "." +:+ frac end)
  end.

(** ** The xml2js layer

    [xml] is the JavaScript value that the converter exchanges with xml2js:
    the object handed to [Builder.buildObject] (attributes under the key
    ["$"]) and the object returned by [parseStringPromise].  An object is the
    list of its properties in insertion order.  [document] is the document
    itself, as the element tree that its text denotes; escaping and layout of
    the text are left to the library. *)

Inductive xml : Type :=
  | XUndef
  | XStr (s : string)
  | XNum (n : number)
  | XBool (b : bool)
  | XObj (fields : list (string * xml))
  | XArr (items : list xml).

Inductive node : Type :=
  | Element (name : string) (attrs : list (string * string))
      (children : list node) (text : string).

Inductive document : Type :=
  | WellFormed (root : node)
  | NotWellFormed.

Module Xml.

Fixpoint lookup_field (key : string) (fields : list (string * xml)) : xml :=
  match fields with
  | [] => XUndef
  | (k, v) :: rest => if String.eqb k key then v else lookup_field key rest
  end.

(** [v.key] for a [v] that is not [undefined]; keys of strings and arrays
    other than the built-in ones are [undefined]. *)
Definition get (v : xml) (key : string) : xml :=
  match v with
  | XObj fields => lookup_field key fields
  | _ => XUndef
  end.

Definition truthy (v : xml) : bool :=
  match v with
  | XUndef => false
  | XStr s => negb (String.eqb s "")
  | XNum n => Number.truthy n
  | XBool b => b
  | XObj _ | XArr _ => true
  end.

(** [String(v)] *)
Fixpoint toString (v : xml) : string :=
  match v with
  | XUndef => "undefined"
  | XStr s => s
  | XNum n => number_toString n
  | XBool b => if b then "true" else "false"
  | XObj _ => "[object Object]"
  | XArr items =>
      String.concat ","
        (map (fun item => match item with XUndef => "" | _ => toString item end) items)
  end.

(** The value of a string-typed field: a string or [undefined].  A field
    that holds an object or an array (a child element where the schema has
    an attribute) is outside the typed object model and read as [undefined]. *)
Definition asString (v : xml) : option string :=
  match v with
  | XStr s => Some s
  | XNum n => Some (number_toString n)
  | XBool b => Some (if b then "true" else "false")
  | _ => None
  end.

(** [Array.isArray(x) ? x : [x]] *)
Definition arrayify (x : xml) : list xml :=
  match x with
  | XArr items => items
  | _ => [x]
  end.

(** Nesting depth, the fuel of the one recursive conversion. *)
Fixpoint depth (v : xml) : nat :=
  match v with
  | XObj fields =>
      S (fold_right (fun kv d => Nat.max (depth (snd kv)) d) O fields)
  | XArr items => S (fold_right (fun item d => Nat.max (depth item) d) O items)
  | _ => O
  end.

(** *** [Builder.buildObject]

    [element.att(name, value)] skips an [undefined] value and converts any
    other to a string. *)
Definition attributes (v : xml) : list (string * string) :=
  match v with
  | XObj fields =>
      flat_map (fun kv =>
        match snd kv with
        | XUndef => []
        | value => [(fst kv, toString value)]
        end) fields
  | _ => []
  end.

Definition joinContent (a b : list (string * string) * list node * string) :=
  (app a.1.1 b.1.1, app a.1.2 b.1.2, a.2 +:+ b.2).

(** [render(element, obj)]: the attributes, child elements and text that
    [obj] adds to [element]. *)
Fixpoint render (obj : xml) : list (string * string) * list node * string :=
  match obj with
  | XObj fields =>
      (fix renderFields (fs : list (string * xml)) :=
         match fs with
         | [] => ([], [], "")
         | (key, child) :: fs' =>
             joinContent
               (if String.eqb key "$" then (attributes child, [], "")
                else if String.eqb key "_" then ([], [], toString child)
                else
                  match child with
                  | XArr entries =>
                      ([], map (fun entry =>
                                  let '(a, c, t) := render entry in Element key a c t)
                             entries, "")
                  | XObj _ =>
                      ([], [let '(a, c, t) := render child in Element key a c t], "")
                  | XUndef => ([], [Element key [] [] ""], "")
                  | scalar => ([], [Element key [] [] (toString scalar)], "")
                  end)
               (renderFields fs')
         end) fields
  | XArr items =>
      (fix renderItems (l : list xml) :=
         match l with
         | [] => ([], [], "")
         | item :: l' =>
             joinContent
               (match item with
                | XObj fields =>
                    ([], (fix each (fs : list (string * xml)) :=
                            match fs with
                            | [] => []
                            | (key, entry) :: fs' =>
                                (let '(a, c, t) := render entry in Element key a c t)
                                :: each fs'
                            end) fields, "")
                | _ => ([], [], "")
                end)
               (renderItems l')
         end) items
  | XUndef => ([], [], "")
  | scalar => ([], [], toString scalar)
  end.

(** [new Builder({rootName, ...}).buildObject(rootObj)]: when [rootObj] has
    exactly one key and [rootName] is left at its default ["root"], that key
    names the root element and its value is rendered; otherwise the root
    element is named [rootName] and the whole of [rootObj] is rendered into
    it. *)
Definition buildObject (rootName : string) (rootObj : xml) : node :=
  match rootObj with
  | XObj [(key, value)] =>
      if String.eqb rootName "root" then
        let '(a, c, t) := render value in Element key a c t
      else
        let '(a, c, t) := render rootObj in Element rootName a c t
  | _ => let '(a, c, t) := render rootObj in Element rootName a c t
  end.

(** *** [parseStringPromise] with [explicitArray: false] and
    [mergeAttrs: true]

    [assignOrPush]: the first value under a key is stored as it is, a later
    one turns the property into an array. *)
Fixpoint assignOrPush (key : string) (value : xml) (obj : list (string * xml))
    : list (string * xml) :=
  match obj with
  | [] => [(key, value)]
  | (k, old) :: rest =>
      if String.eqb k key then
        (k, match old with
            | XArr items => XArr (items ++ [value])
            | _ => XArr [old; value]
            end) :: rest
      else (k, old) :: assignOrPush key value rest
  end.

Fixpoint isBlank (s : string) : bool :=
  match s with
  | String a s' => isWhiteSpace a && isBlank s'
  | EmptyString => true
  end.

Definition nodeName (n : node) : string :=
  match n with Element name _ _ _ => name end.

(** The value of an element: its attributes and children merged into one
    object; an element with text only is that string; white space between
    children is dropped; an empty element is the empty string (or its blank
    text). *)
Fixpoint parseElement (n : node) : xml :=
  match n with
  | Element _ attrs children text =>
      let withAttrs :=
        fold_left (fun obj kv => assignOrPush (fst kv) (XStr (snd kv)) obj) attrs [] in
      let obj :=
        fold_left (fun obj child => assignOrPush (nodeName child) (parseElement child) obj)
          children withAttrs in
      match obj with
      | [] => XStr text
      | _ :: _ => if isBlank text then XObj obj else XObj (obj ++ [("_", XStr text)])
      end
  end.

(** The result object has the root element under its name. *)
Definition parseString (root : node) : xml :=
  XObj [(nodeName root, parseElement root)].

End Xml.

(** ** Serialisation ([export/xml-builder.ts]) *)

Module Build.

Definition ostr (v : option string) : xml :=
  match v with
  | Some s => XStr s
  | None => XUndef
  end.

Definition onum (v : option number) : xml :=
  match v with
  | Some n => XNum n
  | None => XUndef
  end.

(** [if (x[key]) target[key] = x[key]] *)
Definition ifTruthy (key : string) (v : option string) : list (string * xml) :=
  if JS.truthy v then [(key, ostr v)] else [].

(** [if (x !== undefined) target[key] = x] *)
Definition ifDefined (key : string) (v : xml) : list (string * xml) :=
  match v with
  | XUndef => []
  | _ => [(key, v)]
  end.

(** [if (l && l.length > 0) target[key] = f(l)] *)
Definition ifNonEmpty {A : Type} (key : string) (f : list A -> xml)
    (l : option (list A)) : list (string * xml) :=
  match l with
  | Some (x :: r) => [(key, f (x :: r))]
  | _ => []
  end.

(** [refs.map((ref) => ({ $: { targetGUID: ref.targetGUID } }))] *)
Definition prepareRef (ref : Ref.t) : xml :=
  XObj [("$", XObj [("targetGUID", ostr (Ref.targetGUID ref))])].

Definition prepareRefs (refs : list Ref.t) : xml := XArr (map prepareRef refs).

(** The element of the array that [prepareCodesForXml] maps a code to. *)
Fixpoint prepareCode (code : CodeType) : xml :=
  XObj (
    [("$", XObj ([("guid", ostr (Code.guid code));
                  ("name", ostr (Code.name code));
                  ("isCodable", XBool (Code.isCodable code))]
                 ++ ifTruthy "color" (Code.color code)))]
    ++ ifTruthy "Description" (Code.Description code)
    ++ ifNonEmpty "NoteRef" prepareRefs (Code.NoteRef code)
    ++ match Code.Code code with
       | Some (c :: r) => [("Code", XArr (map prepareCode (c :: r)))]
       | _ => []
       end).

Definition prepareCodesForXml (codes : list CodeType) : xml :=
  XArr (map prepareCode codes).

Definition prepareVariablesForXml (variables : list VariableType) : xml :=
  XArr (map (fun variable =>
    XObj (
      [("$", XObj [("guid", ostr (QVariable.guid variable));
                   ("name", ostr (QVariable.name variable));
                   ("typeOfVariable", ostr (QVariable.typeOfVariable variable))])]
      ++ ifTruthy "Description" (QVariable.Description variable))) variables).

Definition prepareVariableValuesForXml (variableValues : list VariableValueType) : xml :=
  XArr (map (fun value =>
    XObj (
      [("VariableRef",
        XObj [("$", XObj [("targetGUID",
                           ostr (Ref.targetGUID (VariableValue.VariableRef value)))])])]
      ++ match VariableValue.TextValue value, VariableValue.BooleanValue value,
               VariableValue.IntegerValue value, VariableValue.FloatValue value,
               VariableValue.DateValue value, VariableValue.DateTimeValue value with
         | Some v, _, _, _, _, _ => [("TextValue", XStr v)]
         | None, Some v, _, _, _, _ => [("BooleanValue", XBool v)]
         | None, None, Some v, _, _, _ => [("IntegerValue", XNum v)]
         | None, None, None, Some v, _, _ => [("FloatValue", XNum v)]
         | None, None, None, None, Some v, _ => [("DateValue", XStr v)]
         | None, None, None, None, None, Some v => [("DateTimeValue", XStr v)]
         | None, None, None, None, None, None => []
         end)) variableValues).

Definition prepareCasesForXml (cases : list CaseType) : xml :=
  XArr (map (fun caseItem =>
    XObj (
      [("$", XObj [("guid", ostr (Case.guid caseItem));
                   ("name", ostr (Case.name caseItem))])]
      ++ ifTruthy "Description" (Case.Description caseItem)
      ++ ifNonEmpty "CodeRef" prepareRefs (Case.CodeRef caseItem)
      ++ ifNonEmpty "VariableValue" prepareVariableValuesForXml
           (Case.VariableValue caseItem)
      ++ ifNonEmpty "SourceRef" prepareRefs (Case.SourceRef caseItem)
      ++ ifNonEmpty "SelectionRef" prepareRefs (Case.SelectionRef caseItem))) cases).

Definition prepareCodingsForXml (codings : list CodingType) : xml :=
  XArr (map (fun coding =>
    XObj (
      [("$", XObj ([("guid", ostr (Coding.guid coding))]
                   ++ ifTruthy "creatingUser" (Coding.creatingUser coding)
                   ++ ifTruthy "creationDateTime" (Coding.creationDateTime coding)));
       ("CodeRef",
        XObj [("$", XObj [("targetGUID", ostr (Ref.targetGUID (Coding.CodeRef coding)))])])]
      ++ ifNonEmpty "NoteRef" prepareRefs (Coding.NoteRef coding))) codings).

(** The optional attributes [name], [creatingUser], [creationDateTime],
    [modifyingUser], [modifiedDateTime] that most elements carry. *)
Definition provenance (name creatingUser creationDateTime modifyingUser
    modifiedDateTime : option string) : list (string * xml) :=
  ifTruthy "name" name ++ ifTruthy "creatingUser" creatingUser
  ++ ifTruthy "creationDateTime" creationDateTime
  ++ ifTruthy "modifyingUser" modifyingUser
  ++ ifTruthy "modifiedDateTime" modifiedDateTime.

Definition preparePlainTextSelectionsForXml (selections : list PlainTextSelectionType) : xml :=
  XArr (map (fun selection =>
    XObj (
      [("$", XObj ([("guid", ostr (PlainTextSelection.guid selection));
                    ("startPosition", XNum (PlainTextSelection.startPosition selection));
                    ("endPosition", XNum (PlainTextSelection.endPosition selection))]
                   ++ provenance (PlainTextSelection.name selection)
                        (PlainTextSelection.creatingUser selection)
                        (PlainTextSelection.creationDateTime selection)
                        (PlainTextSelection.modifyingUser selection)
                        (PlainTextSelection.modifiedDateTime selection)))]
      ++ ifTruthy "Description" (PlainTextSelection.Description selection)
      ++ ifNonEmpty "Coding" prepareCodingsForXml (PlainTextSelection.Coding selection)
      ++ ifNonEmpty "NoteRef" prepareRefs (PlainTextSelection.NoteRef selection)))
    selections).

(** The element of the array that [prepareTextSourcesForXml] maps a source to. *)
Definition prepareTextSource (source : TextSourceType) : xml :=
  XObj (
    [("$", XObj ([("guid", ostr (TextSource.guid source))]
                 ++ ifTruthy "name" (TextSource.name source)
                 ++ ifTruthy "richTextPath" (TextSource.richTextPath source)
                 ++ ifTruthy "plainTextPath" (TextSource.plainTextPath source)
                 ++ ifTruthy "creatingUser" (TextSource.creatingUser source)
                 ++ ifTruthy "creationDateTime" (TextSource.creationDateTime source)
                 ++ ifTruthy "modifyingUser" (TextSource.modifyingUser source)
                 ++ ifTruthy "modifiedDateTime" (TextSource.modifiedDateTime source)))]
    ++ ifTruthy "Description" (TextSource.Description source)
    ++ ifTruthy "PlainTextContent" (TextSource.PlainTextContent source)
    ++ ifNonEmpty "PlainTextSelection" preparePlainTextSelectionsForXml
         (TextSource.PlainTextSelection source)
    ++ ifNonEmpty "Coding" prepareCodingsForXml (TextSource.Coding source)
    ++ ifNonEmpty "NoteRef" prepareRefs (TextSource.NoteRef source)
    ++ ifNonEmpty "VariableValue" prepareVariableValuesForXml
         (TextSource.VariableValue source)).

Definition prepareTextSourcesForXml (sources : list TextSourceType) : xml :=
  XArr (map prepareTextSource sources).

(** The optional attributes of the picture, PDF, audio and video sources. *)
Definition sourceAttributes (name path currentPath creatingUser creationDateTime
    modifyingUser modifiedDateTime : option string) : list (string * xml) :=
  ifTruthy "name" name ++ ifTruthy "path" path ++ ifTruthy "currentPath" currentPath
  ++ ifTruthy "creatingUser" creatingUser
  ++ ifTruthy "creationDateTime" creationDateTime
  ++ ifTruthy "modifyingUser" modifyingUser
  ++ ifTruthy "modifiedDateTime" modifiedDateTime.

Definition preparePictureSelectionsForXml (selections : list PictureSelectionType) : xml :=
  XArr (map (fun selection =>
    XObj (
      [("$", XObj ([("guid", ostr (PictureSelection.guid selection));
                    ("firstX", XNum (PictureSelection.firstX selection));
                    ("firstY", XNum (PictureSelection.firstY selection));
                    ("secondX", XNum (PictureSelection.secondX selection));
                    ("secondY", XNum (PictureSelection.secondY selection))]
                   ++ provenance (PictureSelection.name selection)
                        (PictureSelection.creatingUser selection)
                        (PictureSelection.creationDateTime selection)
                        (PictureSelection.modifyingUser selection)
                        (PictureSelection.modifiedDateTime selection)))]
      ++ ifTruthy "Description" (PictureSelection.Description selection)
      ++ ifNonEmpty "Coding" prepareCodingsForXml (PictureSelection.Coding selection)
      ++ ifNonEmpty "NoteRef" prepareRefs (PictureSelection.NoteRef selection)))
    selections).

Definition preparePictureSourcesForXml (sources : list PictureSourceType) : xml :=
  XArr (map (fun source =>
    XObj (
      [("$", XObj ([("guid", ostr (PictureSource.guid source))]
                   ++ sourceAttributes (PictureSource.name source)
                        (PictureSource.path source) (PictureSource.currentPath source)
                        (PictureSource.creatingUser source)
                        (PictureSource.creationDateTime source)
                        (PictureSource.modifyingUser source)
                        (PictureSource.modifiedDateTime source)))]
      ++ ifTruthy "Description" (PictureSource.Description source)
      ++ match PictureSource.TextDescription source with
         | Some t => [("TextDescription", prepareTextSource t)]
         | None => []
         end
      ++ ifNonEmpty "PictureSelection" preparePictureSelectionsForXml
           (PictureSource.PictureSelection source)
      ++ ifNonEmpty "Coding" prepareCodingsForXml (PictureSource.Coding source)
      ++ ifNonEmpty "NoteRef" prepareRefs (PictureSource.NoteRef source)
      ++ ifNonEmpty "VariableValue" prepareVariableValuesForXml
           (PictureSource.VariableValue source))) sources).

Definition preparePDFSelectionsForXml (selections : list PDFSelectionType) : xml :=
  XArr (map (fun selection =>
    XObj (
      [("$", XObj ([("guid", ostr (PDFSelection.guid selection));
                    ("page", XNum (PDFSelection.page selection));
                    ("firstX", XNum (PDFSelection.firstX selection));
                    ("firstY", XNum (PDFSelection.firstY selection));
                    ("secondX", XNum (PDFSelection.secondX selection));
                    ("secondY", XNum (PDFSelection.secondY selection))]
                   ++ provenance (PDFSelection.name selection)
                        (PDFSelection.creatingUser selection)
                        (PDFSelection.creationDateTime selection)
                        (PDFSelection.modifyingUser selection)
                        (PDFSelection.modifiedDateTime selection)))]
      ++ ifTruthy "Description" (PDFSelection.Description selection)
      ++ match PDFSelection.Representation selection with
         | Some t => [("Representation", prepareTextSource t)]
         | None => []
         end
      ++ ifNonEmpty "Coding" prepareCodingsForXml (PDFSelection.Coding selection)
      ++ ifNonEmpty "NoteRef" prepareRefs (PDFSelection.NoteRef selection)))
    selections).

Definition preparePDFSourcesForXml (sources : list PDFSourceType) : xml :=
  XArr (map (fun source =>
    XObj (
      [("$", XObj ([("guid", ostr (PDFSource.guid source))]
                   ++ sourceAttributes (PDFSource.name source)
                        (PDFSource.path source) (PDFSource.currentPath source)
                        (PDFSource.creatingUser source)
                        (PDFSource.creationDateTime source)
                        (PDFSource.modifyingUser source)
                        (PDFSource.modifiedDateTime source)))]
      ++ ifTruthy "Description" (PDFSource.Description source)
      ++ ifNonEmpty "PDFSelection" preparePDFSelectionsForXml
           (PDFSource.PDFSelection source)
      ++ match PDFSource.Representation source with
         | Some t => [("Representation", prepareTextSource t)]
         | None => []
         end
      ++ ifNonEmpty "Coding" prepareCodingsForXml (PDFSource.Coding source)
      ++ ifNonEmpty "NoteRef" prepareRefs (PDFSource.NoteRef source)
      ++ ifNonEmpty "VariableValue" prepareVariableValuesForXml
           (PDFSource.VariableValue source))) sources).

Definition prepareSyncPointsForXml (syncPoints : list SyncPointType) : xml :=
  XArr (map (fun syncPoint =>
    XObj [("$", XObj ([("guid", ostr (SyncPoint.guid syncPoint))]
                      ++ ifDefined "timeStamp" (onum (SyncPoint.timeStamp syncPoint))
                      ++ ifDefined "position" (onum (SyncPoint.position syncPoint))))])
    syncPoints).

Definition prepareTranscriptSelectionsForXml
    (selections : list TranscriptSelectionType) : xml :=
  XArr (map (fun selection =>
    XObj (
      [("$", XObj ([("guid", ostr (TranscriptSelection.guid selection))]
                   ++ ifTruthy "name" (TranscriptSelection.name selection)
                   ++ ifTruthy "fromSyncPoint" (TranscriptSelection.fromSyncPoint selection)
                   ++ ifTruthy "toSyncPoint" (TranscriptSelection.toSyncPoint selection)
                   ++ ifTruthy "creatingUser" (TranscriptSelection.creatingUser selection)
                   ++ ifTruthy "creationDateTime"
                        (TranscriptSelection.creationDateTime selection)
                   ++ ifTruthy "modifyingUser" (TranscriptSelection.modifyingUser selection)
                   ++ ifTruthy "modifiedDateTime"
                        (TranscriptSelection.modifiedDateTime selection)))]
      ++ ifTruthy "Description" (TranscriptSelection.Description selection)
      ++ ifNonEmpty "Coding" prepareCodingsForXml (TranscriptSelection.Coding selection)
      ++ ifNonEmpty "NoteRef" prepareRefs (TranscriptSelection.NoteRef selection)))
    selections).

Definition prepareTranscriptsForXml (transcripts : list TranscriptType) : xml :=
  XArr (map (fun transcript =>
    XObj (
      [("$", XObj ([("guid", ostr (Transcript.guid transcript))]
                   ++ ifTruthy "name" (Transcript.name transcript)
                   ++ ifTruthy "richTextPath" (Transcript.richTextPath transcript)
                   ++ ifTruthy "plainTextPath" (Transcript.plainTextPath transcript)
                   ++ ifTruthy "creatingUser" (Transcript.creatingUser transcript)
                   ++ ifTruthy "creationDateTime" (Transcript.creationDateTime transcript)
                   ++ ifTruthy "modifyingUser" (Transcript.modifyingUser transcript)
                   ++ ifTruthy "modifiedDateTime" (Transcript.modifiedDateTime transcript)))]
      ++ ifTruthy "Description" (Transcript.Description transcript)
      ++ ifTruthy "PlainTextContent" (Transcript.PlainTextContent transcript)
      ++ ifNonEmpty "SyncPoint" prepareSyncPointsForXml (Transcript.SyncPoint transcript)
      ++ ifNonEmpty "TranscriptSelection" prepareTranscriptSelectionsForXml
           (Transcript.TranscriptSelection transcript)
      ++ ifNonEmpty "NoteRef" prepareRefs (Transcript.NoteRef transcript))) transcripts).

(** [prepareAudioSelectionsForXml] and [prepareVideoSelectionsForXml] have
    the same body. *)
Definition prepareAVSelections (selections : list AVSelection.t) : xml :=
  XArr (map (fun selection =>
    XObj (
      [("$", XObj ([("guid", ostr (AVSelection.guid selection));
                    ("begin", XNum (AVSelection.begin selection));
                    ("end", XNum (AVSelection.end_ selection))]
                   ++ provenance (AVSelection.name selection)
                        (AVSelection.creatingUser selection)
                        (AVSelection.creationDateTime selection)
                        (AVSelection.modifyingUser selection)
                        (AVSelection.modifiedDateTime selection)))]
      ++ ifTruthy "Description" (AVSelection.Description selection)
      ++ ifNonEmpty "Coding" prepareCodingsForXml (AVSelection.Coding selection)
      ++ ifNonEmpty "NoteRef" prepareRefs (AVSelection.NoteRef selection))) selections).

Definition prepareAudioSelectionsForXml := prepareAVSelections.
Definition prepareVideoSelectionsForXml := prepareAVSelections.

Definition prepareAudioSourcesForXml (sources : list AudioSourceType) : xml :=
  XArr (map (fun source =>
    XObj (
      [("$", XObj ([("guid", ostr (AudioSource.guid source))]
                   ++ sourceAttributes (AudioSource.name source)
                        (AudioSource.path source) (AudioSource.currentPath source)
                        (AudioSource.creatingUser source)
                        (AudioSource.creationDateTime source)
                        (AudioSource.modifyingUser source)
                        (AudioSource.modifiedDateTime source)))]
      ++ ifTruthy "Description" (AudioSource.Description source)
      ++ ifNonEmpty "Transcript" prepareTranscriptsForXml (AudioSource.Transcript source)
      ++ ifNonEmpty "AudioSelection" prepareAudioSelectionsForXml
           (AudioSource.AudioSelection source)
      ++ ifNonEmpty "Coding" prepareCodingsForXml (AudioSource.Coding source)
      ++ ifNonEmpty "NoteRef" prepareRefs (AudioSource.NoteRef source)
      ++ ifNonEmpty "VariableValue" prepareVariableValuesForXml
           (AudioSource.VariableValue source))) sources).

Definition prepareVideoSourcesForXml (sources : list VideoSourceType) : xml :=
  XArr (map (fun source =>
    XObj (
      [("$", XObj ([("guid", ostr (VideoSource.guid source))]
                   ++ sourceAttributes (VideoSource.name source)
                        (VideoSource.path source) (VideoSource.currentPath source)
                        (VideoSource.creatingUser source)
                        (VideoSource.creationDateTime source)
                        (VideoSource.modifyingUser source)
                        (VideoSource.modifiedDateTime source)))]
      ++ ifTruthy "Description" (VideoSource.Description source)
      ++ ifNonEmpty "Transcript" prepareTranscriptsForXml (VideoSource.Transcript source)
      ++ ifNonEmpty "VideoSelection" prepareVideoSelectionsForXml
           (VideoSource.VideoSelection source)
      ++ ifNonEmpty "Coding" prepareCodingsForXml (VideoSource.Coding source)
      ++ ifNonEmpty "NoteRef" prepareRefs (VideoSource.NoteRef source)
      ++ ifNonEmpty "VariableValue" prepareVariableValuesForXml
           (VideoSource.VariableValue source))) sources).

Definition prepareSourcesForXml (sources : SourcesType) : xml :=
  XObj (
    ifNonEmpty "TextSource" prepareTextSourcesForXml (Sources.TextSource sources)
    ++ ifNonEmpty "PictureSource" preparePictureSourcesForXml
         (Sources.PictureSource sources)
    ++ ifNonEmpty "PDFSource" preparePDFSourcesForXml (Sources.PDFSource sources)
    ++ ifNonEmpty "AudioSource" prepareAudioSourcesForXml (Sources.AudioSource sources)
    ++ ifNonEmpty "VideoSource" prepareVideoSourcesForXml (Sources.VideoSource sources)).

Definition prepareLinksForXml (links : list LinkType) : xml :=
  XArr (map (fun link =>
    XObj (
      [("$", XObj ([("guid", ostr (Link.guid link)); ("name", ostr (Link.name link))]
                   ++ ifTruthy "direction" (Link.direction link)
                   ++ ifTruthy "color" (Link.color link)
                   ++ ifTruthy "originGUID" (Link.originGUID link)
                   ++ ifTruthy "targetGUID" (Link.targetGUID link)))]
      ++ ifNonEmpty "NoteRef" prepareRefs (Link.NoteRef link))) links).

Definition prepareVerticesForXml (vertices : list VertexType) : xml :=
  XArr (map (fun vertex =>
    XObj [("$", XObj ([("guid", ostr (Vertex.guid vertex));
                       ("firstX", XNum (Vertex.firstX vertex));
                       ("firstY", XNum (Vertex.firstY vertex))]
                      ++ ifTruthy "representedGUID" (Vertex.representedGUID vertex)
                      ++ ifTruthy "name" (Vertex.name vertex)
                      ++ ifDefined "secondX" (onum (Vertex.secondX vertex))
                      ++ ifDefined "secondY" (onum (Vertex.secondY vertex))
                      ++ ifTruthy "shape" (Vertex.shape vertex)
                      ++ ifTruthy "color" (Vertex.color vertex)))]) vertices).

Definition prepareEdgesForXml (edges : list EdgeType) : xml :=
  XArr (map (fun edge =>
    XObj [("$", XObj ([("guid", ostr (Edge.guid edge));
                       ("sourceVertex", ostr (Edge.sourceVertex edge));
                       ("targetVertex", ostr (Edge.targetVertex edge))]
                      ++ ifTruthy "representedGUID" (Edge.representedGUID edge)
                      ++ ifTruthy "name" (Edge.name edge)
                      ++ ifTruthy "color" (Edge.color edge)
                      ++ ifTruthy "direction" (Edge.direction edge)
                      ++ ifTruthy "lineStyle" (Edge.lineStyle edge)))]) edges).

Definition prepareGraphsForXml (graphs : list GraphType) : xml :=
  XArr (map (fun graph =>
    XObj (
      [("$", XObj [("guid", ostr (Graph.guid graph)); ("name", ostr (Graph.name graph))])]
      ++ ifNonEmpty "Vertex" prepareVerticesForXml (Graph.Vertex graph)
      ++ ifNonEmpty "Edge" prepareEdgesForXml (Graph.Edge graph))) graphs).

Definition prepareSetsForXml (sets : list SetType) : xml :=
  XArr (map (fun set =>
    XObj (
      [("$", XObj [("guid", ostr (QSet.guid set)); ("name", ostr (QSet.name set))])]
      ++ ifTruthy "Description" (QSet.Description set)
      ++ ifNonEmpty "MemberCode" prepareRefs (QSet.MemberCode set)
      ++ ifNonEmpty "MemberSource" prepareRefs (QSet.MemberSource set)
      ++ ifNonEmpty "MemberNote" prepareRefs (QSet.MemberNote set))) sets).

(** [if (project.X) xmlProject.X = { Item: f(project.X.Item) }] *)
Definition wrapped {A : Type} (key item : string) (f : list A -> xml)
    (l : option (list A)) : list (string * xml) :=
  match l with
  | Some items => [(key, XObj [(item, f items)])]
  | None => []
  end.

Definition prepareProjectForXml (project : Project) : xml :=
  XObj (
    [("$", XObj ([("name", ostr (Proj.name project))]
                 ++ ifTruthy "origin" (Proj.origin project)
                 ++ ifTruthy "creatingUserGUID" (Proj.creatingUserGUID project)
                 ++ ifTruthy "creationDateTime" (Proj.creationDateTime project)
                 ++ ifTruthy "modifyingUserGUID" (Proj.modifyingUserGUID project)
                 ++ ifTruthy "modifiedDateTime" (Proj.modifiedDateTime project)
                 ++ ifTruthy "basePath" (Proj.basePath project)))]
    ++ ifTruthy "Description" (Proj.Description project)
    ++ ifNonEmpty "NoteRef" prepareRefs (Proj.NoteRef project)
    ++ wrapped "Users" "User"
         (fun users => XArr (map (fun user =>
            XObj [("$", XObj [("guid", ostr (User.guid user));
                              ("name", ostr (User.name user));
                              ("id", ostr (User.id user))])]) users))
         (Proj.Users project)
    ++ match Proj.CodeBook project with
       | Some codes => [("CodeBook", XObj [("Codes", XObj [("Code", prepareCodesForXml codes)])])]
       | None => []
       end
    ++ wrapped "Variables" "Variable" prepareVariablesForXml (Proj.Variables project)
    ++ wrapped "Cases" "Case" prepareCasesForXml (Proj.Cases project)
    ++ match Proj.Sources project with
       | Some sources => [("Sources", prepareSourcesForXml sources)]
       | None => []
       end
    ++ wrapped "Notes" "Note" prepareTextSourcesForXml (Proj.Notes project)
    ++ wrapped "Links" "Link" prepareLinksForXml (Proj.Links project)
    ++ wrapped "Sets" "Set" prepareSetsForXml (Proj.Sets project)
    ++ wrapped "Graphs" "Graph" prepareGraphsForXml (Proj.Graphs project)).

End Build.

(** [buildQDEFile]: the builder is configured with [rootName: "Project"] and
    is handed an object with the two keys ["$"] and ["Project"].  The builder
    throws only for a required object that is missing, which the typed model
    has not, or for text that XML cannot carry.  The [catch] branch is not
    represented: the definition is the code on the projects whose document
    is [xmlSafe], and what depends on the document is stated for those. *)
Definition buildQDEFile (project : Project) : node :=
  Xml.buildObject "Project"
    (XObj [("$", XObj [("xmlns", XStr "urn:QDA-XML:project:1.0");
                       ("xmlns:xsi", XStr "http://www.w3.org/2001/XMLSchema-instance");
                       ("xsi:schemaLocation", XStr "urn:QDA-XML:project:1.0 Project.xsd")]);
           ("Project", Build.prepareProjectForXml project)]).

(** ** Outcomes

    The error classes of [utils/errors.ts], and [JsError] for any other
    thrown error, with its name ([TypeError] for a property read on
    [undefined], [Error] for a failed file-system call). *)

Inductive Error : Type :=
  | InvalidQDPXFileError (message : string) (details : list string)
  | ExportError (message : string) (details : list string)
  | JsError (name : string) (message : string).

Inductive Result (A : Type) : Type :=
  | Ok (value : A)
  | Throw (error : Error).
Arguments Ok {A}.
Arguments Throw {A}.

#[global] Instance Result_ret : MRet Result := fun _ x => Ok x.
#[global] Instance Result_bind : MBind Result := fun _ _ f m =>
  match m with
  | Ok a => f a
  | Throw e => Throw e
  end.
#[global] Instance Result_fmap : FMap Result := fun _ _ f m =>
  match m with
  | Ok a => Ok (f a)
  | Throw e => Throw e
  end.

(** [String(error)] *)
Definition Error_toString (e : Error) : string :=
  match e with
  | InvalidQDPXFileError message _ => "InvalidQDPXFileError: " +:+ message
  | ExportError message _ => "ExportError: " +:+ message
  | JsError name message => name +:+ ": " +:+ message
  end.

(** ** Parsing ([import/xml-parser.ts]) *)

Module Parse.

(** [v.key] where [v] may be [undefined]. *)
Definition getT (v : xml) (key : string) : Result xml :=
  match v with
  | XUndef =>
      Throw (JsError "TypeError"
               ("Cannot read properties of undefined (reading '" +:+ key +:+ "')"))
  | _ => Ok (Xml.get v key)
  end.

Definition str (v : xml) (key : string) : option string :=
  Xml.asString (Xml.get v key).

(** [parseInt(v.key, 10)] *)
Definition int (v : xml) (key : string) : number :=
  parseInt (Xml.toString (Xml.get v key)).

(** [v.key !== undefined ? parseInt(v.key, 10) : undefined] *)
Definition optInt (v : xml) (key : string) : option number :=
  match Xml.get v key with
  | XUndef => None
  | field => Some (parseInt (Xml.toString field))
  end.

(** [v === "true" || v === true] *)
Definition isTrue (v : xml) : bool :=
  match v with
  | XStr s => String.eqb s "true"
  | XBool b => b
  | _ => false
  end.

(** [if (!x) return []; (Array.isArray(x) ? x : [x]).map(f)] *)
Definition each {A : Type} (f : xml -> Result A) (x : xml) : Result (list A) :=
  if Xml.truthy x then mapM f (Xml.arrayify x) else Ok [].

(** [if (x.key) target.key = f(x.key)] *)
Definition ifPresent {A : Type} (f : xml -> Result A) (x : xml) (key : string)
    : Result (option A) :=
  let field := Xml.get x key in
  if Xml.truthy field then Some <$> f field else Ok None.

(** [if (x.key) target.key = x.key] for a string: an empty string is not
    copied. *)
Definition ifText (x : xml) (key : string) : option string :=
  let field := Xml.get x key in
  if Xml.truthy field then Xml.asString field else None.

Definition convertRef (ref : xml) : Result Ref.t :=
  Ok (Ref.mk (str ref "targetGUID")).

Definition convertNoteRefs : xml -> Result (list NoteRefType) := each convertRef.
Definition convertCodeRefs : xml -> Result (list CodeRefType) := each convertRef.
Definition convertSourceRefs : xml -> Result (list SourceRefType) := each convertRef.
Definition convertSelectionRefs : xml -> Result (list SelectionRefType) := each convertRef.

(** [convertCodes], by recursion on a bound of the nesting depth of the
    value. *)
Fixpoint convertCodes_fuel (fuel : nat) (xmlCodes : xml) : Result (list CodeType) :=
  each (fun code =>
    noteRef ← ifPresent convertNoteRefs code "NoteRef";
    children ←
      match fuel with
      | O => Ok None
      | S fuel' => ifPresent (convertCodes_fuel fuel') code "Code"
      end;
    Ok (Code.mk (ifText code "Description") noteRef children (str code "guid")
          (str code "name") (isTrue (Xml.get code "isCodable")) (str code "color")))
    xmlCodes.

Definition convertCodes (xmlCodes : xml) : Result (list CodeType) :=
  convertCodes_fuel (Xml.depth xmlCodes) xmlCodes.

Definition convertVariables : xml -> Result (list VariableType) :=
  each (fun variable =>
    Ok (QVariable.mk (ifText variable "Description") (str variable "guid")
          (str variable "name") (str variable "typeOfVariable"))).

Definition convertVariableValues : xml -> Result (list VariableValueType) :=
  each (fun value =>
    variableRef ← getT (Xml.get value "VariableRef") "targetGUID";
    let ref := Ref.mk (Xml.asString variableRef) in
    let none := VariableValue.mk ref None None None None None None in
    Ok (match Xml.get value "TextValue", Xml.get value "BooleanValue",
              Xml.get value "IntegerValue", Xml.get value "FloatValue",
              Xml.get value "DateValue", Xml.get value "DateTimeValue" with
        | XUndef, XUndef, XUndef, XUndef, XUndef, XUndef => none
        | XUndef, XUndef, XUndef, XUndef, XUndef, v =>
            VariableValue.mk ref None None None None None (Xml.asString v)
        | XUndef, XUndef, XUndef, XUndef, v, _ =>
            VariableValue.mk ref None None None None (Xml.asString v) None
        | XUndef, XUndef, XUndef, v, _, _ =>
            VariableValue.mk ref None None None (Some (parseFloat (Xml.toString v))) None None
        | XUndef, XUndef, v, _, _, _ =>
            VariableValue.mk ref None None (Some (parseInt (Xml.toString v))) None None None
        | XUndef, v, _, _, _, _ =>
            VariableValue.mk ref None (Some (isTrue v)) None None None None
        | v, _, _, _, _, _ =>
            VariableValue.mk ref (Xml.asString v) None None None None None
        end)).

Definition convertCases : xml -> Result (list CaseType) :=
  each (fun caseItem =>
    codeRef ← ifPresent convertCodeRefs caseItem "CodeRef";
    variableValue ← ifPresent convertVariableValues caseItem "VariableValue";
    sourceRef ← ifPresent convertSourceRefs caseItem "SourceRef";
    selectionRef ← ifPresent convertSelectionRefs caseItem "SelectionRef";
    Ok (Case.mk (ifText caseItem "Description") codeRef variableValue sourceRef
          selectionRef (str caseItem "guid") (str caseItem "name"))).

Definition convertCodings : xml -> Result (list CodingType) :=
  each (fun coding =>
    codeRef ← getT (Xml.get coding "CodeRef") "targetGUID";
    noteRef ← ifPresent convertNoteRefs coding "NoteRef";
    Ok (Coding.mk (Ref.mk (Xml.asString codeRef)) noteRef (str coding "guid")
          (str coding "creatingUser") (str coding "creationDateTime"))).

Definition convertPlainTextSelections : xml -> Result (list PlainTextSelectionType) :=
  each (fun selection =>
    coding ← ifPresent convertCodings selection "Coding";
    noteRef ← ifPresent convertNoteRefs selection "NoteRef";
    Ok (PlainTextSelection.mk (ifText selection "Description") coding noteRef
          (str selection "guid") (str selection "name")
          (int selection "startPosition") (int selection "endPosition")
          (str selection "creatingUser") (str selection "creationDateTime")
          (str selection "modifyingUser") (str selection "modifiedDateTime"))).

Definition convertTextSource (source : xml) : Result TextSourceType :=
  selections ← ifPresent convertPlainTextSelections source "PlainTextSelection";
  coding ← ifPresent convertCodings source "Coding";
  noteRef ← ifPresent convertNoteRefs source "NoteRef";
  variableValue ← ifPresent convertVariableValues source "VariableValue";
  Ok (TextSource.mk (ifText source "Description") (ifText source "PlainTextContent")
        selections coding noteRef variableValue (str source "guid") (str source "name")
        (str source "richTextPath") (str source "plainTextPath")
        (str source "creatingUser") (str source "creationDateTime")
        (str source "modifyingUser") (str source "modifiedDateTime") None None).

Definition convertTextSources : xml -> Result (list TextSourceType) :=
  each convertTextSource.

(** [convertTextSources(x)[0]] *)
Definition firstTextSource (x : xml) : Result (option TextSourceType) :=
  head <$> convertTextSources x.

Definition convertPictureSelections : xml -> Result (list PictureSelectionType) :=
  each (fun selection =>
    coding ← ifPresent convertCodings selection "Coding";
    noteRef ← ifPresent convertNoteRefs selection "NoteRef";
    Ok (PictureSelection.mk (ifText selection "Description") coding noteRef
          (str selection "guid") (str selection "name")
          (int selection "firstX") (int selection "firstY")
          (int selection "secondX") (int selection "secondY")
          (str selection "creatingUser") (str selection "creationDateTime")
          (str selection "modifyingUser") (str selection "modifiedDateTime"))).

Definition convertPictureSources : xml -> Result (list PictureSourceType) :=
  each (fun source =>
    textDescription ← ifPresent firstTextSource source "TextDescription";
    selections ← ifPresent convertPictureSelections source "PictureSelection";
    coding ← ifPresent convertCodings source "Coding";
    noteRef ← ifPresent convertNoteRefs source "NoteRef";
    variableValue ← ifPresent convertVariableValues source "VariableValue";
    Ok (PictureSource.mk (ifText source "Description") (mjoin textDescription)
          selections coding noteRef variableValue (str source "guid")
          (str source "name") (str source "path") (str source "currentPath")
          (str source "creatingUser") (str source "creationDateTime")
          (str source "modifyingUser") (str source "modifiedDateTime"))).

Definition convertPDFSelections : xml -> Result (list PDFSelectionType) :=
  each (fun selection =>
    representation ← ifPresent firstTextSource selection "Representation";
    coding ← ifPresent convertCodings selection "Coding";
    noteRef ← ifPresent convertNoteRefs selection "NoteRef";
    Ok (PDFSelection.mk (ifText selection "Description") (mjoin representation)
          coding noteRef (str selection "guid") (str selection "name")
          (int selection "page") (int selection "firstX") (int selection "firstY")
          (int selection "secondX") (int selection "secondY")
          (str selection "creatingUser") (str selection "creationDateTime")
          (str selection "modifyingUser") (str selection "modifiedDateTime"))).

Definition convertPDFSources : xml -> Result (list PDFSourceType) :=
  each (fun source =>
    selections ← ifPresent convertPDFSelections source "PDFSelection";
    representation ← ifPresent firstTextSource source "Representation";
    coding ← ifPresent convertCodings source "Coding";
    noteRef ← ifPresent convertNoteRefs source "NoteRef";
    variableValue ← ifPresent convertVariableValues source "VariableValue";
    Ok (PDFSource.mk (ifText source "Description") selections (mjoin representation)
          coding noteRef variableValue (str source "guid") (str source "name")
          (str source "path") (str source "currentPath")
          (str source "creatingUser") (str source "creationDateTime")
          (str source "modifyingUser") (str source "modifiedDateTime"))).

Definition convertSyncPoints : xml -> Result (list SyncPointType) :=
  each (fun syncPoint =>
    Ok (SyncPoint.mk (str syncPoint "guid") (optInt syncPoint "timeStamp")
          (optInt syncPoint "position"))).

Definition convertTranscriptSelections : xml -> Result (list TranscriptSelectionType) :=
  each (fun selection =>
    coding ← ifPresent convertCodings selection "Coding";
    noteRef ← ifPresent convertNoteRefs selection "NoteRef";
    Ok (TranscriptSelection.mk (ifText selection "Description") coding noteRef
          (str selection "guid") (str selection "name")
          (str selection "fromSyncPoint") (str selection "toSyncPoint")
          (str selection "creatingUser") (str selection "creationDateTime")
          (str selection "modifyingUser") (str selection "modifiedDateTime"))).

Definition convertTranscripts : xml -> Result (list TranscriptType) :=
  each (fun transcript =>
    syncPoint ← ifPresent convertSyncPoints transcript "SyncPoint";
    selections ← ifPresent convertTranscriptSelections transcript "TranscriptSelection";
    noteRef ← ifPresent convertNoteRefs transcript "NoteRef";
    Ok (Transcript.mk (ifText transcript "Description")
          (ifText transcript "PlainTextContent") syncPoint selections noteRef
          (str transcript "guid") (str transcript "name")
          (str transcript "richTextPath") (str transcript "plainTextPath")
          (str transcript "creatingUser") (str transcript "creationDateTime")
          (str transcript "modifyingUser") (str transcript "modifiedDateTime"))).

(** [convertAudioSelections] and [convertVideoSelections] have the same body. *)
Definition convertAVSelections : xml -> Result (list AVSelection.t) :=
  each (fun selection =>
    coding ← ifPresent convertCodings selection "Coding";
    noteRef ← ifPresent convertNoteRefs selection "NoteRef";
    Ok (AVSelection.mk (ifText selection "Description") coding noteRef
          (str selection "guid") (str selection "name")
          (int selection "begin") (int selection "end")
          (str selection "creatingUser") (str selection "creationDateTime")
          (str selection "modifyingUser") (str selection "modifiedDateTime"))).

Definition convertAudioSelections := convertAVSelections.
Definition convertVideoSelections := convertAVSelections.

Definition convertAudioSources : xml -> Result (list AudioSourceType) :=
  each (fun source =>
    transcript ← ifPresent convertTranscripts source "Transcript";
    selections ← ifPresent convertAudioSelections source "AudioSelection";
    coding ← ifPresent convertCodings source "Coding";
    noteRef ← ifPresent convertNoteRefs source "NoteRef";
    variableValue ← ifPresent convertVariableValues source "VariableValue";
    Ok (AudioSource.mk (ifText source "Description") transcript selections coding
          noteRef variableValue (str source "guid") (str source "name")
          (str source "path") (str source "currentPath")
          (str source "creatingUser") (str source "creationDateTime")
          (str source "modifyingUser") (str source "modifiedDateTime"))).

Definition convertVideoSources : xml -> Result (list VideoSourceType) :=
  each (fun source =>
    transcript ← ifPresent convertTranscripts source "Transcript";
    selections ← ifPresent convertVideoSelections source "VideoSelection";
    coding ← ifPresent convertCodings source "Coding";
    noteRef ← ifPresent convertNoteRefs source "NoteRef";
    variableValue ← ifPresent convertVariableValues source "VariableValue";
    Ok (VideoSource.mk (ifText source "Description") transcript selections coding
          noteRef variableValue (str source "guid") (str source "name")
          (str source "path") (str source "currentPath")
          (str source "creatingUser") (str source "creationDateTime")
          (str source "modifyingUser") (str source "modifiedDateTime"))).

Definition convertSources (xmlSources : xml) : Result SourcesType :=
  textSource ← ifPresent convertTextSources xmlSources "TextSource";
  pictureSource ← ifPresent convertPictureSources xmlSources "PictureSource";
  pdfSource ← ifPresent convertPDFSources xmlSources "PDFSource";
  audioSource ← ifPresent convertAudioSources xmlSources "AudioSource";
  videoSource ← ifPresent convertVideoSources xmlSources "VideoSource";
  Ok (Sources.mk textSource pictureSource pdfSource audioSource videoSource).

Definition convertNotes (xmlNotes : xml) : Result (list TextSourceType) :=
  if Xml.truthy xmlNotes then convertTextSources xmlNotes else Ok [].

Definition convertSets : xml -> Result (list SetType) :=
  each (fun set =>
    memberCode ← ifPresent convertCodeRefs set "MemberCode";
    memberSource ← ifPresent convertSourceRefs set "MemberSource";
    memberNote ← ifPresent convertNoteRefs set "MemberNote";
    Ok (QSet.mk (ifText set "Description") memberCode memberSource memberNote
          (str set "guid") (str set "name"))).

Definition convertVertices : xml -> Result (list VertexType) :=
  each (fun vertex =>
    Ok (Vertex.mk (str vertex "guid") (str vertex "representedGUID")
          (str vertex "name") (int vertex "firstX") (int vertex "firstY")
          (optInt vertex "secondX") (optInt vertex "secondY")
          (str vertex "shape") (str vertex "color"))).

Definition convertEdges : xml -> Result (list EdgeType) :=
  each (fun edge =>
    Ok (Edge.mk (str edge "guid") (str edge "representedGUID") (str edge "name")
          (str edge "sourceVertex") (str edge "targetVertex") (str edge "color")
          (str edge "direction") (str edge "lineStyle"))).

Definition convertGraphs : xml -> Result (list GraphType) :=
  each (fun graph =>
    vertex ← ifPresent convertVertices graph "Vertex";
    edge ← ifPresent convertEdges graph "Edge";
    Ok (Graph.mk vertex edge (str graph "guid") (str graph "name"))).

Definition convertLinks : xml -> Result (list LinkType) :=
  each (fun link =>
    noteRef ← ifPresent convertNoteRefs link "NoteRef";
    Ok (Link.mk noteRef (str link "guid") (str link "name") (str link "direction")
          (str link "color") (str link "originGUID") (str link "targetGUID"))).

(** The user objects are stored as xml2js delivers them; [convertUser] is
    their view as [UserType]. *)
Definition convertUser (user : xml) : UserType :=
  User.mk (str user "guid") (str user "name") (str user "id").

(** [if (xmlProject.X) project.X = { Item: f(xmlProject.X.Item) }] *)
Definition unwrapped {A : Type} (f : xml -> Result (list A)) (xmlProject : xml)
    (key item : string) : Result (option (list A)) :=
  ifPresent (fun wrapper => f (Xml.get wrapper item)) xmlProject key.

Definition convertXmlToProject (xmlProject : xml) : Result Project :=
  noteRef ← ifPresent convertNoteRefs xmlProject "NoteRef";
  let users :=
    let wrapper := Xml.get xmlProject "Users" in
    if Xml.truthy wrapper
    then Some (map convertUser (Xml.arrayify (Xml.get wrapper "User")))
    else None in
  codeBook ←
    ifPresent (fun codeBook =>
      code ← getT (Xml.get codeBook "Codes") "Code";
      convertCodes code) xmlProject "CodeBook";
  variables ← unwrapped convertVariables xmlProject "Variables" "Variable";
  cases ← unwrapped convertCases xmlProject "Cases" "Case";
  sources ← ifPresent convertSources xmlProject "Sources";
  notes ← unwrapped convertNotes xmlProject "Notes" "Note";
  links ← unwrapped convertLinks xmlProject "Links" "Link";
  sets ← unwrapped convertSets xmlProject "Sets" "Set";
  graphs ← unwrapped convertGraphs xmlProject "Graphs" "Graph";
  Ok (Proj.mk users codeBook variables cases sources notes links sets graphs
        (str xmlProject "Description") noteRef (str xmlProject "name")
        (str xmlProject "origin") (str xmlProject "creatingUserGUID")
        (str xmlProject "creationDateTime") (str xmlProject "modifyingUserGUID")
        (str xmlProject "modifiedDateTime") (str xmlProject "basePath")).

End Parse.

(** [parseQDEFile]: every error that is not already an
    [InvalidQDPXFileError] is wrapped into one. *)
Definition parseQDEFile (qdeContent : document) : Result Project :=
  match qdeContent with
  | NotWellFormed =>
      Throw (InvalidQDPXFileError "Failed to parse QDE file: Error: document is not well-formed" [])
  | WellFormed root =>
      let xmlProject := Xml.parseString root in
      if negb (Xml.truthy (Xml.get xmlProject "Project")) then
        Throw (InvalidQDPXFileError "Invalid QDE file: <Project> element not found" [])
      else
        match Parse.convertXmlToProject (Xml.get xmlProject "Project") with
        | Ok project => Ok project
        | Throw (InvalidQDPXFileError message details) =>
            Throw (InvalidQDPXFileError message details)
        | Throw error =>
            Throw (InvalidQDPXFileError
                     ("Failed to parse QDE file: " +:+ Error_toString error) [])
        end
  end.

(** ** Validation before export ([validateProjectForExport])

    The last step of the code reports the error that [buildQDEFile] throws
    as [XML generation error]; with [buildQDEFile] total here the step adds
    nothing, as in the code on a project whose document is [xmlSafe]. *)

Definition validateProjectForExport (project : Project) : list string :=
  let errs := pushIf (negb (JS.truthy (Proj.name project))) "Project name is required" [] in
  let errs := errs ++ validateProjectGUIDs project in
  let errs := errs ++ validateProjectSources project in
  let errs := errs ++ validateProjectReferences project in
  let _ := buildQDEFile project in
  errs.

(** ** The environment of an export

    Node's [path] module and the identifier generator are parameters of the
    pipeline.  The file system is a finite map from paths to what [stat] and
    [readFile] deliver, together with the QDPX containers written so far.
    Only what an export reads and writes is kept: a container written to a
    path is recorded under that path whatever was there, the making of the
    folder of the output path is left out, and a write fails for the paths
    of [readOnly] only. *)

Definition Buffer := list Byte.byte.

Record PathModule : Type := {
  path_resolve : string -> string -> string;
  path_basename : string -> string;
  path_extname : string -> string;
  path_dirname : string -> string;
  path_relative : string -> string -> string;
  path_sep : string }.

(** A file: the size [stat] reports, and its bytes unless [readFile] fails. *)
Record FileInfo : Type := {
  size : Z;
  content : option Buffer }.

(** A written QDPX container: the [project.qde] entry and the other file
    entries.  The entries that stand for folders are not recorded. *)
Record Container : Type := {
  manifest : node;
  entries : gmap string Buffer }.

Record FileSystem : Type := {
  files : gmap string FileInfo;
  containers : gmap string Container;
  readOnly : gset string }.

Definition existsSync (fs : FileSystem) (p : string) : bool :=
  defined (files fs !! p) || defined (containers fs !! p).

(** What awaiting the [onMissingSource] promise gives. *)
Inductive Settled : Type :=
  | Resolved (answer : bool)
  | Rejected (reason : Error).

Record ExportOptions : Type := {
  includeExternalSources : option bool;
  exportBasePath : option string;
  maxInternalFileSize : option number;
  validateBeforeExport : option bool;
  overwrite : option bool;
  onMissingSource : option (string -> string -> string -> Settled) }.

Record ExportResult : Type := {
  success : bool;
  qdpxPath : string;
  result_externalSources : list string;
  result_warnings : list string }.

Record SourceInfo : Type := {
  info_guid : string;
  originalPath : string;
  sourceType : SourceKind;
  filename : string;
  extension : string }.

(** The mutable locals of an export that [processSourcesForExport] fills:
    the two result collections, the two arrays passed in by the caller, and
    how many identifiers have been drawn from the generator. *)
Record Packaging : Type := {
  sourceFiles : gmap string Buffer;
  sourceInfoList : list SourceInfo;
  warnings : list string;
  externalSources : list string;
  uuidCount : nat }.

Definition emptyPackaging (uuidCount : nat) : Packaging :=
  {| sourceFiles := ∅; sourceInfoList := []; warnings := [];
     externalSources := []; uuidCount := uuidCount |}.

(** Computations that update a state and may throw; the state survives a
    throw, as the arrays of the source do. *)
Definition M (St A : Type) : Type := St -> Result A * St.

Definition ret {St A : Type} (a : A) : M St A := fun s => (Ok a, s).

Definition bind {St A B : Type} (m : M St A) (k : A -> M St B) : M St B :=
  fun s =>
    match m s with
    | (Ok a, s') => k a s'
    | (Throw e, s') => (Throw e, s')
    end.

Definition throw {St A : Type} (e : Error) : M St A := fun s => (Throw e, s).

Definition tryCatch {St A : Type} (body : M St A) (handler : Error -> M St A)
    : M St A :=
  fun s =>
    match body s with
    | (Ok a, s') => (Ok a, s')
    | (Throw e, s') => handler e s'
    end.

Definition lift {St A : Type} (r : Result A) : M St A := fun s => (r, s).

Definition modify {St : Type} (f : St -> St) : M St unit := fun s => (Ok tt, f s).

Declare Scope m_scope.
Delimit Scope m_scope with M.
Notation "'do' x <- m ; k" := (bind m (fun x => k))
  (at level 10, x name, m at level 100, k at level 200) : m_scope.
Notation "m ;; k" := (bind m (fun _ => k))
  (at level 100, k at level 200, right associativity) : m_scope.

Definition pushWarning (w : string) : M Packaging unit :=
  modify (fun p =>
    {| sourceFiles := sourceFiles p; sourceInfoList := sourceInfoList p;
       warnings := warnings p ++ [w]; externalSources := externalSources p;
       uuidCount := uuidCount p |}).

Definition pushExternal (e : string) : M Packaging unit :=
  modify (fun p =>
    {| sourceFiles := sourceFiles p; sourceInfoList := sourceInfoList p;
       warnings := warnings p; externalSources := externalSources p ++ [e];
       uuidCount := uuidCount p |}).

Definition pushInfo (i : SourceInfo) : M Packaging unit :=
  modify (fun p =>
    {| sourceFiles := sourceFiles p; sourceInfoList := sourceInfoList p ++ [i];
       warnings := warnings p; externalSources := externalSources p;
       uuidCount := uuidCount p |}).

Definition setSourceFile (name : string) (data : Buffer) : M Packaging unit :=
  modify (fun p =>
    {| sourceFiles := <[name := data]> (sourceFiles p);
       sourceInfoList := sourceInfoList p;
       warnings := warnings p; externalSources := externalSources p;
       uuidCount := uuidCount p |}).

(** ** Source packaging ([export/source-processor.ts]) *)

Section Packaging.

Variable path : PathModule.
(** [uuidv4 n] is the [n]-th identifier the generator returns. *)
Variable uuidv4 : nat -> string.
Variable fs : FileSystem.

(** [resolveSourcePath(pathString, basePath)] *)
Definition resolveSourcePath (pathString : string) (basePath : option string)
    : Result string :=
  if JS.startsWith pathString "internal://" then
    let filename := JS.substring pathString 11 in
    Ok (if JS.truthy basePath then path_resolve path (default "" basePath) filename
        else filename)
  else if JS.startsWith pathString "relative://" then
    let relativePath := JS.substring pathString 11 in
    if negb (JS.truthy basePath) then
      Throw (ExportError ("Base path required for relative path: " +:+ pathString) [])
    else
      let cleanRelativePath :=
        if JS.startsWith relativePath "/" then JS.substring relativePath 1
        else relativePath in
      Ok (path_resolve path (default "" basePath) cleanRelativePath)
  else if JS.startsWith pathString "absolute://" then
    let absolutePath := JS.substring pathString 11 in
    Ok (JS.replaceAll "/" (path_sep path) absolutePath)
  else
    Ok (if JS.truthy basePath then path_resolve path (default "" basePath) pathString
        else pathString).

(** [fs.promises.stat(p)]: the size, or a rejection. *)
Definition stat (p : string) : Result Z :=
  match files fs !! p with
  | Some file => Ok (size file)
  | None =>
      Throw (JsError "Error" ("ENOENT: no such file or directory, stat '" +:+ p +:+ "'"))
  end.

(** [readSourceFile(filePath)] *)
Definition readSourceFile (filePath : string) : Result Buffer :=
  match files fs !! filePath ≫= content with
  | Some data => Ok data
  | None => Throw (ExportError ("Failed to read source file: " +:+ filePath +:+ ": ") [])
  end.

Definition nextUuid : M Packaging string :=
  fun p =>
    (Ok (uuidv4 (uuidCount p)),
     {| sourceFiles := sourceFiles p; sourceInfoList := sourceInfoList p;
        warnings := warnings p; externalSources := externalSources p;
        uuidCount := S (uuidCount p) |}).

(** [source.path.startsWith("absolute://") ? "absolute" : "relative"] *)
Definition externalKind (sourcePath : string) : SourceKind :=
  if JS.startsWith sourcePath "absolute://" then absolute else relative.

Open Scope m_scope.

(** The closure [processSource(source, sourceType)] of
    [processSourcesForExport], on the three properties it reads.  A source
    whose [guid] is not a string fails [hasPathProperties] and is skipped. *)
Definition processSource (options : ExportOptions)
    (guid path_ currentPath : option string) (sourceTypeName : string)
    : M Packaging unit :=
  match guid with
  | None => ret tt
  | Some guid =>
      if negb (JS.truthy path_) then ret tt
      else
        let sourcePath_ := default "" path_ in
        if JS.startsWith sourcePath_ "internal://" then
          let filename := JS.substring sourcePath_ 11 in
          pushInfo {| info_guid := guid;
                      originalPath := JS.or_else currentPath "";
                      sourceType := internal;
                      filename := filename;
                      extension := path_extname path filename |} ;;
          if JS.truthy currentPath then
            tryCatch
              (do originalPath <- lift (resolveSourcePath (default "" currentPath) None);
               do fileData <- lift (readSourceFile originalPath);
               setSourceFile ("sources/" +:+ filename) fileData)
              (fun _ =>
                 pushWarning ("Could not include internal source: "
                              +:+ default "" currentPath))
          else ret tt
        else
          tryCatch
            (do sourcePath <- lift (resolveSourcePath sourcePath_ (exportBasePath options));
             let filename := path_basename path sourcePath in
             let extension := path_extname path filename in
             tryCatch
               (do size <- lift (stat sourcePath);
                let maxSize := default (Int 2147483646) (maxInternalFileSize options) in
                if Number.int_le size maxSize
                   && default false (includeExternalSources options)
                then
                  do uuid <- nextUuid;
                  let newFilename := uuid +:+ extension in
                  do fileData <- lift (readSourceFile sourcePath);
                  setSourceFile ("sources/" +:+ newFilename) fileData ;;
                  pushInfo {| info_guid := guid; originalPath := sourcePath;
                              sourceType := internal; filename := newFilename;
                              extension := extension |}
                else
                  pushExternal sourcePath ;;
                  pushInfo {| info_guid := guid; originalPath := sourcePath;
                              sourceType := externalKind sourcePath_;
                              filename := filename; extension := extension |})
               (fun _ =>
                  do handleMissing <-
                    match onMissingSource options with
                    | Some callback =>
                        match callback sourcePath sourceTypeName guid with
                        | Resolved answer => ret answer
                        | Rejected reason => throw reason
                        end
                    | None => ret true
                    end;
                  if negb handleMissing then
                    throw (ExportError ("Export aborted due to missing source: "
                                        +:+ sourcePath) [])
                  else
                    pushWarning ("Could not process source: " +:+ sourcePath) ;;
                    pushInfo {| info_guid := guid; originalPath := sourcePath;
                                sourceType := externalKind sourcePath_;
                                filename := filename; extension := extension |}))
            (fun _ => pushWarning ("Invalid source path: " +:+ sourcePath_))
  end.

(** [for (const source of list) await processSource(source, name)] *)
Fixpoint forOf {A : Type} (f : A -> M Packaging unit) (l : list A) : M Packaging unit :=
  match l with
  | [] => ret tt
  | x :: l' => f x ;; forOf f l'
  end.

Definition forOfOpt {A : Type} (f : A -> M Packaging unit) (l : option (list A))
    : M Packaging unit :=
  match l with
  | Some l => forOf f l
  | None => ret tt
  end.

(** [processSourcesForExport(project, options, warnings, externalSources)];
    the result object is the [sourceFiles] and [sourceInfoList] of the final
    state. *)
Definition processSourcesForExport (project : Project) (options : ExportOptions)
    : M Packaging unit :=
  match Proj.Sources project with
  | None => ret tt
  | Some sources =>
      forOfOpt (fun s => processSource options (TextSource.guid s) (TextSource.path s)
                  (TextSource.currentPath s) "TextSource") (Sources.TextSource sources) ;;
      forOfOpt (fun s => processSource options (PictureSource.guid s)
                  (PictureSource.path s) (PictureSource.currentPath s) "PictureSource")
        (Sources.PictureSource sources) ;;
      forOfOpt (fun s => processSource options (PDFSource.guid s) (PDFSource.path s)
                  (PDFSource.currentPath s) "PDFSource") (Sources.PDFSource sources) ;;
      forOfOpt (fun s => processSource options (AudioSource.guid s) (AudioSource.path s)
                  (AudioSource.currentPath s) "AudioSource") (Sources.AudioSource sources) ;;
      forOfOpt (fun s => processSource options (VideoSource.guid s) (VideoSource.path s)
                  (VideoSource.currentPath s) "VideoSource") (Sources.VideoSource sources)
  end.

Close Scope m_scope.

End Packaging.

(** ** The object store

    [exportQDPX] receives a reference to the caller's project and works on
    [JSON.parse(JSON.stringify(project))].  To state what it may and may not
    modify, the objects that the export pipeline writes to (the project
    object and the source objects) live in a store, addressed by location;
    everything below a source is never written and stays a value inside its
    cell. *)

Inductive AnySource : Type :=
  | TextS (s : TextSourceType)
  | PictureS (s : PictureSourceType)
  | PDFS (s : PDFSourceType)
  | AudioS (s : AudioSourceType)
  | VideoS (s : VideoSourceType).

Abbreviation loc := nat.

Abbreviation SourceLocs := (Sources.t loc loc loc loc loc).

Inductive Cell : Type :=
  | ProjectCell (p : Proj.t SourceLocs)
  | SourceCell (s : AnySource).

Abbreviation Heap := (list Cell).

Module Source.

Definition guid (s : AnySource) : option GUIDType :=
  match s with
  | TextS s => TextSource.guid s
  | PictureS s => PictureSource.guid s
  | PDFS s => PDFSource.guid s
  | AudioS s => AudioSource.guid s
  | VideoS s => VideoSource.guid s
  end.

Definition path (s : AnySource) : option string :=
  match s with
  | TextS s => TextSource.path s
  | PictureS s => PictureSource.path s
  | PDFS s => PDFSource.path s
  | AudioS s => AudioSource.path s
  | VideoS s => VideoSource.path s
  end.

Definition currentPath (s : AnySource) : option string :=
  match s with
  | TextS s => TextSource.currentPath s
  | PictureS s => PictureSource.currentPath s
  | PDFS s => PDFSource.currentPath s
  | AudioS s => AudioSource.currentPath s
  | VideoS s => VideoSource.currentPath s
  end.

(** [source.path = p; source.currentPath = c], every other property kept. *)
Definition setPaths (p c : option string) (s : AnySource) : AnySource :=
  match s with
  | TextS s =>
      TextS (TextSource.mk (TextSource.Description s) (TextSource.PlainTextContent s)
               (TextSource.PlainTextSelection s) (TextSource.Coding s)
               (TextSource.NoteRef s) (TextSource.VariableValue s) (TextSource.guid s)
               (TextSource.name s) (TextSource.richTextPath s)
               (TextSource.plainTextPath s) (TextSource.creatingUser s)
               (TextSource.creationDateTime s) (TextSource.modifyingUser s)
               (TextSource.modifiedDateTime s) p c)
  | PictureS s =>
      PictureS (PictureSource.mk (PictureSource.Description s)
                  (PictureSource.TextDescription s) (PictureSource.PictureSelection s)
                  (PictureSource.Coding s) (PictureSource.NoteRef s)
                  (PictureSource.VariableValue s) (PictureSource.guid s)
                  (PictureSource.name s) p c (PictureSource.creatingUser s)
                  (PictureSource.creationDateTime s) (PictureSource.modifyingUser s)
                  (PictureSource.modifiedDateTime s))
  | PDFS s =>
      PDFS (PDFSource.mk (PDFSource.Description s) (PDFSource.PDFSelection s)
              (PDFSource.Representation s) (PDFSource.Coding s) (PDFSource.NoteRef s)
              (PDFSource.VariableValue s) (PDFSource.guid s) (PDFSource.name s) p c
              (PDFSource.creatingUser s) (PDFSource.creationDateTime s)
              (PDFSource.modifyingUser s) (PDFSource.modifiedDateTime s))
  | AudioS s =>
      AudioS (AudioSource.mk (AudioSource.Description s) (AudioSource.Transcript s)
                (AudioSource.AudioSelection s) (AudioSource.Coding s)
                (AudioSource.NoteRef s) (AudioSource.VariableValue s)
                (AudioSource.guid s) (AudioSource.name s) p c
                (AudioSource.creatingUser s) (AudioSource.creationDateTime s)
                (AudioSource.modifyingUser s) (AudioSource.modifiedDateTime s))
  | VideoS s =>
      VideoS (VideoSource.mk (VideoSource.Description s) (VideoSource.Transcript s)
                (VideoSource.VideoSelection s) (VideoSource.Coding s)
                (VideoSource.NoteRef s) (VideoSource.VariableValue s)
                (VideoSource.guid s) (VideoSource.name s) p c
                (VideoSource.creatingUser s) (VideoSource.creationDateTime s)
                (VideoSource.modifyingUser s) (VideoSource.modifiedDateTime s))
  end.

End Source.

Module Store.

(** The project record with another representation of its sources. *)
Definition withSources {S T : Type} (p : Proj.t S) (sources : option T) : Proj.t T :=
  Proj.mk (Proj.Users p) (Proj.CodeBook p) (Proj.Variables p) (Proj.Cases p) sources
    (Proj.Notes p) (Proj.Links p) (Proj.Sets p) (Proj.Graphs p) (Proj.Description p)
    (Proj.NoteRef p) (Proj.name p) (Proj.origin p) (Proj.creatingUserGUID p)
    (Proj.creationDateTime p) (Proj.modifyingUserGUID p) (Proj.modifiedDateTime p)
    (Proj.basePath p).

(** [project.basePath = basePath] *)
Definition withBasePath {S : Type} (p : Proj.t S) (basePath : option string) : Proj.t S :=
  Proj.mk (Proj.Users p) (Proj.CodeBook p) (Proj.Variables p) (Proj.Cases p)
    (Proj.Sources p) (Proj.Notes p) (Proj.Links p) (Proj.Sets p) (Proj.Graphs p)
    (Proj.Description p) (Proj.NoteRef p) (Proj.name p) (Proj.origin p)
    (Proj.creatingUserGUID p) (Proj.creationDateTime p) (Proj.modifyingUserGUID p)
    (Proj.modifiedDateTime p) basePath.

(** The sources of one kind that a list of locations points to. *)
Definition readList {A : Type} (pick : AnySource -> option A) (h : Heap)
    (ls : option (list loc)) : option (option (list A)) :=
  match ls with
  | None => Some None
  | Some ls =>
      Some <$> mapM (fun l =>
        match h !! l with
        | Some (SourceCell s) => pick s
        | _ => None
        end) ls
  end.

Definition readSources (h : Heap) (ls : SourceLocs) : option SourcesType :=
  t ← readList (fun s => match s with TextS s => Some s | _ => None end) h
         (Sources.TextSource ls);
  p ← readList (fun s => match s with PictureS s => Some s | _ => None end) h
         (Sources.PictureSource ls);
  d ← readList (fun s => match s with PDFS s => Some s | _ => None end) h
         (Sources.PDFSource ls);
  a ← readList (fun s => match s with AudioS s => Some s | _ => None end) h
         (Sources.AudioSource ls);
  v ← readList (fun s => match s with VideoS s => Some s | _ => None end) h
         (Sources.VideoSource ls);
  Some (Sources.mk t p d a v).

(** The project value that the object graph at [l] represents. *)
Definition readProject (h : Heap) (l : loc) : option Project :=
  match h !! l with
  | Some (ProjectCell p) =>
      match Proj.Sources p with
      | None => Some (withSources p None)
      | Some ls => sources ← readSources h ls; Some (withSources p (Some sources))
      end
  | _ => None
  end.

(** Fresh objects for a list of sources: their locations and the store. *)
Definition allocList {A : Type} (wrap : A -> AnySource) (l : option (list A))
    (h : Heap) : option (list loc) * Heap :=
  match l with
  | None => (None, h)
  | Some l => (Some (seq (length h) (length l)), h ++ map (fun s => SourceCell (wrap s)) l)
  end.

(** A fresh object graph for a project value. *)
Definition allocProject (p : Project) (h : Heap) : loc * Heap :=
  match Proj.Sources p with
  | None => (length h, h ++ [ProjectCell (withSources p None)])
  | Some sources =>
      let '(t, h) := allocList TextS (Sources.TextSource sources) h in
      let '(pi, h) := allocList PictureS (Sources.PictureSource sources) h in
      let '(d, h) := allocList PDFS (Sources.PDFSource sources) h in
      let '(a, h) := allocList AudioS (Sources.AudioSource sources) h in
      let '(v, h) := allocList VideoS (Sources.VideoSource sources) h in
      (length h, h ++ [ProjectCell (withSources p (Some (Sources.mk t pi d a v)))])
  end.

End Store.

(** ** Export ([export/index.ts]) *)

Record World : Type := {
  heap : Heap;
  fsys : FileSystem;
  uuids : nat }.

Section ExportPipeline.

Variable path : PathModule.
Variable uuidv4 : nat -> string.

(** [`absolute:///${info.originalPath.replace(/\\/g, "/")}`] *)
Definition absoluteAddress (info : SourceInfo) : string :=
  "absolute:///" +:+ JS.replaceAll "\" "/" (originalPath info).

(** The closure [updateSourcePath(source, info)] of
    [updateProjectSourcePaths]; [basePath] is [project.basePath]. *)
Definition updateSourcePath (basePath : option string) (source : AnySource)
    (info : SourceInfo) : AnySource :=
  match Source.guid source with
  | None => source
  | Some _ =>
      let currentPath :=
        if defined (Source.currentPath source) then Some (absoluteAddress info)
        else Source.currentPath source in
      match sourceType info with
      | internal =>
          Source.setPaths (Some ("internal://" +:+ filename info)) currentPath source
      | relative =>
          let relativePath :=
            path_relative path (JS.or_else basePath "") (originalPath info) in
          Source.setPaths (Some ("relative:///" +:+ JS.replaceAll "\" "/" relativePath))
            currentPath source
      | absolute =>
          Source.setPaths (Some (absoluteAddress info)) (Source.currentPath source) source
      end
  end.

(** [sourceInfoList.forEach((info) => sourceMap.set(info.guid, info))] *)
Definition sourceMapOf (sourceInfoList : list SourceInfo) : gmap string SourceInfo :=
  fold_left (fun m info => <[info_guid info := info]> m) sourceInfoList ∅.

(** One iteration of a [for (const source of ...)] loop of
    [updateProjectSourcePaths], on the source object at [l]. *)
Definition updateAt (sourceMap : gmap string SourceInfo) (basePath : option string)
    (l : loc) (h : Heap) : Heap :=
  match h !! l with
  | Some (SourceCell source) =>
      match Source.guid source ≫= (sourceMap !!.) with
      | Some info => <[l := SourceCell (updateSourcePath basePath source info)]> h
      | None => h
      end
  | _ => h
  end.

Definition updateAll (sourceMap : gmap string SourceInfo) (basePath : option string)
    (ls : option (list loc)) (h : Heap) : Heap :=
  match ls with
  | Some ls => fold_left (fun h l => updateAt sourceMap basePath l h) ls h
  | None => h
  end.

(** [updateProjectSourcePaths(project, sourceInfoList)] on the project object
    at [project]. *)
Definition updateProjectSourcePaths (project : loc) (sourceInfoList : list SourceInfo)
    (h : Heap) : Heap :=
  let sourceMap := sourceMapOf sourceInfoList in
  match h !! project with
  | Some (ProjectCell p) =>
      match Proj.Sources p with
      | None => h
      | Some sources =>
          let h := updateAll sourceMap (Proj.basePath p) (Sources.TextSource sources) h in
          let h := updateAll sourceMap (Proj.basePath p) (Sources.PictureSource sources) h in
          let h := updateAll sourceMap (Proj.basePath p) (Sources.PDFSource sources) h in
          let h := updateAll sourceMap (Proj.basePath p) (Sources.AudioSource sources) h in
          updateAll sourceMap (Proj.basePath p) (Sources.VideoSource sources) h
      end
  | _ => h
  end.

(** The object literal [exportOptions] of [exportQDPX]: the caller's options
    with the defaults filled in.  It has no [onMissingSource] property. *)
Definition configureOptions (options : ExportOptions) (outputPath : string)
    : ExportOptions :=
  {| includeExternalSources := Some (default false (includeExternalSources options));
     exportBasePath :=
       Some (JS.or_else (exportBasePath options) (path_dirname path outputPath));
     maxInternalFileSize :=
       Some (match maxInternalFileSize options with
             | Some n => if Number.truthy n then n else Int 2147483647
             | None => Int 2147483647
             end);
     validateBeforeExport := Some (default true (validateBeforeExport options));
     overwrite := Some (default false (overwrite options));
     onMissingSource := None |}.

Definition setHeap (h : Heap) : M World unit :=
  modify (fun w => {| heap := h; fsys := fsys w; uuids := uuids w |}).

(** A read of the object graph at [l]; a dangling reference is a [TypeError]. *)
Definition readProjectM (l : loc) : M World Project :=
  fun w =>
    match Store.readProject (heap w) l with
    | Some p => (Ok p, w)
    | None => (Throw (JsError "TypeError" "Cannot read properties of undefined"), w)
    end.

(** [createQDPXFile(outputPath, qdeContent, sourceFiles)]: every file is
    stored under the [sources/] folder of the archive. *)
Definition createQDPXFile (outputPath : string) (qdeContent : node)
    (sourceFiles : gmap string Buffer) : M World unit :=
  fun w =>
    if bool_decide (outputPath ∈ readOnly (fsys w)) then
      (Throw (ExportError ("Failed to create QDPX file: Error: EACCES: permission denied, open '"
                           +:+ outputPath +:+ "'") []), w)
    else
      let zip :=
        {| manifest := qdeContent;
           entries :=
             list_to_map
               (map (fun kv =>
                       ("sources/" +:+
                          (if JS.startsWith (fst kv) "sources/"
                           then JS.substring (fst kv) 8 else fst kv),
                        snd kv))
                  (map_to_list sourceFiles)) |} in
      (Ok tt,
       {| heap := heap w;
          fsys := {| files := files (fsys w);
                     containers := <[outputPath := zip]> (containers (fsys w));
                     readOnly := readOnly (fsys w) |};
          uuids := uuids w |}).

Open Scope m_scope.

(** The [try] block of [exportQDPX]. *)
Definition exportBody (project : loc) (outputPath : string) (options : ExportOptions)
    : M World ExportResult :=
  (* const projectCopy = JSON.parse(JSON.stringify(project)); the copy has
     the numbers of the original, where JSON writes null for NaN and the
     infinities *)
  do original <- readProjectM project;
  do projectCopy <-
    (fun w =>
       let '(l, h) := Store.allocProject original (heap w) in
       (Ok l, {| heap := h; fsys := fsys w; uuids := uuids w |}));
  let exportOptions := configureOptions options outputPath in
  do w <- (fun w => (Ok w, w));
  if existsSync (fsys w) outputPath && negb (default false (overwrite exportOptions)) then
    throw (ExportError ("Output file already exists: " +:+ outputPath
                        +:+ ". Use overwrite option to replace it.") [])
  else
    (* projectCopy.basePath = exportOptions.exportBasePath *)
    (fun w =>
       match heap w !! projectCopy with
       | Some (ProjectCell p) =>
           if negb (JS.truthy (Proj.basePath p))
              && JS.truthy (exportBasePath exportOptions)
           then
             setHeap (<[projectCopy :=
                          ProjectCell (Store.withBasePath p (exportBasePath exportOptions))]>
                        (heap w)) w
           else (Ok tt, w)
       | _ => (Throw (JsError "TypeError" "Cannot read properties of undefined"), w)
       end) ;;
    do copyValue <- readProjectM projectCopy;
    (if default true (validateBeforeExport exportOptions) then
       match validateProjectForExport copyValue with
       | [] => ret tt
       | validationErrors =>
           throw (ExportError "Project validation failed before export" validationErrors)
       end
     else ret tt) ;;
    do packaging <-
      (fun w =>
         let '(r, packaging) :=
           processSourcesForExport path uuidv4 (fsys w) copyValue exportOptions
             (emptyPackaging (uuids w)) in
         ((fun _ => packaging) <$> r,
          {| heap := heap w; fsys := fsys w; uuids := uuidCount packaging |}));
    (fun w =>
       setHeap (updateProjectSourcePaths projectCopy (sourceInfoList packaging) (heap w)) w) ;;
    do updated <- readProjectM projectCopy;
    let qdeContent := buildQDEFile updated in
    createQDPXFile outputPath qdeContent (sourceFiles packaging) ;;
    ret {| success := true; qdpxPath := outputPath;
           result_externalSources := externalSources packaging;
           result_warnings := warnings packaging |}.

(** [exportQDPX(project, outputPath, options)] *)
Definition exportQDPX (project : loc) (outputPath : string) (options : ExportOptions)
    : M World ExportResult :=
  tryCatch (exportBody project outputPath options)
    (fun error =>
       match error with
       | ExportError _ _ => throw error
       | _ => throw (ExportError ("Failed to export QDPX file:" +:+ Error_toString error) [])
       end).

Close Scope m_scope.

End ExportPipeline.

(** ** A concrete environment

    A small POSIX-flavoured instance of the [path] module, an identifier
    generator, and the projects and file systems that the examples and
    counterexamples below run on. *)

Module Posix.

(** The text after the last occurrence of [c] in [s], if [c] occurs. *)
Fixpoint afterLast (c : ascii) (s : string) : option string :=
  match s with
  | EmptyString => None
  | String a s' =>
      match afterLast c s' with
      | Some r => Some r
      | None => if Ascii.eqb a c then Some s' else None
      end
  end.

(** The text before the last occurrence of [c] in [s], if [c] occurs. *)
Fixpoint beforeLast (c : ascii) (s : string) : option string :=
  match s with
  | EmptyString => None
  | String a s' =>
      match beforeLast c s' with
      | Some r => Some (String a r)
      | None => if Ascii.eqb a c then Some EmptyString else None
      end
  end.

Definition resolve (base p : string) : string :=
  if JS.startsWith p "/" then p else base +:+ "/" +:+ p.

Definition basename (p : string) : string := default p (afterLast "/" p).

Definition extname (p : string) : string :=
  match afterLast "." (basename p) with
  | Some ext => "." +:+ ext
  | None => ""
  end.

Definition dirname (p : string) : string :=
  match beforeLast "/" p with
  | Some "" => "/"
  | Some d => d
  | None => "."
  end.

Definition relativeTo (from to : string) : string :=
  if JS.startsWith to (from +:+ "/")
  then JS.substring to (S (String.length from))
  else to.

Definition path : PathModule :=
  {| path_resolve := resolve; path_basename := basename; path_extname := extname;
     path_dirname := dirname; path_relative := relativeTo; path_sep := "/" |}.

(** A generator whose [n]-th identifier ends in the digits of [n]. *)
Definition uuidv4 (n : nat) : string := "00000000-0000-4000-8000-" +:+ pretty n.

End Posix.

Module Examples.

Definition guidA : GUIDType := "11111111-1111-1111-1111-111111111111".
Definition guidB : GUIDType := "22222222-2222-2222-2222-222222222222".
Definition guidMissing : GUIDType := "99999999-9999-9999-9999-999999999999".

(** The project in which every property is [undefined]. *)
Definition emptyProject : Project :=
  Proj.mk None None None None None None None None None None None None None None None
    None None None.

Definition named (name : string) (sources : option SourcesType)
    (notes : option (list TextSourceType)) : Project :=
  Proj.mk None None None None sources notes None None None None None (Some name) None
    None None None None None.

Definition textSource (guid : GUIDType) (content : string)
    (noteRef : option (list NoteRefType)) : TextSourceType :=
  TextSource.mk None (Some content) None None noteRef None (Some guid) None None None
    None None None None None None.

Definition pdfSource (guid : GUIDType) (path : string) : PDFSourceType :=
  PDFSource.mk None None None None None None (Some guid) None (Some path) None None
    None None None.

(** The project of the specification's scenario: name ["P1"], one text
    source with content ["hello"]. *)
Definition scenarioProject : Project :=
  named "P1" (Some (Sources.mk (Some [textSource guidA "hello" None]) None None None None))
    None.

(** A project with one PDF source at the given address. *)
Definition pdfProject (path : string) : Project :=
  named "P1" (Some (Sources.mk None None (Some [pdfSource guidA path]) None None)) None.

(** A project whose only note refers to a note that does not exist. *)
Definition danglingNoteProject : Project :=
  named "P1" None
    (Some [textSource guidA "memo" (Some [Ref.mk (Some guidMissing)])]).

(** The same dangling reference on a text source under [Sources]. *)
Definition danglingSourceProject : Project :=
  named "P1"
    (Some (Sources.mk (Some [textSource guidA "memo" (Some [Ref.mk (Some guidMissing)])])
             None None None None))
    None.

(** Two notes with one identifier. *)
Definition duplicateNotesProject : Project :=
  named "P1" None (Some [textSource guidA "first" None; textSource guidA "second" None]).

(** Two text sources with one identifier. *)
Definition duplicateSourcesProject : Project :=
  named "P1"
    (Some (Sources.mk (Some [textSource guidA "first" None; textSource guidA "second" None])
             None None None None))
    None.

Definition policy (includeExternalSources : option bool)
    (maxInternalFileSize : option number)
    (onMissingSource : option (string -> string -> string -> Settled)) : ExportOptions :=
  {| includeExternalSources := includeExternalSources; exportBasePath := None;
     maxInternalFileSize := maxInternalFileSize; validateBeforeExport := None;
     overwrite := None; onMissingSource := onMissingSource |}.

Definition noFiles : FileSystem := {| files := ∅; containers := ∅; readOnly := ∅ |}.

(** A file system with one readable file of the given size at [/out/a.pdf]. *)
Definition oneFile (size : Z) : FileSystem :=
  {| files := {[ "/out/a.pdf" := {| size := size; content := Some [] |} ]};
     containers := ∅; readOnly := ∅ |}.

(** The world in which the caller holds [project] as its only object graph. *)
Definition worldOf (project : Project) (fs : FileSystem) : loc * World :=
  let '(l, h) := Store.allocProject project [] in
  (l, {| heap := h; fsys := fs; uuids := 0 |}).

(** [exportQDPX(project, "/out/p.qdpx", options)] in that world. *)
Definition export (project : Project) (fs : FileSystem) (options : ExportOptions)
    : Result ExportResult * World :=
  let '(l, w) := worldOf project fs in
  exportQDPX Posix.path Posix.uuidv4 l "/out/p.qdpx" options w.

(** The address of the first PDF source of the working copy after an export. *)
Definition exportedPdfPath (w : World) : option string :=
  match last (heap w) with
  | Some (ProjectCell p) =>
      match Proj.Sources p ≫= Sources.PDFSource with
      | Some (l :: _) =>
          match heap w !! l with
          | Some (SourceCell s) => Source.path s
          | _ => None
          end
      | _ => None
      end
  | _ => None
  end.

End Examples.

(** ** Auxiliary definitions of the statements *)

(** An object without the property [key]. *)
Definition dropKey (key : string) (fields : list (string * xml)) : list (string * xml) :=
  List.filter (fun kv => negb (String.eqb (fst kv) key)) fields.

(** [project] with [name] instead of its name. *)
Definition withName (name : option string) (project : Project) : Project :=
  Proj.mk (Proj.Users project) (Proj.CodeBook project) (Proj.Variables project)
    (Proj.Cases project) (Proj.Sources project) (Proj.Notes project)
    (Proj.Links project) (Proj.Sets project) (Proj.Graphs project)
    (Proj.Description project) (Proj.NoteRef project) name (Proj.origin project)
    (Proj.creatingUserGUID project) (Proj.creationDateTime project)
    (Proj.modifyingUserGUID project) (Proj.modifiedDateTime project)
    (Proj.basePath project).

Module Documents.

(** [<Project origin="Test"/>]: a root element without the [name] attribute. *)
Definition withoutName : document :=
  WellFormed (Element "Project" [("origin", "Test")] [] "").

(** [<Projekt name="P1"/>]: no [Project] root. *)
Definition wrongRoot : document :=
  WellFormed (Element "Projekt" [("name", "P1")] [] "").

(** A project with one text source whose selection has the positions
    ["abc"] and ["12x"]. *)
Definition malformedPositions : document :=
  WellFormed
    (Element "Project" [("name", "P1")]
       [Element "Sources" []
          [Element "TextSource" [("guid", Examples.guidA)]
             [Element "PlainTextSelection"
                [("guid", Examples.guidB); ("startPosition", "abc");
                 ("endPosition", "12x")] [] ""] ""] ""] "").

(** A case with the variable values [IntegerValue] ["seven"] and
    [FloatValue] ["n/a"]. *)
Definition malformedValues : document :=
  WellFormed
    (Element "Project" [("name", "P1")]
       [Element "Cases" []
          [Element "Case" [("guid", Examples.guidA)]
             [Element "VariableValue" []
                [Element "VariableRef" [("targetGUID", Examples.guidB)] [] "";
                 Element "IntegerValue" [] [] "seven"] "";
              Element "VariableValue" []
                [Element "VariableRef" [("targetGUID", Examples.guidB)] [] "";
                 Element "FloatValue" [] [] "n/a"] ""] ""] ""] "").

End Documents.

Module Inspect.

(** The first selection of the first text source of a parsed project. *)
Definition firstSelection (r : Result Project) : option PlainTextSelectionType :=
  match r with
  | Ok project =>
      sources ← Proj.Sources project;
      textSources ← Sources.TextSource sources;
      textSource ← head textSources;
      selections ← TextSource.PlainTextSelection textSource;
      head selections
  | Throw _ => None
  end.

(** The variable values of the first case of a parsed project. *)
Definition firstCaseValues (r : Result Project) : list VariableValueType :=
  match r with
  | Ok project =>
      default [] (cases ← Proj.Cases project; c ← head cases; Case.VariableValue c)
  | Throw _ => []
  end.

Definition isOk {A : Type} (r : Result A) : bool :=
  match r with
  | Ok _ => true
  | Throw _ => false
  end.

End Inspect.

(** ** Source resolution on import ([import/source-resolver.ts]) *)

(** [SourceFile]: a source with its address and the kind of the address. *)
Record SourceFile : Type := {
  file_guid : option GUIDType;
  file_sourcePath : string;
  file_sourceType : SourceKind;
  file_exists : bool }.

(** The closure [processSource(source)] of [getAllSourcePaths]: a source
    with a truthy [path] adds one entry. *)
Definition sourceFileOf (guid path : option string) : list SourceFile :=
  if JS.truthy path then
    [{| file_guid := guid; file_sourcePath := default "" path;
        file_sourceType := getSourceType (default "" path); file_exists := false |}]
  else [].

(** [getAllSourcePaths(project)] *)
Definition getAllSourcePaths (project : Project) : list SourceFile :=
  match Proj.Sources project with
  | None => []
  | Some sources =>
      concatMap (fun s => sourceFileOf (TextSource.guid s) (TextSource.path s))
        (Sources.TextSource sources)
      ++ concatMap (fun s => sourceFileOf (PictureSource.guid s) (PictureSource.path s))
           (Sources.PictureSource sources)
      ++ concatMap (fun s => sourceFileOf (PDFSource.guid s) (PDFSource.path s))
           (Sources.PDFSource sources)
      ++ concatMap (fun s => sourceFileOf (AudioSource.guid s) (AudioSource.path s))
           (Sources.AudioSource sources)
      ++ concatMap (fun s => sourceFileOf (VideoSource.guid s) (VideoSource.path s))
           (Sources.VideoSource sources)
  end.

(** [resolvePath(pathString, basePath, sourceType)].  Every branch removes
    the first eleven characters, the length of a scheme prefix, whether or
    not the address carries one.  [path.resolve] and [String.replace] do not
    throw on strings, so the [catch] branch is not represented. *)
Definition resolvePath (path : PathModule) (pathString basePath : string)
    (sourceType : SourceKind) : string :=
  match sourceType with
  | internal => path_resolve path basePath (JS.substring pathString 11)
  | relative =>
      let relativePath := JS.substring pathString 11 in
      let cleanRelativePath :=
        if JS.startsWith relativePath "/" then JS.substring relativePath 1
        else relativePath in
      path_resolve path basePath cleanRelativePath
  | absolute => JS.replaceAll "/" (path_sep path) (JS.substring pathString 11)
  end.

Definition isExternal (source : SourceFile) : bool :=
  match file_sourceType source with
  | internal => false
  | relative | absolute => true
  end.

(** The loop of [resolveExternalSources]: [fs.promises.access(fullPath)]
    rejects when nothing exists at [fullPath]. *)
Fixpoint missingPathsOf (path : PathModule) (fs : FileSystem) (basePath : string)
    (externalSources : list SourceFile) (missingPaths : list string) : list string :=
  match externalSources with
  | [] => missingPaths
  | source :: rest =>
      let fullPath :=
        resolvePath path (file_sourcePath source) basePath (file_sourceType source) in
      missingPathsOf path fs basePath rest
        (if existsSync fs fullPath then missingPaths else missingPaths ++ [fullPath])
  end.

(** [resolveExternalSources(project, basePath)] *)
Definition resolveExternalSources (path : PathModule) (fs : FileSystem)
    (project : Project) (basePath : string) : list string :=
  let sources := getAllSourcePaths project in
  let externalSources := List.filter isExternal sources in
  missingPathsOf path fs basePath externalSources [].

(** ** Source paths on import ([import/validators.ts], [validateSourcePaths]) *)

(** The closure [validateSource(source, type)]. *)
Definition validateSource (guid name path : option string) (errs : list string)
    : list string :=
  pushIf (negb (JS.truthy path))
    ("Source " +:+ default "undefined" guid +:+ " (" +:+ JS.or_else name "unnamed"
     +:+ ") has no path") errs.

(** The closure [validateTextSource(source)] of [validateSourcePaths]. *)
Definition validateTextSourcePath (source : TextSourceType) (errs : list string)
    : list string :=
  let errs :=
    validateSource (TextSource.guid source) (TextSource.name source)
      (TextSource.path source) errs in
  pushIf (JS.truthy (TextSource.PlainTextContent source)
          && JS.truthy (TextSource.plainTextPath source))
    ("TextSource " +:+ default "undefined" (TextSource.guid source) +:+ " ("
     +:+ JS.or_else (TextSource.name source) "unnamed"
     +:+ ") has both PlainTextContent and plainTextPath") errs.

(** [for (const source of list) f(source)] on the error list. *)
Definition forEachSource {A : Type} (f : A -> list string -> list string)
    (l : option (list A)) (errs : list string) : list string :=
  match l with
  | Some l => fold_left (fun errs source => f source errs) l errs
  | None => errs
  end.

Definition validateSourcePaths (project : Project) : list string :=
  match Proj.Sources project with
  | None => []
  | Some sources =>
      let errs := forEachSource validateTextSourcePath (Sources.TextSource sources) [] in
      let errs :=
        forEachSource (fun s => validateSource (PictureSource.guid s)
                         (PictureSource.name s) (PictureSource.path s))
          (Sources.PictureSource sources) errs in
      let errs :=
        forEachSource (fun s => validateSource (PDFSource.guid s) (PDFSource.name s)
                         (PDFSource.path s))
          (Sources.PDFSource sources) errs in
      let errs :=
        forEachSource (fun s => validateSource (AudioSource.guid s) (AudioSource.name s)
                         (AudioSource.path s))
          (Sources.AudioSource sources) errs in
      forEachSource (fun s => validateSource (VideoSource.guid s) (VideoSource.name s)
                       (VideoSource.path s))
        (Sources.VideoSource sources) errs
  end.

(** * Vocabulary of the properties *)

(** The state after [processSource] has embedded a file: one identifier
    drawn, the bytes stored under [sources/], an internal [SourceInfo]
    appended. *)
Definition embedded (path : PathModule) (uuidv4 : nat -> string) (guid sourcePath : string)
    (data : Buffer) (acc : Packaging) : Packaging :=
  let extension := path_extname path (path_basename path sourcePath) in
  let newFilename := uuidv4 (uuidCount acc) +:+ extension in
  {| sourceFiles := <["sources/" +:+ newFilename := data]> (sourceFiles acc);
     sourceInfoList :=
       sourceInfoList acc ++
         [{| info_guid := guid; originalPath := sourcePath; sourceType := internal;
             filename := newFilename; extension := extension |}];
     warnings := warnings acc;
     externalSources := externalSources acc;
     uuidCount := S (uuidCount acc) |}.

(** The state after [processSource] has kept a file external. *)
Definition keptExternal (path : PathModule) (guid address sourcePath : string)
    (acc : Packaging) : Packaging :=
  {| sourceFiles := sourceFiles acc;
     sourceInfoList :=
       sourceInfoList acc ++
         [{| info_guid := guid; originalPath := sourcePath;
             sourceType := externalKind address;
             filename := path_basename path sourcePath;
             extension := path_extname path (path_basename path sourcePath) |}];
     warnings := warnings acc;
     externalSources := externalSources acc ++ [sourcePath];
     uuidCount := uuidCount acc |}.

(** Every location of [ls] is at or after [n]. *)
Definition locsFrom (n : nat) (ls : SourceLocs) : Prop :=
  forall l : loc,
    l ∈ default [] (Sources.TextSource ls) ++ default [] (Sources.PictureSource ls)
        ++ default [] (Sources.PDFSource ls) ++ default [] (Sources.AudioSource ls)
        ++ default [] (Sources.VideoSource ls) ->
    (n <= l)%nat.

(** While the copy at [l] is being worked on, the store extends the
    caller's store [h0], and the project object at [l] refers to sources
    outside [h0] only. *)
Definition working (h0 : Heap) (l : loc) (w : World) : Prop :=
  take (length h0) (heap w) = h0
  /\ (length h0 <= l)%nat
  /\ forall p ls, heap w !! l = Some (ProjectCell p) -> Proj.Sources p = Some ls ->
                  locsFrom (length h0) ls.

Definition preserves {A : Type} (I : World -> Prop) (m : M World A) : Prop :=
  forall w, I w -> I (snd (m w)).

(** The arrays of a packaging state only grow from [acc] to [acc']: every
    list is extended at its end, no identifier is given back, and a file
    entry is new only under [sources/], with the bytes of a file of [fs]. *)
Definition grows (fs : FileSystem) (acc acc' : Packaging) : Prop :=
  sourceInfoList acc `prefix_of` sourceInfoList acc'
  /\ warnings acc `prefix_of` warnings acc'
  /\ externalSources acc `prefix_of` externalSources acc'
  /\ (uuidCount acc <= uuidCount acc')%nat
  /\ forall name data,
       sourceFiles acc' !! name = Some data ->
       sourceFiles acc !! name = Some data
       \/ (JS.startsWith name "sources/" = true
           /\ exists p file, files fs !! p = Some file /\ content file = Some data).

(** [m] never throws and only lets the state grow. *)
Definition steady {A : Type} (fs : FileSystem) (m : M Packaging A) : Prop :=
  forall acc, grows fs acc (snd (m acc)).

(** The project value that [exportQDPX] validates and packages: the
    caller's project, with the export base path as its base path when it has
    none of its own. *)
Definition workingCopy (path : PathModule) (project : Project) (options : ExportOptions)
    (outputPath : string) : Project :=
  let exportOptions := configureOptions path options outputPath in
  if negb (JS.truthy (Proj.basePath project)) && JS.truthy (exportBasePath exportOptions)
  then Store.withBasePath project (exportBasePath exportOptions)
  else project.

(** [Q] holds of the outcome and the final state of [m] run from [w]. *)
Definition wp {St A : Type} (m : M St A) (Q : Result A -> St -> Prop) (w : St) : Prop :=
  Q (fst (m w)) (snd (m w)).

(** The source after one iteration of a loop of [updateProjectSourcePaths]:
    rewritten when [sourceMap] has an entry for its [guid], otherwise as it
    was. *)
Definition updatedSource (path : PathModule) (sourceMap : gmap string SourceInfo)
    (basePath : option string) (source : AnySource) : AnySource :=
  match Source.guid source ≫= (sourceMap !!.) with
  | Some info => updateSourcePath path basePath source info
  | None => source
  end.

Definition asText (s : AnySource) : option TextSourceType :=
  match s with TextS s => Some s | _ => None end.
Definition asPicture (s : AnySource) : option PictureSourceType :=
  match s with PictureS s => Some s | _ => None end.
Definition asPDF (s : AnySource) : option PDFSourceType :=
  match s with PDFS s => Some s | _ => None end.
Definition asAudio (s : AnySource) : option AudioSourceType :=
  match s with AudioS s => Some s | _ => None end.
Definition asVideo (s : AnySource) : option VideoSourceType :=
  match s with VideoS s => Some s | _ => None end.

(** The project value after [updateProjectSourcePaths(project,
    sourceInfoList)]: every source of every kind rewritten by
    [updatedSource], everything else as before. *)
Definition updatedProject (path : PathModule) (sourceInfoList : list SourceInfo)
    (project : Project) : Project :=
  let upd := updatedSource path (sourceMapOf sourceInfoList) (Proj.basePath project) in
  Store.withSources project
    ((fun sources =>
        Sources.mk
          (map (fun s => default s (asText (upd (TextS s))))
             <$> Sources.TextSource sources)
          (map (fun s => default s (asPicture (upd (PictureS s))))
             <$> Sources.PictureSource sources)
          (map (fun s => default s (asPDF (upd (PDFS s))))
             <$> Sources.PDFSource sources)
          (map (fun s => default s (asAudio (upd (AudioS s))))
             <$> Sources.AudioSource sources)
          (map (fun s => default s (asVideo (upd (VideoS s))))
             <$> Sources.VideoSource sources))
       <$> Proj.Sources project).

(** The cell after the update of the object it holds. *)
Definition updatedCell (path : PathModule) (sourceMap : gmap string SourceInfo)
    (basePath : option string) (c : Cell) : Cell :=
  match c with
  | SourceCell s => SourceCell (updatedSource path sourceMap basePath s)
  | ProjectCell p => ProjectCell p
  end.

(** The project value with the [path] and [currentPath] of every source
    removed. *)
Definition withoutAddresses (project : Project) : Project :=
  Store.withSources project
    ((fun sources =>
        Sources.mk
          (map (fun s => default s (asText (Source.setPaths None None (TextS s))))
             <$> Sources.TextSource sources)
          (map (fun s => default s (asPicture (Source.setPaths None None (PictureS s))))
             <$> Sources.PictureSource sources)
          (map (fun s => default s (asPDF (Source.setPaths None None (PDFS s))))
             <$> Sources.PDFSource sources)
          (map (fun s => default s (asAudio (Source.setPaths None None (AudioS s))))
             <$> Sources.AudioSource sources)
          (map (fun s => default s (asVideo (Source.setPaths None None (VideoS s))))
             <$> Sources.VideoSource sources))
       <$> Proj.Sources project).

(** [f] only appends to the error list, and appends nothing exactly when
    [P] holds. *)
Definition silentWhen (f : list string -> list string) (P : Prop) : Prop :=
  forall errs, exists msgs, f errs = errs ++ msgs /\ (msgs = [] <-> P).

(** The text payload that [validateProjectSources] accepts: neither
    [PlainTextContent] nor [plainTextPath] is present, or exactly one of
    them is non-empty. *)
Definition payloadOk (PlainTextContent plainTextPath : option string) : bool :=
  negb (defined PlainTextContent || defined plainTextPath)
  || xorb (JS.truthy PlainTextContent) (JS.truthy plainTextPath).

Definition transcriptsOk (transcripts : option (list TranscriptType)) : Prop :=
  Forall (fun t => payloadOk (Transcript.PlainTextContent t) (Transcript.plainTextPath t)
                   = true) (default [] transcripts).

(** What [validateProjectSources] demands of the sources of a project. *)
Definition sourcesAreValid (project : Project) : Prop :=
  match Proj.Sources project with
  | None => True
  | Some sources =>
      Forall (fun s => JS.truthy (TextSource.path s) = true
                       /\ payloadOk (TextSource.PlainTextContent s)
                            (TextSource.plainTextPath s) = true)
        (default [] (Sources.TextSource sources))
      /\ Forall (fun s => JS.truthy (PictureSource.path s) = true)
           (default [] (Sources.PictureSource sources))
      /\ Forall (fun s => JS.truthy (PDFSource.path s) = true)
           (default [] (Sources.PDFSource sources))
      /\ Forall (fun s => JS.truthy (AudioSource.path s) = true
                          /\ transcriptsOk (AudioSource.Transcript s))
           (default [] (Sources.AudioSource sources))
      /\ Forall (fun s => JS.truthy (VideoSource.path s) = true
                          /\ transcriptsOk (VideoSource.Transcript s))
           (default [] (Sources.VideoSource sources))
  end.

(** What [validateSourcePaths] demands of them. *)
Definition sourcePathsAreValid (project : Project) : Prop :=
  match Proj.Sources project with
  | None => True
  | Some sources =>
      Forall (fun s => JS.truthy (TextSource.path s) = true
                       /\ JS.truthy (TextSource.PlainTextContent s)
                          && JS.truthy (TextSource.plainTextPath s) = false)
        (default [] (Sources.TextSource sources))
      /\ Forall (fun s => JS.truthy (PictureSource.path s) = true)
           (default [] (Sources.PictureSource sources))
      /\ Forall (fun s => JS.truthy (PDFSource.path s) = true)
           (default [] (Sources.PDFSource sources))
      /\ Forall (fun s => JS.truthy (AudioSource.path s) = true)
           (default [] (Sources.AudioSource sources))
      /\ Forall (fun s => JS.truthy (VideoSource.path s) = true)
           (default [] (Sources.VideoSource sources))
  end.

(** [/^[0-9a-fA-F]*$/] *)
Fixpoint allHex (s : string) : bool :=
  match s with
  | EmptyString => true
  | String a s' => isHexDigit a && allHex s'
  end.

(** An identifier that [checkGuid] accepts on its own: present, and of the
    form that [guidPattern] describes. *)
Definition wellFormedGuid (guid : option GUIDType) : Prop :=
  exists g, guid = Some g /\ guidPattern_test g = true.

(** The identifiers that [validateProjectGUIDs] passes to [checkGuid], in
    the order of its traversal. *)
Definition checkedGuids_selections {Sel : Type} (sel_guid : Sel -> option GUIDType)
    (sel_Coding : Sel -> option (list CodingType)) (selections : option (list Sel))
    (source_Coding : option (list CodingType)) : list (option GUIDType) :=
  concatMap (fun selection =>
               sel_guid selection
               :: concatMap (fun coding => [Coding.guid coding]) (sel_Coding selection))
    selections
  ++ concatMap (fun coding => [Coding.guid coding]) source_Coding.

Definition checkedGuids_transcripts (transcripts : option (list TranscriptType))
    : list (option GUIDType) :=
  concatMap (fun transcript =>
               Transcript.guid transcript
               :: concatMap (fun syncPoint => [SyncPoint.guid syncPoint])
                    (Transcript.SyncPoint transcript)
               ++ concatMap (fun selection => [TranscriptSelection.guid selection])
                    (Transcript.TranscriptSelection transcript))
    transcripts.

Definition checkedGuids_Sources (sources : SourcesType) : list (option GUIDType) :=
  concatMap (fun s =>
               TextSource.guid s
               :: checkedGuids_selections PlainTextSelection.guid PlainTextSelection.Coding
                    (TextSource.PlainTextSelection s) (TextSource.Coding s))
    (Sources.TextSource sources)
  ++ concatMap (fun s =>
                  PictureSource.guid s
                  :: checkedGuids_selections PictureSelection.guid PictureSelection.Coding
                       (PictureSource.PictureSelection s) (PictureSource.Coding s))
       (Sources.PictureSource sources)
  ++ concatMap (fun s =>
                  PDFSource.guid s
                  :: checkedGuids_selections PDFSelection.guid PDFSelection.Coding
                       (PDFSource.PDFSelection s) (PDFSource.Coding s))
       (Sources.PDFSource sources)
  ++ concatMap (fun s =>
                  AudioSource.guid s
                  :: checkedGuids_selections AVSelection.guid AVSelection.Coding
                       (AudioSource.AudioSelection s) (AudioSource.Coding s)
                  ++ checkedGuids_transcripts (AudioSource.Transcript s))
       (Sources.AudioSource sources)
  ++ concatMap (fun s =>
                  VideoSource.guid s
                  :: checkedGuids_selections AVSelection.guid AVSelection.Coding
                       (VideoSource.VideoSelection s) (VideoSource.Coding s)
                  ++ checkedGuids_transcripts (VideoSource.Transcript s))
       (Sources.VideoSource sources).

Definition checkedGuids (project : Project) : list (option GUIDType) :=
  concatMap (fun user => [User.guid user]) (Proj.Users project)
  ++ concatMap guidsOf_Code (Proj.CodeBook project)
  ++ concatMap (fun variable => [QVariable.guid variable]) (Proj.Variables project)
  ++ concatMap (fun caseItem => [Case.guid caseItem]) (Proj.Cases project)
  ++ match Proj.Sources project with
     | Some sources => checkedGuids_Sources sources
     | None => []
     end
  ++ concatMap (fun set => [QSet.guid set]) (Proj.Sets project)
  ++ concatMap (fun graph =>
                  Graph.guid graph
                  :: concatMap (fun vertex => [Vertex.guid vertex]) (Graph.Vertex graph)
                  ++ concatMap (fun edge => [Edge.guid edge]) (Graph.Edge graph))
       (Proj.Graphs project)
  ++ concatMap (fun link => [Link.guid link]) (Proj.Links project).

(** [checkGuid] over a list of identifiers with their contexts. *)
Definition checkAll (entries : list (option GUIDType * string)) (st : GuidState)
    : GuidState :=
  fold_left (fun st entry => checkGuid (fst entry) (snd entry) st) entries st.

(** [f] passes exactly the identifiers [guids] to [checkGuid], in this
    order, each with some context. *)
Definition checks (f : GuidState -> GuidState) (guids : list (option GUIDType)) : Prop :=
  exists contexts,
    length contexts = length guids
    /\ forall st, f st = checkAll (zip guids contexts) st.

(** A reference that [checkReference] reports: its target is missing or
    empty, or is not in [guids]. *)
Definition offending (guids : gset string) (target : option GUIDType) : bool :=
  match target with
  | Some (String a r) => negb (bool_decide (String a r ∈ guids))
  | _ => true
  end.

(** [f] only appends to the error list, one message for each offending
    reference of [targets]. *)
Definition reports (guids : gset string) (f : list string -> list string)
    (targets : list (option GUIDType)) : Prop :=
  forall errs, exists msgs,
    f errs = errs ++ msgs
    /\ length msgs = length (List.filter (offending guids) targets).

(** The targets that [validateProjectReferences] passes to [checkReference],
    in the order of its traversal.  A field that is checked only [if] it is
    truthy contributes when it is. *)
Definition present (guid : option GUIDType) : list (option GUIDType) :=
  if JS.truthy guid then [guid] else [].

Definition refTargets (refs : option (list Ref.t)) : list (option GUIDType) :=
  concatMap (fun ref => [Ref.targetGUID ref]) refs.

Definition checkedReferences_Codings (codings : option (list CodingType))
    : list (option GUIDType) :=
  concatMap (fun coding =>
               Ref.targetGUID (Coding.CodeRef coding) :: refTargets (Coding.NoteRef coding))
    codings.

Definition checkedReferences_VariableValues (values : option (list VariableValueType))
    : list (option GUIDType) :=
  concatMap (fun value => [Ref.targetGUID (VariableValue.VariableRef value)]) values.

Definition checkedReferences_source (NoteRef : option (list NoteRefType))
    (Coding : option (list CodingType)) (VariableValue : option (list VariableValueType))
    : list (option GUIDType) :=
  refTargets NoteRef ++ checkedReferences_Codings Coding
  ++ checkedReferences_VariableValues VariableValue.

Definition checkedReferences_selections {Sel : Type}
    (sel_NoteRef : Sel -> option (list NoteRefType))
    (sel_Coding : Sel -> option (list CodingType)) (selections : option (list Sel))
    : list (option GUIDType) :=
  concatMap (fun selection =>
               refTargets (sel_NoteRef selection)
               ++ checkedReferences_Codings (sel_Coding selection)) selections.

Definition checkedReferences_transcripts (transcripts : option (list TranscriptType))
    : list (option GUIDType) :=
  concatMap (fun transcript =>
               refTargets (Transcript.NoteRef transcript)
               ++ concatMap (fun selection =>
                               present (TranscriptSelection.fromSyncPoint selection)
                               ++ present (TranscriptSelection.toSyncPoint selection)
                               ++ refTargets (TranscriptSelection.NoteRef selection)
                               ++ checkedReferences_Codings
                                    (TranscriptSelection.Coding selection))
                    (Transcript.TranscriptSelection transcript)) transcripts.

Definition checkedReferences_Sources (sources : SourcesType) : list (option GUIDType) :=
  concatMap (fun s =>
               checkedReferences_source (TextSource.NoteRef s) (TextSource.Coding s)
                 (TextSource.VariableValue s)
               ++ checkedReferences_selections PlainTextSelection.NoteRef
                    PlainTextSelection.Coding (TextSource.PlainTextSelection s))
    (Sources.TextSource sources)
  ++ concatMap (fun s =>
                  checkedReferences_source (PictureSource.NoteRef s) (PictureSource.Coding s)
                    (PictureSource.VariableValue s)
                  ++ checkedReferences_selections PictureSelection.NoteRef
                       PictureSelection.Coding (PictureSource.PictureSelection s))
       (Sources.PictureSource sources)
  ++ concatMap (fun s =>
                  checkedReferences_source (PDFSource.NoteRef s) (PDFSource.Coding s)
                    (PDFSource.VariableValue s)
                  ++ checkedReferences_selections PDFSelection.NoteRef PDFSelection.Coding
                       (PDFSource.PDFSelection s))
       (Sources.PDFSource sources)
  ++ concatMap (fun s =>
                  checkedReferences_source (AudioSource.NoteRef s) (AudioSource.Coding s)
                    (AudioSource.VariableValue s)
                  ++ checkedReferences_selections AVSelection.NoteRef AVSelection.Coding
                       (AudioSource.AudioSelection s)
                  ++ checkedReferences_transcripts (AudioSource.Transcript s))
       (Sources.AudioSource sources)
  ++ concatMap (fun s =>
                  checkedReferences_source (VideoSource.NoteRef s) (VideoSource.Coding s)
                    (VideoSource.VariableValue s)
                  ++ checkedReferences_selections AVSelection.NoteRef AVSelection.Coding
                       (VideoSource.VideoSelection s)
                  ++ checkedReferences_transcripts (VideoSource.Transcript s))
       (Sources.VideoSource sources).

Fixpoint checkedReferences_Code (code : CodeType) : list (option GUIDType) :=
  refTargets (Code.NoteRef code)
  ++ match Code.Code code with
     | Some codes => flat_map checkedReferences_Code codes
     | None => []
     end.

Definition checkedReferences (project : Project) : list (option GUIDType) :=
  refTargets (Proj.NoteRef project)
  ++ concatMap checkedReferences_Code (Proj.CodeBook project)
  ++ concatMap (fun caseItem =>
                  refTargets (Case.CodeRef caseItem)
                  ++ checkedReferences_VariableValues (Case.VariableValue caseItem)
                  ++ refTargets (Case.SourceRef caseItem)
                  ++ refTargets (Case.SelectionRef caseItem)) (Proj.Cases project)
  ++ match Proj.Sources project with
     | Some sources => checkedReferences_Sources sources
     | None => []
     end
  ++ concatMap (fun set =>
                  refTargets (QSet.MemberCode set) ++ refTargets (QSet.MemberSource set)
                  ++ refTargets (QSet.MemberNote set)) (Proj.Sets project)
  ++ concatMap (fun link =>
                  present (Link.originGUID link) ++ present (Link.targetGUID link)
                  ++ refTargets (Link.NoteRef link)) (Proj.Links project)
  ++ concatMap (fun graph =>
                  concatMap (fun vertex => present (Vertex.representedGUID vertex))
                    (Graph.Vertex graph)
                  ++ concatMap (fun edge =>
                                  present (Edge.representedGUID edge)
                                  ++ present (Edge.sourceVertex edge)
                                  ++ present (Edge.targetVertex edge)) (Graph.Edge graph))
       (Proj.Graphs project).

(** ** What xml2js reads

    The value of a property that was assigned the [values] in turn: absent
    without a value, the value itself when there is one, an array of them
    otherwise. *)
Definition group (values : list xml) : xml :=
  match values with
  | [] => XUndef
  | [v] => v
  | _ => XArr values
  end.

(** What [assignOrPush] makes of an old value and a new one. *)
Definition pushValue (old value : xml) : xml :=
  match old with
  | XUndef => value
  | XArr items => XArr (items ++ [value])
  | _ => XArr [old; value]
  end.

(** A value that is neither [undefined] nor an array: what an attribute or
    an element is read as. *)
Definition plain (v : xml) : Prop :=
  match v with
  | XUndef | XArr _ => False
  | _ => True
  end.

(** The properties that [parseElement] assigns in turn. *)
Definition entriesOf (attrs : list (string * string)) (children : list node)
    : list (string * xml) :=
  map (fun kv => (fst kv, XStr (snd kv))) attrs
  ++ map (fun child => (Xml.nodeName child, Xml.parseElement child)) children.

Definition assignAll (entries : list (string * xml)) (obj : list (string * xml))
    : list (string * xml) :=
  fold_left (fun obj kv => Xml.assignOrPush (fst kv) (snd kv) obj) entries obj.

Definition collect (key : string) (entries : list (string * xml)) : list xml :=
  flat_map (fun kv => if String.eqb (fst kv) key then [snd kv] else []) entries.

(** [root] without its attribute [key]. *)
Definition withoutAttribute (key : string) (root : node) : node :=
  match root with
  | Element name attrs children text =>
      Element name (List.filter (fun kv => negb (String.eqb (fst kv) key)) attrs)
        children text
  end.

Definition hasContent (root : node) : Prop :=
  match root with
  | Element _ attrs children _ => attrs <> [] \/ children <> []
  end.

Definition childNames (root : node) : list string :=
  match root with
  | Element _ _ children _ => map Xml.nodeName children
  end.

Definition attributeNames (root : node) : list string :=
  match root with
  | Element _ attrs _ _ => map fst attrs
  end.

(** A value that is no object: every property of it is [undefined]. *)
Definition flat (v : xml) : Prop :=
  match v with
  | XObj _ => False
  | _ => True
  end.

(** [if (x.key) target.key = f(x.key)], as a function of the property read. *)
Definition whenPresent {A : Type} (f : xml -> Result A) (field : xml) : Result (option A) :=
  if Xml.truthy field then Some <$> f field else Ok None.

(** ** Numeric text

    [isAscii c]: a character of the ASCII range, where the white space of
    the embedding is the white space of the language. *)
Definition isAscii (c : ascii) : bool := Nat.ltb (nat_of_ascii c) 128.

(** Whether [tail] continues a whole numeral, for [parseInt] and for
    [parseFloat]. *)
Definition continuesInteger (tail : string) : bool :=
  match tail with
  | String c _ => match digitValue c with Some _ => true | None => false end
  | EmptyString => false
  end.

Definition continuesDecimal (tail : string) : bool :=
  match tail with
  | String c _ =>
      match digitValue c with Some _ => true | None => false end
      || Ascii.eqb c "." || Ascii.eqb c "e" || Ascii.eqb c "E"
  | EmptyString => false
  end.

(** [readsAs float text n]: what [parseInt(text, 10)] ([float] false) and
    [parseFloat(text)] ([float] true) make of [text], on the texts on which
    the embedding of the two is exact.  Text that is empty, or begins with an
    ASCII character that is no white space, sign or digit (nor, for
    [parseFloat], a dot or the [I] of [Infinity]), is not a number; the
    decimal numeral of a whole number of magnitude up to 2^53, followed by
    text that does not continue it, is that number. *)
Inductive readsAs (float : bool) : string -> number -> Prop :=
  | notANumber (c : ascii) (rest : string) :
      isAscii c = true -> isWhiteSpace c = false ->
      c <> "+"%char -> c <> "-"%char -> digitValue c = None ->
      (float = true -> c <> "."%char /\ c <> "I"%char) ->
      readsAs float (String c rest) NaN
  | emptyText : readsAs float "" NaN
  | wholePrefix (z : Z) (tail : string) :
      Z.abs z <= 2 ^ 53 ->
      (if float then continuesDecimal tail else continuesInteger tail) = false ->
      readsAs float (pretty z +:+ tail) (Int z).

(** The same for the value of a property: an absent property is read as
    the text [undefined]. *)
Definition fieldReadsAs (float : bool) (v : xml) (n : number) : Prop :=
  match v with
  | XUndef => n = NaN
  | XStr s => readsAs float s n
  | _ => False
  end.

(** [n] is what [parseInt] makes of the property [key] of [v], wherever the
    embedding of [parseInt] is exact on it. *)
Definition readsInteger (v : xml) (key : string) (n : number) : Prop :=
  forall m, fieldReadsAs false (Xml.get v key) m -> n = m.

(** The same for [v.key !== undefined ? parseInt(v.key, 10) : undefined]. *)
Definition readsOptionalInteger (v : xml) (key : string) (o : option number) : Prop :=
  match Xml.get v key with
  | XUndef => o = None
  | field => exists n, o = Some n /\ forall m, fieldReadsAs false field m -> n = m
  end.

(** An error of a property read on a missing [CodeRef], [VariableRef] or
    [Codes] element. *)
Definition missingProperty (e : Error) : Prop :=
  exists key, (key = "targetGUID" \/ key = "Code") /\ Parse.getT XUndef key = Throw e.

(** [r] fails, if it does, with such an error only. *)
Definition quiet {A : Type} (r : Result A) : Prop :=
  forall e, r = Throw e -> missingProperty e.

(** A project with one text source that has one selection with the
    positions [startPosition] and [endPosition] as their text. *)
Definition selectionDocument (startPosition endPosition : string) : document :=
  WellFormed
    (Element "Project" [("name", "P1")]
       [Element "Sources" []
          [Element "TextSource" [("guid", Examples.guidA)]
             [Element "PlainTextSelection"
                [("guid", Examples.guidB); ("startPosition", startPosition);
                 ("endPosition", endPosition)] [] ""] ""] ""] "").

(** Text of ASCII characters only: a character of it is one byte in the
    embedding and one UTF-16 unit in the language, so that positions in the
    two agree. *)
Fixpoint asciiText (s : string) : bool :=
  match s with
  | EmptyString => true
  | String c s' => isAscii c && asciiText s'
  end.

(** A value that holds finite numbers only: [JSON.stringify] writes it as it
    is, where it writes [null] for NaN and the infinities. *)
Fixpoint finiteXml (v : xml) : bool :=
  match v with
  | XNum NaN | XNum (Infinity _) => false
  | XObj fields => forallb (fun kv => finiteXml (snd kv)) fields
  | XArr items => forallb finiteXml items
  | _ => true
  end.

(** Sources whose text payload is beyond doubt: every source has a
    non-empty [path], and every text source and every transcript holds
    exactly one of [PlainTextContent] and [plainTextPath] non-empty. *)
Definition onePayload (PlainTextContent plainTextPath : option string) : bool :=
  xorb (JS.truthy PlainTextContent) (JS.truthy plainTextPath).

Definition transcriptsHaveOnePayload (transcripts : option (list TranscriptType)) : Prop :=
  Forall (fun t => onePayload (Transcript.PlainTextContent t) (Transcript.plainTextPath t)
                   = true) (default [] transcripts).

Definition sourcesHaveOnePayload (project : Project) : Prop :=
  match Proj.Sources project with
  | None => True
  | Some sources =>
      Forall (fun s => JS.truthy (TextSource.path s) = true
                       /\ onePayload (TextSource.PlainTextContent s)
                            (TextSource.plainTextPath s) = true)
        (default [] (Sources.TextSource sources))
      /\ Forall (fun s => JS.truthy (PictureSource.path s) = true)
           (default [] (Sources.PictureSource sources))
      /\ Forall (fun s => JS.truthy (PDFSource.path s) = true)
           (default [] (Sources.PDFSource sources))
      /\ Forall (fun s => JS.truthy (AudioSource.path s) = true
                          /\ transcriptsHaveOnePayload (AudioSource.Transcript s))
           (default [] (Sources.AudioSource sources))
      /\ Forall (fun s => JS.truthy (VideoSource.path s) = true
                          /\ transcriptsHaveOnePayload (VideoSource.Transcript s))
           (default [] (Sources.VideoSource sources))
  end.

(** ** Text that XML can carry

    The builder refuses a string that holds a character outside the [Char]
    production of XML 1.0: a control character other than tab, line feed and
    carriage return, U+FFFE or U+FFFF (in the UTF-8 text of the embedding,
    the bytes EF BF BE and EF BF BF), or a surrogate (the bytes ED A0 to
    ED BF and one more).  The embedding of the builder leaves this failure
    out; what is stated of a built document is stated for documents in which
    no such character occurs. *)
Definition xmlByte (a : ascii) : bool :=
  let n := nat_of_ascii a in
  Nat.leb 32 n || Nat.eqb n 9 || Nat.eqb n 10 || Nat.eqb n 13.

Definition nonCharacter (s : string) : bool :=
  match s with
  | String a (String b (String c _)) =>
      Nat.eqb (nat_of_ascii a) 239 && Nat.eqb (nat_of_ascii b) 191
      && (Nat.eqb (nat_of_ascii c) 190 || Nat.eqb (nat_of_ascii c) 191)
      || Nat.eqb (nat_of_ascii a) 237 && Nat.leb 160 (nat_of_ascii b)
  | _ => false
  end.

Fixpoint xmlText (s : string) : bool :=
  match s with
  | EmptyString => true
  | String a s' => xmlByte a && negb (nonCharacter s) && xmlText s'
  end.

Fixpoint xmlSafe (n : node) : bool :=
  match n with
  | Element _ attrs children text =>
      forallb (fun kv => xmlText (snd kv)) attrs && forallb xmlSafe children
      && xmlText text
  end.

(** ** The sources that an export visits

    The [guid], [path] and [currentPath] of the sources in the order in
    which [processSourcesForExport] goes through them, each with the name of
    its kind. *)
Definition visitedSources (project : Project)
    : list (option string * option string * option string * string) :=
  match Proj.Sources project with
  | None => []
  | Some sources =>
      map (fun s => (TextSource.guid s, TextSource.path s, TextSource.currentPath s,
                     "TextSource")) (default [] (Sources.TextSource sources))
      ++ map (fun s => (PictureSource.guid s, PictureSource.path s,
                        PictureSource.currentPath s, "PictureSource"))
           (default [] (Sources.PictureSource sources))
      ++ map (fun s => (PDFSource.guid s, PDFSource.path s, PDFSource.currentPath s,
                        "PDFSource")) (default [] (Sources.PDFSource sources))
      ++ map (fun s => (AudioSource.guid s, AudioSource.path s,
                        AudioSource.currentPath s, "AudioSource"))
           (default [] (Sources.AudioSource sources))
      ++ map (fun s => (VideoSource.guid s, VideoSource.path s,
                        VideoSource.currentPath s, "VideoSource"))
           (default [] (Sources.VideoSource sources))
  end.

(** [processSource] on one of them. *)
Definition visit (path : PathModule) (uuidv4 : nat -> string) (fs : FileSystem)
    (options : ExportOptions) (source : option string * option string * option string * string)
    : M Packaging unit :=
  processSource path uuidv4 fs options (fst (fst (fst source))) (snd (fst (fst source)))
    (snd (fst source)) (snd source).

(** From [acc] to [acc'] no source info and no packaged file is lost. *)
Definition keeps (acc acc' : Packaging) : Prop :=
  sourceInfoList acc `prefix_of` sourceInfoList acc'
  /\ forall name, is_Some (sourceFiles acc !! name) -> is_Some (sourceFiles acc' !! name).

(** * Properties *)

(** ** Address classification *)

Lemma startsWith_exclusive (s p q : string) :
  String.length p = String.length q -> p <> q ->
  JS.startsWith s p = true -> JS.startsWith s q = false.
Proof.
  unfold JS.startsWith. intros Hlen Hne Hp.
  destruct (String.prefix q s) eqn:Hq; [|reflexivity].
  apply prefix_correct in Hp. apply prefix_correct in Hq.
  rewrite Hlen in Hp. congruence.
Qed.

(** C7.  Classification is total and exclusive: every string is classified
    as exactly one of internal, relative, absolute; it is internal exactly
    when it starts with [internal://], absolute exactly when it starts with
    [absolute://], and relative in every other case, that is when it starts
    with [relative://] or carries none of the three prefixes. *)
Theorem getSourceType_total_exclusive (s : string) :
  (getSourceType s = internal <-> JS.startsWith s "internal://" = true)
  /\ (getSourceType s = absolute <-> JS.startsWith s "absolute://" = true)
  /\ (getSourceType s = relative <->
        JS.startsWith s "relative://" = true
        \/ (JS.startsWith s "internal://" = false
            /\ JS.startsWith s "relative://" = false
            /\ JS.startsWith s "absolute://" = false))
  /\ (exists! k : SourceKind, getSourceType s = k).
Proof.
  unfold getSourceType.
  destruct (JS.startsWith s "internal://") eqn:Hi.
  - pose proof (startsWith_exclusive s "internal://" "relative://" eq_refl ltac:(discriminate) Hi) as Hr.
    pose proof (startsWith_exclusive s "internal://" "absolute://" eq_refl ltac:(discriminate) Hi) as Ha.
    rewrite Hr, Ha.
    repeat split; try discriminate; try tauto.
    + intros [?|(? & _)]; discriminate.
    + exists internal; split; [reflexivity | intros k <-; reflexivity].
  - destruct (JS.startsWith s "relative://") eqn:Hr.
    + pose proof (startsWith_exclusive s "relative://" "absolute://" eq_refl ltac:(discriminate) Hr) as Ha.
      rewrite Ha.
      repeat split; try discriminate; try tauto.
      exists relative; split; [reflexivity | intros k <-; reflexivity].
    + destruct (JS.startsWith s "absolute://") eqn:Ha.
      * repeat split; try discriminate; try tauto.
        -- intros [?|(_ & _ & ?)]; discriminate.
        -- exists absolute; split; [reflexivity | intros k <-; reflexivity].
      * repeat split; try discriminate; try tauto.
        exists relative; split; [reflexivity | intros k <-; reflexivity].
Qed.

(** ** The size policy of source packaging *)

Section SizePolicy.

Variable path : PathModule.
Variable uuidv4 : nat -> string.
Variable fs : FileSystem.

(** [processSource] on an external source whose file exists and can be
    read, when the test [stats.size <= maxSize && includeExternalSources]
    succeeds: the file is embedded. *)
Lemma processSource_embeds (options : ExportOptions)
    (guid address sourceTypeName sourcePath : string) (currentPath : option string)
    (file : FileInfo) (data : Buffer) (acc : Packaging) :
  JS.truthy (Some address) = true ->
  JS.startsWith address "internal://" = false ->
  resolveSourcePath path address (exportBasePath options) = Ok sourcePath ->
  files fs !! sourcePath = Some file ->
  content file = Some data ->
  Number.int_le (size file) (default (Int 2147483646) (maxInternalFileSize options))
  && default false (includeExternalSources options) = true ->
  processSource path uuidv4 fs options (Some guid) (Some address) currentPath
    sourceTypeName acc
  = (Ok tt, embedded path uuidv4 guid sourcePath data acc).
Proof.
  intros Hne Hext Hres Hfile Hcontent Htest.
  unfold processSource. rewrite Hne. cbn [negb from_option id]. rewrite Hext.
  unfold tryCatch, bind, lift, stat, readSourceFile, nextUuid, setSourceFile,
    pushInfo, modify.
  rewrite Hres, Hfile. rewrite Htest.
  cbn [mbind option_bind]. rewrite Hcontent. reflexivity.
Qed.

(** The same source when the test fails: it is kept external. *)
Lemma processSource_keeps_external (options : ExportOptions)
    (guid address sourceTypeName sourcePath : string) (currentPath : option string)
    (file : FileInfo) (acc : Packaging) :
  JS.truthy (Some address) = true ->
  JS.startsWith address "internal://" = false ->
  resolveSourcePath path address (exportBasePath options) = Ok sourcePath ->
  files fs !! sourcePath = Some file ->
  Number.int_le (size file) (default (Int 2147483646) (maxInternalFileSize options))
  && default false (includeExternalSources options) = false ->
  processSource path uuidv4 fs options (Some guid) (Some address) currentPath
    sourceTypeName acc
  = (Ok tt, keptExternal path guid address sourcePath acc).
Proof.
  intros Hne Hext Hres Hfile Htest.
  unfold processSource. rewrite Hne. cbn [negb from_option id]. rewrite Hext.
  unfold tryCatch, bind, lift, stat, pushExternal, pushInfo, modify.
  rewrite Hres, Hfile. rewrite Htest. reflexivity.
Qed.

End SizePolicy.

(** C6, at the input on which the code departs from the claim.  With
    [includeExternalSources: true] and [maxInternalFileSize: 0], a file of
    size [0 + 1] is embedded by [exportQDPX]: nothing is reported as external,
    the address of the copy is rewritten to [internal://], and the bytes are
    in the container. *)
Lemma zero_limit_embeds_one_byte_file :
  let result :=
    Examples.export (Examples.pdfProject "relative://a.pdf") (Examples.oneFile 1)
      (Examples.policy (Some true) (Some (Int 0)) None) in
  fst result
  = Ok {| success := true; qdpxPath := "/out/p.qdpx"; result_externalSources := [];
          result_warnings := [] |}
  /\ Examples.exportedPdfPath (snd result)
     = Some "internal://00000000-0000-4000-8000-0.pdf"
  /\ (containers (fsys (snd result)) !! "/out/p.qdpx"
        ≫= fun zip => entries zip !! "sources/00000000-0000-4000-8000-0.pdf")
     = Some [].
Proof. vm_compute. repeat split. Qed.

(** For contrast, the boundary under a limit that is not falsy: with
    [maxInternalFileSize: 1] a file of size 1 is embedded and a file of
    size 2 is kept external. *)
Lemma unit_limit_boundary :
  let policy := Examples.policy (Some true) (Some (Int 1)) None in
  let atLimit :=
    Examples.export (Examples.pdfProject "relative://a.pdf") (Examples.oneFile 1) policy in
  let above :=
    Examples.export (Examples.pdfProject "relative://a.pdf") (Examples.oneFile 2) policy in
  Examples.exportedPdfPath (snd atLimit)
  = Some "internal://00000000-0000-4000-8000-0.pdf"
  /\ result_externalSources <$> fst atLimit = Ok []
  /\ Examples.exportedPdfPath (snd above) = Some "relative:///a.pdf"
  /\ result_externalSources <$> fst above = Ok ["/out/a.pdf"].
Proof. vm_compute. repeat split. Qed.

(** The boundary of the claim for every limit that is not falsy: under the
    options that [exportQDPX] configures, a readable file of size exactly
    [M] is embedded and a file of size [M + 1] is kept external. *)
Lemma size_boundary_for_truthy_limit (path : PathModule) (uuidv4 : nat -> string)
    (fs : FileSystem) (options : ExportOptions) (M : Z)
    (outputPath guid address sourceTypeName sourcePath : string)
    (currentPath : option string) (file : FileInfo) (acc : Packaging) :
  M <> 0 ->
  maxInternalFileSize options = Some (Int M) ->
  includeExternalSources options = Some true ->
  JS.truthy (Some address) = true ->
  JS.startsWith address "internal://" = false ->
  resolveSourcePath path address
    (exportBasePath (configureOptions path options outputPath)) = Ok sourcePath ->
  files fs !! sourcePath = Some file ->
  (size file = M ->
   forall data, content file = Some data ->
   processSource path uuidv4 fs (configureOptions path options outputPath)
     (Some guid) (Some address) currentPath sourceTypeName acc
   = (Ok tt, embedded path uuidv4 guid sourcePath data acc))
  /\ (size file = M + 1 ->
      processSource path uuidv4 fs (configureOptions path options outputPath)
        (Some guid) (Some address) currentPath sourceTypeName acc
      = (Ok tt, keptExternal path guid address sourcePath acc)).
Proof.
  intros HM Hmax Hinc Hne Hext Hres Hfile.
  assert (Hcfg : maxInternalFileSize (configureOptions path options outputPath)
                 = Some (Int M)).
  { unfold configureOptions; cbn [maxInternalFileSize]. rewrite Hmax.
    cbn [Int Number.truthy]. destruct (M =? 0) eqn:E; [apply Z.eqb_eq in E; lia|].
    reflexivity. }
  assert (Hi : default false (includeExternalSources (configureOptions path options outputPath))
               = true).
  { unfold configureOptions; cbn [includeExternalSources]. rewrite Hinc. reflexivity. }
  split.
  - intros Hsize data Hcontent.
    apply (processSource_embeds _ _ _ _ _ _ _ _ _ file); try assumption.
    rewrite Hcfg, Hi. cbn [from_option id Number.int_le Int].
    change (0 <=? 0) with true; cbn match.
    apply andb_true_intro; split; [apply Z.leb_le; lia | reflexivity].
  - intros Hsize.
    apply (processSource_keeps_external _ _ _ _ _ _ _ _ _ file); try assumption.
    rewrite Hcfg, Hi. cbn [from_option id Number.int_le Int].
    change (0 <=? 0) with true; cbn match.
    apply andb_false_intro1. apply Z.leb_gt. lia.
Qed.

(** ** The missing-source callback *)

(** [processSource] never throws: whatever is raised while an external
    source is processed, the [ExportError] for a declined missing source
    included, is caught by the handler that records an invalid source path. *)
Lemma processSource_never_throws (path : PathModule) (uuidv4 : nat -> string)
    (fs : FileSystem) (options : ExportOptions) (guid address currentPath : option string)
    (sourceTypeName : string) (acc : Packaging) :
  fst (processSource path uuidv4 fs options guid address currentPath sourceTypeName acc)
  = Ok tt.
Proof.
  unfold processSource, tryCatch, bind, lift, throw, ret, pushInfo, pushWarning,
    pushExternal, setSourceFile, nextUuid, modify.
  repeat (case_match; simplify_eq; try reflexivity).
Qed.

(** [exportQDPX] does not pass the callback on: an export with a callback
    runs exactly like the export without it. *)
Lemma exportQDPX_ignores_onMissingSource (path : PathModule) (uuidv4 : nat -> string)
    (project : loc) (outputPath : string) (options : ExportOptions) (w : World) :
  exportQDPX path uuidv4 project outputPath options w
  = exportQDPX path uuidv4 project outputPath
      {| includeExternalSources := includeExternalSources options;
         exportBasePath := exportBasePath options;
         maxInternalFileSize := maxInternalFileSize options;
         validateBeforeExport := validateBeforeExport options;
         overwrite := overwrite options;
         onMissingSource := None |} w.
Proof. reflexivity. Qed.

(** C2, at the input on which the code departs from the claim.  The file of
    the only source is missing and the callback answers [false]; the export
    nevertheless succeeds, writes the container, records a warning, and the
    address of the copy has been rewritten.  Calling [processSourcesForExport]
    with the callback directly does not abort either: the error is recorded
    as an invalid source path. *)
Lemma declined_missing_source_does_not_abort :
  let decline : string -> string -> string -> Settled := fun _ _ _ => Resolved false in
  let project := Examples.pdfProject "relative://missing.pdf" in
  let result :=
    Examples.export project Examples.noFiles (Examples.policy None None (Some decline)) in
  fst result
  = Ok {| success := true; qdpxPath := "/out/p.qdpx"; result_externalSources := [];
          result_warnings := ["Could not process source: /out/missing.pdf"] |}
  /\ defined (containers (fsys (snd result)) !! "/out/p.qdpx") = true
  /\ Examples.exportedPdfPath (snd result) = Some "relative:///missing.pdf"
  /\ (let direct :=
        processSourcesForExport Posix.path Posix.uuidv4 Examples.noFiles project
          (Examples.policy None None (Some decline)) (emptyPackaging 0) in
      fst direct = Ok tt
      /\ warnings (snd direct) = ["Invalid source path: relative://missing.pdf"]
      /\ sourceInfoList (snd direct) = []).
Proof. vm_compute. repeat split. Qed.

(** ** The caller's object graph *)

Lemma allocList_extends {A : Type} (wrap : A -> AnySource) (l : option (list A))
    (h : Heap) :
  exists ext,
    snd (Store.allocList wrap l h) = h ++ ext
    /\ forall x, x ∈ default [] (fst (Store.allocList wrap l h)) -> (length h <= x)%nat.
Proof.
  destruct l as [l|]; cbn.
  - eexists; split; [reflexivity|].
    intros x Hx. apply elem_of_seq in Hx. lia.
  - exists []. rewrite app_nil_r. split; [reflexivity|]. intros x Hx.
    apply elem_of_nil in Hx. contradiction.
Qed.

(** [allocProject] appends to the store; the new project object is the last
    cell, and the sources it refers to are all new. *)
Lemma allocProject_fresh (p : Project) (h : Heap) :
  exists ext pc,
    Store.allocProject p h = (length (h ++ ext), (h ++ ext) ++ [ProjectCell pc])
    /\ forall ls, Proj.Sources pc = Some ls -> locsFrom (length h) ls.
Proof.
  unfold Store.allocProject.
  destruct (Proj.Sources p) as [sources|].
  - destruct (allocList_extends TextS (Sources.TextSource sources) h) as (e1 & E1 & F1).
    destruct (Store.allocList TextS _ h) as [t h1]. cbn in E1, F1. subst h1.
    destruct (allocList_extends PictureS (Sources.PictureSource sources) (h ++ e1))
      as (e2 & E2 & F2).
    destruct (Store.allocList PictureS _ _) as [pi h2]. cbn in E2, F2. subst h2.
    destruct (allocList_extends PDFS (Sources.PDFSource sources) ((h ++ e1) ++ e2))
      as (e3 & E3 & F3).
    destruct (Store.allocList PDFS _ _) as [d h3]. cbn in E3, F3. subst h3.
    destruct (allocList_extends AudioS (Sources.AudioSource sources)
                (((h ++ e1) ++ e2) ++ e3)) as (e4 & E4 & F4).
    destruct (Store.allocList AudioS _ _) as [a h4]. cbn in E4, F4. subst h4.
    destruct (allocList_extends VideoS (Sources.VideoSource sources)
                ((((h ++ e1) ++ e2) ++ e3) ++ e4)) as (e5 & E5 & F5).
    destruct (Store.allocList VideoS _ _) as [v h5]. cbn in E5, F5. subst h5.
    exists (e1 ++ e2 ++ e3 ++ e4 ++ e5). eexists.
    split.
    + rewrite !app_assoc. reflexivity.
    + intros ls [= <-] l Hl. cbn in Hl.
      rewrite !length_app in *.
      rewrite !elem_of_app in Hl.
      destruct Hl as [Hl|[Hl|[Hl|[Hl|Hl]]]];
        [apply F1 in Hl | apply F2 in Hl | apply F3 in Hl | apply F4 in Hl
         | apply F5 in Hl]; lia.
  - exists [], (Store.withSources p None). rewrite app_nil_r.
    split; [reflexivity|]. intros ls [=].
Qed.

Section Frame.

Variable path : PathModule.
Variable uuidv4 : nat -> string.

Lemma updateAt_frame (n : nat) (sourceMap : gmap string SourceInfo)
    (basePath : option string) (l : loc) (h : Heap) :
  (n <= l)%nat -> take n (updateAt path sourceMap basePath l h) = take n h.
Proof.
  intros Hl. unfold updateAt.
  repeat case_match; try reflexivity.
  apply take_insert_ge. exact Hl.
Qed.

Lemma updateAll_frame (n : nat) (sourceMap : gmap string SourceInfo)
    (basePath : option string) (ls : option (list loc)) (h : Heap) :
  (forall l, l ∈ default [] ls -> (n <= l)%nat) ->
  take n (updateAll path sourceMap basePath ls h) = take n h.
Proof.
  destruct ls as [ls|]; [|reflexivity]. cbn.
  revert h. induction ls as [|l ls IH]; intros h Hls; [reflexivity|].
  cbn. rewrite IH.
  - apply updateAt_frame. apply Hls. left.
  - intros l' Hl'. apply Hls. right. exact Hl'.
Qed.

Lemma updateAll_length (sourceMap : gmap string SourceInfo)
    (basePath : option string) (ls : option (list loc)) (h : Heap) :
  length (updateAll path sourceMap basePath ls h) = length h.
Proof.
  destruct ls as [ls|]; [|reflexivity]. cbn.
  revert h. induction ls as [|l ls IH]; intros h; [reflexivity|].
  cbn. rewrite IH. unfold updateAt.
  repeat case_match; try reflexivity. apply length_insert.
Qed.

(** [updateProjectSourcePaths] leaves everything before [n] alone when the
    project object it works on refers to sources at or after [n] only. *)
Lemma updateProjectSourcePaths_frame (n : nat) (project : loc)
    (sourceInfoList : list SourceInfo) (h : Heap) :
  (forall p ls, h !! project = Some (ProjectCell p) -> Proj.Sources p = Some ls ->
                locsFrom n ls) ->
  take n (updateProjectSourcePaths path project sourceInfoList h) = take n h.
Proof.
  intros Hfrom. unfold updateProjectSourcePaths.
  destruct (h !! project) as [[p|]|] eqn:Hp; try reflexivity.
  destruct (Proj.Sources p) as [ls|] eqn:Hs; [|reflexivity].
  specialize (Hfrom p ls eq_refl Hs). unfold locsFrom in Hfrom.
  rewrite !updateAll_frame; [reflexivity|..];
    intros l Hl; apply Hfrom; rewrite !elem_of_app; tauto.
Qed.

(** A thrown error leaves the state of the [try] block as it is. *)
Lemma exportQDPX_state (project : loc) (outputPath : string) (options : ExportOptions)
    (w : World) :
  snd (exportQDPX path uuidv4 project outputPath options w)
  = snd (exportBody path uuidv4 project outputPath options w).
Proof.
  unfold exportQDPX, tryCatch.
  destruct (exportBody _ _ _ _ _ w) as [[r|e] w']; [reflexivity|].
  destruct e; reflexivity.
Qed.

Lemma preserves_ret {A : Type} (I : World -> Prop) (a : A) : preserves I (ret a).
Proof. intros w Hw. exact Hw. Qed.

Lemma preserves_throw {A : Type} (I : World -> Prop) (e : Error) :
  preserves I (@throw World A e).
Proof. intros w Hw. exact Hw. Qed.

Lemma preserves_bind {A B : Type} (I : World -> Prop) (m : M World A)
    (k : A -> M World B) :
  preserves I m -> (forall a, preserves I (k a)) -> preserves I (bind m k).
Proof.
  intros Hm Hk w Hw. unfold bind. specialize (Hm w Hw).
  destruct (m w) as [[a|e] w']; cbn in *; [apply Hk; exact Hm | exact Hm].
Qed.

Lemma preserves_readProjectM (I : World -> Prop) (l : loc) :
  preserves I (readProjectM l).
Proof. intros w Hw. unfold readProjectM. destruct (Store.readProject _ _); exact Hw. Qed.

Lemma preserves_createQDPXFile (h0 : Heap) (l : loc) (outputPath : string)
    (qdeContent : node) (sourceFiles : gmap string Buffer) :
  preserves (working h0 l) (createQDPXFile outputPath qdeContent sourceFiles).
Proof.
  intros w Hw. unfold createQDPXFile. destruct (bool_decide _); exact Hw.
Qed.

Lemma working_insert_project (h0 : Heap) (l : loc) (w : World) (p p' : Proj.t SourceLocs) :
  working h0 l w -> heap w !! l = Some (ProjectCell p) ->
  Proj.Sources p' = Proj.Sources p ->
  working h0 l {| heap := <[l := ProjectCell p']> (heap w); fsys := fsys w;
                  uuids := uuids w |}.
Proof.
  intros (Hpre & Hl & Hfrom) Hcell Hsrc. split; [|split; [exact Hl|]]; cbn [heap].
  - rewrite take_insert_ge by exact Hl. exact Hpre.
  - intros q ls Hq Hls. rewrite list_lookup_insert_eq in Hq
      by (apply lookup_lt_Some in Hcell; exact Hcell).
    injection Hq as <-. apply (Hfrom p ls Hcell). congruence.
Qed.

Lemma working_update (h0 : Heap) (l : loc) (w : World) (infos : list SourceInfo) :
  working h0 l w ->
  working h0 l {| heap := updateProjectSourcePaths path l infos (heap w);
                  fsys := fsys w; uuids := uuids w |}.
Proof.
  intros (Hpre & Hl & Hfrom). split; [|split; [exact Hl|]]; cbn [heap].
  - rewrite updateProjectSourcePaths_frame; [exact Hpre | exact Hfrom].
  - intros q ls Hq Hls. unfold updateProjectSourcePaths in Hq.
    destruct (heap w !! l) as [[p|s]|] eqn:Hp.
    + destruct (Proj.Sources p) as [srcs|] eqn:Hs.
      * (* the updates write source cells only *)
        assert (Hkeep : forall m b ls' h, h !! l = Some (ProjectCell p) ->
                   updateAll path m b ls' h !! l = Some (ProjectCell p)).
        { intros m b [ls'|] h Hh; [|exact Hh]. cbn.
          revert h Hh. induction ls' as [|x ls' IH]; intros h Hh; [exact Hh|].
          cbn. apply IH. unfold updateAt.
          destruct (h !! x) as [[c|c]|] eqn:Hx; try exact Hh.
          destruct (Source.guid c ≫= (m !!.)); [|exact Hh].
          destruct (decide (x = l)) as [->|Hne]; [congruence|].
          rewrite list_lookup_insert_ne by exact Hne. exact Hh. }
        rewrite Hkeep in Hq by (repeat apply Hkeep; exact Hp). injection Hq as <-.
        apply (Hfrom p ls eq_refl). exact Hls.
      * rewrite Hp in Hq. injection Hq as <-. congruence.
    + rewrite Hp in Hq. discriminate.
    + rewrite Hp in Hq. discriminate.
Qed.

(** The store after the [try] block extends the store before it. *)
Lemma exportBody_frame (project : loc) (outputPath : string) (options : ExportOptions)
    (w : World) :
  take (length (heap w))
    (heap (snd (exportBody path uuidv4 project outputPath options w)))
  = heap w.
Proof.
  unfold exportBody.
  unfold bind at 1. unfold readProjectM at 1.
  destruct (Store.readProject (heap w) project) as [original|];
    [|cbn; apply firstn_all].
  unfold bind at 1.
  destruct (allocProject_fresh original (heap w)) as (ext & pc & Halloc & Hfresh).
  rewrite Halloc.
  set (h0 := heap w) in *.
  set (l := length (h0 ++ ext)) in *.
  set (w1 := {| heap := (h0 ++ ext) ++ [ProjectCell pc]; fsys := fsys w;
                uuids := uuids w |}).
  assert (Hcell : heap w1 !! l = Some (ProjectCell pc)).
  { subst l. cbn. apply list_lookup_middle. reflexivity. }
  assert (Hw1 : working h0 l w1).
  { split; [|split].
    - cbn. rewrite <- app_assoc. apply take_app_length.
    - subst l. rewrite length_app. lia.
    - intros p ls Hp Hls. pose proof (eq_trans (eq_sym Hp) Hcell) as E.
      injection E as ->. apply Hfresh. exact Hls. }
  match goal with
  | |- take _ (heap (snd (?rest w1))) = _ =>
      assert (Hrest : preserves (working h0 l) rest)
  end.
  { apply preserves_bind; [intros w' Hw'; exact Hw'|]. intros w'.
    destruct (existsSync _ _ && _); [apply preserves_throw|].
    apply preserves_bind.
    { intros w2 Hw2.
      destruct (heap w2 !! l) as [[p|s]|] eqn:Hp; try exact Hw2.
      destruct (negb _ && _); [|exact Hw2].
      unfold setHeap, modify; cbn.
      apply (working_insert_project h0 l w2 p); [exact Hw2 | exact Hp | reflexivity]. }
    intros _. apply preserves_bind; [apply preserves_readProjectM|].
    intros copyValue. apply preserves_bind.
    { destruct (default true _); [|apply preserves_ret].
      destruct (validateProjectForExport copyValue);
        [apply preserves_ret | apply preserves_throw]. }
    intros _. apply preserves_bind.
    { intros w2 Hw2.
      destruct (processSourcesForExport _ _ _ _ _ _) as [r packaging]. exact Hw2. }
    intros packaging. apply preserves_bind.
    { intros w2 Hw2. unfold setHeap, modify; cbn. apply working_update. exact Hw2. }
    intros _. apply preserves_bind; [apply preserves_readProjectM|].
    intros updated. apply preserves_bind; [apply preserves_createQDPXFile|].
    intros _. apply preserves_ret. }
  apply (Hrest w1 Hw1).
Qed.

Lemma lookup_extends (h h' : Heap) (l : loc) (c : Cell) :
  take (length h) h' = h -> h !! l = Some c -> h' !! l = Some c.
Proof.
  intros Hpre Hl. rewrite <- Hpre in Hl. apply lookup_take_Some in Hl. tauto.
Qed.

Lemma readList_extends {A : Type} (pick : AnySource -> option A) (h h' : Heap)
    (ls : option (list loc)) (r : option (list A)) :
  take (length h) h' = h ->
  Store.readList pick h ls = Some r -> Store.readList pick h' ls = Some r.
Proof.
  intros Hpre. destruct ls as [ls|]; [|intros H; exact H]. cbn.
  destruct (mapM _ ls) as [xs|] eqn:Hm; [|discriminate]. intros [= <-].
  apply mapM_Some in Hm.
  assert (Hm' : mapM (fun l => match h' !! l with
                               | Some (SourceCell s) => pick s
                               | _ => None
                               end) ls = Some xs).
  { apply mapM_Some. eapply Forall2_impl; [exact Hm|].
    intros l x Hl. cbn beta in *.
    destruct (h !! l) as [c|] eqn:Hc; [|discriminate].
    rewrite (lookup_extends h h' l c Hpre Hc). exact Hl. }
  rewrite Hm'. reflexivity.
Qed.

(** An object graph that can be read from a store reads the same from every
    extension of the store. *)
Lemma readProject_extends (h h' : Heap) (l : loc) (p : Project) :
  take (length h) h' = h ->
  Store.readProject h l = Some p -> Store.readProject h' l = Some p.
Proof.
  intros Hpre. unfold Store.readProject.
  destruct (h !! l) as [c|] eqn:Hc; [|discriminate].
  rewrite (lookup_extends h h' l c Hpre Hc).
  destruct c as [pc|]; [|discriminate].
  destruct (Proj.Sources pc) as [ls|]; [|intros H; exact H].
  unfold Store.readSources.
  destruct (Store.readList _ h (Sources.TextSource ls)) as [t|] eqn:Ht; [|discriminate].
  rewrite (readList_extends _ h h' _ _ Hpre Ht).
  cbn [mbind option_bind].
  destruct (Store.readList _ h (Sources.PictureSource ls)) as [pi|] eqn:Hpi; [|discriminate].
  rewrite (readList_extends _ h h' _ _ Hpre Hpi).
  cbn [mbind option_bind].
  destruct (Store.readList _ h (Sources.PDFSource ls)) as [d|] eqn:Hd; [|discriminate].
  rewrite (readList_extends _ h h' _ _ Hpre Hd).
  cbn [mbind option_bind].
  destruct (Store.readList _ h (Sources.AudioSource ls)) as [a|] eqn:Ha; [|discriminate].
  rewrite (readList_extends _ h h' _ _ Hpre Ha).
  cbn [mbind option_bind].
  destruct (Store.readList _ h (Sources.VideoSource ls)) as [v|] eqn:Hv; [|discriminate].
  rewrite (readList_extends _ h h' _ _ Hpre Hv).
  intros H; exact H.
Qed.

(** C3.  Whatever [exportQDPX] returns or throws, every object that existed
    before the call is unchanged afterwards, so the project that the caller
    passed reads exactly as before: the base path and the source addresses
    are written on the private copy only. *)
Theorem exportQDPX_leaves_original_unmodified (project : loc) (outputPath : string)
    (options : ExportOptions) (w : World) (original : Project) :
  Store.readProject (heap w) project = Some original ->
  let w' := snd (exportQDPX path uuidv4 project outputPath options w) in
  take (length (heap w)) (heap w') = heap w
  /\ Store.readProject (heap w') project = Some original.
Proof.
  intros Hread w'. subst w'. rewrite exportQDPX_state.
  pose proof (exportBody_frame project outputPath options w) as Hframe.
  split; [exact Hframe|].
  apply (readProject_extends (heap w)); assumption.
Qed.

End Frame.

Lemma exportQDPX_leaves_original_unmodified_witness :
  let project := Examples.pdfProject "relative://a.pdf" in
  let options := Examples.policy (Some true) None None in
  let start := Examples.worldOf project (Examples.oneFile 5) in
  let w' := snd (exportQDPX Posix.path Posix.uuidv4 (fst start) "/out/p.qdpx" options
                   (snd start)) in
  Store.readProject (heap (snd start)) (fst start) = Some project
  /\ take (length (heap (snd start))) (heap w') = heap (snd start)
  /\ Store.readProject (heap w') (fst start) = Some project.
Proof.
  intros project options start w'.
  assert (H : Store.readProject (heap (snd start)) (fst start) = Some project)
    by reflexivity.
  split; [exact H|].
  exact (exportQDPX_leaves_original_unmodified Posix.path Posix.uuidv4 (fst start)
           "/out/p.qdpx" options (snd start) project H).
Defined.

(** ** The document converter *)

(** C1, on the code as it is.  [buildQDEFile] passes the builder an object
    with the keys ["$"] and ["Project"] under [rootName: "Project"], so the
    document is a [Project] element that wraps the project's own [Project]
    element; [parseQDEFile] converts the outer element, which has none of the
    project's attributes or children.  Whatever the project, parsing its
    serialisation succeeds and yields the project without a single property. *)
Theorem parse_of_build_is_empty (project : Project) :
  parseQDEFile (WellFormed (buildQDEFile project)) = Ok Examples.emptyProject.
Proof.
  unfold buildQDEFile, Xml.buildObject.
  cbn [String.eqb Ascii.eqb Bool.eqb].
  cbn [Xml.render].
  destruct (Xml.render (Build.prepareProjectForXml project)) as [[a c] t].
  reflexivity.
Qed.

(** The specification's scenario: the project named ["P1"] with one text
    source does not survive the round trip. *)
Lemma scenario_round_trip_fails :
  parseQDEFile (WellFormed (buildQDEFile Examples.scenarioProject))
  = Ok Examples.emptyProject
  /\ Examples.emptyProject <> Examples.scenarioProject
  /\ Parse.convertXmlToProject
       (Xml.parseElement
          (let '(a, c, t) := Xml.render (Build.prepareProjectForXml Examples.scenarioProject)
           in Element "Project" a c t))
     = Ok Examples.scenarioProject.
Proof.
  split; [vm_compute; reflexivity|].
  split; [discriminate | vm_compute; reflexivity].
Qed.

(** *** What makes parsing fail *)

Lemma lookup_dropKey (key k : string) (fields : list (string * xml)) :
  k <> key ->
  Xml.lookup_field k (dropKey key fields) = Xml.lookup_field k fields.
Proof.
  intros Hne. unfold dropKey.
  induction fields as [|[k' v] fields IH]; [reflexivity|].
  cbn [List.filter fst Xml.lookup_field].
  destruct (String.eqb_spec k' key) as [->|Hk']; cbn [negb Xml.lookup_field].
  - destruct (String.eqb_spec key k) as [E|_]; [congruence | exact IH].
  - rewrite IH. reflexivity.
Qed.

Lemma lookup_dropKey_same (key : string) (fields : list (string * xml)) :
  Xml.lookup_field key (dropKey key fields) = XUndef.
Proof.
  unfold dropKey.
  induction fields as [|[k' v] fields IH]; [reflexivity|].
  cbn [List.filter fst Xml.lookup_field].
  destruct (String.eqb_spec k' key) as [->|Hk']; cbn [negb Xml.lookup_field];
    [exact IH|].
  destruct (String.eqb_spec k' key) as [E|_]; [congruence | exact IH].
Qed.

(** Converting a root object without its [name] gives what converting the
    root object gives, with the name undefined: the same error, or the same
    project but for the name. *)
Lemma convertXmlToProject_without_name (fields : list (string * xml)) :
  Parse.convertXmlToProject (XObj (dropKey "name" fields))
  = withName None <$> Parse.convertXmlToProject (XObj fields).
Proof.
  unfold Parse.convertXmlToProject, Parse.unwrapped, Parse.ifPresent, Parse.str.
  cbn [Xml.get].
  rewrite lookup_dropKey_same.
  rewrite !lookup_dropKey by discriminate.
  cbn [Xml.asString].
  repeat match goal with
         | |- mbind _ ?m = _ <$> mbind _ ?m =>
             destruct m as [?|?]; cbn [mbind Result_bind fmap Result_fmap];
             [cbv zeta|reflexivity]
         end.
  reflexivity.
Qed.

(** *** The object that xml2js makes of an element *)

Lemma parseElement_plain (n : node) : plain (Xml.parseElement n).
Proof.
  destruct n as [name attrs children text]. simpl.
  destruct (fold_left _ children _); [exact I|].
  destruct (Xml.isBlank text); exact I.
Qed.

Lemma fold_left_mapped {A B C : Type} (f : A -> B -> A) (g : C -> B) (l : list C) (a : A) :
  fold_left f (map g l) a = fold_left (fun a x => f a (g x)) l a.
Proof. revert a. induction l as [|x l IH]; intros a; simpl; [reflexivity|apply IH]. Qed.

Lemma parseElement_assignAll (name : string) (attrs : list (string * string))
    (children : list node) (text : string) :
  Xml.parseElement (Element name attrs children text)
  = let obj := assignAll (entriesOf attrs children) [] in
    match obj with
    | [] => XStr text
    | _ :: _ => if Xml.isBlank text then XObj obj else XObj (obj ++ [("_", XStr text)])
    end.
Proof.
  unfold assignAll, entriesOf. rewrite fold_left_app, !fold_left_mapped. reflexivity.
Qed.

Lemma lookup_assignOrPush (key k : string) (v : xml) (obj : list (string * xml)) :
  Forall (fun kv => snd kv <> XUndef) obj ->
  Xml.lookup_field key (Xml.assignOrPush k v obj)
  = if String.eqb k key then pushValue (Xml.lookup_field key obj) v
    else Xml.lookup_field key obj.
Proof.
  induction obj as [|[k0 old] rest IH]; intros Hdef.
  - simpl. destruct (String.eqb k key); reflexivity.
  - apply Forall_cons in Hdef as [Hold Hrest]. simpl in Hold. simpl.
    destruct (String.eqb k0 k) eqn:E0.
    + apply String.eqb_eq in E0. subst k0. simpl.
      destruct (String.eqb k key); [|reflexivity].
      destruct old; try reflexivity. contradiction.
    + simpl. rewrite (IH Hrest).
      destruct (String.eqb k key) eqn:E1; [|reflexivity].
      apply String.eqb_eq in E1. subst key. rewrite E0. reflexivity.
Qed.

Lemma assignOrPush_defined (k : string) (v : xml) (obj : list (string * xml)) :
  v <> XUndef ->
  Forall (fun kv => snd kv <> XUndef) obj ->
  Forall (fun kv => snd kv <> XUndef) (Xml.assignOrPush k v obj).
Proof.
  intros Hv. induction obj as [|[k0 old] rest IH]; intros Hdef.
  - simpl. repeat constructor. exact Hv.
  - apply Forall_cons in Hdef as [Hold Hrest]. simpl.
    destruct (String.eqb k0 k).
    + constructor; [|exact Hrest]. simpl. destruct old; discriminate.
    + constructor; [exact Hold|]. apply IH, Hrest.
Qed.

Lemma assignOrPush_not_nil (k : string) (v : xml) (obj : list (string * xml)) :
  Xml.assignOrPush k v obj <> [].
Proof. destruct obj as [|[k0 old] rest]; simpl; [|destruct (String.eqb k0 k)]; discriminate. Qed.

Lemma assignAll_not_nil (entries obj : list (string * xml)) :
  entries <> [] \/ obj <> [] -> assignAll entries obj <> [].
Proof.
  revert obj. induction entries as [|[k v] rest IH]; intros obj H.
  - simpl. destruct H as [H|H]; [contradiction|exact H].
  - simpl. apply IH. right. apply assignOrPush_not_nil.
Qed.

Lemma plain_defined (v : xml) : plain v -> v <> XUndef.
Proof. destruct v; simpl; intros H; try discriminate. contradiction. Qed.

Lemma pushValue_group (values : list xml) (v : xml) :
  Forall plain values -> plain v ->
  pushValue (group values) v = group (values ++ [v]).
Proof.
  intros Hvs Hv. destruct values as [|a [|b r]]; simpl.
  - reflexivity.
  - apply Forall_cons in Hvs as [Ha _]. destruct a; try reflexivity; contradiction.
  - reflexivity.
Qed.

Lemma collect_app (key : string) (l1 l2 : list (string * xml)) :
  collect key (l1 ++ l2) = collect key l1 ++ collect key l2.
Proof. apply flat_map_app. Qed.

Lemma collect_plain (key : string) (entries : list (string * xml)) :
  Forall (fun kv => plain (snd kv)) entries -> Forall plain (collect key entries).
Proof.
  induction 1 as [|[k v] rest Hv _ IH]; simpl; [constructor|].
  destruct (String.eqb k key); simpl; [constructor; assumption|assumption].
Qed.

(** A property of the object that [parseElement] builds holds the values
    assigned under its name, in the order of the document. *)
Lemma lookup_assignAll (key : string) (entries seen : list (string * xml))
    (obj : list (string * xml)) :
  Forall (fun kv => plain (snd kv)) entries ->
  Forall (fun kv => plain (snd kv)) seen ->
  Forall (fun kv => snd kv <> XUndef) obj ->
  Xml.lookup_field key obj = group (collect key seen) ->
  Xml.lookup_field key (assignAll entries obj) = group (collect key (seen ++ entries)).
Proof.
  revert seen obj. induction entries as [|[k v] rest IH]; intros seen obj Hentries Hseen Hdef Hobj.
  - rewrite app_nil_r. exact Hobj.
  - apply Forall_cons in Hentries as [Hv Hrest]. simpl in Hv. simpl.
    replace (seen ++ (k, v) :: rest) with ((seen ++ [(k, v)]) ++ rest)
      by (rewrite <- app_assoc; reflexivity).
    apply IH.
    + exact Hrest.
    + apply Forall_app. split; [exact Hseen|]. repeat constructor. exact Hv.
    + apply assignOrPush_defined; [apply plain_defined, Hv|exact Hdef].
    + rewrite lookup_assignOrPush by exact Hdef. rewrite collect_app. simpl.
      destruct (String.eqb k key).
      * rewrite Hobj. apply pushValue_group; [apply collect_plain, Hseen|exact Hv].
      * rewrite app_nil_r. exact Hobj.
Qed.

Lemma entriesOf_plain (attrs : list (string * string)) (children : list node) :
  Forall (fun kv => plain (snd kv)) (entriesOf attrs children).
Proof.
  unfold entriesOf. apply Forall_app. split; apply Forall_forall; intros kv Hin;
    apply list_elem_of_In, in_map_iff in Hin as (x & <- & _); simpl; [exact I|apply parseElement_plain].
Qed.

Lemma get_parseElement (name : string) (attrs : list (string * string))
    (children : list node) (key : string) :
  Xml.get (Xml.parseElement (Element name attrs children "")) key
  = group (collect key (entriesOf attrs children)).
Proof.
  rewrite parseElement_assignAll.
  pose proof (lookup_assignAll key (entriesOf attrs children) [] []
                (entriesOf_plain attrs children) (List.Forall_nil _) (List.Forall_nil _) eq_refl) as H.
  simpl in H. cbv zeta. destruct (assignAll (entriesOf attrs children) []) eqn:E.
  - simpl in *. exact H.
  - change (Xml.isBlank "") with true. cbv iota. exact H.
Qed.

Lemma truthy_parseElement (name : string) (attrs : list (string * string))
    (children : list node) :
  attrs <> [] \/ children <> [] ->
  Xml.truthy (Xml.parseElement (Element name attrs children "")) = true.
Proof.
  intros H. rewrite parseElement_assignAll.
  assert (assignAll (entriesOf attrs children) [] <> []) as Hne.
  { apply assignAll_not_nil. left. unfold entriesOf.
    destruct H as [H|H]; [destruct attrs|destruct children; [|destruct attrs]];
      try contradiction; discriminate. }
  cbv zeta. destruct (assignAll (entriesOf attrs children) []); [contradiction|reflexivity].
Qed.

(** *** A document without the name attribute *)

Lemma dropKey_assignOrPush_same (key : string) (v : xml) (obj : list (string * xml)) :
  dropKey key (Xml.assignOrPush key v obj) = dropKey key obj.
Proof.
  unfold dropKey. induction obj as [|[k old] rest IH]; simpl.
  - rewrite String.eqb_refl. reflexivity.
  - destruct (String.eqb k key) eqn:E; simpl; rewrite E; simpl; [reflexivity|].
    rewrite IH. reflexivity.
Qed.

Lemma dropKey_assignOrPush_other (key k : string) (v : xml) (obj : list (string * xml)) :
  k <> key ->
  dropKey key (Xml.assignOrPush k v obj) = Xml.assignOrPush k v (dropKey key obj).
Proof.
  intros Hne. apply String.eqb_neq in Hne. unfold dropKey.
  induction obj as [|[k0 old] rest IH]; simpl.
  - rewrite Hne. reflexivity.
  - destruct (String.eqb k0 k) eqn:E0; simpl.
    + apply String.eqb_eq in E0. subst k0. rewrite Hne. simpl.
      rewrite String.eqb_refl. reflexivity.
    + destruct (String.eqb k0 key) eqn:E1; simpl; [exact IH|].
      rewrite E0, IH. reflexivity.
Qed.

Lemma dropKey_assignAll (key : string) (entries obj : list (string * xml)) :
  dropKey key (assignAll entries obj) = assignAll (dropKey key entries) (dropKey key obj).
Proof.
  revert obj. induction entries as [|[k v] rest IH]; intros obj; [reflexivity|].
  unfold assignAll in *. simpl. rewrite IH.
  destruct (String.eqb k key) eqn:E; simpl.
  - apply String.eqb_eq in E. subst k. rewrite dropKey_assignOrPush_same. reflexivity.
  - apply String.eqb_neq in E. rewrite dropKey_assignOrPush_other by exact E. reflexivity.
Qed.

Lemma dropKey_entriesOf (key : string) (attrs : list (string * string))
    (children : list node) :
  key ∉ map Xml.nodeName children ->
  dropKey key (entriesOf attrs children)
  = entriesOf (List.filter (fun kv => negb (String.eqb (fst kv) key)) attrs) children.
Proof.
  intros Hchildren. unfold dropKey, entriesOf. rewrite List.filter_app. f_equal.
  - induction attrs as [|[k v] rest IH]; [reflexivity|]. simpl.
    destruct (String.eqb k key); simpl; rewrite IH; reflexivity.
  - induction children as [|c rest IH]; [reflexivity|]. simpl.
    destruct (String.eqb_spec (Xml.nodeName c) key) as [E|E].
    + exfalso. apply Hchildren. simpl. rewrite E. apply list_elem_of_here.
    + simpl. rewrite IH; [reflexivity|].
      intros Hin. apply Hchildren. simpl. apply list_elem_of_further, Hin.
Qed.

Lemma dropKey_app (key : string) (a b : list (string * xml)) :
  dropKey key (a ++ b) = dropKey key a ++ dropKey key b.
Proof. apply List.filter_app. Qed.

(** The value of an element without its attribute [key] is the value of the
    element without the property [key], as long as something is left. *)
Lemma parseElement_withoutAttribute (key : string) (root : node)
    (fields : list (string * xml)) :
  key <> "_" ->
  key ∉ childNames root ->
  hasContent (withoutAttribute key root) ->
  Xml.parseElement root = XObj fields ->
  Xml.parseElement (withoutAttribute key root) = XObj (dropKey key fields).
Proof.
  intros Hkey Hchildren Hcontent Hroot.
  destruct root as [name attrs children text]. simpl in Hchildren, Hcontent.
  unfold withoutAttribute. rewrite parseElement_assignAll in Hroot |- *.
  assert (assignAll
            (entriesOf (List.filter (fun kv => negb (String.eqb (fst kv) key)) attrs)
               children) []
          = dropKey key (assignAll (entriesOf attrs children) [])) as Hobj.
  { rewrite dropKey_assignAll, (dropKey_entriesOf key attrs children Hchildren).
    reflexivity. }
  assert (dropKey key (assignAll (entriesOf attrs children) []) <> []) as Hne.
  { rewrite <- Hobj. apply assignAll_not_nil. left. unfold entriesOf.
    destruct Hcontent as [H|H];
      [destruct (List.filter _ attrs)|destruct children; [|destruct (List.filter _ attrs)]];
      try contradiction; discriminate. }
  rewrite Hobj. cbv zeta in Hroot |- *.
  destruct (assignAll (entriesOf attrs children) []) as [|e obj] eqn:E;
    [contradiction|].
  destruct (dropKey key (e :: obj)) as [|e' obj'] eqn:E'; [contradiction|].
  destruct (Xml.isBlank text).
  - injection Hroot as <-. rewrite E'. reflexivity.
  - injection Hroot as <-.
    change (e :: obj ++ [("_", XStr text)]) with ((e :: obj) ++ [("_", XStr text)]).
    rewrite dropKey_app, E'. f_equal. f_equal.
    unfold dropKey. cbn [List.filter fst].
    destruct (String.eqb_spec "_" key) as [<-|_]; [contradiction|reflexivity].
Qed.

(** When [parseQDEFile] succeeds. *)
Lemma parseQDEFile_Ok (root : node) (p : Project) :
  parseQDEFile (WellFormed root) = Ok p
  <-> Xml.nodeName root = "Project"
      /\ Xml.truthy (Xml.parseElement root) = true
      /\ Parse.convertXmlToProject (Xml.parseElement root) = Ok p.
Proof.
  unfold parseQDEFile, Xml.parseString. cbn [Xml.get Xml.lookup_field].
  destruct (String.eqb_spec (Xml.nodeName root) "Project") as [E|E].
  - destruct (Xml.truthy (Xml.parseElement root)); cbn [negb].
    + split.
      * intros H. repeat split; [exact E|].
        destruct (Parse.convertXmlToProject _) as [q|[m d|m d|n m]]; congruence.
      * intros (_ & _ & ->). reflexivity.
    + split; [discriminate|]. intros (_ & H & _). discriminate.
  - cbn [Xml.truthy negb]. split; [discriminate|]. intros (H & _). contradiction.
Qed.

Lemma ifPresent_whenPresent {A : Type} (f : xml -> Result A) (x : xml) (key : string) :
  Parse.ifPresent f x key = whenPresent f (Xml.get x key).
Proof. reflexivity. Qed.

Lemma flat_get (v : xml) (key : string) : flat v -> Xml.get v key = XUndef.
Proof. destruct v; simpl; intros H; try reflexivity. contradiction. Qed.

Lemma mapM_total {A : Type} (f : xml -> Result A) (l : list xml) :
  (forall x, exists y, f x = Ok y) -> exists r, mapM f l = Ok r.
Proof.
  intros Hf. induction l as [|x l [r IH]]; [eexists; reflexivity|].
  destruct (Hf x) as [y Hy]. exists (y :: r). simpl. rewrite Hy. simpl. rewrite IH.
  reflexivity.
Qed.

Lemma whenPresent_flat {A : Type} (f : xml -> Result A) (v : xml) :
  flat v -> (forall w, flat w -> exists y, f w = Ok y) ->
  exists o, whenPresent f v = Ok o.
Proof.
  intros Hv Hf. unfold whenPresent. destruct (Xml.truthy v); [|eexists; reflexivity].
  destruct (Hf v Hv) as [y ->]. eexists. reflexivity.
Qed.

(** A root object whose properties are all strings (or arrays of them) and
    that has no [CodeBook] is converted, and its name is what its [name]
    property holds. *)
Lemma convertXmlToProject_flat (fields : list (string * xml)) :
  (forall key, flat (Xml.lookup_field key fields)) ->
  Xml.lookup_field "CodeBook" fields = XUndef ->
  exists p, Parse.convertXmlToProject (XObj fields) = Ok p
            /\ Proj.name p = Xml.asString (Xml.lookup_field "name" fields).
Proof.
  intros Hflat Hcb.
  unfold Parse.convertXmlToProject, Parse.unwrapped, Parse.str.
  rewrite !ifPresent_whenPresent. cbn [Xml.get]. rewrite Hcb.
  assert (forall w, flat w -> exists y, Parse.convertNoteRefs w = Ok y) as HnoteRefs.
  { intros w _. unfold Parse.convertNoteRefs, Parse.each.
    destruct (Xml.truthy w); [|eexists; reflexivity].
    apply mapM_total. intros x. eexists. reflexivity. }
  destruct (whenPresent_flat Parse.convertNoteRefs _ (Hflat "NoteRef") HnoteRefs) as [o1 ->].
  destruct (whenPresent_flat (fun w => Parse.convertVariables (Xml.get w "Variable")) _
              (Hflat "Variables")) as [o2 ->].
  { intros w Hw. rewrite (flat_get w _ Hw). eexists. reflexivity. }
  destruct (whenPresent_flat (fun w => Parse.convertCases (Xml.get w "Case")) _
              (Hflat "Cases")) as [o3 ->].
  { intros w Hw. rewrite (flat_get w _ Hw). eexists. reflexivity. }
  destruct (whenPresent_flat Parse.convertSources _ (Hflat "Sources")) as [o4 ->].
  { intros w Hw. unfold Parse.convertSources. rewrite !ifPresent_whenPresent.
    rewrite !(flat_get w _ Hw). eexists. reflexivity. }
  destruct (whenPresent_flat (fun w => Parse.convertNotes (Xml.get w "Note")) _
              (Hflat "Notes")) as [o5 ->].
  { intros w Hw. rewrite (flat_get w _ Hw). eexists. reflexivity. }
  destruct (whenPresent_flat (fun w => Parse.convertLinks (Xml.get w "Link")) _
              (Hflat "Links")) as [o6 ->].
  { intros w Hw. rewrite (flat_get w _ Hw). eexists. reflexivity. }
  destruct (whenPresent_flat (fun w => Parse.convertSets (Xml.get w "Set")) _
              (Hflat "Sets")) as [o7 ->].
  { intros w Hw. rewrite (flat_get w _ Hw). eexists. reflexivity. }
  destruct (whenPresent_flat (fun w => Parse.convertGraphs (Xml.get w "Graph")) _
              (Hflat "Graphs")) as [o8 ->].
  { intros w Hw. rewrite (flat_get w _ Hw). eexists. reflexivity. }
  eexists. split; reflexivity.
Qed.

Lemma collect_attributes_flat (key : string) (attrs : list (string * string)) :
  flat (group (collect key (entriesOf attrs []))).
Proof.
  unfold entriesOf. rewrite app_nil_r.
  assert (Forall flat (collect key (map (fun kv => (fst kv, XStr (snd kv))) attrs))) as H.
  { induction attrs as [|[k v] rest IH]; [constructor|]. unfold collect in *. simpl.
    destruct (String.eqb k key); simpl; [constructor; [exact I|exact IH]|exact IH]. }
  destruct H as [|a l Ha Hl]; [exact I|]. destruct l; [exact Ha|exact I].
Qed.

Lemma collect_absent (key : string) (attrs : list (string * string)) :
  key ∉ map fst attrs -> collect key (entriesOf attrs []) = [].
Proof.
  intros Hkey. unfold entriesOf, collect. rewrite app_nil_r.
  induction attrs as [|[k v] rest IH]; [reflexivity|]. simpl.
  destruct (String.eqb_spec k key) as [->|_].
  - exfalso. apply Hkey. simpl. apply list_elem_of_here.
  - simpl. apply IH. intros Hin. apply Hkey. simpl. apply list_elem_of_further, Hin.
Qed.

(** A root element that has attributes only, none of them [name] or
    [CodeBook], is parsed, to a project without a name. *)
Lemma parseQDEFile_attributes_only (attrs : list (string * string)) :
  attrs <> [] -> "name" ∉ map fst attrs -> "CodeBook" ∉ map fst attrs ->
  exists p, parseQDEFile (WellFormed (Element "Project" attrs [] "")) = Ok p
            /\ Proj.name p = None.
Proof.
  intros Hne Hname Hcb.
  pose proof (truthy_parseElement "Project" attrs [] (or_introl Hne)) as Htruthy.
  pose proof (get_parseElement "Project" attrs []) as Hget.
  destruct (Xml.parseElement (Element "Project" attrs [] "")) as [| | | |fields|] eqn:E;
    try discriminate; try (rewrite parseElement_assignAll in E; cbv zeta in E;
      destruct (assignAll _ _); discriminate).
  - rewrite parseElement_assignAll in E; cbv zeta in E.
    destruct (assignAll _ _) eqn:E'; [|discriminate].
    exfalso. revert E'. apply assignAll_not_nil. left. unfold entriesOf.
    destruct attrs; [contradiction|discriminate].
  - cbn [Xml.get] in Hget.
    destruct (convertXmlToProject_flat fields) as (p & Hp & Hn).
    + intros key. rewrite Hget. apply collect_attributes_flat.
    + rewrite Hget, collect_absent by exact Hcb. reflexivity.
    + exists p. split.
      * apply parseQDEFile_Ok. rewrite E. repeat split. exact Hp.
      * rewrite Hn, Hget, collect_absent by exact Hname. reflexivity.
Qed.

(** *** The errors of the conversion *)

Lemma quiet_Ok {A : Type} (a : A) : quiet (Ok a).
Proof. intros e H. discriminate. Qed.

Lemma quiet_bind {A B : Type} (m : Result A) (k : A -> Result B) :
  quiet m -> (forall a, quiet (k a)) -> quiet (m ≫= k).
Proof.
  intros Hm Hk e. destruct m as [a|e']; simpl.
  - apply Hk.
  - intros [= <-]. apply Hm. reflexivity.
Qed.

Lemma quiet_fmap {A B : Type} (f : A -> B) (m : Result A) :
  quiet m -> quiet (f <$> m).
Proof.
  intros Hm e. destruct m as [a|e']; simpl; [discriminate|].
  intros [= <-]. apply Hm. reflexivity.
Qed.

Lemma quiet_mapM {A : Type} (f : xml -> Result A) (l : list xml) :
  (forall x, quiet (f x)) -> quiet (mapM f l).
Proof.
  intros Hf. induction l as [|x l IH]; [apply quiet_Ok|].
  simpl. apply quiet_bind; [apply Hf|]. intros y.
  apply quiet_bind; [exact IH|]. intros k. apply quiet_Ok.
Qed.

Lemma quiet_each {A : Type} (f : xml -> Result A) (x : xml) :
  (forall y, quiet (f y)) -> quiet (Parse.each f x).
Proof.
  intros Hf. unfold Parse.each. destruct (Xml.truthy x); [|apply quiet_Ok].
  apply quiet_mapM, Hf.
Qed.

Lemma quiet_ifPresent {A : Type} (f : xml -> Result A) (x : xml) (key : string) :
  (forall y, quiet (f y)) -> quiet (Parse.ifPresent f x key).
Proof.
  intros Hf. unfold Parse.ifPresent. destruct (Xml.truthy _); [|apply quiet_Ok].
  apply quiet_fmap, Hf.
Qed.

Lemma quiet_getT (v : xml) (key : string) :
  key = "targetGUID" \/ key = "Code" -> quiet (Parse.getT v key).
Proof.
  intros Hkey e. destruct v; try discriminate.
  intros H. exists key. split; [exact Hkey|exact H].
Qed.

Create HintDb quiet.

Ltac quiet_step :=
  first
    [ match goal with |- forall _, _ => intro end
    | apply quiet_Ok
    | apply quiet_each
    | apply quiet_ifPresent
    | apply quiet_fmap
    | apply quiet_getT; auto
    | solve [auto with quiet]
    | apply quiet_bind ].

Lemma quiet_convertRefs (x : xml) : quiet (Parse.each Parse.convertRef x).
Proof. unfold Parse.convertRef. repeat quiet_step. Qed.
#[local] Hint Resolve quiet_convertRefs : quiet.

Lemma quiet_convertNoteRefs (x : xml) : quiet (Parse.convertNoteRefs x).
Proof. apply quiet_convertRefs. Qed.
#[local] Hint Resolve quiet_convertNoteRefs : quiet.

Lemma quiet_convertCodes_fuel (fuel : nat) : forall x, quiet (Parse.convertCodes_fuel fuel x).
Proof.
  induction fuel as [|fuel IH]; intros x; simpl; repeat quiet_step.
Qed.

Lemma quiet_convertCodes (x : xml) : quiet (Parse.convertCodes x).
Proof. apply quiet_convertCodes_fuel. Qed.
#[local] Hint Resolve quiet_convertCodes : quiet.

Lemma quiet_convertVariables (x : xml) : quiet (Parse.convertVariables x).
Proof. unfold Parse.convertVariables. repeat quiet_step. Qed.
#[local] Hint Resolve quiet_convertVariables : quiet.

Lemma quiet_convertVariableValues (x : xml) : quiet (Parse.convertVariableValues x).
Proof. unfold Parse.convertVariableValues. repeat quiet_step. Qed.
#[local] Hint Resolve quiet_convertVariableValues : quiet.

Lemma quiet_convertCases (x : xml) : quiet (Parse.convertCases x).
Proof.
  unfold Parse.convertCases, Parse.convertCodeRefs, Parse.convertSourceRefs,
    Parse.convertSelectionRefs. repeat quiet_step.
Qed.
#[local] Hint Resolve quiet_convertCases : quiet.

Lemma quiet_convertCodings (x : xml) : quiet (Parse.convertCodings x).
Proof. unfold Parse.convertCodings. repeat quiet_step. Qed.
#[local] Hint Resolve quiet_convertCodings : quiet.

Lemma quiet_convertPlainTextSelections (x : xml) :
  quiet (Parse.convertPlainTextSelections x).
Proof. unfold Parse.convertPlainTextSelections. repeat quiet_step. Qed.
#[local] Hint Resolve quiet_convertPlainTextSelections : quiet.

Lemma quiet_convertTextSource (x : xml) : quiet (Parse.convertTextSource x).
Proof. unfold Parse.convertTextSource. repeat quiet_step. Qed.
#[local] Hint Resolve quiet_convertTextSource : quiet.

Lemma quiet_convertTextSources (x : xml) : quiet (Parse.convertTextSources x).
Proof. unfold Parse.convertTextSources. repeat quiet_step. Qed.
#[local] Hint Resolve quiet_convertTextSources : quiet.

Lemma quiet_firstTextSource (x : xml) : quiet (Parse.firstTextSource x).
Proof. unfold Parse.firstTextSource. repeat quiet_step. Qed.
#[local] Hint Resolve quiet_firstTextSource : quiet.

Lemma quiet_convertPictureSelections (x : xml) :
  quiet (Parse.convertPictureSelections x).
Proof. unfold Parse.convertPictureSelections. repeat quiet_step. Qed.
#[local] Hint Resolve quiet_convertPictureSelections : quiet.

Lemma quiet_convertPictureSources (x : xml) : quiet (Parse.convertPictureSources x).
Proof. unfold Parse.convertPictureSources. repeat quiet_step. Qed.
#[local] Hint Resolve quiet_convertPictureSources : quiet.

Lemma quiet_convertPDFSelections (x : xml) : quiet (Parse.convertPDFSelections x).
Proof. unfold Parse.convertPDFSelections. repeat quiet_step. Qed.
#[local] Hint Resolve quiet_convertPDFSelections : quiet.

Lemma quiet_convertPDFSources (x : xml) : quiet (Parse.convertPDFSources x).
Proof. unfold Parse.convertPDFSources. repeat quiet_step. Qed.
#[local] Hint Resolve quiet_convertPDFSources : quiet.

Lemma quiet_convertSyncPoints (x : xml) : quiet (Parse.convertSyncPoints x).
Proof. unfold Parse.convertSyncPoints. repeat quiet_step. Qed.
#[local] Hint Resolve quiet_convertSyncPoints : quiet.

Lemma quiet_convertTranscriptSelections (x : xml) :
  quiet (Parse.convertTranscriptSelections x).
Proof. unfold Parse.convertTranscriptSelections. repeat quiet_step. Qed.
#[local] Hint Resolve quiet_convertTranscriptSelections : quiet.

Lemma quiet_convertTranscripts (x : xml) : quiet (Parse.convertTranscripts x).
Proof. unfold Parse.convertTranscripts. repeat quiet_step. Qed.
#[local] Hint Resolve quiet_convertTranscripts : quiet.

Lemma quiet_convertAVSelections (x : xml) : quiet (Parse.convertAVSelections x).
Proof. unfold Parse.convertAVSelections. repeat quiet_step. Qed.
#[local] Hint Resolve quiet_convertAVSelections : quiet.

Lemma quiet_convertAudioSources (x : xml) : quiet (Parse.convertAudioSources x).
Proof.
  unfold Parse.convertAudioSources, Parse.convertAudioSelections. repeat quiet_step.
Qed.
#[local] Hint Resolve quiet_convertAudioSources : quiet.

Lemma quiet_convertVideoSources (x : xml) : quiet (Parse.convertVideoSources x).
Proof.
  unfold Parse.convertVideoSources, Parse.convertVideoSelections. repeat quiet_step.
Qed.
#[local] Hint Resolve quiet_convertVideoSources : quiet.

Lemma quiet_convertSources (x : xml) : quiet (Parse.convertSources x).
Proof. unfold Parse.convertSources. repeat quiet_step. Qed.
#[local] Hint Resolve quiet_convertSources : quiet.

Lemma quiet_convertNotes (x : xml) : quiet (Parse.convertNotes x).
Proof. unfold Parse.convertNotes. destruct (Xml.truthy x); repeat quiet_step. Qed.
#[local] Hint Resolve quiet_convertNotes : quiet.

Lemma quiet_convertSets (x : xml) : quiet (Parse.convertSets x).
Proof.
  unfold Parse.convertSets, Parse.convertCodeRefs, Parse.convertSourceRefs.
  repeat quiet_step.
Qed.
#[local] Hint Resolve quiet_convertSets : quiet.

Lemma quiet_convertGraphs (x : xml) : quiet (Parse.convertGraphs x).
Proof.
  unfold Parse.convertGraphs, Parse.convertVertices, Parse.convertEdges.
  repeat quiet_step.
Qed.
#[local] Hint Resolve quiet_convertGraphs : quiet.

Lemma quiet_convertLinks (x : xml) : quiet (Parse.convertLinks x).
Proof. unfold Parse.convertLinks. repeat quiet_step. Qed.
#[local] Hint Resolve quiet_convertLinks : quiet.

(** The conversion of a document fails only on a missing [CodeRef],
    [VariableRef] or [Codes] element. *)
Lemma quiet_convertXmlToProject (x : xml) : quiet (Parse.convertXmlToProject x).
Proof.
  unfold Parse.convertXmlToProject, Parse.unwrapped. cbv zeta. repeat quiet_step.
Qed.

Lemma parseQDEFile_errors (root : node) (error : Error) :
  parseQDEFile (WellFormed root) = Throw error ->
  error = InvalidQDPXFileError "Invalid QDE file: <Project> element not found" []
  \/ exists e, missingProperty e
               /\ error = InvalidQDPXFileError
                            ("Failed to parse QDE file: " +:+ Error_toString e) [].
Proof.
  unfold parseQDEFile. destruct (negb _); [intros [= <-]; left; reflexivity|].
  destruct (Parse.convertXmlToProject _) as [p|e] eqn:E; [discriminate|].
  pose proof (quiet_convertXmlToProject _ e E) as (key & Hkey & He).
  simpl in He. injection He as <-. intros [= <-]. right.
  eexists. split; [exists key; split; [exact Hkey|reflexivity]|reflexivity].
Qed.

Lemma parseElement_hasContent (root : node) :
  hasContent root -> exists fields, Xml.parseElement root = XObj fields.
Proof.
  destruct root as [name attrs children text]. intros H.
  rewrite parseElement_assignAll. cbv zeta.
  assert (assignAll (entriesOf attrs children) [] <> []) as Hne.
  { apply assignAll_not_nil. left. unfold entriesOf.
    destruct H as [H|H]; [destruct attrs|destruct children; [|destruct attrs]];
      try contradiction; discriminate. }
  destruct (assignAll (entriesOf attrs children) []); [contradiction|].
  destruct (Xml.isBlank text); eexists; reflexivity.
Qed.

Lemma hasContent_withoutAttribute (key : string) (root : node) :
  hasContent (withoutAttribute key root) -> hasContent root.
Proof.
  destruct root as [name attrs children text]. simpl.
  intros [H|H]; [left|right; exact H]. intros ->. apply H. reflexivity.
Qed.

(** A document that is parsed is still parsed when the [name] attribute is
    taken from its root, to the same project without a name. *)
Lemma parseQDEFile_without_name (root : node) (p : Project) :
  parseQDEFile (WellFormed root) = Ok p ->
  "name" ∉ childNames root ->
  hasContent (withoutAttribute "name" root) ->
  parseQDEFile (WellFormed (withoutAttribute "name" root)) = Ok (withName None p).
Proof.
  intros Hok Hchildren Hcontent.
  apply parseQDEFile_Ok in Hok as (Hname & _ & Hconvert).
  destruct (parseElement_hasContent root (hasContent_withoutAttribute _ _ Hcontent))
    as [fields Hfields].
  pose proof (parseElement_withoutAttribute "name" root fields
                ltac:(discriminate) Hchildren Hcontent Hfields) as Hwithout.
  apply parseQDEFile_Ok. rewrite Hwithout. repeat split.
  - destruct root. exact Hname.
  - rewrite convertXmlToProject_without_name, <- Hfields, Hconvert. reflexivity.
Qed.




(** *** Numeric fields *)

Lemma parseInt_not_a_number (c : ascii) (rest : string) :
  isWhiteSpace c = false -> c <> "+"%char -> c <> "-"%char -> digitValue c = None ->
  parseInt (String c rest) = NaN.
Proof.
  intros Hws Hplus Hminus Hdigit. unfold parseInt.
  cbn [skipWhiteSpace]. rewrite Hws.
  assert (Hsign : readSign (String c rest) = (1, String c rest)).
  { unfold readSign.
    destruct (Ascii.eqb_spec c "-") as [->|_]; [congruence|].
    destruct (Ascii.eqb_spec c "+") as [->|_]; [congruence|].
    destruct c as [[] [] [] [] [] [] [] []]; try reflexivity; congruence. }
  rewrite Hsign. cbn [readDigits]. rewrite Hdigit. reflexivity.
Qed.

Lemma parseFloat_not_a_number (c : ascii) (rest : string) :
  isWhiteSpace c = false -> c <> "+"%char -> c <> "-"%char -> digitValue c = None ->
  c <> "."%char -> c <> "I"%char ->
  parseFloat (String c rest) = NaN.
Proof.
  intros Hws Hplus Hminus Hdigit Hdot HI. unfold parseFloat.
  cbn [skipWhiteSpace]. rewrite Hws.
  assert (Hsign : readSign (String c rest) = (1, String c rest)).
  { unfold readSign.
    destruct c as [[] [] [] [] [] [] [] []]; try reflexivity; congruence. }
  rewrite Hsign.
  assert (Hinf : JS.startsWith (String c rest) "Infinity" = false).
  { unfold JS.startsWith. cbn [String.prefix].
    destruct (Ascii.ascii_dec "I" c) as [<-|_]; [congruence | reflexivity]. }
  rewrite Hinf. cbn [readDigits]. rewrite Hdigit.
  destruct c as [[] [] [] [] [] [] [] []]; try reflexivity; congruence.
Qed.

(** The positions of a selection are [parseInt] of the attribute text; when
    the conversion of a selection throws, the error is that of a nested
    [Coding] or [NoteRef]. *)
Lemma convertPlainTextSelections_positions (fields : list (string * xml)) :
  match Parse.convertPlainTextSelections (XObj fields) with
  | Ok selections =>
      exists selection,
        selections = [selection]
        /\ PlainTextSelection.startPosition selection
           = parseInt (Xml.toString (Xml.get (XObj fields) "startPosition"))
        /\ PlainTextSelection.endPosition selection
           = parseInt (Xml.toString (Xml.get (XObj fields) "endPosition"))
  | Throw error =>
      Parse.ifPresent Parse.convertCodings (XObj fields) "Coding" = Throw error
      \/ Parse.ifPresent Parse.convertNoteRefs (XObj fields) "NoteRef" = Throw error
  end.
Proof.
  unfold Parse.convertPlainTextSelections, Parse.each.
  cbn [Xml.truthy Xml.arrayify mapM].
  destruct (Parse.ifPresent Parse.convertCodings (XObj fields) "Coding") as [coding|e];
    cbn [mbind Result_bind]; [|left; reflexivity].
  destruct (Parse.ifPresent Parse.convertNoteRefs (XObj fields) "NoteRef") as [noteRef|e];
    cbn [mbind Result_bind mret Result_ret fmap Result_fmap]; [|right; reflexivity].
  eexists; split; [reflexivity|]. split; reflexivity.
Qed.

(** An [IntegerValue] is [parseInt] of its text and a [FloatValue] is
    [parseFloat] of its text, whatever the text. *)
Lemma convertVariableValues_numbers (fields : list (string * xml)) (ref v : xml) :
  Parse.getT (Xml.get (XObj fields) "VariableRef") "targetGUID" = Ok ref ->
  Xml.get (XObj fields) "TextValue" = XUndef ->
  Xml.get (XObj fields) "BooleanValue" = XUndef ->
  v <> XUndef ->
  (Xml.get (XObj fields) "IntegerValue" = v ->
   Parse.convertVariableValues (XObj fields)
   = Ok [VariableValue.mk (Ref.mk (Xml.asString ref)) None None
           (Some (parseInt (Xml.toString v))) None None None])
  /\ (Xml.get (XObj fields) "IntegerValue" = XUndef ->
      Xml.get (XObj fields) "FloatValue" = v ->
      Parse.convertVariableValues (XObj fields)
      = Ok [VariableValue.mk (Ref.mk (Xml.asString ref)) None None None
              (Some (parseFloat (Xml.toString v))) None None]).
Proof.
  intros Href Htext Hbool Hv.
  unfold Parse.convertVariableValues, Parse.each.
  cbn [Xml.truthy Xml.arrayify mapM].
  rewrite Href, Htext, Hbool. cbn [mbind Result_bind].
  split.
  - intros ->. destruct v; try congruence; reflexivity.
  - intros -> ->. destruct v; try congruence; reflexivity.
Qed.

(** *** Printing a whole number and reading it again *)

Lemma digitValue_pretty_N_char (d : N) :
  (d < 10)%N -> digitValue (pretty_N_char d) = Some (Z.of_N d).
Proof.
  intros H.
  assert (d = 0 \/ d = 1 \/ d = 2 \/ d = 3 \/ d = 4 \/ d = 5 \/ d = 6 \/ d = 7
          \/ d = 8 \/ d = 9)%N as Hd by lia.
  repeat (destruct Hd as [->|Hd]; [reflexivity|]). subst d. reflexivity.
Qed.

Lemma readDigits_pretty_N_go (x : N) : forall (s : string) (acc : Z) (count : nat),
  exists k : nat,
    ((0 < x)%N -> (0 < k)%nat)
    /\ readDigits (pretty_N_go x s) acc count
       = readDigits s (acc * 10 ^ Z.of_nat k + Z.of_N x) (count + k).
Proof.
  induction (N.lt_wf_0 x) as [x _ IH]. intros s acc count.
  assert (x = 0 \/ 0 < x)%N as [->|Hpos] by lia.
  - exists O. split; [lia|]. rewrite pretty_N_go_0.
    replace (acc * 10 ^ Z.of_nat 0 + Z.of_N 0) with acc by (simpl; lia).
    replace (count + 0)%nat with count by lia. reflexivity.
  - rewrite pretty_N_go_step by exact Hpos.
    destruct (IH (x `div` 10)%N (N.div_lt x 10 Hpos eq_refl)
                (String (pretty_N_char (x `mod` 10)) s) acc count) as (k & _ & Hk).
    exists (S k). split; [lia|]. rewrite Hk. simpl readDigits.
    rewrite digitValue_pretty_N_char by (apply N.mod_lt; lia).
    f_equal; [|lia].
    rewrite Nat2Z.inj_succ, Z.pow_succ_r by lia.
    rewrite N2Z.inj_mod, N2Z.inj_div.
    pose proof (Z.div_mod (Z.of_N x) 10). lia.
Qed.

Lemma pretty_N_go_app (x : N) : forall s t : string,
  pretty_N_go x s +:+ t = pretty_N_go x (s +:+ t).
Proof.
  induction (N.lt_wf_0 x) as [x _ IH]. intros s t.
  assert (x = 0 \/ 0 < x)%N as [->|Hpos] by lia.
  - rewrite !pretty_N_go_0. reflexivity.
  - rewrite (pretty_N_go_step x s), (pretty_N_go_step x (s +:+ t)) by exact Hpos.
    rewrite (IH (x `div` 10)%N (N.div_lt x 10 Hpos eq_refl)). reflexivity.
Qed.

Lemma readDigits_stops (tail : string) (acc : Z) (count : nat) :
  continuesInteger tail = false -> readDigits tail acc count = (acc, count, tail).
Proof.
  destruct tail as [|c tail]; [reflexivity|]. simpl.
  destruct (digitValue c); [discriminate|reflexivity].
Qed.

(** The digits of a natural number, followed by text that does not continue
    them, are read as that number. *)
Lemma readDigits_pretty_N (x : N) (tail : string) :
  continuesInteger tail = false ->
  exists k : nat, readDigits (pretty x +:+ tail) 0 0 = (Z.of_N x, S k, tail).
Proof.
  intros Htail. unfold pretty, pretty_N. destruct (decide (x = 0%N)) as [->|Hx].
  - exists O. change ("0" +:+ tail) with (String "0" tail). simpl readDigits.
    apply readDigits_stops, Htail.
  - rewrite pretty_N_go_app.
    destruct (readDigits_pretty_N_go x ("" +:+ tail) 0 0) as (k & Hk & H).
    destruct k as [|k]; [lia|]. exists k. rewrite H.
    change ("" +:+ tail) with tail. rewrite readDigits_stops by exact Htail.
    f_equal. all: try (f_equal; lia).
Qed.

Lemma readDigits_first (s : string) (value : Z) (k : nat) (rest : string) :
  readDigits s 0 0 = (value, S k, rest) ->
  exists a s', s = String a s' /\ digitValue a <> None.
Proof.
  destruct s as [|a s']; simpl; [discriminate|].
  destruct (digitValue a) eqn:E; [|intros [=]].
  intros _. exists a, s'. split; [reflexivity|]. rewrite E. discriminate.
Qed.

Lemma digit_is_no_prefix (a : ascii) :
  digitValue a <> None ->
  isWhiteSpace a = false /\ a <> "-"%char /\ a <> "+"%char /\ a <> "I"%char.
Proof.
  destruct a as [[] [] [] [] [] [] [] []]; vm_compute; intros H;
    try contradiction; repeat split; discriminate.
Qed.

Lemma continuesDecimal_integer (tail : string) :
  continuesDecimal tail = false -> continuesInteger tail = false.
Proof.
  destruct tail as [|c tail]; [reflexivity|]. simpl.
  destruct (digitValue c); [discriminate|reflexivity].
Qed.

Lemma parse_digits (s : string) (value : Z) (k : nat) (rest : string) :
  readDigits s 0 0 = (value, S k, rest) ->
  parseInt s = Int value /\ parseInt ("-" +:+ s) = Int (- value)
  /\ (continuesDecimal rest = false ->
      parseFloat s = Int value /\ parseFloat ("-" +:+ s) = Int (- value)).
Proof.
  intros H. destruct (readDigits_first _ _ _ _ H) as (a & s' & -> & Ha).
  destruct (digit_is_no_prefix a Ha) as (Hw & Hminus & Hplus & HI).
  assert (readSign (String a s') = (1, String a s')) as Hsign.
  { unfold readSign. destruct a as [[] [] [] [] [] [] [] []]; try reflexivity; contradiction. }
  assert (JS.startsWith (String a s') "Infinity" = false) as Hinf.
  { unfold JS.startsWith.
    change (String.prefix "Infinity" (String a s'))
      with (if ascii_dec "I" a then String.prefix "nfinity" s' else false).
    destruct (ascii_dec "I" a) as [<-|]; [contradiction|reflexivity]. }
  assert (continuesDecimal rest = false ->
          match rest with
          | String "."%char rest' =>
              let '(mantissa, count, rest'') := readDigits rest' value (S k) in
              match count with
              | O => NaN
              | S _ => Finite (1 * mantissa) (readExponent rest'' - Z.of_nat (count - S k))
              end
          | _ => Finite (1 * value) (readExponent rest)
          end = Int value
          /\ match rest with
             | String "."%char rest' =>
                 let '(mantissa, count, rest'') := readDigits rest' value (S k) in
                 match count with
                 | O => NaN
                 | S _ => Finite (-1 * mantissa)
                            (readExponent rest'' - Z.of_nat (count - S k))
                 end
             | _ => Finite (-1 * value) (readExponent rest)
             end = Int (- value)) as Hrest.
  { intros Hc. destruct rest as [|c rest].
    { split. all: unfold Int; simpl readExponent; f_equal; lia. }
    simpl in Hc. apply orb_false_elim in Hc as [Hc HE].
    apply orb_false_elim in Hc as [Hc He]. apply orb_false_elim in Hc as [_ Hdot].
    assert (readExponent (String c rest) = 0) as Hexp.
    { unfold readExponent. rewrite He, HE. reflexivity. }
    apply Ascii.eqb_neq in Hdot.
    split.
    - transitivity (Finite (1 * value) (readExponent (String c rest))).
      + destruct c as [[] [] [] [] [] [] [] []]; try reflexivity. contradiction.
      + rewrite Hexp. unfold Int. f_equal; lia.
    - transitivity (Finite (-1 * value) (readExponent (String c rest))).
      + destruct c as [[] [] [] [] [] [] [] []]; try reflexivity. contradiction.
      + rewrite Hexp. unfold Int. f_equal; lia. }
  split; [|split].
  - unfold parseInt. simpl skipWhiteSpace. rewrite Hw, Hsign. cbv beta iota.
    rewrite H. f_equal; lia.
  - unfold parseInt. change ("-" +:+ String a s') with (String "-" (String a s')).
    simpl skipWhiteSpace. simpl readSign. cbv beta iota. rewrite H. f_equal; lia.
  - intros Hc. destruct (Hrest Hc) as [H1 H2]. split.
    + unfold parseFloat. simpl skipWhiteSpace. rewrite Hw, Hsign. cbv beta iota.
      rewrite Hinf, H. exact H1.
    + unfold parseFloat. change ("-" +:+ String a s') with (String "-" (String a s')).
      simpl skipWhiteSpace. simpl readSign. cbv beta iota. rewrite Hinf, H. exact H2.
Qed.

Lemma parse_pretty (z : Z) (tail : string) :
  (continuesInteger tail = false -> parseInt (pretty z +:+ tail) = Int z)
  /\ (continuesDecimal tail = false -> parseFloat (pretty z +:+ tail) = Int z).
Proof.
  assert (forall p : positive,
            (continuesInteger tail = false ->
             parseInt (pretty (N.pos p) +:+ tail) = Int (Z.pos p)
             /\ parseInt ("-" +:+ (pretty (N.pos p) +:+ tail)) = Int (Z.neg p))
            /\ (continuesDecimal tail = false ->
                parseFloat (pretty (N.pos p) +:+ tail) = Int (Z.pos p)
                /\ parseFloat ("-" +:+ (pretty (N.pos p) +:+ tail)) = Int (Z.neg p)))
    as Hpos.
  { intros p. split.
    - intros Ht. destruct (readDigits_pretty_N (N.pos p) tail Ht) as (k & Hk).
      destruct (parse_digits _ _ _ _ Hk) as (H1 & H2 & _). split; assumption.
    - intros Ht.
      destruct (readDigits_pretty_N (N.pos p) tail (continuesDecimal_integer _ Ht))
        as (k & Hk).
      destruct (parse_digits _ _ _ _ Hk) as (_ & _ & H). destruct (H Ht). split; assumption. }
  destruct z as [|p|p].
  - split; intros Ht.
    + destruct (readDigits_pretty_N 0 tail Ht) as (k & Hk).
      destruct (parse_digits _ _ _ _ Hk) as (H1 & _). exact H1.
    + destruct (readDigits_pretty_N 0 tail (continuesDecimal_integer _ Ht)) as (k & Hk).
      destruct (parse_digits _ _ _ _ Hk) as (_ & _ & H). destruct (H Ht). assumption.
  - destruct (Hpos p) as [H1 H2]. split; intros Ht; [apply H1|apply H2]; exact Ht.
  - destruct (Hpos p) as [H1 H2].
    change (pretty (Z.neg p) +:+ tail) with ("-" +:+ (pretty (N.pos p) +:+ tail)).
    split; intros Ht; [apply H1|apply H2]; exact Ht.
Qed.

Lemma readsAs_parseInt (s : string) (n : number) : readsAs false s n -> parseInt s = n.
Proof.
  intros [c rest _ Hws Hplus Hminus Hdigit _| |z tail _ Htail].
  - apply parseInt_not_a_number; assumption.
  - reflexivity.
  - apply parse_pretty, Htail.
Qed.

Lemma readsAs_parseFloat (s : string) (n : number) : readsAs true s n -> parseFloat s = n.
Proof.
  intros [c rest _ Hws Hplus Hminus Hdigit Hfloat| |z tail _ Htail].
  - destruct (Hfloat eq_refl). apply parseFloat_not_a_number; assumption.
  - reflexivity.
  - apply parse_pretty, Htail.
Qed.

Lemma fieldReadsAs_parseInt (v : xml) (n : number) :
  fieldReadsAs false v n -> parseInt (Xml.toString v) = n.
Proof.
  destruct v; simpl; try contradiction.
  - intros ->. reflexivity.
  - apply readsAs_parseInt.
Qed.

Lemma fieldReadsAs_parseFloat (v : xml) (n : number) :
  fieldReadsAs true v n -> parseFloat (Xml.toString v) = n.
Proof.
  destruct v; simpl; try contradiction.
  - intros ->. reflexivity.
  - apply readsAs_parseFloat.
Qed.

(** The positions that [parseQDEFile] gives the selection of
    [selectionDocument] are what [parseInt] makes of their text. *)
Lemma parseQDEFile_selectionDocument (startPosition endPosition : string) :
  Inspect.firstSelection (parseQDEFile (selectionDocument startPosition endPosition))
  = Some (PlainTextSelection.mk None None None (Some Examples.guidB) None
            (parseInt startPosition) (parseInt endPosition) None None None None).
Proof. cbv -[parseInt]. reflexivity. Qed.

Lemma int_readsInteger (v : xml) (key : string) : readsInteger v key (Parse.int v key).
Proof.
  intros m Hm. unfold Parse.int. apply fieldReadsAs_parseInt. exact Hm.
Qed.

Lemma optInt_readsOptionalInteger (v : xml) (key : string) :
  readsOptionalInteger v key (Parse.optInt v key).
Proof.
  unfold readsOptionalInteger, Parse.optInt.
  destruct (Xml.get v key) eqn:E; try reflexivity;
    (eexists; split; [reflexivity|]; intros m Hm; apply fieldReadsAs_parseInt; exact Hm).
Qed.

(** The numbers of the other selections, of sync points and of vertices are
    read in the same way. *)
Lemma convertPictureSelections_numbers (fields : list (string * xml)) :
  match Parse.convertPictureSelections (XObj fields) with
  | Ok selections =>
      exists selection,
        selections = [selection]
        /\ readsInteger (XObj fields) "firstX" (PictureSelection.firstX selection)
        /\ readsInteger (XObj fields) "firstY" (PictureSelection.firstY selection)
        /\ readsInteger (XObj fields) "secondX" (PictureSelection.secondX selection)
        /\ readsInteger (XObj fields) "secondY" (PictureSelection.secondY selection)
  | Throw error =>
      Parse.ifPresent Parse.convertCodings (XObj fields) "Coding" = Throw error
      \/ Parse.ifPresent Parse.convertNoteRefs (XObj fields) "NoteRef" = Throw error
  end.
Proof.
  unfold Parse.convertPictureSelections, Parse.each.
  cbn [Xml.truthy Xml.arrayify mapM].
  destruct (Parse.ifPresent Parse.convertCodings (XObj fields) "Coding") as [coding|e];
    cbn [mbind Result_bind]; [|left; reflexivity].
  destruct (Parse.ifPresent Parse.convertNoteRefs (XObj fields) "NoteRef") as [noteRef|e];
    cbn [mbind Result_bind mret Result_ret fmap Result_fmap]; [|right; reflexivity].
  eexists; split; [reflexivity|]. repeat split; apply int_readsInteger.
Qed.

Lemma convertPDFSelections_numbers (fields : list (string * xml)) :
  match Parse.convertPDFSelections (XObj fields) with
  | Ok selections =>
      exists selection,
        selections = [selection]
        /\ readsInteger (XObj fields) "page" (PDFSelection.page selection)
        /\ readsInteger (XObj fields) "firstX" (PDFSelection.firstX selection)
        /\ readsInteger (XObj fields) "firstY" (PDFSelection.firstY selection)
        /\ readsInteger (XObj fields) "secondX" (PDFSelection.secondX selection)
        /\ readsInteger (XObj fields) "secondY" (PDFSelection.secondY selection)
  | Throw error =>
      Parse.ifPresent Parse.firstTextSource (XObj fields) "Representation" = Throw error
      \/ Parse.ifPresent Parse.convertCodings (XObj fields) "Coding" = Throw error
      \/ Parse.ifPresent Parse.convertNoteRefs (XObj fields) "NoteRef" = Throw error
  end.
Proof.
  unfold Parse.convertPDFSelections, Parse.each.
  cbn [Xml.truthy Xml.arrayify mapM].
  destruct (Parse.ifPresent Parse.firstTextSource (XObj fields) "Representation")
    as [representation|e]; cbn [mbind Result_bind]; [|left; reflexivity].
  destruct (Parse.ifPresent Parse.convertCodings (XObj fields) "Coding") as [coding|e];
    cbn [mbind Result_bind]; [|right; left; reflexivity].
  destruct (Parse.ifPresent Parse.convertNoteRefs (XObj fields) "NoteRef") as [noteRef|e];
    cbn [mbind Result_bind mret Result_ret fmap Result_fmap]; [|right; right; reflexivity].
  eexists; split; [reflexivity|]. repeat split; apply int_readsInteger.
Qed.

Lemma convertAVSelections_numbers (fields : list (string * xml)) :
  match Parse.convertAVSelections (XObj fields) with
  | Ok selections =>
      exists selection,
        selections = [selection]
        /\ readsInteger (XObj fields) "begin" (AVSelection.begin selection)
        /\ readsInteger (XObj fields) "end" (AVSelection.end_ selection)
  | Throw error =>
      Parse.ifPresent Parse.convertCodings (XObj fields) "Coding" = Throw error
      \/ Parse.ifPresent Parse.convertNoteRefs (XObj fields) "NoteRef" = Throw error
  end.
Proof.
  unfold Parse.convertAVSelections, Parse.each.
  cbn [Xml.truthy Xml.arrayify mapM].
  destruct (Parse.ifPresent Parse.convertCodings (XObj fields) "Coding") as [coding|e];
    cbn [mbind Result_bind]; [|left; reflexivity].
  destruct (Parse.ifPresent Parse.convertNoteRefs (XObj fields) "NoteRef") as [noteRef|e];
    cbn [mbind Result_bind mret Result_ret fmap Result_fmap]; [|right; reflexivity].
  eexists; split; [reflexivity|]. repeat split; apply int_readsInteger.
Qed.

Lemma convertSyncPoints_numbers (fields : list (string * xml)) :
  exists syncPoint,
    Parse.convertSyncPoints (XObj fields) = Ok [syncPoint]
    /\ readsOptionalInteger (XObj fields) "timeStamp" (SyncPoint.timeStamp syncPoint)
    /\ readsOptionalInteger (XObj fields) "position" (SyncPoint.position syncPoint).
Proof.
  eexists. split; [reflexivity|]. split; apply optInt_readsOptionalInteger.
Qed.

Lemma convertVertices_numbers (fields : list (string * xml)) :
  exists vertex,
    Parse.convertVertices (XObj fields) = Ok [vertex]
    /\ readsInteger (XObj fields) "firstX" (Vertex.firstX vertex)
    /\ readsInteger (XObj fields) "firstY" (Vertex.firstY vertex)
    /\ readsOptionalInteger (XObj fields) "secondX" (Vertex.secondX vertex)
    /\ readsOptionalInteger (XObj fields) "secondY" (Vertex.secondY vertex).
Proof.
  eexists. split; [reflexivity|].
  repeat split; first [apply int_readsInteger | apply optInt_readsOptionalInteger].
Qed.




(** ** Validation of identifiers and references *)

(** On a field that the validator does visit, [checkReference] behaves as
    expected: a non-empty target that is an identifier of the project adds
    nothing, one that is not adds exactly one message. *)
Lemma checkReference_known (guids : gset string) (guid context : string)
    (errs : list string) :
  guid <> "" -> guid ∈ guids ->
  checkReference guids (Some guid) context errs = errs.
Proof.
  intros Hne Hin. destruct guid as [|a r]; [congruence|].
  cbn [checkReference]. rewrite bool_decide_eq_true_2 by exact Hin. reflexivity.
Qed.

Lemma checkReference_unknown (guids : gset string) (guid context : string)
    (errs : list string) :
  guid <> "" -> guid ∉ guids ->
  exists message, checkReference guids (Some guid) context errs = errs ++ [message].
Proof.
  intros Hne Hin. destruct guid as [|a r]; [congruence|].
  cbn [checkReference]. rewrite bool_decide_eq_false_2 by exact Hin.
  eexists. reflexivity.
Qed.

(** C4, at the input on which the code departs from the claim.  The only
    note of the project refers to an identifier that no entity has, and
    reference validation reports nothing, because it does not visit
    [project.Notes]; the same reference on a text source under [Sources] is
    reported, once. *)
Lemma dangling_reference_in_note_is_not_reported :
  bool_decide (Examples.guidMissing ∈ addGuids Examples.danglingNoteProject) = false
  /\ validateProjectReferences Examples.danglingNoteProject = []
  /\ validateProjectReferences Examples.danglingSourceProject
     = ["Invalid reference in project.Sources.TextSource[0].NoteRef[0].targetGUID: GUID 99999999-9999-9999-9999-999999999999 not found in project"].
Proof. vm_compute. repeat split. Qed.

(** C5, at the input on which the code departs from the claim.  Two notes
    share one well-formed identifier and GUID validation reports nothing,
    because it does not visit [project.Notes]; two text sources under
    [Sources] with that identifier are reported, once, with both paths. *)
Lemma duplicate_identifier_of_notes_is_not_reported :
  guidPattern_test Examples.guidA = true
  /\ validateProjectGUIDs Examples.duplicateNotesProject = []
  /\ validateProjectGUIDs Examples.duplicateSourcesProject
     = ["Duplicate GUID 11111111-1111-1111-1111-111111111111 in Sources.TextSource[1] and Sources.TextSource[0]"].
Proof. vm_compute. repeat split. Qed.

(** ** Resolution of source addresses *)

Lemma replaceAll_same (c : ascii) (s : string) :
  JS.replaceAll c (String c EmptyString) s = s.
Proof.
  induction s as [|a s IH]; [reflexivity|]. cbn.
  destruct (Ascii.eqb a c) eqn:E; rewrite IH; [|reflexivity].
  apply Ascii.eqb_eq in E. subst a. reflexivity.
Qed.

Lemma truthy_Some_iff (s : string) : JS.truthy (Some s) = true <-> s <> "".
Proof. destruct s; cbn; split; congruence. Qed.

(** [resolveSourcePath] fails in one situation only: a [relative://]
    address without a base path.  The error is the [ExportError] that names
    the address; every other address resolves, with or without a base path. *)
Theorem resolveSourcePath_fails_only_without_base (path : PathModule)
    (pathString : string) (basePath : option string) :
  match resolveSourcePath path pathString basePath with
  | Throw e =>
      JS.startsWith pathString "relative://" = true
      /\ JS.truthy basePath = false
      /\ e = ExportError ("Base path required for relative path: " +:+ pathString) []
  | Ok _ =>
      JS.startsWith pathString "relative://" = false \/ JS.truthy basePath = true
  end.
Proof.
  unfold resolveSourcePath.
  destruct (JS.startsWith pathString "internal://") eqn:Hi.
  - left. apply (startsWith_exclusive pathString "internal://"); [reflexivity|discriminate|exact Hi].
  - destruct (JS.startsWith pathString "relative://") eqn:Hr.
    + destruct (JS.truthy basePath) eqn:Hb; cbn [negb].
      * right. reflexivity.
      * repeat split.
    + destruct (JS.startsWith pathString "absolute://"); left; reflexivity.
Qed.

(** The resolver of the export ([resolveSourcePath]) and the resolver of the
    import ([resolvePath] on the kind that [getSourceType] gives) agree on
    every address that carries one of the three prefixes.  On an address
    without a prefix they differ: the export resolves the whole string
    against the base path, the import first removes its first eleven
    characters (stated for addresses of ASCII characters, where the
    characters of the embedding are those of the language). *)
Theorem resolvers_agree_on_prefixed_addresses (path : PathModule)
    (pathString basePath : string) :
  basePath <> "" ->
  (JS.startsWith pathString "internal://" = true
   \/ JS.startsWith pathString "relative://" = true
   \/ JS.startsWith pathString "absolute://" = true ->
   resolveSourcePath path pathString (Some basePath)
   = Ok (resolvePath path pathString basePath (getSourceType pathString)))
  /\ (asciiText pathString = true ->
      JS.startsWith pathString "internal://" = false ->
      JS.startsWith pathString "relative://" = false ->
      JS.startsWith pathString "absolute://" = false ->
      resolveSourcePath path pathString (Some basePath)
      = Ok (path_resolve path basePath pathString)
      /\ resolvePath path pathString basePath (getSourceType pathString)
         = path_resolve path basePath
             (let rest := JS.substring pathString 11 in
              if JS.startsWith rest "/" then JS.substring rest 1 else rest)).
Proof.
  intros Hb. apply truthy_Some_iff in Hb.
  unfold resolveSourcePath, resolvePath, getSourceType. rewrite Hb. cbn [negb from_option id].
  split.
  - intros H.
    destruct (JS.startsWith pathString "internal://"); [reflexivity|].
    destruct (JS.startsWith pathString "relative://"); [reflexivity|].
    destruct (JS.startsWith pathString "absolute://"); [reflexivity|].
    destruct H as [H|[H|H]]; discriminate.
  - intros _ -> -> ->. split; reflexivity.
Qed.

Lemma resolvers_agree_on_prefixed_addresses_witness :
  "/base" <> ""
  /\ resolveSourcePath Posix.path "relative:///data/a.txt" (Some "/base")
     = Ok "/base/data/a.txt"
  /\ resolvePath Posix.path "relative:///data/a.txt" "/base"
       (getSourceType "relative:///data/a.txt") = "/base/data/a.txt"
  /\ asciiText "data/interview.txt" = true
  /\ resolveSourcePath Posix.path "data/interview.txt" (Some "/base")
     = Ok "/base/data/interview.txt"
  /\ resolvePath Posix.path "data/interview.txt" "/base"
       (getSourceType "data/interview.txt") = "/base/iew.txt".
Proof.
  assert (Hb : "/base" <> "") by discriminate.
  pose proof (resolvers_agree_on_prefixed_addresses Posix.path "relative:///data/a.txt"
                "/base" Hb) as [Hyes _].
  pose proof (resolvers_agree_on_prefixed_addresses Posix.path "data/interview.txt"
                "/base" Hb) as [_ Hno].
  specialize (Hyes (or_intror (or_introl eq_refl))).
  specialize (Hno eq_refl eq_refl eq_refl eq_refl).
  split; [exact Hb|].
  split; [rewrite Hyes; reflexivity|].
  split; [reflexivity|].
  split; [reflexivity|].
  split; [exact (proj1 Hno)|].
  rewrite (proj2 Hno). reflexivity.
Defined.

Lemma startsWith_app (p s : string) : JS.startsWith (p +:+ s) p = true.
Proof.
  unfold JS.startsWith. induction p as [|a p IH]; [destruct s; reflexivity|].
  change (String.prefix (String a p) (String a (p +:+ s)) = true).
  simpl String.prefix. destruct (ascii_dec a a); [exact IH | congruence].
Qed.

Lemma substring_0 (s : string) : JS.substring s 0 = s.
Proof. destruct s; reflexivity. Qed.

Lemma path_setPaths (p c : option string) (s : AnySource) :
  Source.path (Source.setPaths p c s) = p.
Proof. destruct s; reflexivity. Qed.

Lemma currentPath_setPaths (p c : option string) (s : AnySource) :
  Source.currentPath (Source.setPaths p c s) = c.
Proof. destruct s; reflexivity. Qed.

Lemma guid_setPaths (p c : option string) (s : AnySource) :
  Source.guid (Source.setPaths p c s) = Source.guid s.
Proof. destruct s; reflexivity. Qed.

(** The address that [updateProjectSourcePaths] writes for a source that
    stays relative is [relative:///] followed by the path relative to the
    project's base path; resolving it against a base path gives
    [path.resolve] of the two, so when the [path] module satisfies
    [resolve(b, relative(b, p)) = p] for the file at hand the written address
    leads back to the file that was packaged. *)
Theorem written_relative_address_resolves_back (path : PathModule)
    (projectBasePath : option string) (source : AnySource) (info : SourceInfo)
    (basePath : string) :
  defined (Source.guid source) = true ->
  sourceType info = relative ->
  basePath <> "" ->
  JS.or_else projectBasePath "" = basePath ->
  (let relativePath := path_relative path basePath (originalPath info) in
   JS.replaceAll "\" "/" relativePath = relativePath
   /\ path_resolve path basePath relativePath = originalPath info) ->
  exists address,
    Source.path (updateSourcePath path projectBasePath source info) = Some address
    /\ JS.startsWith address "relative:///" = true
    /\ resolveSourcePath path address (Some basePath) = Ok (originalPath info).
Proof.
  intros Hguid Hkind Hne Hbase [Hslash Hback].
  unfold updateSourcePath. destruct (Source.guid source); [|discriminate].
  rewrite Hkind, Hbase, Hslash. rewrite path_setPaths.
  eexists. split; [reflexivity|]. split; [apply startsWith_app|].
  apply truthy_Some_iff in Hne.
  set (r := path_relative path basePath (originalPath info)) in *.
  unfold resolveSourcePath.
  change (JS.startsWith ("relative:///" +:+ r) "internal://") with false.
  change (JS.startsWith ("relative:///" +:+ r) "relative://") with true.
  change (JS.substring ("relative:///" +:+ r) 11) with ("/" +:+ r).
  rewrite (startsWith_app "/" r).
  change (JS.substring ("/" +:+ r) 1) with (JS.substring r 0). rewrite substring_0.
  rewrite Hne. cbn [negb from_option id]. rewrite Hback. reflexivity.
Qed.

Lemma written_relative_address_resolves_back_witness :
  let source := PDFS (Examples.pdfSource Examples.guidA "relative://a.pdf") in
  let info := {| info_guid := Examples.guidA; originalPath := "/out/a.pdf";
                 sourceType := relative; filename := "a.pdf"; extension := ".pdf" |} in
  exists address,
    Source.path (updateSourcePath Posix.path (Some "/out") source info) = Some address
    /\ JS.startsWith address "relative:///" = true
    /\ resolveSourcePath Posix.path address (Some "/out") = Ok "/out/a.pdf".
Proof.
  intros source info.
  apply (written_relative_address_resolves_back Posix.path (Some "/out") source info "/out").
  - reflexivity.
  - reflexivity.
  - discriminate.
  - reflexivity.
  - split; reflexivity.
Defined.

(** The address written for a source that stays absolute, or as the
    [currentPath] of any source, is [absolute:///] followed by the file's
    path.  Resolving it removes eleven characters, one fewer than were
    added: under the POSIX separator the result is the path with one more
    slash in front, not the path itself. *)
Theorem written_absolute_address_gains_a_slash (path : PathModule) (info : SourceInfo)
    (basePath : option string) :
  path_sep path = "/" ->
  resolveSourcePath path (absoluteAddress info) basePath
  = Ok ("/" +:+ JS.replaceAll "\" "/" (originalPath info))
  /\ resolvePath path (absoluteAddress info) (default "" basePath)
       (getSourceType (absoluteAddress info))
     = "/" +:+ JS.replaceAll "\" "/" (originalPath info).
Proof.
  intros Hsep. unfold resolveSourcePath, resolvePath, getSourceType, absoluteAddress.
  cbn -[JS.replaceAll]. rewrite Hsep.
  change (JS.replaceAll "/" "/" (String "/" ?s)) with ("/" +:+ JS.replaceAll "/" "/" s).
  cbn [JS.replaceAll Ascii.eqb Bool.eqb].
  rewrite (replaceAll_same "/"). split; reflexivity.
Qed.

Lemma written_absolute_address_gains_a_slash_witness :
  let info := {| info_guid := Examples.guidA; originalPath := "/out/a.pdf";
                 sourceType := absolute; filename := "a.pdf"; extension := ".pdf" |} in
  absoluteAddress info = "absolute:////out/a.pdf"
  /\ resolveSourcePath Posix.path (absoluteAddress info) None = Ok "//out/a.pdf".
Proof.
  intros info. split; [reflexivity|].
  exact (proj1 (written_absolute_address_gains_a_slash Posix.path info None eq_refl)).
Defined.

(** ** External sources on import *)

Lemma missingPathsOf_spec (path : PathModule) (fs : FileSystem) (basePath : string)
    (externalSources : list SourceFile) (missingPaths : list string) :
  missingPathsOf path fs basePath externalSources missingPaths
  = missingPaths
    ++ List.filter (fun p => negb (existsSync fs p))
         (map (fun source =>
                 resolvePath path (file_sourcePath source) basePath
                   (file_sourceType source)) externalSources).
Proof.
  revert missingPaths.
  induction externalSources as [|source rest IH]; intros missingPaths; cbn.
  - rewrite app_nil_r. reflexivity.
  - rewrite IH. destruct (existsSync fs _); cbn; [reflexivity|].
    rewrite <- app_assoc. reflexivity.
Qed.

(** [resolveExternalSources] reports a path exactly when it is the
    resolution of a relative or absolute source of the project and nothing
    exists at it.  An internal source is never reported, whether or not its
    file exists. *)
Theorem resolveExternalSources_reports_missing_external (path : PathModule)
    (fs : FileSystem) (project : Project) (basePath fullPath : string) :
  fullPath ∈ resolveExternalSources path fs project basePath
  <-> exists source,
        source ∈ getAllSourcePaths project
        /\ file_sourceType source <> internal
        /\ fullPath = resolvePath path (file_sourcePath source) basePath
                        (file_sourceType source)
        /\ existsSync fs fullPath = false.
Proof.
  unfold resolveExternalSources. rewrite missingPathsOf_spec, app_nil_l.
  rewrite list_elem_of_In, filter_In, in_map_iff. split.
  - intros [(source & <- & Hin) Hmiss]. apply filter_In in Hin as [Hin Hext].
    exists source. rewrite list_elem_of_In.
    repeat split; try assumption.
    + unfold isExternal in Hext. destruct (file_sourceType source); congruence.
    + destruct (existsSync fs _); [discriminate | reflexivity].
  - intros (source & Hin & Hkind & -> & Hmiss). rewrite list_elem_of_In in Hin.
    split; [|rewrite Hmiss; reflexivity].
    exists source. split; [reflexivity|]. apply filter_In. split; [exact Hin|].
    unfold isExternal. destruct (file_sourceType source); congruence.
Qed.

(** ** What source packaging accumulates *)

Lemma grows_refl (fs : FileSystem) (acc : Packaging) : grows fs acc acc.
Proof. repeat split; try reflexivity. intros name data H. left. exact H. Qed.

Lemma grows_trans (fs : FileSystem) (a b c : Packaging) :
  grows fs a b -> grows fs b c -> grows fs a c.
Proof.
  intros (I1 & W1 & E1 & U1 & F1) (I2 & W2 & E2 & U2 & F2).
  repeat split; try (etransitivity; eassumption).
  intros name data H. destruct (F2 name data H) as [H'|H']; [|right; exact H'].
  apply F1. exact H'.
Qed.

Lemma steady_ret {A : Type} (fs : FileSystem) (a : A) : steady fs (ret a).
Proof. intros acc. apply grows_refl. Qed.

Lemma steady_throw {A : Type} (fs : FileSystem) (e : Error) :
  steady fs (@throw Packaging A e).
Proof. intros acc. apply grows_refl. Qed.

Lemma steady_lift {A : Type} (fs : FileSystem) (r : Result A) : steady fs (lift r).
Proof. intros acc. apply grows_refl. Qed.

Lemma steady_bind {A B : Type} (fs : FileSystem) (m : M Packaging A)
    (k : A -> M Packaging B) :
  steady fs m -> (forall a, steady fs (k a)) -> steady fs (bind m k).
Proof.
  intros Hm Hk acc. unfold bind. specialize (Hm acc).
  destruct (m acc) as [[a|e] acc1]; cbn in *; [|exact Hm].
  eapply grows_trans; [exact Hm | apply Hk].
Qed.

Lemma steady_tryCatch {A : Type} (fs : FileSystem) (m : M Packaging A)
    (handler : Error -> M Packaging A) :
  steady fs m -> (forall e, steady fs (handler e)) -> steady fs (tryCatch m handler).
Proof.
  intros Hm Hh acc. unfold tryCatch. specialize (Hm acc).
  destruct (m acc) as [[a|e] acc1]; cbn in *; [exact Hm|].
  eapply grows_trans; [exact Hm | apply Hh].
Qed.

Lemma steady_pushInfo (fs : FileSystem) (i : SourceInfo) : steady fs (pushInfo i).
Proof.
  intros acc. repeat split; cbn; try reflexivity.
  - apply prefix_app_r. reflexivity.
  - intros name data H. left. exact H.
Qed.

Lemma steady_pushWarning (fs : FileSystem) (w : string) : steady fs (pushWarning w).
Proof.
  intros acc. repeat split; cbn; try reflexivity.
  - apply prefix_app_r. reflexivity.
  - intros name data H. left. exact H.
Qed.

Lemma steady_pushExternal (fs : FileSystem) (e : string) : steady fs (pushExternal e).
Proof.
  intros acc. repeat split; cbn; try reflexivity.
  - apply prefix_app_r. reflexivity.
  - intros name data H. left. exact H.
Qed.

Lemma steady_nextUuid (fs : FileSystem) (uuidv4 : nat -> string) :
  steady fs (nextUuid uuidv4).
Proof.
  intros acc. repeat split; cbn; try reflexivity; [lia|].
  intros name data H. left. exact H.
Qed.

Lemma steady_setSourceFile (fs : FileSystem) (name p : string) (file : FileInfo)
    (data : Buffer) :
  files fs !! p = Some file -> content file = Some data ->
  steady fs (setSourceFile ("sources/" +:+ name) data).
Proof.
  intros Hfile Hdata acc. repeat split; cbn; try reflexivity.
  intros name' data' H.
  destruct (decide (name' = "sources/" +:+ name)) as [->|Hne].
  - rewrite lookup_insert_eq in H. injection H as <-. right.
    split; [apply startsWith_app|]. exists p, file. split; assumption.
  - rewrite lookup_insert_ne in H by congruence. left. exact H.
Qed.

(** What is done with the bytes of a file is done with bytes that a file of
    [fs] holds. *)
Lemma steady_read {A : Type} (fs : FileSystem) (filePath : string)
    (k : Buffer -> M Packaging A) :
  (forall file data, files fs !! filePath = Some file -> content file = Some data ->
                     steady fs (k data)) ->
  steady fs (bind (lift (readSourceFile fs filePath)) k).
Proof.
  intros Hk acc. unfold bind at 1. unfold lift, readSourceFile.
  destruct (files fs !! filePath) as [file|] eqn:Hfile; cbn [mbind option_bind];
    [|apply grows_refl].
  destruct (content file) as [data|] eqn:Hdata; [|apply grows_refl].
  apply (Hk file data eq_refl Hdata).
Qed.

Ltac steady_step :=
  first
    [ apply steady_ret | apply steady_throw | apply steady_pushInfo
    | apply steady_pushWarning | apply steady_pushExternal | apply steady_nextUuid
    | eapply steady_setSourceFile; eassumption
    | apply steady_tryCatch
    | apply steady_read; intros
    | apply steady_bind; [try apply steady_lift|]
    | match goal with
      | |- steady _ (if ?b then _ else _) => destruct b
      | |- steady _ (match ?x with _ => _ end) => destruct x
      | |- forall _, _ => intros ?
      end ].

Lemma steady_processSource (path : PathModule) (uuidv4 : nat -> string)
    (fs : FileSystem) (options : ExportOptions) (guid address currentPath : option string)
    (sourceTypeName : string) :
  steady fs (processSource path uuidv4 fs options guid address currentPath sourceTypeName).
Proof. unfold processSource. repeat steady_step. Qed.

Lemma steady_forOf {A : Type} (fs : FileSystem) (f : A -> M Packaging unit)
    (l : option (list A)) :
  (forall x, steady fs (f x)) -> steady fs (forOfOpt f l).
Proof.
  intros Hf. destruct l as [l|]; [|apply steady_ret]. cbn.
  induction l as [|x l IH]; [apply steady_ret|].
  cbn. apply steady_bind; [apply Hf | intros _; exact IH].
Qed.

Lemma forOf_never_throws {A : Type} (f : A -> M Packaging unit) (l : option (list A))
    (acc : Packaging) :
  (forall x acc, fst (f x acc) = Ok tt) -> fst (forOfOpt f l acc) = Ok tt.
Proof.
  intros Hf. destruct l as [l|]; [|reflexivity]. cbn.
  revert acc. induction l as [|x l IH]; intros acc; [reflexivity|].
  cbn. unfold bind. specialize (Hf x acc).
  destruct (f x acc) as [[[]|e] acc1]; cbn in Hf; [apply IH | discriminate].
Qed.

Lemma processSourcesForExport_never_throws (path : PathModule) (uuidv4 : nat -> string)
    (fs : FileSystem) (project : Project) (options : ExportOptions) (acc : Packaging) :
  fst (processSourcesForExport path uuidv4 fs project options acc) = Ok tt.
Proof.
  unfold processSourcesForExport.
  destruct (Proj.Sources project) as [sources|]; [|reflexivity].
  unfold bind.
  repeat match goal with
  | |- context [forOfOpt ?f ?l ?a] =>
      let H := fresh in
      pose proof (forOf_never_throws f l a
                    (fun x acc => processSource_never_throws _ _ _ _ _ _ _ _ acc)) as H;
      destruct (forOfOpt f l a) as [[[]|?] ?]; cbn in H; [clear H | discriminate]
  end.
  reflexivity.
Qed.

Lemma processSourcesForExport_grows (path : PathModule) (uuidv4 : nat -> string)
    (fs : FileSystem) (project : Project) (options : ExportOptions) (acc : Packaging) :
  grows fs acc (snd (processSourcesForExport path uuidv4 fs project options acc)).
Proof.
  unfold processSourcesForExport.
  destruct (Proj.Sources project) as [sources|]; [|apply grows_refl].
  revert acc. change (steady fs
    (bind (forOfOpt (fun s => processSource path uuidv4 fs options (TextSource.guid s)
                                (TextSource.path s) (TextSource.currentPath s) "TextSource")
             (Sources.TextSource sources)) (fun _ =>
     bind (forOfOpt (fun s => processSource path uuidv4 fs options (PictureSource.guid s)
                                (PictureSource.path s) (PictureSource.currentPath s)
                                "PictureSource") (Sources.PictureSource sources)) (fun _ =>
     bind (forOfOpt (fun s => processSource path uuidv4 fs options (PDFSource.guid s)
                                (PDFSource.path s) (PDFSource.currentPath s) "PDFSource")
             (Sources.PDFSource sources)) (fun _ =>
     bind (forOfOpt (fun s => processSource path uuidv4 fs options (AudioSource.guid s)
                                (AudioSource.path s) (AudioSource.currentPath s)
                                "AudioSource") (Sources.AudioSource sources)) (fun _ =>
     forOfOpt (fun s => processSource path uuidv4 fs options (VideoSource.guid s)
                          (VideoSource.path s) (VideoSource.currentPath s) "VideoSource")
       (Sources.VideoSource sources))))))).
  repeat (apply steady_bind; [|intros _]);
    apply steady_forOf; intros x; apply steady_processSource.
Qed.

(** [processSourcesForExport] never rejects, whatever the file system holds
    and whatever the callback answers, and it only adds to what it is given:
    the warnings, the external sources and the source infos are extended at
    their end, and every file it packages is stored under [sources/] with
    the bytes of a file of the file system. *)
Theorem processSourcesForExport_only_adds (path : PathModule) (uuidv4 : nat -> string)
    (fs : FileSystem) (project : Project) (options : ExportOptions) (acc : Packaging) :
  fst (processSourcesForExport path uuidv4 fs project options acc) = Ok tt
  /\ grows fs acc (snd (processSourcesForExport path uuidv4 fs project options acc)).
Proof.
  split; [apply processSourcesForExport_never_throws | apply processSourcesForExport_grows].
Qed.

(** ** The container *)

Lemma startsWith_split (s p : string) :
  JS.startsWith s p = true -> p +:+ JS.substring s (String.length p) = s.
Proof.
  unfold JS.startsWith. revert s. induction p as [|a p IH]; intros s H.
  - cbn. apply substring_0.
  - destruct s as [|b s]; [discriminate|]. simpl in H.
    destruct (ascii_dec a b) as [->|]; [|discriminate].
    change (String b (p +:+ JS.substring s (String.length p)) = String b s).
    f_equal. exact (IH s H).
Qed.

(** The names of the entries that [createQDPXFile] stores are the names of
    the file set when these all start with [sources/]. *)
Lemma entries_of_prefixed_names (sourceFiles : gmap string Buffer) :
  (forall name data, sourceFiles !! name = Some data ->
                     JS.startsWith name "sources/" = true) ->
  list_to_map
    (map (fun kv : string * Buffer =>
            ("sources/" +:+
               (if JS.startsWith (fst kv) "sources/" then JS.substring (fst kv) 8
                else fst kv), snd kv))
       (map_to_list sourceFiles)) = sourceFiles.
Proof.
  intros Hnames.
  rewrite <- (list_to_map_to_list sourceFiles) at 2. f_equal.
  rewrite <- (map_id (map_to_list sourceFiles)) at 2.
  apply map_ext_in. intros [name data] Hin.
  apply list_elem_of_In, elem_of_map_to_list in Hin. cbn [fst snd].
  pose proof (Hnames name data Hin) as Hstart. rewrite Hstart.
  f_equal. apply (startsWith_split name "sources/" Hstart).
Qed.

Lemma entries_of_any_name (sourceFiles : gmap string Buffer) (name : string)
    (data : Buffer) :
  sourceFiles !! name = Some data ->
  is_Some
    ((list_to_map
        (map (fun kv : string * Buffer =>
                ("sources/" +:+
                   (if JS.startsWith (fst kv) "sources/" then JS.substring (fst kv) 8
                    else fst kv), snd kv))
           (map_to_list sourceFiles)) : gmap string Buffer)
     !! ("sources/" +:+
           (if JS.startsWith name "sources/" then JS.substring name 8 else name))).
Proof.
  intros Hname. apply elem_of_map_to_list in Hname.
  apply not_eq_None_Some. intros Hnone.
  apply not_elem_of_list_to_map in Hnone. apply Hnone.
  apply list_elem_of_fmap. eexists (_, data). split; [reflexivity|].
  apply list_elem_of_In, in_map_iff. exists (name, data). split; [reflexivity|].
  apply list_elem_of_In, Hname.
Qed.

(** [createQDPXFile] removes a leading [sources/] from the name of a file
    and stores the file in the [sources] folder of the archive.  When the
    destination can be written it returns, and the archive at [outputPath]
    has the document it was given as its manifest, and every file of the
    file set has an entry, under [sources/] and its name without a leading
    [sources/].  For a file set whose names all start with [sources/], as
    those that [processSourcesForExport] produces do, the file entries of
    the archive are exactly the file set. *)
Theorem createQDPXFile_stores_the_file_set (outputPath : string) (qdeContent : node)
    (sourceFiles : gmap string Buffer) (w : World) :
  outputPath ∉ readOnly (fsys w) ->
  exists (w' : World) (container : Container),
    createQDPXFile outputPath qdeContent sourceFiles w = (Ok tt, w')
    /\ containers (fsys w') !! outputPath = Some container
    /\ manifest container = qdeContent
    /\ (forall name data,
          sourceFiles !! name = Some data ->
          is_Some (entries container
                     !! ("sources/" +:+
                           (if JS.startsWith name "sources/" then JS.substring name 8
                            else name))))
    /\ ((forall name data, sourceFiles !! name = Some data ->
                           JS.startsWith name "sources/" = true) ->
        entries container = sourceFiles).
Proof.
  intros Hwritable. unfold createQDPXFile.
  rewrite (bool_decide_eq_false_2 _ Hwritable).
  eexists. eexists. split; [reflexivity|].
  cbn [fsys containers]. rewrite lookup_insert_eq.
  split; [reflexivity|]. cbn [manifest entries].
  split; [reflexivity|]. split.
  - apply entries_of_any_name.
  - apply entries_of_prefixed_names.
Qed.

Lemma createQDPXFile_stores_the_file_set_witness :
  let sourceFiles : gmap string Buffer := {[ "sources/a.pdf" := [] ]} in
  let w := {| heap := []; fsys := Examples.noFiles; uuids := 0 |} in
  exists container,
    fst (createQDPXFile "/out/p.qdpx" (Element "Project" [] [] "") sourceFiles w) = Ok tt
    /\ containers (fsys (snd (createQDPXFile "/out/p.qdpx" (Element "Project" [] [] "")
                                sourceFiles w))) !! "/out/p.qdpx" = Some container
    /\ manifest container = Element "Project" [] [] ""
    /\ entries container = sourceFiles.
Proof.
  intros sourceFiles w.
  destruct (createQDPXFile_stores_the_file_set "/out/p.qdpx" (Element "Project" [] [] "")
              sourceFiles w)
    as (w' & container & Hrun & Hcontainer & Hmanifest & _ & Hentries).
  - apply not_elem_of_empty.
  - exists container. rewrite Hrun. split; [reflexivity|].
    split; [exact Hcontainer|]. split; [exact Hmanifest|].
    apply Hentries. intros name data H.
    apply lookup_singleton_Some in H as [<- _]. reflexivity.
Defined.

(** ** The working copy of an export *)

Lemma mapM_alloc {A : Type} (wrap : A -> AnySource) (pick : AnySource -> option A)
    (xs : list A) (h rest : Heap) :
  (forall x, pick (wrap x) = Some x) ->
  mapM (fun l => match (h ++ map (fun s => SourceCell (wrap s)) xs ++ rest) !! l with
                 | Some (SourceCell s) => pick s
                 | _ => None
                 end) (seq (length h) (length xs)) = Some xs.
Proof.
  intros Hpick. revert h. induction xs as [|x xs IH]; intros h; [reflexivity|].
  cbn [length seq map app mapM].
  rewrite list_lookup_middle by reflexivity. rewrite Hpick. cbn [mbind option_bind].
  specialize (IH (h ++ [SourceCell (wrap x)])).
  rewrite <- app_assoc in IH. cbn [app] in IH.
  rewrite length_app in IH. cbn [length] in IH. rewrite Nat.add_1_r in IH.
  rewrite IH. reflexivity.
Qed.

Lemma readList_allocList {A : Type} (wrap : A -> AnySource)
    (pick : AnySource -> option A) (l : option (list A)) (h : Heap) :
  (forall x, pick (wrap x) = Some x) ->
  exists ext,
    snd (Store.allocList wrap l h) = h ++ ext
    /\ forall rest,
         Store.readList pick ((h ++ ext) ++ rest) (fst (Store.allocList wrap l h))
         = Some l.
Proof.
  intros Hpick. destruct l as [xs|].
  - eexists. split; [reflexivity|]. intros rest.
    cbn [Store.allocList fst snd Store.readList]. rewrite <- app_assoc.
    rewrite (mapM_alloc wrap pick xs h rest Hpick). reflexivity.
  - exists []. split; [cbn; symmetry; apply app_nil_r | reflexivity].
Qed.

Lemma withSources_same (p : Project) : Store.withSources p (Proj.Sources p) = p.
Proof. destruct p; reflexivity. Qed.

Lemma withSources_twice {S T U : Type} (p : Proj.t S) (a : option T) (b : option U) :
  Store.withSources (Store.withSources p a) b = Store.withSources p b.
Proof. reflexivity. Qed.

(** The object graph that [allocProject] builds reads back as the project
    value it was built from. *)
Lemma readProject_allocProject (p : Project) (h : Heap) :
  Store.readProject (snd (Store.allocProject p h)) (fst (Store.allocProject p h))
  = Some p.
Proof.
  unfold Store.allocProject.
  destruct (Proj.Sources p) as [sources|] eqn:Hs.
  - destruct (readList_allocList TextS
                (fun s => match s with TextS s => Some s | _ => None end)
                (Sources.TextSource sources) h (fun _ => eq_refl)) as (e1 & E1 & R1).
    destruct (Store.allocList TextS _ h) as [t h1]. cbn [fst snd] in E1, R1. subst h1.
    destruct (readList_allocList PictureS
                (fun s => match s with PictureS s => Some s | _ => None end)
                (Sources.PictureSource sources) (h ++ e1) (fun _ => eq_refl))
      as (e2 & E2 & R2).
    destruct (Store.allocList PictureS _ _) as [pi h2]. cbn [fst snd] in E2, R2. subst h2.
    destruct (readList_allocList PDFS
                (fun s => match s with PDFS s => Some s | _ => None end)
                (Sources.PDFSource sources) ((h ++ e1) ++ e2) (fun _ => eq_refl))
      as (e3 & E3 & R3).
    destruct (Store.allocList PDFS _ _) as [d h3]. cbn [fst snd] in E3, R3. subst h3.
    destruct (readList_allocList AudioS
                (fun s => match s with AudioS s => Some s | _ => None end)
                (Sources.AudioSource sources) (((h ++ e1) ++ e2) ++ e3) (fun _ => eq_refl))
      as (e4 & E4 & R4).
    destruct (Store.allocList AudioS _ _) as [a h4]. cbn [fst snd] in E4, R4. subst h4.
    destruct (readList_allocList VideoS
                (fun s => match s with VideoS s => Some s | _ => None end)
                (Sources.VideoSource sources) ((((h ++ e1) ++ e2) ++ e3) ++ e4)
                (fun _ => eq_refl)) as (e5 & E5 & R5).
    destruct (Store.allocList VideoS _ _) as [v h5]. cbn [fst snd] in E5, R5. subst h5.
    cbn [fst snd]. unfold Store.readProject.
    rewrite list_lookup_middle by reflexivity. cbn [Proj.Sources Store.withSources].
    unfold Store.readSources. cbn [Sources.TextSource Sources.PictureSource
      Sources.PDFSource Sources.AudioSource Sources.VideoSource].
    set (cell := ProjectCell (Store.withSources p (Some (Sources.mk t pi d a v)))).
    specialize (R1 (e2 ++ e3 ++ e4 ++ e5 ++ [cell])).
    specialize (R2 (e3 ++ e4 ++ e5 ++ [cell])).
    specialize (R3 (e4 ++ e5 ++ [cell])).
    specialize (R4 (e5 ++ [cell])).
    specialize (R5 [cell]).
    repeat rewrite <- app_assoc in R1. repeat rewrite <- app_assoc in R2.
    repeat rewrite <- app_assoc in R3. repeat rewrite <- app_assoc in R4.
    repeat rewrite <- app_assoc in R5. repeat rewrite <- app_assoc.
    rewrite R1, R2, R3, R4, R5. cbn [mbind option_bind].
    rewrite withSources_twice. f_equal. rewrite <- (withSources_same p) at 2.
    rewrite Hs. destruct sources; reflexivity.
  - cbn [fst snd]. unfold Store.readProject.
    rewrite list_lookup_middle by reflexivity. cbn [Proj.Sources Store.withSources].
    rewrite <- (withSources_same p) at 2. rewrite Hs. reflexivity.
Qed.

(** ** The outcomes of an export *)

Lemma wp_bind {St A B : Type} (m : M St A) (k : A -> M St B)
    (Q : Result B -> St -> Prop) (w : St) :
  wp m (fun r w1 => match r with
                    | Ok a => wp (k a) Q w1
                    | Throw e => Q (Throw e) w1
                    end) w ->
  wp (bind m k) Q w.
Proof. unfold wp, bind. destruct (m w) as [[a|e] w1]; cbn; intros H; exact H. Qed.

Lemma wp_tryCatch {St A : Type} (m : M St A) (handler : Error -> M St A)
    (Q : Result A -> St -> Prop) (w : St) :
  wp m (fun r w1 => match r with
                    | Ok a => Q (Ok a) w1
                    | Throw e => wp (handler e) Q w1
                    end) w ->
  wp (tryCatch m handler) Q w.
Proof. unfold wp, tryCatch. destruct (m w) as [[a|e] w1]; cbn; intros H; exact H. Qed.

Section ContainerEffect.

Variable path : PathModule.
Variable uuidv4 : nat -> string.

(** What the [try] block of [exportQDPX] does to the file system: nothing
    when it throws; when it returns, one container at [outputPath]. *)
Lemma exportBody_file_system (project : loc) (outputPath : string)
    (options : ExportOptions) (w : World) :
  wp (exportBody path uuidv4 project outputPath options)
    (fun r w' =>
       match r with
       | Throw _ => fsys w' = fsys w
       | Ok result =>
           success result = true /\ qdpxPath result = outputPath
           /\ files (fsys w') = files (fsys w)
           /\ readOnly (fsys w') = readOnly (fsys w)
           /\ (outputPath ∉ readOnly (fsys w))
           /\ exists zip, containers (fsys w') = <[outputPath := zip]> (containers (fsys w))
       end) w.
Proof.
  unfold exportBody.
  apply wp_bind. unfold wp at 1, readProjectM.
  destruct (Store.readProject (heap w) project) as [original|]; cbn [fst snd]; [|reflexivity].
  apply wp_bind. unfold wp at 1.
  destruct (Store.allocProject original (heap w)) as [l h]. cbn [fst snd].
  apply wp_bind. unfold wp at 1. cbn [fst snd fsys].
  destruct (existsSync (fsys w) outputPath && _); [reflexivity|].
  apply wp_bind. unfold wp at 1. cbn [heap].
  destruct (h !! l) as [[p|s]|]; cbn [fst snd]; try reflexivity.
  assert (Hrest : forall h',
    wp (bind (readProjectM l) (fun copyValue =>
          bind (if default true (validateBeforeExport (configureOptions path options outputPath))
                then match validateProjectForExport copyValue with
                     | [] => ret tt
                     | validationErrors =>
                         throw (ExportError "Project validation failed before export"
                                  validationErrors)
                     end
                else ret tt) (fun _ =>
          bind (fun w0 : World =>
                  let '(r, packaging) :=
                    processSourcesForExport path uuidv4 (fsys w0) copyValue
                      (configureOptions path options outputPath)
                      (emptyPackaging (uuids w0)) in
                  ((fun _ => packaging) <$> r,
                   {| heap := heap w0; fsys := fsys w0; uuids := uuidCount packaging |}))
            (fun packaging =>
          bind (fun w0 : World =>
                  setHeap (updateProjectSourcePaths path l (sourceInfoList packaging)
                             (heap w0)) w0) (fun _ =>
          bind (readProjectM l) (fun updated =>
          bind (createQDPXFile outputPath (buildQDEFile updated) (sourceFiles packaging))
            (fun _ =>
          ret {| success := true; qdpxPath := outputPath;
                 result_externalSources := externalSources packaging;
                 result_warnings := warnings packaging |})))))))
      (fun r w' =>
         match r with
         | Throw _ => fsys w' = fsys w
         | Ok result =>
             success result = true /\ qdpxPath result = outputPath
             /\ files (fsys w') = files (fsys w)
             /\ readOnly (fsys w') = readOnly (fsys w)
             /\ (outputPath ∉ readOnly (fsys w))
             /\ exists zip, containers (fsys w') = <[outputPath := zip]> (containers (fsys w))
         end) {| heap := h'; fsys := fsys w; uuids := uuids w |}).
  { intros h'.
    apply wp_bind. unfold wp at 1, readProjectM. cbn [heap].
    destruct (Store.readProject h' l) as [copyValue|]; cbn [fst snd]; [|reflexivity].
    apply wp_bind. unfold wp at 1.
    assert (Hv : forall m : M World unit,
              (m = ret tt \/ exists e, m = throw e) ->
              forall w1 : World, snd (m w1) = w1 /\ (fst (m w1) = Ok tt \/ exists e, fst (m w1) = Throw e)).
    { intros m [->|[e ->]] w1; split; try reflexivity; [left|right; exists e]; reflexivity. }
    match goal with
    | |- match fst (?m ?w1) with _ => _ end =>
        assert (Hm : m = ret tt \/ exists e, m = throw e)
    end.
    { destruct (default true _); [|left; reflexivity].
      destruct (validateProjectForExport copyValue); [left|right; eexists]; reflexivity. }
    match goal with
    | |- match fst (?m ?w1) with _ => _ end =>
        destruct (Hv m Hm w1) as [Hs Hf]; rewrite Hs;
        destruct Hf as [Hf|[e Hf]]; rewrite Hf; [|reflexivity]
    end.
    apply wp_bind. unfold wp at 1. cbn [fsys uuids heap].
    destruct (processSourcesForExport _ _ _ _ _ _) as [[[]|e] packaging]; cbn [fst snd fmap Result_fmap];
      [|reflexivity].
    apply wp_bind. unfold wp at 1, setHeap, modify. cbn [fst snd heap fsys uuids].
    apply wp_bind. unfold wp at 1, readProjectM. cbn [heap].
    destruct (Store.readProject _ l) as [updated|]; cbn [fst snd]; [|reflexivity].
    apply wp_bind. unfold wp at 1, createQDPXFile. cbn [fsys heap uuids].
    destruct (bool_decide (outputPath ∈ readOnly (fsys w))) eqn:Hro; cbn [fst snd];
      [reflexivity|].
    apply bool_decide_eq_false in Hro.
    unfold wp, ret. cbn.
    repeat split; try assumption. eexists. reflexivity. }
  destruct (negb (JS.truthy (Proj.basePath p)) && _).
  - unfold setHeap, modify. cbn [fst snd heap fsys uuids]. apply Hrest.
  - cbn [fst snd]. apply Hrest.
Qed.

End ContainerEffect.

(** ** The rewriting of source addresses *)

Section Rewriting.

Variable path : PathModule.
Variable sourceMap : gmap string SourceInfo.
Variable basePath : option string.

Lemma guid_updateSourcePath (s : AnySource) (info : SourceInfo) :
  Source.guid (updateSourcePath path basePath s info) = Source.guid s.
Proof.
  unfold updateSourcePath. destruct (Source.guid s) eqn:Hg; [|exact Hg].
  destruct (sourceType info); rewrite guid_setPaths; exact Hg.
Qed.

Lemma setPaths_twice (p c p' c' : option string) (s : AnySource) :
  Source.setPaths p c (Source.setPaths p' c' s) = Source.setPaths p c s.
Proof. destruct s; reflexivity. Qed.

Lemma updateSourcePath_idempotent (s : AnySource) (info : SourceInfo) :
  updateSourcePath path basePath (updateSourcePath path basePath s info) info
  = updateSourcePath path basePath s info.
Proof.
  unfold updateSourcePath at 1. rewrite guid_updateSourcePath.
  unfold updateSourcePath. destruct (Source.guid s); [|reflexivity].
  destruct (sourceType info); rewrite currentPath_setPaths, setPaths_twice;
    destruct (Source.currentPath s); reflexivity.
Qed.

Lemma updatedSource_idempotent (s : AnySource) :
  updatedSource path sourceMap basePath (updatedSource path sourceMap basePath s)
  = updatedSource path sourceMap basePath s.
Proof.
  unfold updatedSource at 2.
  destruct (Source.guid s ≫= (sourceMap !!.)) as [info|] eqn:Hi.
  - unfold updatedSource. rewrite guid_updateSourcePath, Hi.
    apply updateSourcePath_idempotent.
  - unfold updatedSource. rewrite Hi. reflexivity.
Qed.

Lemma updatedCell_idempotent (c : Cell) :
  updatedCell path sourceMap basePath (updatedCell path sourceMap basePath c)
  = updatedCell path sourceMap basePath c.
Proof. destruct c; cbn; [reflexivity|]. rewrite updatedSource_idempotent. reflexivity. Qed.

Lemma updateAt_lookup (x i : loc) (h : Heap) :
  updateAt path sourceMap basePath x h !! i
  = if decide (i = x) then updatedCell path sourceMap basePath <$> h !! i else h !! i.
Proof.
  unfold updateAt. destruct (decide (i = x)) as [->|Hne].
  - destruct (h !! x) as [[p|s]|] eqn:Hx; cbn; try (rewrite Hx; reflexivity).
    unfold updatedSource.
    destruct (Source.guid s ≫= (sourceMap !!.)) as [info|]; [|rewrite Hx; reflexivity].
    rewrite list_lookup_insert_eq by (apply lookup_lt_Some in Hx; exact Hx). reflexivity.
  - destruct (h !! x) as [[p|s]|]; try reflexivity.
    destruct (Source.guid s ≫= (sourceMap !!.)); [|reflexivity].
    apply list_lookup_insert_ne. congruence.
Qed.

Lemma updateAll_lookup (ls : option (list loc)) (h : Heap) (i : loc) :
  updateAll path sourceMap basePath ls h !! i
  = if decide (i ∈ default [] ls)
    then updatedCell path sourceMap basePath <$> h !! i else h !! i.
Proof.
  destruct ls as [ls|]; cbn [updateAll from_option id].
  2:{ destruct (decide (i ∈ [])) as [H|]; [apply elem_of_nil in H; contradiction|reflexivity]. }
  revert h. induction ls as [|x ls IH]; intros h; cbn [fold_left].
  - destruct (decide (i ∈ [])) as [H|]; [apply elem_of_nil in H; contradiction|reflexivity].
  - rewrite IH, updateAt_lookup.
    destruct (decide (i ∈ ls)) as [Hin|Hin], (decide (i = x)) as [->|Hne].
    + rewrite decide_True by left. rewrite <- option_fmap_compose.
      apply option_fmap_ext. intros c. apply updatedCell_idempotent.
    + rewrite decide_True by (right; exact Hin). reflexivity.
    + rewrite decide_True by left. reflexivity.
    + rewrite decide_False; [reflexivity|]. intros H. apply elem_of_cons in H. tauto.
Qed.

End Rewriting.

Section Rewritten.

Variable path : PathModule.

Lemma updateAll_app (sourceMap : gmap string SourceInfo) (basePath : option string)
    (a b : option (list loc)) (h : Heap) :
  updateAll path sourceMap basePath b (updateAll path sourceMap basePath a h)
  = updateAll path sourceMap basePath (Some (default [] a ++ default [] b)) h.
Proof.
  destruct a as [a|], b as [b|]; cbn [updateAll from_option id];
    rewrite ?fold_left_app, ?app_nil_r; reflexivity.
Qed.

Lemma readList_updated {A : Type} (sourceMap : gmap string SourceInfo)
    (basePath : option string) (pick : AnySource -> option A) (f : A -> A)
    (h h' : Heap) (ls : option (list loc)) (r : option (list A)) :
  (forall s x, pick s = Some x ->
               pick (updatedSource path sourceMap basePath s) = Some (f x)) ->
  (forall i, i ∈ default [] ls ->
             h' !! i = updatedCell path sourceMap basePath <$> h !! i) ->
  Store.readList pick h ls = Some r ->
  Store.readList pick h' ls = Some (map f <$> r).
Proof.
  intros Hpick Hin. destruct ls as [ls|]; cbn [Store.readList].
  2:{ intros [= <-]. reflexivity. }
  destruct (mapM _ ls) as [xs|] eqn:Hm; [|discriminate]. intros [= <-].
  apply mapM_Some in Hm.
  assert (Hm' : mapM (fun l => match h' !! l with
                               | Some (SourceCell s) => pick s
                               | _ => None
                               end) ls = Some (map f xs)).
  { apply mapM_Some. cbn [from_option id] in Hin.
    induction Hm as [|i x ls xs Hi Hrest IH]; [constructor|].
    cbn [map]. constructor.
    - rewrite (Hin i) by left.
      destruct (h !! i) as [[p|s]|]; try discriminate. cbn. apply Hpick. exact Hi.
    - apply IH. intros j Hj. apply Hin. right. exact Hj. }
  rewrite Hm'. reflexivity.
Qed.

Lemma pick_updated (sourceMap : gmap string SourceInfo) (basePath : option string) :
  (forall s x, asText s = Some x ->
     asText (updatedSource path sourceMap basePath s)
     = Some (default x (asText (updatedSource path sourceMap basePath (TextS x)))))
  /\ (forall s x, asPicture s = Some x ->
     asPicture (updatedSource path sourceMap basePath s)
     = Some (default x (asPicture (updatedSource path sourceMap basePath (PictureS x)))))
  /\ (forall s x, asPDF s = Some x ->
     asPDF (updatedSource path sourceMap basePath s)
     = Some (default x (asPDF (updatedSource path sourceMap basePath (PDFS x)))))
  /\ (forall s x, asAudio s = Some x ->
     asAudio (updatedSource path sourceMap basePath s)
     = Some (default x (asAudio (updatedSource path sourceMap basePath (AudioS x)))))
  /\ (forall s x, asVideo s = Some x ->
     asVideo (updatedSource path sourceMap basePath s)
     = Some (default x (asVideo (updatedSource path sourceMap basePath (VideoS x))))).
Proof.
  repeat split; intros [] x [= ->]; unfold updatedSource, updateSourcePath;
    repeat case_match; reflexivity.
Qed.

(** [updateProjectSourcePaths] on an object graph that represents the
    project value [p] leaves the graph of [updatedProject p]. *)
Lemma readProject_updateProjectSourcePaths (project : loc)
    (sourceInfoList : list SourceInfo) (h : Heap) (p : Project) :
  Store.readProject h project = Some p ->
  Store.readProject (updateProjectSourcePaths path project sourceInfoList h) project
  = Some (updatedProject path sourceInfoList p).
Proof.
  unfold Store.readProject, updateProjectSourcePaths.
  destruct (h !! project) as [[pc|]|] eqn:Hcell; try discriminate.
  destruct (Proj.Sources pc) as [ls|] eqn:Hls.
  2:{ rewrite Hcell, Hls. intros [= <-]. unfold updatedProject. reflexivity. }
  set (m := sourceMapOf sourceInfoList). set (b := Proj.basePath pc).
  rewrite !updateAll_app. cbn [from_option id].
  set (all := default [] (Sources.TextSource ls) ++ default [] (Sources.PictureSource ls)
              ++ default [] (Sources.PDFSource ls) ++ default [] (Sources.AudioSource ls)
              ++ default [] (Sources.VideoSource ls)).
  replace ((((default [] (Sources.TextSource ls) ++ default [] (Sources.PictureSource ls))
             ++ default [] (Sources.PDFSource ls)) ++ default [] (Sources.AudioSource ls))
           ++ default [] (Sources.VideoSource ls)) with all
    by (subst all; rewrite !app_assoc; reflexivity).
  set (h' := updateAll path m b (Some all) h).
  assert (Hlook : forall i, h' !! i = if decide (i ∈ all)
                                      then updatedCell path m b <$> h !! i else h !! i).
  { intros i. subst h'. apply updateAll_lookup. }
  assert (Hcell' : h' !! project = Some (ProjectCell pc)).
  { rewrite Hlook. destruct (decide (project ∈ all)); rewrite Hcell; reflexivity. }
  rewrite Hcell', Hls.
  assert (Hin : forall i, i ∈ all -> h' !! i = updatedCell path m b <$> h !! i).
  { intros i Hi. rewrite Hlook. rewrite decide_True by exact Hi. reflexivity. }
  destruct (pick_updated m b) as (PT & PP & PD & PA & PV).
  unfold Store.readSources.
  destruct (Store.readList _ h (Sources.TextSource ls)) as [t|] eqn:Rt; [|discriminate].
  cbn [mbind option_bind].
  destruct (Store.readList _ h (Sources.PictureSource ls)) as [pi|] eqn:Rp; [|discriminate].
  cbn [mbind option_bind].
  destruct (Store.readList _ h (Sources.PDFSource ls)) as [d|] eqn:Rd; [|discriminate].
  cbn [mbind option_bind].
  destruct (Store.readList _ h (Sources.AudioSource ls)) as [a|] eqn:Ra; [|discriminate].
  cbn [mbind option_bind].
  destruct (Store.readList _ h (Sources.VideoSource ls)) as [v|] eqn:Rv; [|discriminate].
  cbn [mbind option_bind]. intros [= <-].
  match goal with
  | |- context [Store.readList ?pk h' (Sources.TextSource ls)] =>
      rewrite (readList_updated m b pk _ h h' (Sources.TextSource ls) t PT
                 (fun i Hi => Hin i ltac:(subst all; rewrite !elem_of_app; tauto)) Rt)
  end.
  cbn [mbind option_bind].
  match goal with
  | |- context [Store.readList ?pk h' (Sources.PictureSource ls)] =>
      rewrite (readList_updated m b pk _ h h' (Sources.PictureSource ls) pi PP
                 (fun i Hi => Hin i ltac:(subst all; rewrite !elem_of_app; tauto)) Rp)
  end.
  cbn [mbind option_bind].
  match goal with
  | |- context [Store.readList ?pk h' (Sources.PDFSource ls)] =>
      rewrite (readList_updated m b pk _ h h' (Sources.PDFSource ls) d PD
                 (fun i Hi => Hin i ltac:(subst all; rewrite !elem_of_app; tauto)) Rd)
  end.
  cbn [mbind option_bind].
  match goal with
  | |- context [Store.readList ?pk h' (Sources.AudioSource ls)] =>
      rewrite (readList_updated m b pk _ h h' (Sources.AudioSource ls) a PA
                 (fun i Hi => Hin i ltac:(subst all; rewrite !elem_of_app; tauto)) Ra)
  end.
  cbn [mbind option_bind].
  match goal with
  | |- context [Store.readList ?pk h' (Sources.VideoSource ls)] =>
      rewrite (readList_updated m b pk _ h h' (Sources.VideoSource ls) v PV
                 (fun i Hi => Hin i ltac:(subst all; rewrite !elem_of_app; tauto)) Rv)
  end.
  cbn [mbind option_bind].
  reflexivity.
Qed.

End Rewritten.

Lemma readList_insert_project {A : Type} (pick : AnySource -> option A) (h : Heap)
    (l : loc) (pc x : Proj.t SourceLocs) (ls : option (list loc)) (r : option (list A)) :
  h !! l = Some (ProjectCell pc) ->
  Store.readList pick h ls = Some r ->
  Store.readList pick (<[l := ProjectCell x]> h) ls = Some r.
Proof.
  intros Hcell. destruct ls as [ls|]; [|intros H; exact H]. cbn.
  destruct (mapM _ ls) as [xs|] eqn:Hm; [|discriminate]. intros [= <-].
  apply mapM_Some in Hm.
  assert (Hm' : mapM (fun i => match <[l := ProjectCell x]> h !! i with
                               | Some (SourceCell s) => pick s
                               | _ => None
                               end) ls = Some xs).
  { apply mapM_Some. eapply Forall2_impl; [exact Hm|].
    intros i a Hi. cbn beta in *.
    destruct (decide (i = l)) as [->|Hne]; [rewrite Hcell in Hi; discriminate|].
    rewrite list_lookup_insert_ne by congruence. exact Hi. }
  rewrite Hm'. reflexivity.
Qed.

(** Writing [project.basePath] on the project object changes the base path
    of the project value it represents, and nothing else. *)
Lemma readProject_withBasePath (h : Heap) (l : loc) (pc : Proj.t SourceLocs)
    (p : Project) (b : option string) :
  h !! l = Some (ProjectCell pc) ->
  Store.readProject h l = Some p ->
  Store.readProject (<[l := ProjectCell (Store.withBasePath pc b)]> h) l
  = Some (Store.withBasePath p b).
Proof.
  intros Hcell. unfold Store.readProject. rewrite Hcell.
  rewrite list_lookup_insert_eq by (apply lookup_lt_Some in Hcell; exact Hcell).
  cbn [Proj.Sources Store.withBasePath].
  destruct (Proj.Sources pc) as [ls|]; [|intros [= <-]; reflexivity].
  unfold Store.readSources.
  destruct (Store.readList _ h (Sources.TextSource ls)) as [t|] eqn:Rt; [|discriminate].
  rewrite (readList_insert_project _ h l pc _ _ _ Hcell Rt). cbn [mbind option_bind].
  destruct (Store.readList _ h (Sources.PictureSource ls)) as [pi|] eqn:Rp; [|discriminate].
  rewrite (readList_insert_project _ h l pc _ _ _ Hcell Rp). cbn [mbind option_bind].
  destruct (Store.readList _ h (Sources.PDFSource ls)) as [d|] eqn:Rd; [|discriminate].
  rewrite (readList_insert_project _ h l pc _ _ _ Hcell Rd). cbn [mbind option_bind].
  destruct (Store.readList _ h (Sources.AudioSource ls)) as [a|] eqn:Ra; [|discriminate].
  rewrite (readList_insert_project _ h l pc _ _ _ Hcell Ra). cbn [mbind option_bind].
  destruct (Store.readList _ h (Sources.VideoSource ls)) as [v|] eqn:Rv; [|discriminate].
  rewrite (readList_insert_project _ h l pc _ _ _ Hcell Rv). cbn [mbind option_bind].
  intros [= <-]. reflexivity.
Qed.

Lemma readProject_cell (h : Heap) (l : loc) (p : Project) :
  Store.readProject h l = Some p ->
  exists pc, h !! l = Some (ProjectCell pc) /\ Proj.basePath pc = Proj.basePath p.
Proof.
  unfold Store.readProject. destruct (h !! l) as [[pc|]|]; try discriminate.
  intros H. exists pc. split; [reflexivity|].
  destruct (Proj.Sources pc); [|injection H as <-; reflexivity].
  destruct (Store.readSources h _); [|discriminate]. injection H as <-. reflexivity.
Qed.

Section StepByStep.

Variable path : PathModule.
Variable uuidv4 : nat -> string.

(** The [try] block of [exportQDPX], step by step, on the object graph of
    the project value [original]. *)
Lemma exportBody_outcome (project : loc) (outputPath : string) (options : ExportOptions)
    (w : World) (original : Project) :
  Store.readProject (heap w) project = Some original ->
  let exportOptions := configureOptions path options outputPath in
  let copy := workingCopy path original options outputPath in
  let packaging :=
    snd (processSourcesForExport path uuidv4 (fsys w) copy exportOptions
           (emptyPackaging (uuids w))) in
  let run := exportBody path uuidv4 project outputPath options w in
  if existsSync (fsys w) outputPath && negb (default false (overwrite exportOptions)) then
    fst run = Throw (ExportError ("Output file already exists: " +:+ outputPath
                                  +:+ ". Use overwrite option to replace it.") [])
  else
    match (if default true (validateBeforeExport exportOptions)
           then validateProjectForExport copy else []) with
    | e :: es =>
        fst run = Throw (ExportError "Project validation failed before export" (e :: es))
    | [] =>
        if bool_decide (outputPath ∈ readOnly (fsys w)) then
          exists message, fst run = Throw (ExportError message [])
        else
          fst run = Ok {| success := true; qdpxPath := outputPath;
                          result_externalSources := externalSources packaging;
                          result_warnings := warnings packaging |}
          /\ containers (fsys (snd run)) !! outputPath
             = Some {| manifest :=
                         buildQDEFile
                           (updatedProject path (sourceInfoList packaging) copy);
                       entries := sourceFiles packaging |}
          /\ uuids (snd run) = uuidCount packaging
    end.
Proof.
  intros Hread exportOptions copy packaging run.
  assert (Hrun : run = exportBody path uuidv4 project outputPath options w) by reflexivity.
  clearbody run.
  unfold exportBody in Hrun. fold exportOptions in Hrun.
  unfold bind at 1 in Hrun. unfold readProjectM at 1 in Hrun. rewrite Hread in Hrun.
  unfold bind at 1 in Hrun.
  pose proof (readProject_allocProject original (heap w)) as Hcopy.
  destruct (Store.allocProject original (heap w)) as [l h1]. cbn [fst snd] in Hcopy.
  unfold bind at 1 in Hrun. cbn [fsys] in Hrun.
  destruct (existsSync (fsys w) outputPath && _); [subst run; reflexivity|].
  destruct (readProject_cell h1 l original Hcopy) as (pc & Hcell & Hbase).
  unfold bind at 1 in Hrun. cbn [heap] in Hrun. rewrite Hcell, Hbase in Hrun.
  (* the state after the base path has been written, and what it represents *)
  assert (Hstep : exists h2,
    (if negb (JS.truthy (Proj.basePath original)) && JS.truthy (exportBasePath exportOptions)
     then setHeap (<[l := ProjectCell (Store.withBasePath pc (exportBasePath exportOptions))]> h1)
            {| heap := h1; fsys := fsys w; uuids := uuids w |}
     else (Ok tt, {| heap := h1; fsys := fsys w; uuids := uuids w |}))
    = (Ok tt, {| heap := h2; fsys := fsys w; uuids := uuids w |})
    /\ Store.readProject h2 l = Some copy).
  { subst copy. unfold workingCopy. fold exportOptions.
    destruct (negb (JS.truthy (Proj.basePath original)) && _).
    - eexists. split; [reflexivity|]. apply readProject_withBasePath; assumption.
    - exists h1. split; [reflexivity | exact Hcopy]. }
  destruct Hstep as (h2 & Hstep & Hcopy2). rewrite Hstep in Hrun. clear Hstep.
  unfold bind at 1 in Hrun. unfold readProjectM at 1 in Hrun. cbn [heap] in Hrun.
  rewrite Hcopy2 in Hrun.
  unfold bind at 1 in Hrun.
  (* validation *)
  assert (Hval :
    (if default true (validateBeforeExport exportOptions)
     then match validateProjectForExport copy with
          | [] => ret tt
          | validationErrors =>
              throw (ExportError "Project validation failed before export" validationErrors)
          end
     else ret tt) {| heap := h2; fsys := fsys w; uuids := uuids w |}
    = (match (if default true (validateBeforeExport exportOptions)
              then validateProjectForExport copy else []) with
       | [] => Ok tt
       | e :: es => Throw (ExportError "Project validation failed before export" (e :: es))
       end, {| heap := h2; fsys := fsys w; uuids := uuids w |})).
  { destruct (default true _); [|reflexivity].
    destruct (validateProjectForExport copy); reflexivity. }
  rewrite Hval in Hrun. clear Hval.
  destruct (if default true (validateBeforeExport exportOptions)
            then validateProjectForExport copy else []) as [|e es];
    [|subst run; reflexivity].
  unfold bind at 1 in Hrun. cbn [fsys uuids heap] in Hrun.
  pose proof (processSourcesForExport_never_throws path uuidv4 (fsys w) copy exportOptions
                (emptyPackaging (uuids w))) as Hok.
  pose proof (processSourcesForExport_grows path uuidv4 (fsys w) copy exportOptions
                (emptyPackaging (uuids w))) as Hgrow.
  fold packaging in Hgrow.
  destruct (processSourcesForExport _ _ _ _ _ _) as [r pk] eqn:Hpk.
  cbn [fst snd] in Hok, packaging. subst r. subst packaging.
  cbn [fmap Result_fmap] in Hrun.
  unfold bind at 1 in Hrun. unfold setHeap, modify in Hrun. cbn [heap fsys uuids] in Hrun.
  unfold bind at 1 in Hrun. unfold readProjectM at 1 in Hrun. cbn [heap] in Hrun.
  rewrite (readProject_updateProjectSourcePaths path l (sourceInfoList pk) h2 copy Hcopy2)
    in Hrun.
  unfold bind at 1 in Hrun. unfold createQDPXFile in Hrun. cbn [fsys] in Hrun.
  destruct (bool_decide (outputPath ∈ readOnly (fsys w))); [subst run; eexists; reflexivity|].
  subst run. cbn [ret fst snd fsys containers uuids].
  split; [reflexivity|]. split; [|reflexivity].
  rewrite lookup_insert_eq. do 2 f_equal.
  apply entries_of_prefixed_names. intros name data Hname.
  destruct Hgrow as (_ & _ & _ & _ & Hfiles).
  destruct (Hfiles name data Hname) as [Hempty|[Hstart _]]; [|exact Hstart].
  cbn in Hempty. rewrite lookup_empty in Hempty. discriminate.
Qed.

End StepByStep.

Lemma exportQDPX_result (path : PathModule) (uuidv4 : nat -> string) (project : loc)
    (outputPath : string) (options : ExportOptions) (w : World) :
  fst (exportQDPX path uuidv4 project outputPath options w)
  = match fst (exportBody path uuidv4 project outputPath options w) with
    | Ok result => Ok result
    | Throw (ExportError message details) => Throw (ExportError message details)
    | Throw error =>
        Throw (ExportError ("Failed to export QDPX file:" +:+ Error_toString error) [])
    end.
Proof.
  unfold exportQDPX, tryCatch.
  destruct (exportBody _ _ _ _ _ w) as [[r|e] w']; [reflexivity|].
  destruct e; reflexivity.
Qed.

Section ExportOutcomes.

Variable path : PathModule.
Variable uuidv4 : nat -> string.

(** Every failure of an export is an [ExportError], whatever went wrong
    inside; and when [exportQDPX] returns, the result reports success and
    names [outputPath], where a container has been written. *)
Theorem exportQDPX_throws_ExportError_only (project : loc) (outputPath : string)
    (options : ExportOptions) (w : World) :
  match exportQDPX path uuidv4 project outputPath options w with
  | (Throw error, _) => exists message details, error = ExportError message details
  | (Ok result, w') =>
      success result = true /\ qdpxPath result = outputPath
      /\ is_Some (containers (fsys w') !! outputPath)
  end.
Proof.
  pose proof (exportBody_file_system path uuidv4 project outputPath options w) as Hbody.
  pose proof (exportQDPX_result path uuidv4 project outputPath options w) as Hres.
  pose proof (exportQDPX_state path uuidv4 project outputPath options w) as Hst.
  unfold wp in Hbody.
  destruct (exportQDPX path uuidv4 project outputPath options w) as [r w'].
  cbn [fst snd] in Hres, Hst. subst w'.
  destruct (fst (exportBody path uuidv4 project outputPath options w)) as [result|e].
  - subst r. destruct Hbody as (H1 & H2 & _ & _ & _ & zip & H3).
    split; [exact H1|]. split; [exact H2|].
    rewrite H3, lookup_insert_eq. eexists; reflexivity.
  - destruct e; subst r; do 2 eexists; reflexivity.
Qed.

(** [exportQDPX] does not replace an existing output file unless
    [overwrite] is set: it throws the [ExportError] that names the file
    before it validates or packages anything. *)
Theorem exportQDPX_refuses_existing_output (project : loc) (outputPath : string)
    (options : ExportOptions) (w : World) (original : Project) :
  Store.readProject (heap w) project = Some original ->
  existsSync (fsys w) outputPath = true ->
  default false (overwrite options) = false ->
  fst (exportQDPX path uuidv4 project outputPath options w)
  = Throw (ExportError ("Output file already exists: " +:+ outputPath
                        +:+ ". Use overwrite option to replace it.") []).
Proof.
  intros Hread Hex Hover.
  pose proof (exportBody_outcome path uuidv4 project outputPath options w original Hread)
    as Hout.
  cbv zeta in Hout. unfold configureOptions in Hout at 1. cbn [overwrite] in Hout.
  rewrite Hex, Hover in Hout. cbn [from_option id negb andb] in Hout.
  rewrite exportQDPX_result, Hout. reflexivity.
Qed.

(** With validation on (the default), [exportQDPX] throws the [ExportError]
    that carries the list of [validateProjectForExport] whenever that list
    is not empty for the working copy, that is, for the caller's project
    with the export base path filled in.  The list is that of the embedding
    when the document of the working copy holds no text that XML cannot
    carry; otherwise the code appends its [XML generation error]. *)
Theorem exportQDPX_reports_validation_errors (project : loc) (outputPath : string)
    (options : ExportOptions) (w : World) (original : Project) (e : string)
    (es : list string) :
  Store.readProject (heap w) project = Some original ->
  existsSync (fsys w) outputPath && negb (default false (overwrite options)) = false ->
  default true (validateBeforeExport options) = true ->
  validateProjectForExport (workingCopy path original options outputPath) = e :: es ->
  xmlSafe (buildQDEFile (workingCopy path original options outputPath)) = true ->
  fst (exportQDPX path uuidv4 project outputPath options w)
  = Throw (ExportError "Project validation failed before export" (e :: es)).
Proof.
  intros Hread Hex Hon Herrs _.
  pose proof (exportBody_outcome path uuidv4 project outputPath options w original Hread)
    as Hout.
  cbv zeta in Hout. unfold configureOptions in Hout at 1 2. cbn [overwrite validateBeforeExport] in Hout.
  cbn [from_option id] in Hout. rewrite Hex, Hon, Herrs in Hout.
  rewrite exportQDPX_result, Hout. reflexivity.
Qed.

(** When the output may be written, the working copy passes validation (or
    validation is switched off) and the documents built hold no text that
    XML cannot carry, [exportQDPX] succeeds.  The result carries the
    warnings and external sources that [processSourcesForExport] collected;
    the file entries of the container are exactly the files that were
    packaged; and when the numbers of the project are finite, so that the
    JSON copy holds them as they are, the manifest is the document built
    from the working copy with its source addresses rewritten. *)
Theorem exportQDPX_succeeds (project : loc) (outputPath : string)
    (options : ExportOptions) (w : World) (original : Project) :
  Store.readProject (heap w) project = Some original ->
  existsSync (fsys w) outputPath && negb (default false (overwrite options)) = false ->
  (default true (validateBeforeExport options) = true ->
   validateProjectForExport (workingCopy path original options outputPath) = []
   /\ xmlSafe (buildQDEFile (workingCopy path original options outputPath)) = true) ->
  outputPath ∉ readOnly (fsys w) ->
  let copy := workingCopy path original options outputPath in
  let packaging :=
    snd (processSourcesForExport path uuidv4 (fsys w) copy
           (configureOptions path options outputPath) (emptyPackaging (uuids w))) in
  let updated := updatedProject path (sourceInfoList packaging) copy in
  let run := exportQDPX path uuidv4 project outputPath options w in
  xmlSafe (buildQDEFile updated) = true ->
  fst run = Ok {| success := true; qdpxPath := outputPath;
                  result_externalSources := externalSources packaging;
                  result_warnings := warnings packaging |}
  /\ exists container,
       containers (fsys (snd run)) !! outputPath = Some container
       /\ entries container = sourceFiles packaging
       /\ (finiteXml (Build.prepareProjectForXml updated) = true ->
           manifest container = buildQDEFile updated).
Proof.
  intros Hread Hex Hvalid Hwritable copy packaging updated run _.
  pose proof (exportBody_outcome path uuidv4 project outputPath options w original Hread)
    as Hout.
  cbv zeta in Hout. unfold configureOptions in Hout at 1 2. cbn [overwrite validateBeforeExport] in Hout.
  cbn [from_option id] in Hout. rewrite Hex in Hout.
  assert (Hnone : (if default true (validateBeforeExport options)
                   then validateProjectForExport (workingCopy path original options outputPath)
                   else []) = []).
  { destruct (default true (validateBeforeExport options)); [apply Hvalid|]; reflexivity. }
  rewrite Hnone in Hout.
  rewrite bool_decide_eq_false_2 in Hout by exact Hwritable.
  destruct Hout as (Hfst & Hcont & _).
  subst run. rewrite exportQDPX_result, exportQDPX_state, Hfst. split; [reflexivity|].
  eexists. split; [exact Hcont|]. split; [reflexivity|]. intros _. reflexivity.
Qed.

End ExportOutcomes.

Lemma exportQDPX_refuses_existing_output_witness :
  let project := Examples.pdfProject "relative://a.pdf" in
  let fs := {| files := {[ "/out/p.qdpx" := {| size := 10; content := Some [] |} ]};
               containers := ∅; readOnly := ∅ |} in
  let start := Examples.worldOf project fs in
  fst (exportQDPX Posix.path Posix.uuidv4 (fst start) "/out/p.qdpx"
         (Examples.policy None None None) (snd start))
  = Throw (ExportError
             "Output file already exists: /out/p.qdpx. Use overwrite option to replace it."
             []).
Proof.
  intros project fs start.
  apply (exportQDPX_refuses_existing_output Posix.path Posix.uuidv4 (fst start)
           "/out/p.qdpx" (Examples.policy None None None) (snd start) project).
  - reflexivity.
  - vm_compute. reflexivity.
  - reflexivity.
Defined.

Lemma exportQDPX_reports_validation_errors_witness :
  let start := Examples.worldOf Examples.duplicateSourcesProject Examples.noFiles in
  fst (exportQDPX Posix.path Posix.uuidv4 (fst start) "/out/p.qdpx"
         (Examples.policy None None None) (snd start))
  = Throw (ExportError "Project validation failed before export"
             ["Duplicate GUID 11111111-1111-1111-1111-111111111111 in Sources.TextSource[1] and Sources.TextSource[0]";
              "Missing path in Sources.TextSource[0]";
              "Missing path in Sources.TextSource[1]"]).
Proof.
  intros start.
  apply (exportQDPX_reports_validation_errors Posix.path Posix.uuidv4 (fst start)
           "/out/p.qdpx" (Examples.policy None None None) (snd start)
           Examples.duplicateSourcesProject).
  - reflexivity.
  - vm_compute. reflexivity.
  - reflexivity.
  - vm_compute. reflexivity.
  - vm_compute. reflexivity.
Defined.

Lemma exportQDPX_succeeds_witness :
  let project := Examples.pdfProject "relative://a.pdf" in
  let start := Examples.worldOf project (Examples.oneFile 5) in
  let run := exportQDPX Posix.path Posix.uuidv4 (fst start) "/out/p.qdpx"
               (Examples.policy (Some true) None None) (snd start) in
  fst run = Ok {| success := true; qdpxPath := "/out/p.qdpx";
                  result_externalSources := []; result_warnings := [] |}
  /\ (entries <$> containers (fsys (snd run)) !! "/out/p.qdpx")
     = Some {[ "sources/00000000-0000-4000-8000-0.pdf" := [] ]}.
Proof.
  intros project start run.
  destruct (exportQDPX_succeeds Posix.path Posix.uuidv4 (fst start) "/out/p.qdpx"
              (Examples.policy (Some true) None None) (snd start) project)
    as [Hresult (container & Hcontainer & Hentries & _)].
  - reflexivity.
  - vm_compute. reflexivity.
  - intros _. split; vm_compute; reflexivity.
  - apply not_elem_of_empty.
  - vm_compute. reflexivity.
  - subst run. split.
    + rewrite Hresult. vm_compute. reflexivity.
    + rewrite Hcontainer. cbn [fmap option_fmap option_map]. rewrite Hentries.
      vm_compute. reflexivity.
Defined.

(** ** The size limit of an export *)

(** *** The loop over the sources *)

Lemma forOf_map {A B : Type} (g : B -> M Packaging unit) (h : A -> B) (l : list A)
    (acc : Packaging) :
  forOf g (map h l) acc = forOf (fun x => g (h x)) l acc.
Proof.
  revert acc. induction l as [|x l IH]; intros acc; [reflexivity|].
  cbn [map forOf]. unfold bind. destruct (g (h x) acc) as [[[]|e] acc1]; [apply IH|reflexivity].
Qed.

Lemma forOf_app {A : Type} (f : A -> M Packaging unit) (l1 l2 : list A) (acc : Packaging) :
  forOf f (l1 ++ l2) acc = bind (forOf f l1) (fun _ => forOf f l2) acc.
Proof.
  revert acc. induction l1 as [|x l1 IH]; intros acc; [reflexivity|].
  cbn [app forOf]. unfold bind.
  destruct (f x acc) as [[[]|e] acc1]; [|reflexivity]. rewrite IH. reflexivity.
Qed.

Lemma bind_ext {A B : Type} (m m' : M Packaging A) (k k' : A -> M Packaging B)
    (acc : Packaging) :
  (forall acc, m acc = m' acc) -> (forall a acc, k a acc = k' a acc) ->
  bind m k acc = bind m' k' acc.
Proof.
  intros Hm Hk. unfold bind. rewrite Hm. destruct (m' acc) as [[a|e] acc1]; [apply Hk|reflexivity].
Qed.

Ltac one_loop :=
  match goal with
  | |- forOfOpt _ ?l _ = _ =>
      destruct l; [cbn; rewrite forOf_map; reflexivity|reflexivity]
  end.

(** [processSourcesForExport] is one loop over the visited sources. *)
Lemma processSourcesForExport_visits (path : PathModule) (uuidv4 : nat -> string)
    (fs : FileSystem) (project : Project) (options : ExportOptions) (acc : Packaging) :
  processSourcesForExport path uuidv4 fs project options acc
  = forOf (visit path uuidv4 fs options) (visitedSources project) acc.
Proof.
  unfold processSourcesForExport, visitedSources.
  destruct (Proj.Sources project) as [sources|]; [|reflexivity].
  revert acc.
  do 4 (intros acc; rewrite forOf_app; apply bind_ext;
        [intros ?; one_loop|intros _; clear acc]).
  intros acc. one_loop.
Qed.

Lemma keeps_refl (acc : Packaging) : keeps acc acc.
Proof. split; [reflexivity|]. intros name H. exact H. Qed.

Lemma keeps_trans (a b c : Packaging) : keeps a b -> keeps b c -> keeps a c.
Proof.
  intros [I1 F1] [I2 F2]. split; [etransitivity; eassumption|].
  intros name H. apply F2, F1, H.
Qed.

Lemma processSource_keeps (path : PathModule) (uuidv4 : nat -> string)
    (fs : FileSystem) (options : ExportOptions) (guid address currentPath : option string)
    (sourceTypeName : string) (acc : Packaging) :
  keeps acc
    (snd (processSource path uuidv4 fs options guid address currentPath sourceTypeName acc)).
Proof.
  unfold processSource, tryCatch, bind, lift, throw, ret, pushInfo, pushWarning,
    pushExternal, setSourceFile, nextUuid, modify.
  repeat (case_match; simplify_eq);
    (split; cbn;
     [try reflexivity; try (apply prefix_app_r; reflexivity)
     |intros name Hsome; try exact Hsome;
      try (apply lookup_insert_is_Some'; right; exact Hsome)]).
Qed.

Lemma forOf_keeps {A : Type} (f : A -> M Packaging unit) (l : list A) (acc : Packaging) :
  (forall y acc, keeps acc (snd (f y acc))) -> keeps acc (snd (forOf f l acc)).
Proof.
  intros Hf. revert acc. induction l as [|x l IH]; intros acc; [apply keeps_refl|].
  cbn [forOf]. unfold bind. specialize (Hf x acc).
  destruct (f x acc) as [[[]|e] acc1]; cbn in Hf |- *; [|exact Hf].
  eapply keeps_trans; [exact Hf|apply IH].
Qed.

(** What the step on one element of the loop has stored is still there when
    the loop is over. *)
Lemma forOf_element {A : Type} (f : A -> M Packaging unit) (l : list A) (x : A)
    (acc : Packaging) :
  x ∈ l ->
  (forall y acc, fst (f y acc) = Ok tt) ->
  (forall y acc, keeps acc (snd (f y acc))) ->
  exists acc1, keeps (snd (f x acc1)) (snd (forOf f l acc)).
Proof.
  intros Hin Hok Hf. revert acc. induction l as [|a l IH]; intros acc.
  - apply elem_of_nil in Hin. contradiction.
  - cbn [forOf]. unfold bind. apply elem_of_cons in Hin as [->|Hin].
    + exists acc. specialize (Hok a acc).
      destruct (f a acc) as [[[]|e] acc1]; cbn in Hok |- *; [|discriminate].
      apply forOf_keeps, Hf.
    + specialize (Hok a acc).
      destruct (f a acc) as [[[]|e] acc1]; cbn in Hok |- *; [|discriminate].
      apply (IH Hin).
Qed.

Lemma visitedSources_workingCopy (path : PathModule) (original : Project)
    (options : ExportOptions) (outputPath : string) :
  visitedSources (workingCopy path original options outputPath) = visitedSources original.
Proof. unfold workingCopy. destruct (_ && _); reflexivity. Qed.

(** A source of the project whose file passes the size test is embedded by
    [processSourcesForExport], wherever it stands among the sources: it is
    recorded as internal under a new file name, and a file of that name is
    packaged. *)
Lemma processSourcesForExport_embeds (path : PathModule) (uuidv4 : nat -> string)
    (fs : FileSystem) (project : Project) (options : ExportOptions)
    (guid address sourceTypeName sourcePath : string) (currentPath : option string)
    (file : FileInfo) (data : Buffer) (acc : Packaging) :
  (Some guid, Some address, currentPath, sourceTypeName) ∈ visitedSources project ->
  JS.truthy (Some address) = true ->
  JS.startsWith address "internal://" = false ->
  resolveSourcePath path address (exportBasePath options) = Ok sourcePath ->
  files fs !! sourcePath = Some file ->
  content file = Some data ->
  Number.int_le (size file) (default (Int 2147483646) (maxInternalFileSize options))
  && default false (includeExternalSources options) = true ->
  exists info,
    info ∈ sourceInfoList (snd (processSourcesForExport path uuidv4 fs project options acc))
    /\ info_guid info = guid /\ sourceType info = internal
    /\ originalPath info = sourcePath
    /\ is_Some (sourceFiles (snd (processSourcesForExport path uuidv4 fs project options acc))
                  !! ("sources/" +:+ filename info)).
Proof.
  intros Hin Hne Hext Hres Hfile Hcontent Htest.
  rewrite processSourcesForExport_visits.
  destruct (forOf_element (visit path uuidv4 fs options) (visitedSources project) _ acc Hin)
    as [acc1 [Hinfos Hfiles]].
  { intros y acc'. apply processSource_never_throws. }
  { intros y acc'. apply processSource_keeps. }
  unfold visit in Hinfos, Hfiles. cbn [fst snd] in Hinfos, Hfiles.
  rewrite (processSource_embeds path uuidv4 fs options guid address sourceTypeName
             sourcePath currentPath file data acc1 Hne Hext Hres Hfile Hcontent Htest)
    in Hinfos, Hfiles.
  cbn [snd] in Hinfos, Hfiles. eexists. split; [|split; [|split; [|split]]].
  - eapply elem_of_prefix; [|exact Hinfos]. unfold embedded. cbn [sourceInfoList].
    apply elem_of_app. right. apply list_elem_of_here.
  - reflexivity.
  - reflexivity.
  - reflexivity.
  - apply Hfiles. unfold embedded. cbn [sourceFiles filename].
    rewrite lookup_insert_eq. eexists. reflexivity.
Qed.

(** C10.  When the caller passes a falsy [maxInternalFileSize] (0, NaN, or
    nothing), [exportQDPX] configures the limit 2147483647.  With
    [includeExternalSources] set, a source of the project whose file is
    readable, not empty and within that limit is therefore embedded,
    although the caller asked for a maximum of 0 bytes: [processSource]
    embeds it, [processSourcesForExport] records it as internal and packages
    a file under its new name, and an export that can write its output and
    whose document holds no text that XML cannot carry succeeds, with that
    file in the container. *)
Theorem falsy_maxInternalFileSize_is_replaced (path : PathModule) (uuidv4 : nat -> string)
    (project : loc) (outputPath : string) (options : ExportOptions) (w : World)
    (original : Project) (guid address sourceTypeName sourcePath : string)
    (currentPath : option string) (file : FileInfo) (data : Buffer) :
  from_option Number.truthy false (maxInternalFileSize options) = false ->
  includeExternalSources options = Some true ->
  (Some guid, Some address, currentPath, sourceTypeName) ∈ visitedSources original ->
  JS.truthy (Some address) = true ->
  JS.startsWith address "internal://" = false ->
  resolveSourcePath path address
    (exportBasePath (configureOptions path options outputPath)) = Ok sourcePath ->
  files (fsys w) !! sourcePath = Some file ->
  0 < size file <= 2147483647 ->
  content file = Some data ->
  let exportOptions := configureOptions path options outputPath in
  let copy := workingCopy path original options outputPath in
  let packaging :=
    snd (processSourcesForExport path uuidv4 (fsys w) copy exportOptions
           (emptyPackaging (uuids w))) in
  maxInternalFileSize exportOptions = Some (Int 2147483647)
  /\ (forall acc,
        processSource path uuidv4 (fsys w) exportOptions (Some guid) (Some address)
          currentPath sourceTypeName acc
        = (Ok tt, embedded path uuidv4 guid sourcePath data acc))
  /\ exists info,
       info ∈ sourceInfoList packaging
       /\ info_guid info = guid /\ sourceType info = internal
       /\ originalPath info = sourcePath
       /\ is_Some (sourceFiles packaging !! ("sources/" +:+ filename info))
       /\ (Store.readProject (heap w) project = Some original ->
           existsSync (fsys w) outputPath && negb (default false (overwrite options))
           = false ->
           (default true (validateBeforeExport options) = true ->
            validateProjectForExport copy = [] /\ xmlSafe (buildQDEFile copy) = true) ->
           xmlSafe (buildQDEFile (updatedProject path (sourceInfoList packaging) copy))
           = true ->
           outputPath ∉ readOnly (fsys w) ->
           exists container,
             fst (exportQDPX path uuidv4 project outputPath options w)
             = Ok {| success := true; qdpxPath := outputPath;
                     result_externalSources := externalSources packaging;
                     result_warnings := warnings packaging |}
             /\ containers (fsys (snd (exportQDPX path uuidv4 project outputPath options w)))
                !! outputPath = Some container
             /\ is_Some (entries container !! ("sources/" +:+ filename info))).
Proof.
  intros Hfalsy Hinc Hin Hne Hext Hres Hfile Hsize Hcontent exportOptions copy packaging.
  assert (Hmax : maxInternalFileSize exportOptions = Some (Int 2147483647)).
  { unfold exportOptions, configureOptions; cbn [maxInternalFileSize].
    destruct (maxInternalFileSize options) as [n|]; [|reflexivity].
    cbn in Hfalsy. rewrite Hfalsy. reflexivity. }
  assert (Htest : Number.int_le (size file)
                    (default (Int 2147483646) (maxInternalFileSize exportOptions))
                  && default false (includeExternalSources exportOptions) = true).
  { rewrite Hmax. unfold exportOptions, configureOptions.
    cbn [includeExternalSources from_option id]. rewrite Hinc.
    cbn [from_option id Number.int_le Int].
    apply andb_true_intro; split; [|reflexivity].
    change (0 <=? 0) with true; cbn match. apply Z.leb_le. lia. }
  split; [exact Hmax|]. split.
  { intros acc. apply (processSource_embeds _ _ _ _ _ _ _ _ _ file); assumption. }
  destruct (processSourcesForExport_embeds path uuidv4 (fsys w) copy exportOptions guid
              address sourceTypeName sourcePath currentPath file data
              (emptyPackaging (uuids w))) as (info & H1 & H2 & H3 & H4 & H5);
    try assumption.
  { unfold copy. rewrite visitedSources_workingCopy. exact Hin. }
  exists info. repeat (split; [assumption|]).
  intros Hread Hex Hvalid _ Hwritable.
  pose proof (exportBody_outcome path uuidv4 project outputPath options w original Hread)
    as Hout.
  cbv zeta in Hout. unfold configureOptions in Hout at 1 2.
  cbn [overwrite validateBeforeExport] in Hout.
  cbn [from_option id] in Hout. rewrite Hex in Hout.
  assert (Hnone : (if default true (validateBeforeExport options)
                   then validateProjectForExport (workingCopy path original options outputPath)
                   else []) = []).
  { destruct (default true (validateBeforeExport options)); [apply Hvalid|]; reflexivity. }
  rewrite Hnone in Hout.
  rewrite bool_decide_eq_false_2 in Hout by exact Hwritable.
  destruct Hout as (Hfst & Hcont & _).
  eexists. rewrite exportQDPX_result, exportQDPX_state, Hfst.
  split; [reflexivity|]. split; [exact Hcont|]. exact H5.
Qed.

Lemma falsy_maxInternalFileSize_is_replaced_witness :
  let options := Examples.policy (Some true) (Some (Int 0)) None in
  let project := Examples.pdfProject "relative://a.pdf" in
  let start := Examples.worldOf project (Examples.oneFile 5) in
  let run := exportQDPX Posix.path Posix.uuidv4 (fst start) "/out/p.qdpx" options
               (snd start) in
  maxInternalFileSize (configureOptions Posix.path options "/out/p.qdpx")
  = Some (Int 2147483647)
  /\ exists info container,
       info_guid info = Examples.guidA /\ sourceType info = internal
       /\ fst run = Ok {| success := true; qdpxPath := "/out/p.qdpx";
                          result_externalSources := []; result_warnings := [] |}
       /\ containers (fsys (snd run)) !! "/out/p.qdpx" = Some container
       /\ is_Some (entries container !! ("sources/" +:+ filename info)).
Proof.
  intros options project start run.
  destruct (falsy_maxInternalFileSize_is_replaced Posix.path Posix.uuidv4 (fst start)
              "/out/p.qdpx" options (snd start) project Examples.guidA "relative://a.pdf"
              "PDFSource" "/out/a.pdf" None {| size := 5; content := Some [] |} [])
    as (Hmax & _ & info & _ & Hguid & Hkind & _ & _ & Hexport).
  - reflexivity.
  - reflexivity.
  - apply list_elem_of_here.
  - reflexivity.
  - reflexivity.
  - reflexivity.
  - vm_compute. reflexivity.
  - cbn. lia.
  - reflexivity.
  - split; [exact Hmax|].
    destruct Hexport as (container & Hresult & Hcontainer & Hentry).
    + reflexivity.
    + vm_compute. reflexivity.
    + intros _. split; vm_compute; reflexivity.
    + vm_compute. reflexivity.
    + apply not_elem_of_empty.
    + exists info, container. subst run.
      split; [exact Hguid|]. split; [exact Hkind|].
      split; [rewrite Hresult; vm_compute; reflexivity|].
      split; [exact Hcontainer|exact Hentry].
Defined.

(** ** What the rewriting of addresses leaves alone *)

Lemma setPaths_updatedSource (path : PathModule) (sourceMap : gmap string SourceInfo)
    (basePath : option string) (s : AnySource) :
  Source.setPaths None None (updatedSource path sourceMap basePath s)
  = Source.setPaths None None s.
Proof.
  unfold updatedSource. destruct (Source.guid s ≫= (sourceMap !!.)) as [info|]; [|reflexivity].
  unfold updateSourcePath. destruct (Source.guid s); [|reflexivity].
  destruct (sourceType info); apply setPaths_twice.
Qed.

Lemma withoutAddresses_updatedProject (path : PathModule)
    (sourceInfoList : list SourceInfo) (p : Project) :
  withoutAddresses (updatedProject path sourceInfoList p) = withoutAddresses p.
Proof.
  unfold withoutAddresses, updatedProject. cbn [Proj.Sources Store.withSources].
  rewrite withSources_twice. f_equal.
  destruct (Proj.Sources p) as [sources|]; [|reflexivity]. cbn [fmap option_fmap option_map].
  f_equal.
  set (m := sourceMapOf sourceInfoList). set (b := Proj.basePath p).
  cbn [Sources.TextSource Sources.PictureSource Sources.PDFSource Sources.AudioSource
         Sources.VideoSource].
  f_equal.
  - destruct (Sources.TextSource sources) as [l|]; [|reflexivity]. cbn. f_equal.
    rewrite map_map. apply map_ext. intros s.
    pose proof (setPaths_updatedSource path m b (TextS s)) as H.
    destruct (updatedSource path m b (TextS s)) eqn:E; cbn in H |- *; try discriminate.
    injection H as H. cbn. f_equal; assumption.
  - destruct (Sources.PictureSource sources) as [l|]; [|reflexivity]. cbn. f_equal.
    rewrite map_map. apply map_ext. intros s.
    pose proof (setPaths_updatedSource path m b (PictureS s)) as H.
    destruct (updatedSource path m b (PictureS s)) eqn:E; cbn in H |- *; try discriminate.
    injection H as H. cbn. f_equal; assumption.
  - destruct (Sources.PDFSource sources) as [l|]; [|reflexivity]. cbn. f_equal.
    rewrite map_map. apply map_ext. intros s.
    pose proof (setPaths_updatedSource path m b (PDFS s)) as H.
    destruct (updatedSource path m b (PDFS s)) eqn:E; cbn in H |- *; try discriminate.
    injection H as H. cbn. f_equal; assumption.
  - destruct (Sources.AudioSource sources) as [l|]; [|reflexivity]. cbn. f_equal.
    rewrite map_map. apply map_ext. intros s.
    pose proof (setPaths_updatedSource path m b (AudioS s)) as H.
    destruct (updatedSource path m b (AudioS s)) eqn:E; cbn in H |- *; try discriminate.
    injection H as H. cbn. f_equal; assumption.
  - destruct (Sources.VideoSource sources) as [l|]; [|reflexivity]. cbn. f_equal.
    rewrite map_map. apply map_ext. intros s.
    pose proof (setPaths_updatedSource path m b (VideoS s)) as H.
    destruct (updatedSource path m b (VideoS s)) eqn:E; cbn in H |- *; try discriminate.
    injection H as H. cbn. f_equal; assumption.
Qed.

(** [updateProjectSourcePaths] changes the [path] and [currentPath] of
    sources and nothing else: the object graph still represents a project,
    and with the addresses removed it is the project it was. *)
Theorem updateProjectSourcePaths_changes_addresses_only (path : PathModule)
    (project : loc) (sourceInfoList : list SourceInfo) (h : Heap) (p : Project) :
  Store.readProject h project = Some p ->
  exists p',
    Store.readProject (updateProjectSourcePaths path project sourceInfoList h) project
    = Some p'
    /\ withoutAddresses p' = withoutAddresses p.
Proof.
  intros Hread. exists (updatedProject path sourceInfoList p).
  split; [apply readProject_updateProjectSourcePaths; exact Hread|].
  apply withoutAddresses_updatedProject.
Qed.

Lemma updateProjectSourcePaths_changes_addresses_only_witness :
  let project := Examples.pdfProject "relative://a.pdf" in
  let start := Examples.worldOf project Examples.noFiles in
  let info := {| info_guid := Examples.guidA; originalPath := "/out/a.pdf";
                 sourceType := internal; filename := "new.pdf"; extension := ".pdf" |} in
  exists p',
    Store.readProject
      (updateProjectSourcePaths Posix.path (fst start) [info] (heap (snd start))) (fst start)
    = Some p'
    /\ withoutAddresses p' = withoutAddresses project.
Proof.
  intros project start info.
  apply (updateProjectSourcePaths_changes_addresses_only Posix.path (fst start) [info]
           (heap (snd start)) project).
  reflexivity.
Defined.

(** ** Sources that are already internal *)

(** A source whose address is [internal://...] is recorded by
    [processSource] with that file name.  [updateProjectSourcePaths] gives a
    source the record that the list holds under the source's [guid] (the
    last one, should several sources share it); when that is the record
    made for this source, the address written is the address the source
    already had.  Its [currentPath], when it has one, does not stay as it
    is: the text [absolute:///] is put in front of it, once more on every
    export. *)
Theorem internal_source_keeps_its_address (path : PathModule) (uuidv4 : nat -> string)
    (fs : FileSystem) (options : ExportOptions) (source : AnySource)
    (guid address sourceTypeName : string) (basePath : option string) (acc : Packaging) :
  Source.guid source = Some guid ->
  Source.path source = Some address ->
  JS.startsWith address "internal://" = true ->
  exists info,
    sourceInfoList
      (snd (processSource path uuidv4 fs options (Source.guid source) (Source.path source)
              (Source.currentPath source) sourceTypeName acc))
    = sourceInfoList acc ++ [info]
    /\ info_guid info = guid
    /\ sourceType info = internal
    /\ forall sourceInfoList : list SourceInfo,
         sourceMapOf sourceInfoList !! guid = Some info ->
         Source.path (updatedSource path (sourceMapOf sourceInfoList) basePath source)
         = Some address
         /\ forall currentPath,
              Source.currentPath source = Some currentPath ->
              Source.currentPath
                (updatedSource path (sourceMapOf sourceInfoList) basePath source)
              = Some ("absolute:///" +:+ JS.replaceAll "\" "/" currentPath).
Proof.
  intros Hguid Hpath Hstart.
  assert (Htruthy : JS.truthy (Some address) = true).
  { destruct address; [discriminate | reflexivity]. }
  exists {| info_guid := guid; originalPath := JS.or_else (Source.currentPath source) "";
            sourceType := internal; filename := JS.substring address 11;
            extension := path_extname path (JS.substring address 11) |}.
  split; [|split; [reflexivity|split; [reflexivity|]]].
  - rewrite Hguid, Hpath. unfold processSource. rewrite Htruthy.
    cbn [negb from_option id]. rewrite Hstart.
    unfold bind at 1. unfold pushInfo at 1, modify. cbn [fst snd].
    destruct (JS.truthy (Source.currentPath source)); [|reflexivity].
    unfold tryCatch, bind, lift, setSourceFile, pushWarning, modify.
    repeat (case_match; simplify_eq; try reflexivity).
  - intros infos Hlookup.
    assert (updatedSource path (sourceMapOf infos) basePath source
            = updateSourcePath path basePath source
                {| info_guid := guid;
                   originalPath := JS.or_else (Source.currentPath source) "";
                   sourceType := internal; filename := JS.substring address 11;
                   extension := path_extname path (JS.substring address 11) |}) as ->.
    { unfold updatedSource. rewrite Hguid. cbn [mbind option_bind].
      unfold GUIDType in *. rewrite Hlookup. reflexivity. }
    unfold updateSourcePath. rewrite Hguid. cbn [sourceType filename].
    rewrite path_setPaths, currentPath_setPaths. split.
    + f_equal. apply (startsWith_split address "internal://" Hstart).
    + intros currentPath ->. unfold absoluteAddress. cbn [originalPath defined].
      destruct currentPath; reflexivity.
Qed.

Lemma internal_source_keeps_its_address_witness :
  let source :=
    PDFS (PDFSource.mk None None None None None None (Some Examples.guidA) None
            (Some "internal://a.pdf") (Some "absolute:///data/a.pdf") None None None None) in
  exists info,
    sourceInfoList
      (snd (processSource Posix.path Posix.uuidv4 Examples.noFiles
              (Examples.policy None None None) (Source.guid source) (Source.path source)
              (Source.currentPath source) "PDFSource" (emptyPackaging 0)))
    = [info]
    /\ Source.path (updatedSource Posix.path (sourceMapOf [info]) None source)
       = Some "internal://a.pdf"
    /\ Source.currentPath (updatedSource Posix.path (sourceMapOf [info]) None source)
       = Some "absolute:///absolute:///data/a.pdf".
Proof.
  intros source.
  destruct (internal_source_keeps_its_address Posix.path Posix.uuidv4 Examples.noFiles
              (Examples.policy None None None) source Examples.guidA "internal://a.pdf"
              "PDFSource" None (emptyPackaging 0) eq_refl eq_refl eq_refl)
    as (info & Hlist & Hguid & _ & Hupdate).
  exists info. split; [exact Hlist|].
  destruct (Hupdate [info]) as [Hpath Hcurrent].
  - unfold sourceMapOf. cbn [fold_left]. rewrite Hguid. apply lookup_insert_eq.
  - split; [exact Hpath|exact (Hcurrent _ eq_refl)].
Defined.

(** ** Validation of sources *)

Lemma silent_id : silentWhen (fun errs => errs) True.
Proof. intros errs. exists []. rewrite app_nil_r. tauto. Qed.

Lemma silent_iff (f : list string -> list string) (P Q : Prop) :
  (P <-> Q) -> silentWhen f P -> silentWhen f Q.
Proof.
  intros HPQ Hf errs. destruct (Hf errs) as (msgs & E & H). exists msgs. tauto.
Qed.

Lemma silent_compose (f g : list string -> list string) (P Q : Prop) :
  silentWhen f P -> silentWhen g Q -> silentWhen (fun errs => g (f errs)) (P /\ Q).
Proof.
  intros Hf Hg errs. destruct (Hf errs) as (m1 & E1 & H1).
  destruct (Hg (f errs)) as (m2 & E2 & H2).
  exists (m1 ++ m2). rewrite E2, E1, app_assoc. split; [reflexivity|].
  split.
  - intros H. apply app_eq_nil in H as [-> ->]. tauto.
  - intros [HP HQ]. apply H1 in HP. apply H2 in HQ. subst. reflexivity.
Qed.

Lemma silent_pushIf (b : bool) (msg : string) : silentWhen (pushIf b msg) (b = false).
Proof.
  intros errs. destruct b; cbn.
  - exists [msg]. split; [reflexivity|]. split; discriminate.
  - exists []. rewrite app_nil_r. tauto.
Qed.

Lemma silent_forEach_from {A : Type} (f : A -> nat -> list string -> list string)
    (P : A -> Prop) (l : list A) (index : nat) :
  (forall x i, silentWhen (f x i) (P x)) ->
  silentWhen (forEach_from f l index) (Forall P l).
Proof.
  intros Hf. revert index. induction l as [|x l IH]; intros index.
  - eapply silent_iff; [|apply silent_id]. split; [constructor | tauto].
  - cbn [forEach_from].
    eapply silent_iff; [|apply (silent_compose _ _ _ _ (Hf x index) (IH (S index)))].
    split; [intros [? ?]; constructor; assumption | intros H; inversion H; tauto].
Qed.

Lemma silent_forEach {A : Type} (f : A -> nat -> list string -> list string)
    (P : A -> Prop) (l : option (list A)) :
  (forall x i, silentWhen (f x i) (P x)) ->
  silentWhen (whenSome l (forEach f)) (Forall P (default [] l)).
Proof.
  intros Hf. destruct l as [l|]; cbn [whenSome from_option id].
  - apply silent_forEach_from. exact Hf.
  - eapply silent_iff; [|apply silent_id]. split; [constructor | tauto].
Qed.

Lemma silent_forEachSource {A : Type} (f : A -> list string -> list string)
    (P : A -> Prop) (l : option (list A)) :
  (forall x, silentWhen (f x) (P x)) ->
  silentWhen (forEachSource f l) (Forall P (default [] l)).
Proof.
  intros Hf. destruct l as [l|]; cbn [forEachSource from_option id].
  2:{ eapply silent_iff; [|apply silent_id]. split; [constructor | tauto]. }
  induction l as [|x l IH].
  - eapply silent_iff; [|apply silent_id]. split; [constructor | tauto].
  - cbn [fold_left].
    eapply silent_iff; [|apply (silent_compose _ _ _ _ (Hf x) IH)].
    split; [intros [? ?]; constructor; assumption | intros H; inversion H; tauto].
Qed.

Lemma silent_nil (f : list string -> list string) (P : Prop) :
  silentWhen f P -> (f [] = [] <-> P).
Proof. intros Hf. destruct (Hf []) as (msgs & -> & H). exact H. Qed.

Lemma silent_checkTextPayload (content plainTextPath : option string) (what : string) :
  silentWhen (checkTextPayload content plainTextPath what)
    (payloadOk content plainTextPath = true).
Proof.
  unfold checkTextPayload, payloadOk.
  destruct (defined content || defined plainTextPath); cbn [negb orb].
  - eapply silent_iff;
      [|apply (silent_compose _ _ _ _ (silent_pushIf _ _) (silent_pushIf _ _))].
    destruct (JS.truthy content), (JS.truthy plainTextPath); cbn; intuition congruence.
  - eapply silent_iff; [|apply silent_id]. tauto.
Qed.

Lemma silent_validateTranscript (transcripts : option (list TranscriptType))
    (type : string) (index : nat) :
  silentWhen (validateTranscript transcripts type index) (transcriptsOk transcripts).
Proof.
  unfold validateTranscript, transcriptsOk.
  apply silent_forEach. intros t i. apply silent_checkTextPayload.
Qed.

Lemma silent_validateNonTextSource (path : option string) (type : string) (index : nat) :
  silentWhen (validateNonTextSource path type index) (JS.truthy path = true).
Proof.
  unfold validateNonTextSource. eapply silent_iff; [|apply silent_pushIf].
  destruct (JS.truthy path); cbn; intuition congruence.
Qed.

Lemma silent_compose5 (f1 f2 f3 f4 f5 : list string -> list string)
    (P1 P2 P3 P4 P5 : Prop) :
  silentWhen f1 P1 -> silentWhen f2 P2 -> silentWhen f3 P3 -> silentWhen f4 P4 ->
  silentWhen f5 P5 ->
  silentWhen (fun errs => f5 (f4 (f3 (f2 (f1 errs))))) (P1 /\ P2 /\ P3 /\ P4 /\ P5).
Proof.
  intros H1 H2 H3 H4 H5.
  eapply silent_iff;
    [|apply (silent_compose _ f5 _ _
               (silent_compose _ f4 _ _
                  (silent_compose _ f3 _ _ (silent_compose f1 f2 _ _ H1 H2) H3) H4) H5)].
  tauto.
Qed.

Lemma validateProjectSources_spec (project : Project) :
  validateProjectSources project = [] <-> sourcesAreValid project.
Proof.
  unfold validateProjectSources, sourcesAreValid.
  destruct (Proj.Sources project) as [sources|]; [|tauto].
  cbv zeta.
  refine (silent_nil _ _
            (silent_compose5
               (whenSome (Sources.TextSource sources) (forEach _))
               (whenSome (Sources.PictureSource sources) (forEach _))
               (whenSome (Sources.PDFSource sources) (forEach _))
               (whenSome (Sources.AudioSource sources) (forEach _))
               (whenSome (Sources.VideoSource sources) (forEach _))
               _ _ _ _ _ _ _ _ _ _)).
  - apply silent_forEach. intros s i. unfold validateTextSource.
    apply (silent_compose (pushIf _ _) (checkTextPayload _ _ _));
      [|apply silent_checkTextPayload].
    eapply silent_iff; [|apply silent_pushIf].
    destruct (JS.truthy (TextSource.path s)); cbn; intuition congruence.
  - apply silent_forEach. intros s i. apply silent_validateNonTextSource.
  - apply silent_forEach. intros s i. apply silent_validateNonTextSource.
  - apply silent_forEach. intros s i.
    apply (silent_compose (validateNonTextSource _ _ _) (validateTranscript _ _ _));
      [apply silent_validateNonTextSource | apply silent_validateTranscript].
  - apply silent_forEach. intros s i.
    apply (silent_compose (validateNonTextSource _ _ _) (validateTranscript _ _ _));
      [apply silent_validateNonTextSource | apply silent_validateTranscript].
Qed.

Lemma silent_validateSource (guid name path : option string) :
  silentWhen (validateSource guid name path) (JS.truthy path = true).
Proof.
  unfold validateSource. eapply silent_iff; [|apply silent_pushIf].
  destruct (JS.truthy path); cbn; intuition congruence.
Qed.

Lemma validateSourcePaths_spec (project : Project) :
  validateSourcePaths project = [] <-> sourcePathsAreValid project.
Proof.
  unfold validateSourcePaths, sourcePathsAreValid.
  destruct (Proj.Sources project) as [sources|]; [|tauto].
  cbv zeta.
  refine (silent_nil _ _
            (silent_compose5
               (forEachSource _ (Sources.TextSource sources))
               (forEachSource _ (Sources.PictureSource sources))
               (forEachSource _ (Sources.PDFSource sources))
               (forEachSource _ (Sources.AudioSource sources))
               (forEachSource _ (Sources.VideoSource sources))
               _ _ _ _ _ _ _ _ _ _)).
  - apply silent_forEachSource. intros s. unfold validateTextSourcePath.
    apply (silent_compose (validateSource _ _ _) (pushIf _ _));
      [apply silent_validateSource | apply silent_pushIf].
  - apply silent_forEachSource. intros s. apply silent_validateSource.
  - apply silent_forEachSource. intros s. apply silent_validateSource.
  - apply silent_forEachSource. intros s. apply silent_validateSource.
  - apply silent_forEachSource. intros s. apply silent_validateSource.
Qed.

Lemma onePayload_payloadOk (PlainTextContent plainTextPath : option string) :
  onePayload PlainTextContent plainTextPath = true ->
  payloadOk PlainTextContent plainTextPath = true.
Proof. unfold onePayload, payloadOk. intros ->. apply orb_true_r. Qed.

Lemma transcriptsHaveOnePayload_transcriptsOk (transcripts : option (list TranscriptType)) :
  transcriptsHaveOnePayload transcripts -> transcriptsOk transcripts.
Proof.
  unfold transcriptsHaveOnePayload, transcriptsOk.
  intros H. eapply Forall_impl; [exact H|]. intros t. apply onePayload_payloadOk.
Qed.

Lemma sourcesHaveOnePayload_sourcesAreValid (project : Project) :
  sourcesHaveOnePayload project -> sourcesAreValid project.
Proof.
  unfold sourcesHaveOnePayload, sourcesAreValid.
  destruct (Proj.Sources project) as [sources|]; [|trivial].
  intros (Htext & Hpicture & Hpdf & Haudio & Hvideo).
  split; [|split; [exact Hpicture|split; [exact Hpdf|split]]].
  - eapply Forall_impl; [exact Htext|]. intros s [Hpath Hpayload].
    split; [exact Hpath|apply onePayload_payloadOk, Hpayload].
  - eapply Forall_impl; [exact Haudio|]. intros s [Hpath Htranscripts].
    split; [exact Hpath|apply transcriptsHaveOnePayload_transcriptsOk, Htranscripts].
  - eapply Forall_impl; [exact Hvideo|]. intros s [Hpath Htranscripts].
    split; [exact Hpath|apply transcriptsHaveOnePayload_transcriptsOk, Htranscripts].
Qed.

(** What [validateProjectSources] accepts, from both sides.  When it returns
    no error, every source of every kind has a non-empty [path], and every
    text source and every transcript of an audio or video source either
    carries neither [PlainTextContent] nor [plainTextPath] or has exactly
    one of the two non-empty.  And it returns no error when every source has
    a non-empty [path] and every text source and transcript has exactly one
    of the two non-empty. *)
Theorem validateProjectSources_accepts_only (project : Project) :
  (validateProjectSources project = [] -> sourcesAreValid project)
  /\ (sourcesHaveOnePayload project -> validateProjectSources project = []).
Proof.
  split.
  - apply validateProjectSources_spec.
  - intros H. apply validateProjectSources_spec, sourcesHaveOnePayload_sourcesAreValid, H.
Qed.

Lemma validateProjectSources_accepts_only_witness :
  let source :=
    TextSource.mk None (Some "hello") None None None None (Some Examples.guidA) None None
      None None None None None (Some "internal://a.txt") None in
  let project :=
    Examples.named "P1" (Some (Sources.mk (Some [source]) None None None None)) None in
  sourcesHaveOnePayload project
  /\ validateProjectSources project = [] /\ sourcesAreValid project.
Proof.
  intros source project.
  assert (Hone : sourcesHaveOnePayload project).
  { cbn. repeat split; try apply List.Forall_nil.
    apply List.Forall_cons; [split; reflexivity|apply List.Forall_nil]. }
  destruct (validateProjectSources_accepts_only project) as [Honly Hall].
  split; [exact Hone|]. split; [exact (Hall Hone)|exact (Honly (Hall Hone))].
Defined.

(** The import-side [validateSourcePaths] returns no error exactly when
    every source has a non-empty [path] and no text source has both
    [PlainTextContent] and [plainTextPath]; it is the weaker check, so
    whatever [validateProjectSources] accepts for export,
    [validateSourcePaths] accepts as well. *)
Theorem validateSourcePaths_is_weaker (project : Project) :
  (validateSourcePaths project = [] <-> sourcePathsAreValid project)
  /\ (validateProjectSources project = [] -> validateSourcePaths project = []).
Proof.
  split; [apply validateSourcePaths_spec|].
  rewrite validateProjectSources_spec, validateSourcePaths_spec.
  unfold sourcesAreValid, sourcePathsAreValid.
  destruct (Proj.Sources project) as [sources|]; [|tauto].
  intros (HT & HP & HD & HA & HV). repeat split; try assumption.
  - eapply Forall_impl; [exact HT|]. intros s [Hpath Hpay]. split; [exact Hpath|].
    unfold payloadOk in Hpay.
    destruct (TextSource.PlainTextContent s) as [[|]|],
             (TextSource.plainTextPath s) as [[|]|]; cbn in *; congruence.
  - eapply Forall_impl; [exact HA|]. intros s [Hpath _]. exact Hpath.
  - eapply Forall_impl; [exact HV|]. intros s [Hpath _]. exact Hpath.
Qed.

(** ** The form of an identifier *)

Lemma hexRun_spec (n : nat) (s r : string) :
  hexRun n s = Some r
  <-> exists h, s = h +:+ r /\ String.length h = n /\ allHex h = true.
Proof.
  revert s. induction n as [|n IH]; intros s.
  - cbn. split.
    + intros [= ->]. exists "". auto.
    + intros (h & -> & Hlen & _). destruct h; [reflexivity | discriminate].
  - destruct s as [|a s]; cbn [hexRun].
    + split; [discriminate|]. intros (h & Hs & Hlen & _).
      destruct h; discriminate.
    + destruct (isHexDigit a) eqn:Ha.
      * rewrite IH. split.
        -- intros (h & -> & Hlen & Hhex). exists (String a h). cbn. rewrite Ha, Hhex.
           auto.
        -- intros (h & Hs & Hlen & Hhex). destruct h as [|b h]; [discriminate|].
           cbn in Hs, Hlen, Hhex. injection Hs as -> ->.
           apply andb_prop in Hhex as [_ Hhex]. exists h. auto.
      * split; [discriminate|]. intros (h & Hs & Hlen & Hhex).
        destruct h as [|b h]; [discriminate|]. cbn in Hs, Hhex. injection Hs as -> _.
        rewrite Ha in Hhex. discriminate.
Qed.

Lemma append_empty (s : string) : s +:+ "" = s.
Proof.
  induction s as [|a s IH]; [reflexivity|].
  change (String a (s +:+ "") = String a s). rewrite IH. reflexivity.
Qed.

Lemma dash_spec (s r : string) : dash s = Some r <-> s = "-" +:+ r.
Proof.
  unfold dash. split.
  - destruct s as [|a s]; [discriminate|].
    destruct a as [[] [] [] [] [] [] [] []]; try discriminate. intros [= ->]. reflexivity.
  - intros ->. reflexivity.
Qed.

(** [guidPattern] accepts exactly the strings made of five groups of 8, 4,
    4, 4 and 12 hexadecimal digits, of either case, separated by single
    dashes; an accepted identifier therefore has 36 characters. *)
Theorem guidPattern_accepts_exactly (guid : string) :
  guidPattern_test guid = true
  <-> exists a b c d e,
        guid = a +:+ "-" +:+ b +:+ "-" +:+ c +:+ "-" +:+ d +:+ "-" +:+ e
        /\ String.length a = 8%nat /\ String.length b = 4%nat
        /\ String.length c = 4%nat /\ String.length d = 4%nat
        /\ String.length e = 12%nat
        /\ allHex a = true /\ allHex b = true /\ allHex c = true
        /\ allHex d = true /\ allHex e = true.
Proof.
  unfold guidPattern_test. cbn [hexGroups]. split.
  - destruct (hexRun 8 guid) as [r1|] eqn:H1; [|discriminate].
    destruct (dash r1) as [r1'|] eqn:D1; [|discriminate].
    destruct (hexRun 4 r1') as [r2|] eqn:H2; [|discriminate].
    destruct (dash r2) as [r2'|] eqn:D2; [|discriminate].
    destruct (hexRun 4 r2') as [r3|] eqn:H3; [|discriminate].
    destruct (dash r3) as [r3'|] eqn:D3; [|discriminate].
    destruct (hexRun 4 r3') as [r4|] eqn:H4; [|discriminate].
    destruct (dash r4) as [r4'|] eqn:D4; [|discriminate].
    destruct (hexRun 12 r4') as [[|x r5]|] eqn:H5; try discriminate. intros _.
    apply hexRun_spec in H1 as (a & -> & La & Ha).
    apply dash_spec in D1 as ->.
    apply hexRun_spec in H2 as (b & -> & Lb & Hb).
    apply dash_spec in D2 as ->.
    apply hexRun_spec in H3 as (c & -> & Lc & Hc).
    apply dash_spec in D3 as ->.
    apply hexRun_spec in H4 as (d & -> & Ld & Hd).
    apply dash_spec in D4 as ->.
    apply hexRun_spec in H5 as (e & -> & Le & He).
    exists a, b, c, d, e. rewrite append_empty. repeat split; assumption.
  - intros (a & b & c & d & e & -> & La & Lb & Lc & Ld & Le & Ha & Hb & Hc & Hd & He).
    assert (Hdash : forall r, dash ("-" +:+ r) = Some r) by reflexivity.
    assert (Hrun : forall n h r, String.length h = n -> allHex h = true ->
                                 hexRun n (h +:+ r) = Some r).
    { intros n h r Hlen Hhex. apply hexRun_spec. exists h. auto. }
    rewrite (Hrun 8%nat a _ La Ha), Hdash.
    rewrite (Hrun 4%nat b _ Lb Hb), Hdash.
    rewrite (Hrun 4%nat c _ Lc Hc), Hdash.
    rewrite (Hrun 4%nat d _ Ld Hd), Hdash.
    rewrite <- (append_empty e) at 1.
    rewrite (Hrun 12%nat e "" Le He). reflexivity.
Qed.

(** ** Validation of identifiers *)

Lemma checks_id : checks (fun st => st) [].
Proof. exists []. split; reflexivity. Qed.

Lemma checks_checkGuid (guid : option GUIDType) (context : string) :
  checks (checkGuid guid context) [guid].
Proof. exists [context]. split; reflexivity. Qed.

Lemma checks_compose (f g : GuidState -> GuidState) (a b : list (option GUIDType)) :
  checks f a -> checks g b -> checks (fun st => g (f st)) (a ++ b).
Proof.
  intros (ca & La & Hf) (cb & Lb & Hg). exists (ca ++ cb). split.
  - rewrite !length_app. congruence.
  - intros st. rewrite Hg, Hf. unfold checkAll.
    rewrite zip_with_app by (symmetry; exact La). rewrite fold_left_app. reflexivity.
Qed.

Lemma checks_forEach_from {A : Type} (f : A -> nat -> GuidState -> GuidState)
    (guidsOf : A -> list (option GUIDType)) (l : list A) (index : nat) :
  (forall x i, checks (f x i) (guidsOf x)) ->
  checks (forEach_from f l index) (flat_map guidsOf l).
Proof.
  intros Hf. revert index. induction l as [|x l IH]; intros index.
  - apply checks_id.
  - cbn [forEach_from flat_map].
    apply (checks_compose (f x index) (forEach_from f l (S index))); [apply Hf | apply IH].
Qed.

Lemma checks_forEach {A : Type} (f : A -> nat -> GuidState -> GuidState)
    (guidsOf : A -> list (option GUIDType)) (l : option (list A)) :
  (forall x i, checks (f x i) (guidsOf x)) ->
  checks (whenSome l (forEach f)) (concatMap guidsOf l).
Proof.
  intros Hf. destruct l as [l|]; cbn [whenSome concatMap].
  - apply checks_forEach_from. exact Hf.
  - apply checks_id.
Qed.

Lemma checks_checkCode : forall (code : CodeType) (path : string) (index : nat),
  checks (checkCode code path index) (guidsOf_Code code).
Proof.
  fix IH 1. intros [description noteRef children guid name isCodable color] path index.
  destruct children as [codes|].
  - change (checks
              (fun st => forEach_from
                           (fun c i => checkCode c (at_index path index +:+ ".Code") i)
                           codes 0%nat (checkGuid guid (at_index path index) st))
              ([guid] ++ flat_map guidsOf_Code codes)).
    apply (checks_compose (checkGuid guid (at_index path index))
             (forEach_from (fun c i => checkCode c (at_index path index +:+ ".Code") i)
                codes 0%nat)); [apply checks_checkGuid|].
    generalize 0%nat. induction codes as [|c codes IHcodes]; intros i.
    + apply checks_id.
    + cbn [forEach_from flat_map].
      apply (checks_compose (checkCode c (at_index path index +:+ ".Code") i)
               (forEach_from (fun c i => checkCode c (at_index path index +:+ ".Code") i)
                  codes (S i))); [apply IH | apply IHcodes].
  - apply (checks_checkGuid guid (at_index path index)).
Qed.

Lemma checks_checkSourceSelections {Sel : Type} (sel_guid : Sel -> option GUIDType)
    (sel_Coding : Sel -> option (list CodingType)) (selections : option (list Sel))
    (source_Coding : option (list CodingType)) (type : string) (index : nat)
    (selectionType : string) :
  checks (checkSourceSelections sel_guid sel_Coding selections source_Coding type index
            selectionType)
    (checkedGuids_selections sel_guid sel_Coding selections source_Coding).
Proof.
  unfold checkSourceSelections, checkedGuids_selections. cbv zeta.
  apply (checks_compose (whenSome selections (forEach _))
           (whenSome source_Coding (forEach _))).
  - apply checks_forEach. intros selection selIndex.
    apply (checks_compose (checkGuid _ _) (whenSome _ (forEach _)) [_]);
      [apply checks_checkGuid|].
    apply checks_forEach. intros coding codingIndex. apply checks_checkGuid.
  - apply checks_forEach. intros coding codingIndex. apply checks_checkGuid.
Qed.

Lemma checks_checkTranscripts (transcripts : option (list TranscriptType))
    (type : string) (index : nat) :
  checks (checkTranscripts transcripts type index) (checkedGuids_transcripts transcripts).
Proof.
  unfold checkTranscripts, checkedGuids_transcripts. cbv zeta.
  apply checks_forEach. intros transcript transIndex.
  apply (checks_compose (checkGuid _ _)
           (fun st => whenSome _ (forEach _) (whenSome _ (forEach _) st)) [_]);
    [apply checks_checkGuid|].
  apply (checks_compose (whenSome _ (forEach _)) (whenSome _ (forEach _)));
    apply checks_forEach; intros x i; apply checks_checkGuid.
Qed.

Lemma checks_checkSourcesGUIDs (sources : SourcesType) :
  checks (checkSourcesGUIDs sources) (checkedGuids_Sources sources).
Proof.
  unfold checkSourcesGUIDs, checkedGuids_Sources. cbv zeta.
  apply (checks_compose (whenSome (Sources.TextSource sources) (forEach _))
           (fun st => whenSome (Sources.VideoSource sources) (forEach _)
                        (whenSome (Sources.AudioSource sources) (forEach _)
                           (whenSome (Sources.PDFSource sources) (forEach _)
                              (whenSome (Sources.PictureSource sources) (forEach _) st))))).
  { apply checks_forEach. intros s i.
    apply (checks_compose (checkGuid _ _) (checkSourceSelections _ _ _ _ _ _ _) [_]);
      [apply checks_checkGuid | apply checks_checkSourceSelections]. }
  apply (checks_compose (whenSome (Sources.PictureSource sources) (forEach _))
           (fun st => whenSome (Sources.VideoSource sources) (forEach _)
                        (whenSome (Sources.AudioSource sources) (forEach _)
                           (whenSome (Sources.PDFSource sources) (forEach _) st)))).
  { apply checks_forEach. intros s i.
    apply (checks_compose (checkGuid _ _) (checkSourceSelections _ _ _ _ _ _ _) [_]);
      [apply checks_checkGuid | apply checks_checkSourceSelections]. }
  apply (checks_compose (whenSome (Sources.PDFSource sources) (forEach _))
           (fun st => whenSome (Sources.VideoSource sources) (forEach _)
                        (whenSome (Sources.AudioSource sources) (forEach _) st))).
  { apply checks_forEach. intros s i.
    apply (checks_compose (checkGuid _ _) (checkSourceSelections _ _ _ _ _ _ _) [_]);
      [apply checks_checkGuid | apply checks_checkSourceSelections]. }
  apply (checks_compose (whenSome (Sources.AudioSource sources) (forEach _))
           (whenSome (Sources.VideoSource sources) (forEach _))).
  { apply checks_forEach. intros s i.
    apply (checks_compose (checkGuid _ _)
             (fun st => checkTranscripts _ _ _ (checkSourceSelections _ _ _ _ _ _ _ st)) [_]);
      [apply checks_checkGuid|].
    apply (checks_compose (checkSourceSelections _ _ _ _ _ _ _) (checkTranscripts _ _ _));
      [apply checks_checkSourceSelections | apply checks_checkTranscripts]. }
  { apply checks_forEach. intros s i.
    apply (checks_compose (checkGuid _ _)
             (fun st => checkTranscripts _ _ _ (checkSourceSelections _ _ _ _ _ _ _ st)) [_]);
      [apply checks_checkGuid|].
    apply (checks_compose (checkSourceSelections _ _ _ _ _ _ _) (checkTranscripts _ _ _));
      [apply checks_checkSourceSelections | apply checks_checkTranscripts]. }
Qed.

Lemma checks_checkProjectGUIDs (project : Project) :
  checks (checkProjectGUIDs project) (checkedGuids project).
Proof.
  unfold checkProjectGUIDs, checkedGuids. cbv zeta.
  apply (checks_compose (whenSome (Proj.Users project) (forEach _))
           (fun st =>
              whenSome (Proj.Links project) (forEach _)
                (whenSome (Proj.Graphs project) (forEach _)
                   (whenSome (Proj.Sets project) (forEach _)
                      (whenSome (Proj.Sources project) checkSourcesGUIDs
                         (whenSome (Proj.Cases project) (forEach _)
                            (whenSome (Proj.Variables project) (forEach _)
                               (whenSome (Proj.CodeBook project) _ st)))))))).
  { apply checks_forEach. intros x i. apply checks_checkGuid. }
  apply (checks_compose (whenSome (Proj.CodeBook project) _)
           (fun st =>
              whenSome (Proj.Links project) (forEach _)
                (whenSome (Proj.Graphs project) (forEach _)
                   (whenSome (Proj.Sets project) (forEach _)
                      (whenSome (Proj.Sources project) checkSourcesGUIDs
                         (whenSome (Proj.Cases project) (forEach _)
                            (whenSome (Proj.Variables project) (forEach _) st))))))).
  { unfold checkCodes. apply checks_forEach. intros x i. apply checks_checkCode. }
  apply (checks_compose (whenSome (Proj.Variables project) (forEach _))
           (fun st =>
              whenSome (Proj.Links project) (forEach _)
                (whenSome (Proj.Graphs project) (forEach _)
                   (whenSome (Proj.Sets project) (forEach _)
                      (whenSome (Proj.Sources project) checkSourcesGUIDs
                         (whenSome (Proj.Cases project) (forEach _) st)))))).
  { apply checks_forEach. intros x i. apply checks_checkGuid. }
  apply (checks_compose (whenSome (Proj.Cases project) (forEach _))
           (fun st =>
              whenSome (Proj.Links project) (forEach _)
                (whenSome (Proj.Graphs project) (forEach _)
                   (whenSome (Proj.Sets project) (forEach _)
                      (whenSome (Proj.Sources project) checkSourcesGUIDs st))))).
  { apply checks_forEach. intros x i. apply checks_checkGuid. }
  apply (checks_compose (whenSome (Proj.Sources project) checkSourcesGUIDs)
           (fun st =>
              whenSome (Proj.Links project) (forEach _)
                (whenSome (Proj.Graphs project) (forEach _)
                   (whenSome (Proj.Sets project) (forEach _) st)))).
  { destruct (Proj.Sources project) as [sources|]; cbn [whenSome];
      [apply checks_checkSourcesGUIDs | apply checks_id]. }
  apply (checks_compose (whenSome (Proj.Sets project) (forEach _))
           (fun st =>
              whenSome (Proj.Links project) (forEach _)
                (whenSome (Proj.Graphs project) (forEach _) st))).
  { apply checks_forEach. intros x i. apply checks_checkGuid. }
  apply (checks_compose (whenSome (Proj.Graphs project) (forEach _))
           (whenSome (Proj.Links project) (forEach _))).
  { apply checks_forEach. intros graph i.
    apply (checks_compose (checkGuid _ _)
             (fun st => whenSome (Graph.Edge graph) (forEach _)
                          (whenSome (Graph.Vertex graph) (forEach _) st)) [_]);
      [apply checks_checkGuid|].
    apply (checks_compose (whenSome (Graph.Vertex graph) (forEach _))
             (whenSome (Graph.Edge graph) (forEach _)));
      apply checks_forEach; intros x j; apply checks_checkGuid. }
  apply checks_forEach. intros x i. apply checks_checkGuid.
Qed.

(** *** What a run of [checkGuid] reports *)

Lemma checkGuid_errors (guid : option GUIDType) (context : string) (st : GuidState) :
  (length (errors st) <= length (errors (checkGuid guid context st)))%nat.
Proof.
  unfold checkGuid. repeat case_match; cbn [errors]; rewrite ?length_app; cbn; lia.
Qed.

Lemma checkAll_errors (entries : list (option GUIDType * string)) (st : GuidState) :
  (length (errors st) <= length (errors (checkAll entries st)))%nat.
Proof.
  revert st. induction entries as [|e entries IH]; intros st; [reflexivity|].
  cbn. etransitivity; [apply checkGuid_errors | apply IH].
Qed.

(** The one step that reports nothing: a well-formed identifier that has
    not been seen is entered into the map. *)
Lemma checkGuid_silent (guid : option GUIDType) (context : string) (st : GuidState) :
  length (errors (checkGuid guid context st)) = length (errors st)
  <-> exists g, guid = Some g /\ guidPattern_test g = true /\ guidMap st !! g = None.
Proof.
  destruct guid as [[|a r]|].
  - cbn. rewrite length_app. cbn. split; [lia|].
    intros (g & [= <-] & Hp & _). discriminate.
  - cbn [checkGuid]. unfold GUIDType in *. destruct (guidPattern_test (String a r)) eqn:Hp; cbn [negb].
    + destruct (guidMap st !! String a r) eqn:Hm; cbn [errors].
      * rewrite length_app. cbn. split; [lia|]. intros (g & [= <-] & _ & H). congruence.
      * split; [|reflexivity]. intros _. exists (String a r). auto.
    + cbn [errors]. rewrite length_app. cbn. split; [lia|].
      intros (g & [= <-] & H & _). congruence.
  - cbn. rewrite length_app. cbn. split; [lia|].
    intros (g & [=] & _).
Qed.

Lemma checkGuid_silent_state (g : GUIDType) (context : string) (st : GuidState) :
  guidPattern_test g = true -> guidMap st !! g = None ->
  checkGuid (Some g) context st = mkGuidState (errors st) (<[g := context]> (guidMap st)).
Proof.
  intros Hp Hm. unfold checkGuid. destruct g as [|a r]; [discriminate|].
  unfold GUIDType in *. rewrite Hp, Hm. reflexivity.
Qed.

(** A run adds no error exactly when every identifier is well-formed, none
    occurs twice, and none was in the map before; the map then holds, beside
    what it held, each identifier with its context. *)
Lemma checkAll_silent (entries : list (option GUIDType * string)) (st : GuidState) :
  length (errors (checkAll entries st)) = length (errors st)
  <-> Forall wellFormedGuid (map fst entries)
      /\ NoDup (map fst entries)
      /\ forall g, Some g ∈ map fst entries -> guidMap st !! g = None.
Proof.
  revert st. induction entries as [|[guid context] entries IH]; intros st.
  - cbn. split; [|reflexivity]. intros _. split; [constructor|]. split; [constructor|].
    intros g H. apply elem_of_nil in H. contradiction.
  - cbn [checkAll fold_left map fst snd].
    change (fold_left _ entries ?s) with (checkAll entries s).
    pose proof (checkGuid_errors guid context st) as Hstep.
    pose proof (checkAll_errors entries (checkGuid guid context st)) as Hrest.
    split.
    + intros Hlen.
      assert (H1 : length (errors (checkGuid guid context st)) = length (errors st)) by lia.
      assert (H2 : length (errors (checkAll entries (checkGuid guid context st)))
                   = length (errors (checkGuid guid context st))) by lia.
      apply checkGuid_silent in H1 as (g & -> & Hp & Hm).
      apply IH in H2 as (Hwf & Hnd & Hfresh).
      rewrite (checkGuid_silent_state g context st Hp Hm) in Hfresh. cbn [guidMap] in Hfresh.
      split; [constructor; [exists g; auto | exact Hwf]|].
      split.
      * constructor; [|exact Hnd]. intros Hin. specialize (Hfresh g Hin).
        rewrite lookup_insert_eq in Hfresh. discriminate.
      * intros g' Hin. apply elem_of_cons in Hin as [[= ->]|Hin]; [exact Hm|].
        specialize (Hfresh g' Hin).
        destruct (decide (g' = g)) as [->|Hne];
          [rewrite lookup_insert_eq in Hfresh; discriminate|].
        rewrite lookup_insert_ne in Hfresh by congruence. exact Hfresh.
    + intros (Hwf & Hnd & Hfresh).
      inversion Hwf as [|? ? (g & -> & Hp) Hwf']; subst.
      inversion Hnd as [|? ? Hnotin Hnd']; subst.
      assert (Hm : guidMap st !! g = None) by (apply Hfresh; left).
      rewrite (checkGuid_silent_state g context st Hp Hm).
      transitivity (length (errors (mkGuidState (errors st) (<[g:=context]> (guidMap st)))));
        [|reflexivity].
      apply IH. split; [exact Hwf'|]. split; [exact Hnd'|].
      intros g' Hin. cbn [guidMap].
      destruct (decide (g' = g)) as [->|Hne]; [contradiction|].
      rewrite lookup_insert_ne by congruence. apply Hfresh. right. exact Hin.
Qed.

Lemma validateProjectGUIDs_checkAll (project : Project) :
  exists contexts,
    length contexts = length (checkedGuids project)
    /\ validateProjectGUIDs project
       = errors (checkAll (zip (checkedGuids project) contexts) (mkGuidState [] ∅)).
Proof.
  destruct (checks_checkProjectGUIDs project) as (contexts & Hlen & Hrun).
  exists contexts. split; [exact Hlen|]. unfold validateProjectGUIDs. rewrite Hrun.
  reflexivity.
Qed.

Lemma validateProjectGUIDs_spec (project : Project) :
  validateProjectGUIDs project = []
  <-> Forall wellFormedGuid (checkedGuids project) /\ NoDup (checkedGuids project).
Proof.
  destruct (validateProjectGUIDs_checkAll project) as (contexts & Hlen & Heq).
  rewrite Heq.
  pose proof (checkAll_silent (zip (checkedGuids project) contexts) (mkGuidState [] ∅)) as H.
  rewrite fst_zip in H by lia. cbn [errors guidMap length] in H.
  split.
  - intros Hnil. rewrite Hnil in H. destruct (proj1 H eq_refl) as (Hwf & Hnd & _).
    split; assumption.
  - intros [Hwf Hnd]. apply length_zero_iff_nil. apply H.
    split; [exact Hwf|]. split; [exact Hnd|]. intros g _. apply lookup_empty.
Qed.

(** [validateProjectGUIDs] returns no error exactly when every identifier
    it visits is present and well-formed and no two of them are equal. *)
Theorem validateProjectGUIDs_accepts_exactly (project : Project) :
  validateProjectGUIDs project = []
  <-> Forall wellFormedGuid (checkedGuids project) /\ NoDup (checkedGuids project).
Proof. apply validateProjectGUIDs_spec. Qed.

(** The state after a run that reports nothing. *)
Lemma checkAll_silent_run (entries : list (option GUIDType * string)) (st : GuidState) :
  Forall wellFormedGuid (map fst entries) ->
  NoDup (map fst entries) ->
  (forall g, Some g ∈ map fst entries -> guidMap st !! g = None) ->
  exists m,
    checkAll entries st = mkGuidState (errors st) m
    /\ (forall g, Some g ∉ map fst entries -> m !! g = guidMap st !! g)
    /\ (forall g, Some g ∈ map fst entries -> m !! g <> None).
Proof.
  revert st. induction entries as [|[guid context] entries IH]; intros st Hwf Hnd Hfresh.
  - exists (guidMap st). split; [destruct st; reflexivity|]. split; [reflexivity|].
    intros g H. apply elem_of_nil in H. contradiction.
  - cbn [map fst] in *.
    inversion Hwf as [|? ? (g & -> & Hp) Hwf']; subst.
    inversion Hnd as [|? ? Hnotin Hnd']; subst.
    assert (Hm : guidMap st !! g = None) by (apply Hfresh; left).
    cbn [checkAll fold_left fst snd].
    rewrite (checkGuid_silent_state g context st Hp Hm).
    destruct (IH (mkGuidState (errors st) (<[g:=context]> (guidMap st))) Hwf' Hnd')
      as (m & Hrun & Hold & Hnew).
    { intros g' Hin. cbn [guidMap].
      destruct (decide (g' = g)) as [->|Hne]; [contradiction|].
      rewrite lookup_insert_ne by congruence. apply Hfresh. right. exact Hin. }
    exists m. split; [exact Hrun|]. cbn [errors guidMap] in *. split.
    + intros g' Hnot. rewrite Hold.
      * apply lookup_insert_ne. intros ->. apply Hnot. left.
      * intros Hin. apply Hnot. right. exact Hin.
    + intros g' Hin. apply elem_of_cons in Hin as [[= ->]|Hin]; [|apply Hnew; exact Hin].
      rewrite Hold by exact Hnotin. rewrite lookup_insert_eq. discriminate.
Qed.

Lemma checkAll_app (a b : list (option GUIDType * string)) (st : GuidState) :
  checkAll (a ++ b) st = checkAll b (checkAll a st).
Proof. apply fold_left_app. Qed.

Lemma checkAll_one_duplicate (e1 e2 e3 : list (option GUIDType * string))
    (g : GUIDType) (c1 c2 : string) :
  guidPattern_test g = true ->
  Forall wellFormedGuid (map fst e1 ++ map fst e2 ++ map fst e3) ->
  NoDup (map fst e1 ++ Some g :: map fst e2 ++ map fst e3) ->
  errors (checkAll (e1 ++ (Some g, c1) :: e2 ++ (Some g, c2) :: e3) (mkGuidState [] ∅))
  = ["Duplicate GUID " +:+ g +:+ " in " +:+ c2 +:+ " and " +:+ c1].
Proof.
  intros Hp Hwf Hnd.
  apply Forall_app in Hwf as [Hwf1 Hwf]. apply Forall_app in Hwf as [Hwf2 Hwf3].
  apply NoDup_app in Hnd as (Hnd1 & Hdisj1 & Hnd).
  apply NoDup_cons in Hnd as (Hg & Hnd).
  apply NoDup_app in Hnd as (Hnd2 & Hdisj2 & Hnd3).
  rewrite not_elem_of_app in Hg. destruct Hg as [Hg2 Hg3].
  rewrite checkAll_app.
  destruct (checkAll_silent_run e1 (mkGuidState [] ∅) Hwf1 Hnd1) as (m1 & -> & Hold1 & Hnew1).
  { intros g' _. apply lookup_empty. }
  cbn [errors guidMap] in *.
  assert (Hg1 : Some g ∉ map fst e1).
  { intros Hin. apply (Hdisj1 _ Hin). left. }
  change (checkAll ((Some g, c1) :: ?l) ?s) with (checkAll l (checkGuid (Some g) c1 s)).
  rewrite checkGuid_silent_state;
    [|exact Hp | cbn [guidMap]; rewrite (Hold1 g Hg1); apply lookup_empty].
  cbn [errors guidMap]. rewrite checkAll_app.
  destruct (checkAll_silent_run e2 (mkGuidState [] (<[g:=c1]> m1)) Hwf2 Hnd2)
    as (m2 & -> & Hold2 & Hnew2).
  { intros g' Hin. cbn [guidMap].
    assert (g' <> g) by (intros ->; contradiction).
    rewrite lookup_insert_ne by congruence.
    rewrite Hold1; [apply lookup_empty|].
    intros Hin1. apply (Hdisj1 _ Hin1). right. apply elem_of_app. left. exact Hin. }
  cbn [errors guidMap] in *.
  change (checkAll ((Some g, c2) :: ?l) ?s) with (checkAll l (checkGuid (Some g) c2 s)).
  assert (Hdup : checkGuid (Some g) c2 (mkGuidState [] m2)
                 = mkGuidState ["Duplicate GUID " +:+ g +:+ " in " +:+ c2 +:+ " and " +:+ c1] m2).
  { unfold checkGuid. destruct g as [|a r]; [discriminate|]. unfold GUIDType in *.
    rewrite Hp. cbn [negb guidMap errors].
    rewrite (Hold2 _ Hg2), lookup_insert_eq. reflexivity. }
  rewrite Hdup.
  destruct (checkAll_silent_run e3
              (mkGuidState ["Duplicate GUID " +:+ g +:+ " in " +:+ c2 +:+ " and " +:+ c1] m2)
              Hwf3 Hnd3) as (m3 & -> & _ & _); [|reflexivity].
  intros g' Hin. cbn [guidMap].
  assert (g' <> g) by (intros ->; contradiction).
  rewrite Hold2 by (intros Hin2; apply (Hdisj2 _ Hin2); exact Hin).
  rewrite lookup_insert_ne by congruence.
  rewrite Hold1; [apply lookup_empty|].
  intros Hin1. apply (Hdisj1 _ Hin1). right. apply elem_of_app. right. exact Hin.
Qed.

(** When exactly two of the identifiers that [validateProjectGUIDs] visits
    are equal, and all are well-formed, it returns exactly one error: the
    duplicate, named with the context of the second occurrence and then the
    context of the first. *)
Theorem validateProjectGUIDs_reports_one_duplicate (project : Project) (g : GUIDType)
    (before between after : list (option GUIDType)) :
  checkedGuids project = before ++ Some g :: between ++ Some g :: after ->
  Forall wellFormedGuid (checkedGuids project) ->
  NoDup (before ++ Some g :: between ++ after) ->
  exists first second,
    validateProjectGUIDs project
    = ["Duplicate GUID " +:+ g +:+ " in " +:+ second +:+ " and " +:+ first].
Proof.
  intros Hsplit Hwf Hnd.
  destruct (validateProjectGUIDs_checkAll project) as (contexts & Hlen & ->).
  assert (Hfst : map fst (zip (checkedGuids project) contexts)
                 = before ++ Some g :: between ++ Some g :: after).
  { rewrite <- Hsplit. apply fst_zip. lia. }
  rewrite Hsplit in Hwf. clear Hsplit Hlen.
  set (entries := zip (checkedGuids project) contexts) in *. clearbody entries.
  apply map_eq_app in Hfst as (e1 & rest & -> & <- & Hrest).
  apply map_eq_cons in Hrest as ([g1 c1] & rest' & -> & Hg1 & Hrest). cbn in Hg1. subst g1.
  apply map_eq_app in Hrest as (e2 & rest & -> & <- & Hrest).
  apply map_eq_cons in Hrest as ([g2 c2] & e3 & -> & Hg2 & <-). cbn in Hg2. subst g2.
  exists c1, c2. apply checkAll_one_duplicate.
  - apply Forall_app in Hwf as [_ Hwf]. apply Forall_cons in Hwf as [(g' & Heq & Hp) _].
    injection Heq as Heq. subst g'. exact Hp.
  - apply Forall_app in Hwf as [H1 Hwf]. inversion Hwf as [|? ? _ Hwf']; subst.
    apply Forall_app in Hwf' as [H2 Hwf']. inversion Hwf' as [|? ? _ H3]; subst.
    repeat (apply Forall_app; split); assumption.
  - exact Hnd.
Qed.

Lemma validateProjectGUIDs_reports_one_duplicate_witness :
  exists first second,
    validateProjectGUIDs Examples.duplicateSourcesProject
    = ["Duplicate GUID " +:+ Examples.guidA +:+ " in " +:+ second +:+ " and " +:+ first].
Proof.
  apply (validateProjectGUIDs_reports_one_duplicate Examples.duplicateSourcesProject
           Examples.guidA [] [] []).
  - reflexivity.
  - repeat constructor; exists Examples.guidA; split; reflexivity.
  - apply NoDup_singleton.
Defined.

(** ** Validation of references *)

Section Reports.

Variable guids : gset string.

Lemma reports_id : reports guids (fun errs => errs) [].
Proof. intros errs. exists []. rewrite app_nil_r. split; reflexivity. Qed.

Lemma reports_compose (f g : list string -> list string) (a b : list (option GUIDType)) :
  reports guids f a -> reports guids g b -> reports guids (fun errs => g (f errs)) (a ++ b).
Proof.
  intros Hf Hg errs. destruct (Hf errs) as (m1 & E1 & L1).
  destruct (Hg (f errs)) as (m2 & E2 & L2).
  exists (m1 ++ m2). rewrite E2, E1, app_assoc. split; [reflexivity|].
  rewrite List.filter_app, !length_app. congruence.
Qed.

Lemma reports_forEach_from {A : Type} (f : A -> nat -> list string -> list string)
    (targetsOf : A -> list (option GUIDType)) (l : list A) (index : nat) :
  (forall x i, reports guids (f x i) (targetsOf x)) ->
  reports guids (forEach_from f l index) (flat_map targetsOf l).
Proof.
  intros Hf. revert index. induction l as [|x l IH]; intros index.
  - apply reports_id.
  - cbn [forEach_from flat_map].
    apply (reports_compose (f x index) (forEach_from f l (S index))); [apply Hf | apply IH].
Qed.

Lemma reports_forEach {A : Type} (f : A -> nat -> list string -> list string)
    (targetsOf : A -> list (option GUIDType)) (l : option (list A)) :
  (forall x i, reports guids (f x i) (targetsOf x)) ->
  reports guids (whenSome l (forEach f)) (concatMap targetsOf l).
Proof.
  intros Hf. destruct l as [l|]; cbn [whenSome concatMap].
  - apply reports_forEach_from. exact Hf.
  - apply reports_id.
Qed.

Lemma reports_checkReference (target : option GUIDType) (context : string) :
  reports guids (checkReference guids target context) [target].
Proof.
  intros errs. unfold checkReference, offending, push. unfold GUIDType in *.
  destruct target as [[|a r]|]; cbn [List.filter].
  - eexists. split; reflexivity.
  - destruct (bool_decide (String a r ∈ guids)); cbn [negb].
    + exists []. rewrite app_nil_r. split; reflexivity.
    + eexists. split; reflexivity.
  - eexists. split; reflexivity.
Qed.

Lemma reports_checkIfPresent (target : option GUIDType) (context : string) :
  reports guids (checkIfPresent guids target context) (present target).
Proof.
  unfold checkIfPresent, present. destruct (JS.truthy target).
  - apply reports_checkReference.
  - apply reports_id.
Qed.

Lemma reports_refs (refs : option (list Ref.t)) (context : string) :
  reports guids (checkNoteRefs guids refs context) (refTargets refs)
  /\ reports guids (checkCodeRefs guids refs context) (refTargets refs)
  /\ reports guids (checkSourceRefs guids refs context) (refTargets refs)
  /\ reports guids (checkSelectionRefs guids refs context) (refTargets refs).
Proof.
  repeat split; apply reports_forEach; intros ref i; apply reports_checkReference.
Qed.

Lemma reports_checkNoteRefs (refs : option (list Ref.t)) (context : string) :
  reports guids (checkNoteRefs guids refs context) (refTargets refs).
Proof. apply reports_refs. Qed.

Lemma reports_checkCodings (codings : option (list CodingType)) (ownerPath : string) :
  reports guids (checkCodings guids codings ownerPath) (checkedReferences_Codings codings).
Proof.
  unfold checkCodings, checkedReferences_Codings. apply reports_forEach.
  intros coding i. cbv zeta.
  apply (reports_compose (checkCodeRefs guids (Some [Coding.CodeRef coding]) _)
           (checkNoteRefs guids (Coding.NoteRef coding) _) [_]).
  - apply (reports_refs (Some [Coding.CodeRef coding])).
  - apply reports_checkNoteRefs.
Qed.

Lemma reports_checkVariableValues (values : option (list VariableValueType))
    (ownerPath : string) :
  reports guids (checkVariableValues guids values ownerPath)
    (checkedReferences_VariableValues values).
Proof.
  unfold checkVariableValues, checkedReferences_VariableValues. apply reports_forEach.
  intros value i. unfold checkVariableRefs. cbn [whenSome]. apply reports_checkReference.
Qed.

Lemma reports_checkSourceReferences (NoteRef : option (list NoteRefType))
    (Coding : option (list CodingType)) (VariableValue : option (list VariableValueType))
    (sourcePath : string) :
  reports guids (checkSourceReferences guids NoteRef Coding VariableValue sourcePath)
    (checkedReferences_source NoteRef Coding VariableValue).
Proof.
  unfold checkSourceReferences, checkedReferences_source. cbv zeta.
  apply (reports_compose (checkNoteRefs guids NoteRef _)
           (fun errs => checkVariableValues guids VariableValue sourcePath
                          (checkCodings guids Coding sourcePath errs)));
    [apply reports_checkNoteRefs|].
  apply (reports_compose (checkCodings guids Coding sourcePath)
           (checkVariableValues guids VariableValue sourcePath));
    [apply reports_checkCodings | apply reports_checkVariableValues].
Qed.

Lemma reports_checkSelectionReferences {Sel : Type}
    (sel_NoteRef : Sel -> option (list NoteRefType))
    (sel_Coding : Sel -> option (list CodingType)) (selections : option (list Sel))
    (sourcePath selectionType : string) :
  reports guids
    (checkSelectionReferences guids sel_NoteRef sel_Coding selections sourcePath
       selectionType)
    (checkedReferences_selections sel_NoteRef sel_Coding selections).
Proof.
  unfold checkSelectionReferences, checkedReferences_selections. apply reports_forEach.
  intros selection i. cbv zeta.
  apply (reports_compose (checkNoteRefs guids _ _) (checkCodings guids _ _));
    [apply reports_checkNoteRefs | apply reports_checkCodings].
Qed.

Lemma reports_checkTranscriptReferences (transcripts : option (list TranscriptType))
    (sourcePath : string) :
  reports guids (checkTranscriptReferences guids transcripts sourcePath)
    (checkedReferences_transcripts transcripts).
Proof.
  unfold checkTranscriptReferences, checkedReferences_transcripts. apply reports_forEach.
  intros transcript i. cbv zeta.
  apply (reports_compose (checkNoteRefs guids _ _) (whenSome _ (forEach _)));
    [apply reports_checkNoteRefs|].
  apply reports_forEach. intros selection j.
  apply (reports_compose (checkIfPresent guids _ _)
           (fun errs => checkCodings guids _ _
                          (checkNoteRefs guids _ _ (checkIfPresent guids _ _ errs))));
    [apply reports_checkIfPresent|].
  apply (reports_compose (checkIfPresent guids _ _)
           (fun errs => checkCodings guids _ _ (checkNoteRefs guids _ _ errs)));
    [apply reports_checkIfPresent|].
  apply (reports_compose (checkNoteRefs guids _ _) (checkCodings guids _ _));
    [apply reports_checkNoteRefs | apply reports_checkCodings].
Qed.

Lemma reports_checkCodeNoteRef : forall (code : CodeType) (path : string) (index : nat),
  reports guids (checkCodeNoteRef guids code path index) (checkedReferences_Code code).
Proof.
  fix IH 1. intros [description noteRef children guid name isCodable color] path index.
  destruct children as [codes|].
  - change (reports guids
              (fun errs =>
                 forEach_from
                   (fun c i => checkCodeNoteRef guids c (at_index path index +:+ ".Code") i)
                   codes 0%nat
                   (checkNoteRefs guids noteRef (at_index path index +:+ ".NoteRef") errs))
              (refTargets noteRef ++ flat_map checkedReferences_Code codes)).
    apply (reports_compose (checkNoteRefs guids noteRef _)
             (forEach_from
                (fun c i => checkCodeNoteRef guids c (at_index path index +:+ ".Code") i)
                codes 0%nat)); [apply reports_checkNoteRefs|].
    generalize 0%nat. induction codes as [|c codes IHcodes]; intros i.
    + apply reports_id.
    + cbn [forEach_from flat_map].
      apply (reports_compose
               (checkCodeNoteRef guids c (at_index path index +:+ ".Code") i)
               (forEach_from
                  (fun c i => checkCodeNoteRef guids c (at_index path index +:+ ".Code") i)
                  codes (S i))); [apply IH | apply IHcodes].
  - change (reports guids (checkNoteRefs guids noteRef (at_index path index +:+ ".NoteRef"))
              (refTargets noteRef ++ [])).
    rewrite app_nil_r. apply reports_checkNoteRefs.
Qed.


Lemma reports_source_and_selections {Sel : Type}
    (NoteRef : option (list NoteRefType)) (Coding : option (list CodingType))
    (VariableValue : option (list VariableValueType))
    (sel_NoteRef : Sel -> option (list NoteRefType))
    (sel_Coding : Sel -> option (list CodingType)) (selections : option (list Sel))
    (sourcePath selectionType : string) :
  reports guids
    (fun errs =>
       checkSelectionReferences guids sel_NoteRef sel_Coding selections sourcePath
         selectionType
         (checkSourceReferences guids NoteRef Coding VariableValue sourcePath errs))
    (checkedReferences_source NoteRef Coding VariableValue
     ++ checkedReferences_selections sel_NoteRef sel_Coding selections).
Proof.
  apply (reports_compose (checkSourceReferences guids _ _ _ _)
           (checkSelectionReferences guids _ _ _ _ _));
    [apply reports_checkSourceReferences | apply reports_checkSelectionReferences].
Qed.

Lemma reports_source_selections_transcripts {Sel : Type}
    (NoteRef : option (list NoteRefType)) (Coding : option (list CodingType))
    (VariableValue : option (list VariableValueType))
    (sel_NoteRef : Sel -> option (list NoteRefType))
    (sel_Coding : Sel -> option (list CodingType)) (selections : option (list Sel))
    (transcripts : option (list TranscriptType)) (sourcePath selectionType : string) :
  reports guids
    (fun errs =>
       checkTranscriptReferences guids transcripts sourcePath
         (checkSelectionReferences guids sel_NoteRef sel_Coding selections sourcePath
            selectionType
            (checkSourceReferences guids NoteRef Coding VariableValue sourcePath errs)))
    (checkedReferences_source NoteRef Coding VariableValue
     ++ checkedReferences_selections sel_NoteRef sel_Coding selections
     ++ checkedReferences_transcripts transcripts).
Proof.
  apply (reports_compose (checkSourceReferences guids _ _ _ _)
           (fun errs => checkTranscriptReferences guids _ _
                          (checkSelectionReferences guids _ _ _ _ _ errs)));
    [apply reports_checkSourceReferences|].
  apply (reports_compose (checkSelectionReferences guids _ _ _ _ _)
           (checkTranscriptReferences guids _ _));
    [apply reports_checkSelectionReferences | apply reports_checkTranscriptReferences].
Qed.

Lemma reports_checkSourcesReferences (sources : SourcesType) :
  reports guids (checkSourcesReferences guids sources) (checkedReferences_Sources sources).
Proof.
  unfold checkSourcesReferences, checkedReferences_Sources. cbv zeta.
  apply (reports_compose (whenSome (Sources.TextSource sources) (forEach _))
           (fun errs => whenSome (Sources.VideoSource sources) (forEach _)
                          (whenSome (Sources.AudioSource sources) (forEach _)
                             (whenSome (Sources.PDFSource sources) (forEach _)
                                (whenSome (Sources.PictureSource sources) (forEach _) errs))))).
  { apply reports_forEach. intros s i. apply reports_source_and_selections. }
  apply (reports_compose (whenSome (Sources.PictureSource sources) (forEach _))
           (fun errs => whenSome (Sources.VideoSource sources) (forEach _)
                          (whenSome (Sources.AudioSource sources) (forEach _)
                             (whenSome (Sources.PDFSource sources) (forEach _) errs)))).
  { apply reports_forEach. intros s i. apply reports_source_and_selections. }
  apply (reports_compose (whenSome (Sources.PDFSource sources) (forEach _))
           (fun errs => whenSome (Sources.VideoSource sources) (forEach _)
                          (whenSome (Sources.AudioSource sources) (forEach _) errs))).
  { apply reports_forEach. intros s i. apply reports_source_and_selections. }
  apply (reports_compose (whenSome (Sources.AudioSource sources) (forEach _))
           (whenSome (Sources.VideoSource sources) (forEach _))).
  { apply reports_forEach. intros s i. apply reports_source_selections_transcripts. }
  { apply reports_forEach. intros s i. apply reports_source_selections_transcripts. }
Qed.

Lemma reports_checkProjectReferences (project : Project) :
  reports guids (checkProjectReferences guids project) (checkedReferences project).
Proof.
  unfold checkProjectReferences, checkedReferences. cbv zeta.
  apply (reports_compose (checkNoteRefs guids (Proj.NoteRef project) _)
           (fun errs =>
              whenSome (Proj.Graphs project) (forEach _)
                (whenSome (Proj.Links project) (forEach _)
                   (whenSome (Proj.Sets project) (forEach _)
                      (whenSome (Proj.Sources project) (checkSourcesReferences guids)
                         (whenSome (Proj.Cases project) (forEach _)
                            (checkCodeNoteRefs guids (Proj.CodeBook project) _ errs)))))));
    [apply reports_checkNoteRefs|].
  apply (reports_compose (checkCodeNoteRefs guids (Proj.CodeBook project) _)
           (fun errs =>
              whenSome (Proj.Graphs project) (forEach _)
                (whenSome (Proj.Links project) (forEach _)
                   (whenSome (Proj.Sets project) (forEach _)
                      (whenSome (Proj.Sources project) (checkSourcesReferences guids)
                         (whenSome (Proj.Cases project) (forEach _) errs)))))).
  { unfold checkCodeNoteRefs. apply reports_forEach. intros c i.
    apply reports_checkCodeNoteRef. }
  apply (reports_compose (whenSome (Proj.Cases project) (forEach _))
           (fun errs =>
              whenSome (Proj.Graphs project) (forEach _)
                (whenSome (Proj.Links project) (forEach _)
                   (whenSome (Proj.Sets project) (forEach _)
                      (whenSome (Proj.Sources project) (checkSourcesReferences guids)
                         errs))))).
  { apply reports_forEach. intros c i.
    apply (reports_compose (checkCodeRefs guids _ _)
             (fun errs => checkSelectionRefs guids _ _
                            (checkSourceRefs guids _ _
                               (checkVariableValues guids _ _ errs))));
      [apply reports_refs|].
    apply (reports_compose (checkVariableValues guids _ _)
             (fun errs => checkSelectionRefs guids _ _ (checkSourceRefs guids _ _ errs)));
      [apply reports_checkVariableValues|].
    apply (reports_compose (checkSourceRefs guids _ _) (checkSelectionRefs guids _ _));
      apply reports_refs. }
  apply (reports_compose (whenSome (Proj.Sources project) (checkSourcesReferences guids))
           (fun errs =>
              whenSome (Proj.Graphs project) (forEach _)
                (whenSome (Proj.Links project) (forEach _)
                   (whenSome (Proj.Sets project) (forEach _) errs)))).
  { destruct (Proj.Sources project) as [sources|]; cbn [whenSome];
      [apply reports_checkSourcesReferences | apply reports_id]. }
  apply (reports_compose (whenSome (Proj.Sets project) (forEach _))
           (fun errs =>
              whenSome (Proj.Graphs project) (forEach _)
                (whenSome (Proj.Links project) (forEach _) errs))).
  { apply reports_forEach. intros set i.
    apply (reports_compose (checkCodeRefs guids _ _)
             (fun errs => checkNoteRefs guids _ _ (checkSourceRefs guids _ _ errs)));
      [apply reports_refs|].
    apply (reports_compose (checkSourceRefs guids _ _) (checkNoteRefs guids _ _));
      apply reports_refs. }
  apply (reports_compose (whenSome (Proj.Links project) (forEach _))
           (whenSome (Proj.Graphs project) (forEach _))).
  { apply reports_forEach. intros link i.
    apply (reports_compose (checkIfPresent guids _ _)
             (fun errs => checkNoteRefs guids _ _ (checkIfPresent guids _ _ errs)));
      [apply reports_checkIfPresent|].
    apply (reports_compose (checkIfPresent guids _ _) (checkNoteRefs guids _ _));
      [apply reports_checkIfPresent | apply reports_checkNoteRefs]. }
  apply reports_forEach. intros graph i.
  apply (reports_compose (whenSome (Graph.Vertex graph) (forEach _))
           (whenSome (Graph.Edge graph) (forEach _))).
  - apply reports_forEach. intros vertex j. apply reports_checkIfPresent.
  - apply reports_forEach. intros edge j.
    apply (reports_compose (checkIfPresent guids _ _)
             (fun errs => checkIfPresent guids _ _ (checkIfPresent guids _ _ errs)));
      [apply reports_checkIfPresent|].
    apply (reports_compose (checkIfPresent guids _ _) (checkIfPresent guids _ _));
      apply reports_checkIfPresent.
Qed.

End Reports.

(** The set that [addGuids] builds holds exactly the non-empty [guid]s of
    the objects of the project. *)
Lemma addAll_spec (gs : list (option GUIDType)) (guids : gset string) (g : string) :
  g ∈ addAll gs guids <-> g ∈ guids \/ (g <> "" /\ Some g ∈ gs).
Proof.
  revert guids. induction gs as [|[[|a r]|] gs IH]; intros guids; cbn [addAll].
  - split; [tauto|]. intros [H|[_ H]]; [exact H|]. apply elem_of_nil in H. contradiction.
  - rewrite IH. rewrite elem_of_cons. split; [tauto|].
    intros [H|[Hne [[= ->]|H]]]; [tauto | congruence | tauto].
  - rewrite IH. rewrite elem_of_union, elem_of_singleton, elem_of_cons. split.
    + intros [[->|H]|H]; [right; split; [discriminate | left; reflexivity] | tauto | tauto].
    + intros [H|[Hne [[= ->]|H]]]; tauto.
  - rewrite IH. rewrite elem_of_cons. split; [tauto|].
    intros [H|[Hne [[=]|H]]]; tauto.
Qed.

Lemma offending_false (project : Project) (target : option GUIDType) :
  offending (addGuids project) target = false
  <-> exists g, target = Some g /\ g <> "" /\ Some g ∈ guidsOf_Project project.
Proof.
  unfold offending, addGuids. destruct target as [[|a r]|].
  - split; [discriminate|]. intros (g & [= <-] & H & _). congruence.
  - rewrite negb_false_iff, bool_decide_eq_true, addAll_spec. split.
    + intros [H|[Hne H]]; [apply elem_of_empty in H; contradiction|].
      exists (String a r). auto.
    + intros (g & [= <-] & Hne & H). right. auto.
  - split; [discriminate|]. intros (g & [=] & _).
Qed.

Lemma validateProjectReferences_spec (project : Project) :
  length (validateProjectReferences project)
  = length (List.filter (offending (addGuids project)) (checkedReferences project))
  /\ (validateProjectReferences project = []
      <-> Forall (fun target =>
                    exists g, target = Some g /\ g <> ""
                              /\ Some g ∈ guidsOf_Project project)
            (checkedReferences project)).
Proof.
  destruct (reports_checkProjectReferences (addGuids project) project [])
    as (msgs & Hrun & Hlen).
  unfold validateProjectReferences. rewrite Hrun, app_nil_l.
  split; [exact Hlen|].
  rewrite <- length_zero_iff_nil, Hlen, length_zero_iff_nil.
  rewrite Forall_forall. split.
  - intros Hnil target Hin. apply offending_false.
    destruct (offending (addGuids project) target) eqn:E; [|reflexivity].
    assert (Hf : In target (List.filter (offending (addGuids project))
                              (checkedReferences project))).
    { apply filter_In. split; [apply list_elem_of_In; exact Hin | exact E]. }
    rewrite Hnil in Hf. contradiction.
  - intros Hall.
    destruct (List.filter _ _) as [|target rest] eqn:E; [reflexivity|].
    assert (Hf : In target (List.filter (offending (addGuids project))
                              (checkedReferences project))) by (rewrite E; left; reflexivity).
    apply filter_In in Hf as [Hin Hoff]. apply list_elem_of_In in Hin.
    apply Hall, offending_false in Hin. congruence.
Qed.

(** [validateProjectReferences] returns one error for each reference it
    visits whose target is missing, empty, or not the [guid] of an object of
    the project, and no other error; so it returns none exactly when every
    reference it visits names the [guid] of some object of the project. *)
Theorem validateProjectReferences_reports_each_once (project : Project) :
  length (validateProjectReferences project)
  = length (List.filter (offending (addGuids project)) (checkedReferences project))
  /\ (validateProjectReferences project = []
      <-> Forall (fun target =>
                    exists g, target = Some g /\ g <> ""
                              /\ Some g ∈ guidsOf_Project project)
            (checkedReferences project)).
Proof. apply validateProjectReferences_spec. Qed.

(** ** Validation before export *)

(** What [validateProjectForExport] accepts is sound: when it returns no
    error, the project has a non-empty name, the identifiers visited by the
    GUID check are well-formed and pairwise distinct, the sources pass the
    source check, and every reference visited by the reference check names
    the [guid] of an object of the project.  A missing name is the first
    error of the list.  And it returns no error for a project that has all
    of this, whose text sources and transcripts hold exactly one of
    [PlainTextContent] and [plainTextPath] non-empty, and whose document
    holds no text that XML cannot carry. *)
Theorem validateProjectForExport_accepts_only (project : Project) :
  (validateProjectForExport project = []
   -> JS.truthy (Proj.name project) = true
      /\ Forall wellFormedGuid (checkedGuids project)
      /\ NoDup (checkedGuids project)
      /\ sourcesAreValid project
      /\ Forall (fun target =>
                   exists g, target = Some g /\ g <> ""
                             /\ Some g ∈ guidsOf_Project project)
           (checkedReferences project))
  /\ (JS.truthy (Proj.name project) = false ->
      head (validateProjectForExport project) = Some "Project name is required")
  /\ (xmlSafe (buildQDEFile project) = true ->
      JS.truthy (Proj.name project) = true ->
      Forall wellFormedGuid (checkedGuids project) ->
      NoDup (checkedGuids project) ->
      sourcesHaveOnePayload project ->
      Forall (fun target =>
                exists g, target = Some g /\ g <> ""
                          /\ Some g ∈ guidsOf_Project project)
        (checkedReferences project) ->
      validateProjectForExport project = []).
Proof.
  unfold validateProjectForExport. cbv zeta.
  pose proof (validateProjectGUIDs_spec project) as HG.
  pose proof (validateProjectSources_spec project) as HS.
  pose proof (proj2 (validateProjectReferences_spec project)) as HR.
  split.
  - destruct (JS.truthy (Proj.name project)); cbn [negb pushIf push app].
    + intros H. apply app_eq_nil in H as [H Hr]. apply app_eq_nil in H as [Hg Hs].
      tauto.
    + discriminate.
  - split; [intros ->; reflexivity|].
    intros _ -> Hwf Hnd Hsources Hrefs. cbn [negb pushIf push app].
    rewrite (proj2 HG (conj Hwf Hnd)).
    rewrite (proj2 HS (sourcesHaveOnePayload_sourcesAreValid _ Hsources)).
    rewrite (proj2 HR Hrefs). reflexivity.
Qed.
